(* ===== verification/_CoqProject ===== *)
-Q . S2P
Prelude.v
Prog.v
GoMonad.v
GoStr.v
Split.v
Types.v
K8sLib.v
Utils.v
Pb.v
ClusterTypes.v
Kube.v
Samples.v
ClusterSamples.v
DataSelect.v
DataSelectFacts.v
Cleanup.v
CleanupFacts.v
Status.v
StatusFacts.v
Reconcile.v
ReconcileFacts.v
DCluster.v
DClusterFacts.v
ClusterCtl.v
ClusterCtlFacts.v
PbStruct.v
PbStructFacts.v
Nbi.v
Templates.v
TemplatesFacts.v
Targets.v
TargetsFacts.v
NbEff.v
Env.v
Dependency.v
DependencyFacts.v
Catalog.v
Secrets.v
InitDeployment.v
Queries.v
Handlers.v
Service.v
NbSamples.v
SecretsFacts.v
InitFacts.v
QueriesFacts.v
HandlersFacts.v
CreateFacts.v
IsolationFacts.v
ServiceFacts.v
ConfinedFacts.v
ConfinedService.v
Termination.v
Webhook.v
Tenant.v
Migration.v
ArmEff.v
ArmKube.v
ArmValidate.v
ArmVirt.v
ArmFacts.v
ArmReplies.v
WsProxy.v
Vnc.v
VncFacts.v
ConsoleFacts.v
AddressFacts.v
AspServer.v
AspFacts.v
Regex.v
GoUrl.v
AspTransport.v
AspTransportFacts.v
Fleet.v
GitClient.v
Gateway.v
ArmRest.v
AdmRest.v
CertWatch.v
Startup.v
