(* ===== verification/Prelude.v ===== *)
(** * App Orchestration Deployment: a verification library

    The program is the deployment side of an edge orchestrator, in Go.  Its
    main service, the app deployment manager (src/app-deployment-manager),
    takes a request to deploy a package, stores it as a Deployment resource in
    Kubernetes, and reconciles that resource: it renders a Git repository for
    Fleet, keeps one GitRepo object per application, follows the
    BundleDeployments that Fleet creates on the target clusters through
    DeploymentCluster resources, and publishes states and metrics.  Two smaller
    services act on what was deployed: the resource manager
    (src/app-resource-manager) lists and controls the workloads of an
    application and relays the consoles of its virtual machines; the service
    proxy (src/app-service-proxy) forwards a browser to a service of it.

    ** Parts and files

    - [Prelude], [Prog], [GoStr], [Split]: shared notions.  Go errors, panics, slices,
      nil maps, map iteration ([MapRange]); programs with effects; strings.
    - [Types], [ClusterTypes], [Pb], [Nbi]: the data.  The custom resources of
      api/v1beta1, the Fleet and core objects in use, the protobuf messages,
      and the northbound service's own [Deployment].
    - [K8sLib], [Kube]: what is outside.  [K8sLib] states the documented laws
      of the Kubernetes helper libraries; [Kube.eff] (and [ceff] in
      [ClusterTypes]) has one constructor per call that leaves the repository.
    - [Utils]: pkg/utils, pkg/logchecker.
    - [DataSelect]: pkg/utils/dataselector, pkg/utils/parser and
      internal/northbound/dataselection.go (filter, sort, page).
    - [Cleanup], [Status], [Reconcile]: controllers/deployment and
      internal/patch (metadata cache, metrics and clean-up; status; the
      reconcile loop with its phases and finalizers).
    - [DCluster], [ClusterCtl]: controllers/deploymentcluster,
      controllers/cluster and controllers/capi.
    - [PbStruct], [Templates], [Targets]: internal/northbound/utils.go (override
      values and their secrets; targets and the Deployment resource).
    - [NbEff]: what the northbound service asks of the outside, and the checks
      of authorization.go.
    - [Env]: pkg/utils/env_vars.go.  [Catalog]: internal/catalogclient.
      [Secrets]: namespaces, role bindings and secrets.  [Dependency] and
      [InitDeployment]: internal/northbound/app_dependency.go and
      [initDeployment].  [Queries], [Handlers]: the handlers that read and
      those that write.  [Service]: every gRPC method ([serve]).
    - [GoMonad]: the outcome of a handler, its combinators, and the logic
      ([nwps]) in which the theorems about handlers are proved.
    - [Webhook], [Tenant], [Migration]: webhooks/deployment,
      internal/tenant/nexus-hook.go and internal/manager/migration.go.
    - [ArmEff], [ArmKube], [ArmVirt]: the resource manager's calls, with
      internal/opa and internal/adm; internal/kubernetes; internal/kubevirt,
      internal/southbound and the gRPC services.  [WsProxy] and [Vnc]:
      internal/wsproxy and the handler of a console.
      [ArmValidate]: the generated validation of its requests
      (api/nbi/v2/resource/v2/*.pb.validate.go), which its services rely on, and
      [ArmReplies] the one of the messages of its listings.
    - [AspServer]: the service proxy's internal/rbac, internal/admclient and the
      handler of internal/server/server.go.  [AspTransport]: the rewriting of
      responses in internal/server/transport.go, on [GoUrl] and [Regex], which
      are Go's net/url and regexp as far as the code uses them.
    - [Fleet]: pkg/fleet/configgen.go, the tree of files Fleet deploys from.
      [GitClient]: pkg/gitclient and pkg/vault.
    - [Gateway], [ArmRest], [AdmRest]: the REST proxies of both services
      (internal/restproxy) with their generated gateways, files .pb.gw.go: which
      paths there are, and the message each makes.  [GatewayRuntime] states what
      the grpc-gateway runtime promises.
    - [Startup]: how the programs start.  internal/manager of both services,
      internal/vncproxy/manager.go, internal/server of the service proxy, and
      main.go of the controllers with the [SetupWithManager] of each; the
      channel on which the managers wait for their server.  [CertWatch]:
      [WatchGitCaCertFile] of pkg/utils/utils.go, as a step relation.
    - [Samples], [ClusterSamples], [NbSamples]: concrete objects and
      environments on which the witnesses run the programs.

    Each component [X] has its theorems in [XFacts], or the smaller ones in
    their own file ([Env], [Migration], [Tenant], [ArmReplies], [WsProxy],
    [GoUrl], [GitClient], [ArmRest], [AdmRest], [Webhook], [Fleet],
    [Startup], [CertWatch]).
    [AddressFacts] is about a console from the request for its address to the
    handler behind it.  Theorems about the
    northbound service as a whole are in [ServiceFacts] (with
    [IsolationFacts]) and [ConfinedService] (with [ConfinedFacts]);
    [CreateFacts] and [Termination] are about creation and the recursion of
    [initDeployment].  [InitFacts] states with a class, [InitRequests], what
    building a deployment needs of its environment; each of those theorems
    has an instance of it.

    ** How effects are modelled

    A Go function with effects is a [prog]: it returns, or issues a request
    and goes on with the answer.  [traces p t a] says that [p] may issue the
    requests of [t], get its answers and return [a]; nothing is assumed of the
    answers, so a theorem about traces holds for every behaviour of the
    cluster, failures and changes by others between two calls included.
    [run_log h w p] runs a program in a concrete environment; the witnesses use
    it.  Code that may panic returns a [maypanic].  The order in which Go ranges
    over a map is left open: the programs take a [MapRange], whose law is that
    every entry is visited once.

    A northbound handler returns a value, an error, panics, or runs out of
    stack ([outcome]).  [initDeployment] calls itself without a bound in the
    code; the model takes the room on the stack as a parameter, [room], and
    [building_ends] shows how much is enough.

    Integers are [Z]; where the source's width matters the operations wrap or
    clamp as the code does ([wrap64], [ToInt32Clamped]).  Maps that the code
    shares and writes to (the label maps of targets) are addresses into a
    store; other maps are values, and [gomap] where nil matters.

    ** What the theorems show

    - Deployment controller: that a reconcile pass runs all of its phases, gathers their
      errors and what it leaves in the status
      ([reconcile_outcome]), which GitRepos it creates, updates and deletes, also
      when two applications have one name ([gitrepos_exact]), that a finalizer goes only when its work is done
      ([delete_finalizers], [git_finalizer_exact]),
      that the state refines an abstract specification ([state_refines_spec],
      [running_sound], [summary_counts], [status_precedence]), and what the
      clean-up deletes, other tenants' bundles included
      ([cleanup_bds_exact]).
    - DeploymentCluster, Cluster and CAPI controllers: the status is the
      mirror it promises to be ([dc_status_exact], [cluster_mirrors_fleet],
      [capi_mirrors]), with the branches on which it is not.
    - Northbound service: nothing is touched before the caller is allowed
      ([allowed_first]); every request stays in the caller's project
      ([tenant_isolation]); every target written selects on the project's label
      ([targets_confined]).  What a creation, a deletion of a graph and an
      update have done when they report success or are refused
      ([create_success], [delete_graph_exact], [deletion_traversal],
      ([create_success], [delete_graph_exact], [deletion_traversal],
      [update_guarded]); which secrets a deletion leaves behind, and that it leaves no
      others ([secrets_all_deleted]);
      counters keep to their width ([status_counts]).
    - Data selection: filter, sort and page as a specification, with the
      exact requests that are refused
      ([select_items_spec], [pages_partition]), and patterns that miss.
    - Override values: masking secrets and unmasking them is lossless where names
      are unique ([secrets_restored]) and what is lost where they are not
      ([two_entries_lose_secrets]), the request is refused exactly when a mandatory
      value is missing ([mandatory_exact]), and the inputs that crash it.
    - Targets: an auto-scaling request neither loses nor invents targets
      ([auto_scaling_targets]).

    - Webhook and tenant watcher: whatever sequence of admissions, failures and
      finalizer passes happens, one after the other, a package in use is flagged in the catalog,
      unless an update that was to leave it was admitted and then not stored
      ([used_packages_flagged]; [overlapping_admission] for two at a time); a project that is deleted loses its
      deployments and no others ([project_deletion]).
    - Resource manager: who may act on a virtual machine and which one it is,
      for a caller of the service ([vm_action_guarded]) and for an HTTP request
      to its gateway ([rest_vm_guarded]); who gets a console ([console_guarded]); the
      session counters under any interleaving of handlers
      ([sessions_counted]); the copy loop ([copy_in_order]).
      The address of a console that is given out leads to that console
      ([address_roundtrip]).  A listing is made of valid messages exactly if
      no pod of it has more than 50 containers ([listing_valid]).
    - Service proxy: which requests are forwarded, where to, and with what
      headers ([forwarded_exact], and [second_authorization_forwarded] for the line
      that slips through); a link of a page comes back as a request for
      what it pointed to ([links_come_back]); what becomes of a page's security
      policies ([csp_patched]).
    - Fleet and Git: the tree that is generated is complete, and no bundle waits
      for one that is not there ([fleet_tree_closed]); every session of the
      vault is closed ([sessions_closed]); a client commits and pushes the one
      working copy it opened ([one_working_copy]).

    - REST: every spelling of a method's path makes the call of that method with
      the path's identifiers, and no other path calls anything
      ([arm_routes_exact], [adm_routes_exact]); the resource manager's gateway is reached with the methods
      of its specification only, the deployment manager's also by a POST, with
      which a form may stand for another method.

    - Start: what the deployment manager serves with, and that the migration is
      done before it serves ([start_guarded]), and that the controllers run only
      after each is set up ([controllers_ready]); after a request that fails,
      whichever it is, nothing follows but the message that ends the process
      ([start_errors]); how the wait for the server ends, whatever the order of
      the goroutines ([start_outcome]); the limits on sizes at 64 bits
      ([size_limits]).  The certificate of the Git server follows its file,
      whatever the order of changes, events and reads ([cert_follows_file]).

    The loops of the program are structural recursions here.  Depth bounds in
    the source ([maxDepth]) are kept.

    ** Not modelled

    Flags, routers and static pages, the options of controller-runtime, the translation of gRPC errors
    to HTTP and the gateways' variants for one process, the look-up of Grafana dashboards; test utilities.
    Of net/url, the address of a host in brackets is a parameter; texts of
    errors of libraries are shortened.
    The mutex of the writing handlers is not a step of the model: each of
    them is one program, whose interleaving with others is in the answers.
    Other generated code is not modelled: protobuf, REST clients, deep copies,
    and the validators of the deployment manager's API, which no program calls.
    What the indexes of the controllers' caches hold is not modelled either.
    Code outside the repository (Kubernetes, Fleet, Git, Vault, the catalog) is
    an effect or a parameter with its documented behaviour as hypotheses. *)

From stdpp Require Export base gmap strings list fin_maps sets.
From stdpp Require Export pretty.
From Stdlib Require Export ZArith Lia.

#[global] Open Scope Z_scope.

(** Go's [string] type is a byte string; literals are stdpp strings. *)

(** ** Go errors

    A Go [error] is an interface value; [nil] is [None].  What the code ever
    asks of an error is its text ([err.Error()]) and its kind: the reason of a
    Kubernetes API error ([metav1.StatusReason]) or the kind of a typed error
    of the orchestrator's library, which classifiers such as
    [apierrors.IsNotFound] and [errors.IsNotFound] read.  So an error carries
    its kind and its text.  An error wrapped with [fmt.Errorf("...%v", err)]
    keeps the text and loses the kind. *)
Inductive err_kind : Type :=
  | KNotFound
  | KAlreadyExists
  | KInvalid
  | KConflict
  | KBadRequest
  | KForbidden
  | KUnauthorized
  | KInternal
  | KTimeout
  | KServerTimeout
  | KServiceUnavailable
  | KUnavailable
  | KTooManyRequests
  | KTooLarge
  | KAborted
  | KOther.

#[export] Instance err_kind_eq_dec : EqDecision err_kind.
Proof. solve_decision. Defined.

Record gerror : Type := mkErr { e_kind : err_kind; e_msg : string }.

#[export] Instance gerror_eq_dec : EqDecision gerror.
Proof. solve_decision. Defined.

(** [fmt.Errorf] of a text: an error none of the classifiers recognises. *)
Definition errorf (msg : string) : gerror := mkErr KOther msg.

(** [apierrors.IsNotFound(err)], false on [nil]. *)
Definition is_not_found (e : gerror) : bool := bool_decide (e_kind e = KNotFound).

(** The [(T, error)] results of calls whose [T] is only read when the error
    is [nil]. *)
Inductive res (A : Type) : Type :=
  | Ok (a : A)
  | Err (e : gerror).
Arguments Ok {A} _.
Arguments Err {A} _.

Definition res_bind {A B : Type} (m : res A) (f : A -> res B) : res B :=
  match m with Ok a => f a | Err e => Err e end.

Definition is_ok {A : Type} (m : res A) : bool :=
  match m with Ok _ => true | Err _ => false end.

Definition err_of {A : Type} (m : res A) : option gerror :=
  match m with Ok _ => None | Err e => Some e end.

Declare Scope go_scope.
Delimit Scope go_scope with go.
Notation "'try' x ':=' m 'in' k" := (res_bind m (fun x => k))
  (at level 10, x pattern, m at level 100, k at level 200) : go_scope.
#[global] Open Scope go_scope.

(** ** Code that may panic

    A nil map written to, a slice out of range, a [MustParse] of bad text. *)
Inductive maypanic (A : Type) : Type :=
  | Returns (a : A)
  | Panics.
Arguments Returns {A} a.
Arguments Panics {A}.

Definition unless_panic {A B : Type} (r : maypanic A) (f : A -> maypanic B) : maypanic B :=
  match r with Returns a => f a | Panics => Panics end.

(** A loop threading local state, whose body may panic. *)
Fixpoint mfold {A S : Type} (f : S -> A -> maypanic S) (s : S) (l : list A) : maypanic S :=
  match l with
  | [] => Returns s
  | x :: l' => unless_panic (f s x) (fun s' => mfold f s' l')
  end.

(** The same for a body that returns an error, which ends the loop. *)
Fixpoint rfold {A S : Type} (f : S -> A -> res S) (s : S) (l : list A) : res S :=
  match l with
  | [] => Ok s
  | x :: l' => res_bind (f s x) (fun s' => rfold f s' l')
  end.

(** ** Slices and loops *)

(** [for i, x := range xs { if p(x) { ...; break } }] : the first hit. *)
Fixpoint find_first {A : Type} (p : A -> bool) (l : list A) : option A :=
  match l with
  | [] => None
  | x :: l' => if p x then Some x else find_first p l'
  end.

(** [len(xs)] as Go's [int]. *)
Definition zlen {A : Type} (l : list A) : Z := Z.of_nat (length l).

(** [m\[k\]] on a [map\[string\]string]: the zero value when absent. *)
Definition mget (m : gmap string string) (k : string) : string :=
  default EmptyString (m !! k).

Definition mhas (m : gmap string string) (k : string) : bool :=
  bool_decide (is_Some (m !! k)).

(** ** Automation *)

Create HintDb appdep.

(** Case analysis on every boolean or match the goal or a hypothesis is
    stuck on, then first-order clean-up. *)
Ltac split_matches :=
  repeat (case_match; simplify_eq/=; try done).

(** Turn boolean guards of the code into the facts they decide. *)
Ltac reflect_guards :=
  repeat match goal with
  | H : bool_decide _ = true |- _ => apply bool_decide_eq_true_1 in H
  | H : bool_decide _ = false |- _ => apply bool_decide_eq_false_1 in H
  | H : andb _ _ = true |- _ => apply andb_true_iff in H as [? ?]
  | H : orb _ _ = false |- _ => apply orb_false_iff in H as [? ?]
  | H : negb _ = true |- _ => apply negb_true_iff in H
  | H : negb _ = false |- _ => apply negb_false_iff in H
  | H : Z.ltb _ _ = true |- _ => apply Z.ltb_lt in H
  | H : Z.ltb _ _ = false |- _ => apply Z.ltb_ge in H
  | H : Z.leb _ _ = true |- _ => apply Z.leb_le in H
  | H : Z.leb _ _ = false |- _ => apply Z.leb_gt in H
  | H : Z.eqb _ _ = true |- _ => apply Z.eqb_eq in H
  | H : Z.eqb _ _ = false |- _ => apply Z.eqb_neq in H
  end.

(** ** Generic lemmas *)

Lemma find_first_Some {A : Type} (p : A -> bool) (l : list A) (x : A) :
  find_first p l = Some x -> x ∈ l /\ p x = true.
Proof.
  induction l as [|y l IH]; simpl; [done|].
  destruct (p y) eqn:Hp; intros H; simplify_eq.
  - split; [left|done].
  - destruct (IH H). split; [by right|done].
Qed.

Lemma find_first_None {A : Type} (p : A -> bool) (l : list A) :
  find_first p l = None <-> (forall x, x ∈ l -> p x = false).
Proof.
  induction l as [|y l IH]; simpl.
  - split; [|done]. intros _ x Hx. by apply elem_of_nil in Hx.
  - destruct (p y) eqn:Hp.
    + split; [done|]. intros H. rewrite H in Hp; [done|left].
    + rewrite IH. split.
      * intros H x [->|Hx]%elem_of_cons; auto.
      * intros H x Hx. apply H. by right.
Qed.

Lemma find_first_split {A : Type} (p : A -> bool) (l : list A) (x : A) :
  find_first p l = Some x ->
  exists l1 l2, l = l1 ++ x :: l2 /\ (forall y, y ∈ l1 -> p y = false) /\ p x = true.
Proof.
  induction l as [|y l IH]; simpl; [done|]. destruct (p y) eqn:Hp; intros H.
  - simplify_eq. exists [], l. split; [done|]. split; [|done]. intros z Hz. by apply elem_of_nil in Hz.
  - destruct (IH H) as (l1 & l2 & -> & H1 & Hx). exists (y :: l1), l2. split; [done|]. split; [|done].
    intros z [->|Hz]%elem_of_cons; auto.
Qed.

Lemma existsb_elem_of {A : Type} (p : A -> bool) (l : list A) :
  existsb p l = true <-> exists x, x ∈ l /\ p x = true.
Proof.
  rewrite existsb_exists. split; intros (x & Hx & Hp); exists x;
    (split; [by apply list_elem_of_In|done]).
Qed.

Lemma existsb_false_elem_of {A : Type} (p : A -> bool) (l : list A) :
  existsb p l = false <-> forall x, x ∈ l -> p x = false.
Proof.
  split.
  - intros H x Hx. destruct (p x) eqn:Hp; [|done].
    assert (existsb p l = true) as Ht by (apply existsb_elem_of; eauto). congruence.
  - intros H. destruct (existsb p l) eqn:He; [|done].
    apply existsb_elem_of in He as (x & Hx & Hp). rewrite H in Hp; done.
Qed.

Lemma unless_panic_Returns {A B : Type} (r : maypanic A) (f : A -> maypanic B) (b : B) :
  unless_panic r f = Returns b -> exists a, r = Returns a /\ f a = Returns b.
Proof. destruct r; simpl; [eauto|done]. Qed.

Lemma unless_panic_ext {A B : Type} (r : maypanic A) (f g : A -> maypanic B) :
  (forall a, f a = g a) -> unless_panic r f = unless_panic r g.
Proof. destruct r; simpl; auto. Qed.

Lemma unless_panic_assoc {A B C : Type} (r : maypanic A) (f : A -> maypanic B) (g : B -> maypanic C) :
  unless_panic (unless_panic r f) g = unless_panic r (fun a => unless_panic (f a) g).
Proof. by destruct r. Qed.

(** An invariant of the body is an invariant of the loop. *)
Lemma mfold_invariant {A S : Type} (P : S -> Prop) (f : S -> A -> maypanic S) (l : list A) (s s' : S) :
  (forall x s s', x ∈ l -> P s -> f s x = Returns s' -> P s') ->
  P s -> mfold f s l = Returns s' -> P s'.
Proof.
  revert s. induction l as [|x l IH]; simpl; intros s Hf Hs H; [by simplify_eq|].
  apply unless_panic_Returns in H as (s1 & H1 & H2). apply (IH s1); [|by apply (Hf x s); [left| |]|done].
  intros y s2 s3 Hy. apply Hf. by right.
Qed.

(** A loop panics when an iteration that does is reached in a state it panics in. *)
Lemma mfold_panics {A S : Type} (P : S -> Prop) (f : S -> A -> maypanic S) (l : list A) (s : S) (x : A) :
  (forall y s s', y ∈ l -> P s -> f s y = Returns s' -> P s') ->
  x ∈ l -> (forall s, P s -> f s x = Panics) -> P s -> mfold f s l = Panics.
Proof.
  intros Hf Hx Hp. revert s. induction l as [|y l IH]; [by apply elem_of_nil in Hx|]. intros s Hs. simpl.
  destruct (f s y) as [s'|] eqn:He; [|done]. simpl. apply elem_of_cons in Hx as [->|Hx]; [by rewrite Hp in He|].
  apply IH; [|done|by apply (Hf y s s'); [left| |]]. intros z s1 s2 Hz. apply Hf. by right.
Qed.

Lemma rfold_invariant {A S : Type} (P : S -> Prop) (f : S -> A -> res S) (l : list A) (s s' : S) :
  (forall s x s', x ∈ l -> P s -> f s x = Ok s' -> P s') -> P s -> rfold f s l = Ok s' -> P s'.
Proof.
  revert s. induction l as [|x l IH]; simpl; intros s Hf Hs H; [by simplify_eq|].
  destruct (f s x) as [s1|] eqn:E; simpl in H; [|done].
  apply (IH s1); [intros ? ? ? ?; apply Hf; by right| |done]. eapply Hf; [left| |]; eauto.
Qed.

(** The loop ends with an error exactly if the body does for some element. *)
Lemma rfold_errs {A S : Type} (bad : A -> Prop) (f : S -> A -> res S) (l : list A) (s : S) :
  (forall s x, x ∈ l -> is_ok (f s x) = false <-> bad x) ->
  is_ok (rfold f s l) = false <-> exists x, x ∈ l /\ bad x.
Proof.
  revert s. induction l as [|x l IH]; simpl; intros s Hf.
  - split; [done|]. intros (x & Hx & _). by apply elem_of_nil in Hx.
  - pose proof (Hf s x (list_elem_of_here _ _)) as Hx.
    destruct (f s x) as [s1|e] eqn:E; simpl in *.
    + rewrite IH; [|intros; apply Hf; by right]. split.
      * intros (y & Hy & Hb). exists y. split; [by right|done].
      * intros (y & [->|Hy]%elem_of_cons & Hb); [apply Hx in Hb; done|eauto].
    + split; [|done]. intros _. exists x. split; [left|]. by apply Hx.
Qed.

Lemma zlen_nonneg {A : Type} (l : list A) : 0 <= zlen l.
Proof. unfold zlen. lia. Qed.

Lemma zlen_cons {A : Type} (x : A) (l : list A) : zlen (x :: l) = zlen l + 1.
Proof. unfold zlen. simpl. lia. Qed.

Lemma zlen_app {A : Type} (l1 l2 : list A) : zlen (l1 ++ l2) = zlen l1 + zlen l2.
Proof. unfold zlen. rewrite length_app. lia. Qed.

Lemma zlen_nil_inv {A : Type} (l : list A) : zlen l = 0 -> l = [].
Proof. unfold zlen. destruct l; simpl; [done|lia]. Qed.

#[export] Hint Resolve zlen_nonneg : appdep.
Create Rewrite HintDb appdep_rw.
#[export] Hint Rewrite @zlen_cons @zlen_app : appdep_rw.

(** ** Go maps that may be nil

    Reading a nil map gives zero values; writing to one panics.  Where the code
    distinguishes nil or may write, a map is a [gomap]. *)
Definition gomap : Type := option (gmap string string).

Definition gmlookup (m : gomap) (k : string) : option string :=
  match m with Some m' => m' !! k | None => None end.

Definition gmget (m : gomap) (k : string) : string := default EmptyString (gmlookup m k).

(** ** Ranging over a Go map

    [for k, v := range m] visits every entry once in an unspecified order. *)
Class MapRange : Type := { map_range : forall {V : Type}, gmap string V -> list (string * V) }.

Class MapRangeLaws (M : MapRange) : Prop := {
  map_range_perm {V : Type} (m : gmap string V) : map_range m ≡ₚ map_to_list m
}.

#[export] Instance key_order : MapRange := {| map_range V m := map_to_list m |}.
#[export] Instance key_order_laws : MapRangeLaws key_order.
Proof. by constructor. Qed.

Lemma elem_of_map_range {M : MapRange} {ML : MapRangeLaws M} {V : Type} (m : gmap string V) (k : string) (v : V) :
  (k, v) ∈ map_range m <-> m !! k = Some v.
Proof. rewrite map_range_perm. apply elem_of_map_to_list. Qed.

(** ** 64-bit integers *)

(** Go [int] and [int64] arithmetic wraps. *)
Definition wrap64 (n : Z) : Z := (n + 2^63) `mod` 2^64 - 2^63.

Lemma wrap64_small (n : Z) : -2^63 <= n < 2^63 -> wrap64 n = n.
Proof. intros H. unfold wrap64. rewrite Z.mod_small; lia. Qed.
