(* ===== verification/Prog.v ===== *)
(** * Effects: programs that call out to Kubernetes, Git and the clock

    Everything the controllers ask of code outside the repository (the
    Kubernetes API, the Git remote, the catalog, the metrics registry, the
    clock) is an *effect*: a request [e : E] answered by a value of [R e].  A
    Go function with effects is a [prog]: it either returns or issues one
    request and continues with the answer, whatever it is.

    Two readings are used: [traces p t a] says that [p] may issue exactly the
    requests and receive exactly the answers of [t] and return [a] (every
    possible environment, failures and interleaved changes of the cluster by
    other actors included), and [run h w p] executes [p] against a concrete
    environment [h] with state [w].  [run_traces] relates the two. *)

From Stdlib Require Eqdep_dec.
From S2P Require Import Prelude.

Section Prog.
Context {E : Type} {R : E -> Type}.

Inductive prog (A : Type) : Type :=
  | Ret (a : A)
  | Vis (e : E) (k : R e -> prog A).
#[global] Arguments Ret {A} a.
#[global] Arguments Vis {A} e k.

Fixpoint pbind {A B : Type} (p : prog A) (f : A -> prog B) : prog B :=
  match p with
  | Ret a => f a
  | Vis e k => Vis e (fun r => pbind (k r) f)
  end.

Definition call (e : E) : prog (R e) := Vis e (fun r => Ret r).

(** One request together with its answer. *)
Definition event : Type := {e : E & R e}.
Definition ev (e : E) (r : R e) : event := existT e r.

(** [traces p t a]: [p] may issue the requests of [t], receive its answers,
    and return [a].  Structural on [p], so that a trace of a known program
    computes to the conjunction of its steps. *)
Fixpoint traces {A : Type} (p : prog A) (t : list event) (a : A) : Prop :=
  match p with
  | Ret b => t = [] /\ a = b
  | Vis e k => exists (r : R e) (t' : list event), t = ev e r :: t' /\ traces (k r) t' a
  end.

Definition handler (W : Type) : Type := forall e : E, W -> R e * W.

Fixpoint run {W A : Type} (h : handler W) (w : W) (p : prog A) : A * W :=
  match p with
  | Ret a => (a, w)
  | Vis e k => let rw := h e w in run h rw.2 (k rw.1)
  end.

(** The same execution, keeping the list of requests and answers. *)
Fixpoint run_log {W A : Type} (h : handler W) (w : W) (p : prog A) : A * W * list event :=
  match p with
  | Ret a => (a, w, [])
  | Vis e k =>
      let rw := h e w in
      let '(a, w', t) := run_log h rw.2 (k rw.1) in
      (a, w', ev e rw.1 :: t)
  end.

(** *** Loops *)

(** [for _, x := range xs { f(x) }] *)
Fixpoint pfor {A : Type} (l : list A) (f : A -> prog unit) : prog unit :=
  match l with
  | [] => Ret tt
  | x :: l' => pbind (f x) (fun _ => pfor l' f)
  end.

(** A loop whose body may return from the enclosing function: [Some b]
    stops the loop with the value returned. *)
Fixpoint pfor_ret {A B : Type} (l : list A) (f : A -> prog (option B)) : prog (option B) :=
  match l with
  | [] => Ret None
  | x :: l' => pbind (f x) (fun o => match o with Some b => Ret (Some b) | None => pfor_ret l' f end)
  end.

(** A loop threading local state, whose body may return early. *)
Fixpoint pfold {A S : Type} (l : list A) (s : S) (f : S -> A -> prog S) : prog S :=
  match l with
  | [] => Ret s
  | x :: l' => pbind (f s x) (fun s' => pfold l' s' f)
  end.

Fixpoint pfold_ret {A S B : Type} (l : list A) (s : S) (f : S -> A -> prog (S * option B)) :
    prog (S * option B) :=
  match l with
  | [] => Ret (s, None)
  | x :: l' => pbind (f s x) (fun sb =>
      match sb.2 with Some b => Ret (sb.1, Some b) | None => pfold_ret l' sb.1 f end)
  end.

(** *** Laws *)

Lemma traces_bind {A B : Type} (p : prog A) (f : A -> prog B) (t : list event) (b : B) :
  traces (pbind p f) t b <->
  exists t1 t2 a, t = t1 ++ t2 /\ traces p t1 a /\ traces (f a) t2 b.
Proof.
  revert t. induction p as [a|e k IH]; intros t; simpl.
  - split.
    + intros H. exists [], t, a. auto.
    + intros (t1 & t2 & a' & -> & [-> ->] & H). done.
  - split.
    + intros (r & t' & -> & H). apply IH in H as (t1 & t2 & a & -> & H1 & H2).
      exists (ev e r :: t1), t2, a. split; [done|]. split; [by eauto|done].
    + intros (t1 & t2 & a & -> & (r & t' & -> & H1) & H2).
      exists r, (t' ++ t2). split; [done|]. apply IH. eauto 10.
Qed.

(** Every execution is one of the traces. *)
Lemma run_log_traces {W A : Type} (h : handler W) (p : prog A) (w : W) :
  traces p (run_log h w p).2 (run_log h w p).1.1.
Proof.
  revert w. induction p as [a|e k IH]; intros w; simpl; [done|].
  specialize (IH (h e w).1 (h e w).2).
  destruct (run_log h (h e w).2 (k (h e w).1)) as [[a w'] t]. simpl in *. eauto.
Qed.

Lemma run_log_run {W A : Type} (h : handler W) (p : prog A) (w : W) :
  (run_log h w p).1 = run h w p.
Proof.
  revert w. induction p as [a|e k IH]; intros w; simpl; [done|].
  rewrite <- IH. by destruct (run_log h (h e w).2 (k (h e w).1)) as [[a w'] t].
Qed.

Lemma run_bind {W A B : Type} (h : handler W) (p : prog A) (f : A -> prog B) (w : W) :
  run h w (pbind p f) = run h (run h w p).2 (f (run h w p).1).
Proof. revert w. induction p as [a|e k IH]; intros w; simpl; [done|]. apply IH. Qed.

(** A program always finishes: it has a trace whatever the environment
    answers, as long as every request has an answer at all. *)
Lemma traces_total {A : Type} (p : prog A) (answer : forall e, R e) :
  exists t a, traces p t a.
Proof.
  induction p as [a|e k IH]; simpl; [by exists [], a|].
  destruct (IH (answer e)) as (t & a & H). eauto 10.
Qed.

(** Invariant of the requests: every request of every trace satisfies [P]. *)
Fixpoint issues {A : Type} (P : E -> Prop) (p : prog A) : Prop :=
  match p with
  | Ret _ => True
  | Vis e k => P e /\ forall r, issues P (k r)
  end.

Lemma issues_bind {A B : Type} (P : E -> Prop) (p : prog A) (f : A -> prog B) :
  issues P p -> (forall a, issues P (f a)) -> issues P (pbind p f).
Proof. induction p as [a|e k IH]; simpl; [auto|]. intros [He Hk] Hf. auto. Qed.

Lemma issues_mono {A : Type} (P Q : E -> Prop) (p : prog A) :
  (forall e, P e -> Q e) -> issues P p -> issues Q p.
Proof. intros HPQ. induction p as [a|e k IH]; simpl; [done|]. intros [He Hk]. auto. Qed.

Lemma issues_pfor {A : Type} (P : E -> Prop) (l : list A) (f : A -> prog unit) :
  (forall x, x ∈ l -> issues P (f x)) -> issues P (pfor l f).
Proof.
  induction l as [|x l IH]; simpl; [done|]. intros H.
  apply issues_bind; [apply H; left|]. intros _. apply IH. intros y Hy. apply H. by right.
Qed.

Lemma issues_pfor_ret {A B : Type} (P : E -> Prop) (l : list A) (f : A -> prog (option B)) :
  (forall x, x ∈ l -> issues P (f x)) -> issues P (pfor_ret l f).
Proof.
  induction l as [|x l IH]; simpl; [done|]. intros H.
  apply issues_bind; [apply H; left|]. intros [b|]; [done|]. apply IH. intros y Hy. apply H. by right.
Qed.

Lemma issues_pfold {A S : Type} (P : E -> Prop) (l : list A) (s : S) (f : S -> A -> prog S) :
  (forall s x, x ∈ l -> issues P (f s x)) -> issues P (pfold l s f).
Proof.
  revert s. induction l as [|x l IH]; simpl; [done|]. intros s H.
  apply issues_bind; [apply H; left|]. intros s'. apply IH. intros s0 y Hy. apply H. by right.
Qed.

Lemma issues_pfold_ret {A S B : Type} (P : E -> Prop) (l : list A) (s : S)
    (f : S -> A -> prog (S * option B)) :
  (forall s x, x ∈ l -> issues P (f s x)) -> issues P (pfold_ret l s f).
Proof.
  revert s. induction l as [|x l IH]; simpl; [done|]. intros s H.
  apply issues_bind; [apply H; left|]. intros [s' [b|]]; simpl; [done|].
  apply IH. intros s0 y Hy. apply H. by right.
Qed.

Lemma issues_traces {A : Type} (P : E -> Prop) (p : prog A) (t : list event) (a : A) :
  issues P p -> traces p t a -> Forall (fun x => P (projT1 x)) t.
Proof.
  revert t. induction p as [b|e k IH]; simpl; intros t.
  - intros _ [-> _]. constructor.
  - intros [He Hk] (r & t' & -> & Ht). constructor; [done|]. by eapply IH.
Qed.

(** Invariant of the result, whatever the environment answers. *)
Fixpoint returns {A : Type} (Q : A -> Prop) (p : prog A) : Prop :=
  match p with
  | Ret a => Q a
  | Vis _ k => forall r, returns Q (k r)
  end.

Lemma returns_bind {A B : Type} (Q : A -> Prop) (Q' : B -> Prop) (p : prog A) (f : A -> prog B) :
  returns Q p -> (forall a, Q a -> returns Q' (f a)) -> returns Q' (pbind p f).
Proof. induction p as [a|e k IH]; simpl; [auto|]. intros H Hf r. auto. Qed.

Lemma returns_mono {A : Type} (Q Q' : A -> Prop) (p : prog A) :
  (forall a, Q a -> Q' a) -> returns Q p -> returns Q' p.
Proof. intros HQ. induction p as [a|e k IH]; simpl; [auto|]. intros H r. auto. Qed.

Lemma returns_pfold {A S : Type} (Q : S -> Prop) (l : list A) (s : S) (f : S -> A -> prog S) :
  Q s -> (forall s x, x ∈ l -> Q s -> returns Q (f s x)) -> returns Q (pfold l s f).
Proof.
  revert s. induction l as [|x l IH]; simpl; [done|]. intros s Hs H.
  eapply returns_bind; [apply H; [left|done]|]. intros s' Hs'. apply IH; [done|].
  intros s0 y Hy. apply H. by right.
Qed.

Lemma returns_traces {A : Type} (Q : A -> Prop) (p : prog A) (t : list event) (a : A) :
  returns Q p -> traces p t a -> Q a.
Proof.
  revert t. induction p as [b|e k IH]; simpl; intros t.
  - intros H [_ ->]. done.
  - intros H (r & t' & -> & Ht). by eapply IH.
Qed.

Lemma returns_run {W A : Type} (h : handler W) (Q : A -> Prop) (p : prog A) (w : W) :
  returns Q p -> Q (run h w p).1.
Proof. revert w. induction p as [a|e k IH]; simpl; intros w H; auto. Qed.
(** *** Requests and results together

    [wp K P Q p]: if every answer satisfies [K], every request satisfies [P]
    and the result [Q].  [K] is where what is known of the environment goes. *)
Fixpoint wp {A : Type} (K : forall e, R e -> Prop) (P : E -> Prop) (Q : A -> Prop) (p : prog A) : Prop :=
  match p with
  | Ret a => Q a
  | Vis e k => P e /\ forall r, K e r -> wp K P Q (k r)
  end.

Lemma wp_bind {A B : Type} (K : forall e, R e -> Prop) (P : E -> Prop) (Q : A -> Prop) (Q' : B -> Prop)
    (p : prog A) (f : A -> prog B) :
  wp K P Q p -> (forall a, Q a -> wp K P Q' (f a)) -> wp K P Q' (pbind p f).
Proof. induction p as [a|e k IH]; simpl; [auto|]. intros [He Hk] Hf. eauto. Qed.

Lemma wp_mono {A : Type} (K : forall e, R e -> Prop) (P P' : E -> Prop) (Q Q' : A -> Prop) (p : prog A) :
  (forall e, P e -> P' e) -> (forall a, Q a -> Q' a) -> wp K P Q p -> wp K P' Q' p.
Proof. intros HP HQ. induction p as [a|e k IH]; simpl; [auto|]. intros [He Hk]. auto. Qed.

Lemma wp_traces {A : Type} (K : forall e, R e -> Prop) (P : E -> Prop) (Q : A -> Prop) (p : prog A)
    (t : list event) (a : A) :
  wp K P Q p -> traces p t a -> Forall (fun x : event => K (projT1 x) (projT2 x)) t ->
  Forall (fun x : event => P (projT1 x)) t /\ Q a.
Proof.
  revert t. induction p as [b|e k IH]; simpl; intros t.
  - intros H [-> ->] _. split; [constructor|done].
  - intros [He Hk] (r & t' & -> & Ht) HK. apply Forall_cons in HK as [Hr HK]. simpl in Hr.
    destruct (IH r t' (Hk r Hr) Ht HK) as [HP HQ]. split; [|done]. by constructor.
Qed.

(** What the steps of a loop add up to: [sel] picks the interesting events, each
    iteration contributes [g x]. *)
Lemma traces_pfor_omap {A B : Type} (sel : event -> option B) (g : A -> list B)
    (l : list A) (f : A -> prog unit) (t : list event) (u : unit) :
  (forall x t u, x ∈ l -> traces (f x) t u -> omap sel t = g x) ->
  traces (pfor l f) t u -> omap sel t = concat (map g l).
Proof.
  revert t. induction l as [|x l IH]; intros t Hf; simpl.
  - by intros [-> _].
  - intros Ht. apply traces_bind in Ht as (t1 & t2 & [] & -> & H1 & H2).
    rewrite omap_app. f_equal; [apply (Hf x t1 tt); [left|done]|].
    apply IH; [|done]. intros y t' u' Hy. apply Hf. by right.
Qed.

(** The same for a loop that may stop early: the events collected are those
    of a prefix of the list, all of it when the loop ran to its end. *)
Lemma traces_pfor_ret_omap {A B C : Type} (sel : event -> option B) (g : A -> list B)
    (l : list A) (f : A -> prog (option C)) (t : list event) (o : option C) :
  (forall x t o, x ∈ l -> traces (f x) t o -> omap sel t = g x) ->
  traces (pfor_ret l f) t o ->
  exists l1 l2, l = l1 ++ l2 /\ omap sel t = concat (map g l1) /\ (o = None -> l2 = []).
Proof.
  revert t. induction l as [|x l IH]; intros t Hf; simpl.
  - intros [-> ->]. exists [], []. done.
  - intros Ht. apply traces_bind in Ht as (t1 & t2 & o1 & -> & H1 & H2).
    rewrite omap_app, (Hf x t1 o1) by (left || done). destruct o1 as [c|].
    + destruct H2 as [-> ->]. exists [x], l. simpl. rewrite !app_nil_r. done.
    + destruct (IH t2) as (l1 & l2 & -> & Heq & Hend); [|done|].
      { intros y t' o' Hy. apply Hf. by right. }
      exists (x :: l1), l2. simpl. by rewrite Heq.
Qed.

(** The request [e] was issued, whatever the answer. *)
Definition requested (t : list event) (e : E) : Prop := exists r, ev e r ∈ t.

Lemma requested_app (t1 t2 : list event) (e : E) :
  requested (t1 ++ t2) e <-> requested t1 e \/ requested t2 e.
Proof. unfold requested. setoid_rewrite elem_of_app. naive_solver. Qed.

Lemma requested_cons (x : event) (t : list event) (e : E) :
  requested (x :: t) e <-> projT1 x = e \/ requested t e.
Proof.
  unfold requested. setoid_rewrite elem_of_cons. split.
  - intros (r & [<-|H]); [by left|right; eauto].
  - intros [<-|[r H]]; [|eauto]. exists (projT2 x). left. by destruct x.
Qed.

Lemma requested_nil (e : E) : ~ requested [] e.
Proof. intros [r H]. by apply elem_of_nil in H. Qed.

Lemma requested_traces {A : Type} (P : E -> Prop) (p : prog A) (t : list event) (a : A) (e : E) :
  issues P p -> traces p t a -> requested t e -> P e.
Proof.
  intros Hi Ht [r Hr]. pose proof (issues_traces P p t a Hi Ht) as HF.
  rewrite Forall_forall in HF. exact (HF _ Hr).
Qed.
End Prog.

Arguments prog E R A : clear implicits.
Arguments event E R : clear implicits.
Arguments handler E R W : clear implicits.

Notation "'let!' x ':=' p 'in' q" := (pbind p (fun x => q))
  (at level 10, x pattern, p at level 100, q at level 200) : go_scope.
Notation "p ';;;' q" := (pbind p (fun _ => q))
  (at level 199, q at level 200, right associativity) : go_scope.

(** A program that may panic, and what follows when it does not. *)
Definition pbind_panic {E : Type} {R : E -> Type} {A B : Type}
    (p : prog E R (maypanic A)) (f : A -> prog E R (maypanic B)) : prog E R (maypanic B) :=
  pbind p (fun r => match r with Returns a => f a | Panics => Ret Panics end).

Notation "'go!' x ':=' p 'in' q" := (pbind_panic p (fun x => q))
  (at level 10, x pattern, p at level 100, q at level 200) : go_scope.

#[export] Hint Resolve issues_bind issues_pfor issues_pfor_ret issues_pfold issues_pfold_ret : appdep.

Lemma traces_assoc {E : Type} {R : E -> Type} {A B C : Type} (p : prog E R A) (f : A -> prog E R B)
    (g : B -> prog E R C) (t : list (event E R)) (c : C) :
  traces (pbind (pbind p f) g) t c -> traces (pbind p (fun a => pbind (f a) g)) t c.
Proof.
  revert t. induction p as [a|e k IH]; intros t; simpl; [done|].
  intros (r & t' & -> & H). exists r, t'. eauto.
Qed.

Lemma ev_inj {E : Type} {R : E -> Type} `{!EqDecision E} (e : E) (r r' : R e) :
  ev e r = ev e r' -> r = r'.
Proof. intros H. exact (Eqdep_dec.inj_pair2_eq_dec E (fun x y => decide (x = y)) R e r r' H). Qed.

(** The [i]-th event of a log, found by evaluation. *)
Lemma nth_event {A : Type} (i : nat) (l : list A) (x : A) : l !! i = Some x -> x ∈ l.
Proof. apply list_elem_of_lookup_2. Qed.

(** The continuation of a trace whose first event is known. *)
Lemma traces_vis_inv {E : Type} {R : E -> Type} `{!EqDecision E} {A : Type} (e : E)
    (k : R e -> prog E R A) (r : R e) (t : list (event E R)) (a : A) :
  traces (Vis e k) (ev e r :: t) a -> traces (k r) t a.
Proof.
  intros (r' & t' & Heq & H).
  assert (t = t') as -> by (exact (f_equal (tail (A:=event E R)) Heq)).
  assert (ev e r = ev e r') as Hev by (by injection Heq).
  by rewrite (ev_inj e r r' Hev).
Qed.

(** None of the listed events is the one requested. *)
Ltac no_request H :=
  repeat (apply requested_cons in H as [H|H]; [discriminate H|]); by apply requested_nil in H.

(** Which of the listed events it is. *)
Ltac which_event H :=
  cbn beta iota in H;
  match type of H with
  | _ ∈ [] => by apply elem_of_nil in H
  | _ ∈ _ :: _ => apply elem_of_cons in H as [H|H];
      [ let He := fresh "He" in
        pose proof (f_equal (@projT1 _ _) H) as He; cbn in He;
        first [discriminate He | clear He; apply ev_inj in H; try discriminate H]
      | which_event H ]
  end.

(** ** Reading a trace backwards

    [unfold_trace H] turns [traces p t a] into the requests of [t], one case per
    branch the program may have taken. *)
Ltac requested_solver :=
  repeat (rewrite ?requested_app, ?requested_cons; cbn [projT1 ev]); tauto.

Ltac trace_step H :=
  cbn beta iota in H;
  match type of H with
  | traces (Ret _) _ _ => destruct H as [? H]; simplify_eq
  | traces (Vis _ _) _ _ => destruct H as (?r & ?t & ? & H); subst; cbn beta in H
  | traces (call _) _ _ => destruct H as (?r & ?t & ? & H); subst; cbn beta in H
  | traces (pbind (Ret _) _) _ _ => cbn [pbind] in H
  | traces (pbind (Vis _ _) _) _ _ => cbn [pbind] in H
  | traces (pbind (call _) _) _ _ => destruct H as (?r & ?t & ? & H); subst; cbn [pbind] in H
  | traces (pbind (pbind _ _) _) _ _ => apply traces_assoc in H
  | traces (if ?b then _ else _) _ _ => destruct b eqn:?
  | traces (match ?x with _ => _ end) _ _ => destruct x eqn:?
  | traces (pbind (if ?b then _ else _) _) _ _ => destruct b eqn:?
  | traces (pbind (match ?x with _ => _ end) _) _ _ => destruct x eqn:?
  end.

Ltac unfold_trace H := repeat (trace_step H).

(** Split off a call that is not unfolded. *)
Ltac split_trace H t1 t2 a H1 :=
  cbn beta iota in H; apply traces_bind in H as (t1 & t2 & a & -> & H1 & H).
