(* ===== verification/GoMonad.v ===== *)
(** * Go functions with effects that return a value and an error, or panic

    The services call out, return early with an error, and may panic; this file
    has their combinators, over any requests [E] answered in [R], and the
    logic [nwps] their theorems are proved in. *)

From S2P Require Import Prelude Prog.

(** ** Programs that return a value and an error, or do not return

    [Panicked] is a Go panic.  [OutOfStack] is the end of the process when the
    stack has no room for one more recursive call. *)
Inductive outcome (A : Type) : Type :=
  | Done (r : res A)
  | Panicked
  | OutOfStack.
Arguments Done {A} r.
Arguments Panicked {A}.
Arguments OutOfStack {A}.

Section Monad.
Context {E : Type} {R : E -> Type}.

Definition gp (A : Type) : Type := prog E R (outcome A).

Definition done {A : Type} (r : res A) : gp A := Ret (Done r).
Definition ok {A : Type} (a : A) : gp A := done (Ok a).
Definition fail {A : Type} (e : gerror) : gp A := done (Err e).
Definition panic {A : Type} : gp A := Ret Panicked.

Definition nbind {A B : Type} (p : gp A) (f : A -> gp B) : gp B :=
  pbind p (fun o => match o with
                    | Done (Ok a) => f a
                    | Done (Err e) => fail e
                    | Panicked => panic
                    | OutOfStack => Ret OutOfStack
                    end).

(** [if err != nil { return f(err) }] *)
Definition map_err {A : Type} (f : gerror -> gerror) (p : gp A) : gp A :=
  pbind p (fun o => Ret match o with Done (Err e) => Done (Err (f e)) | _ => o end).

(** The error is looked at by the caller. *)
Definition catch {A : Type} (p : gp A) : gp (res A) :=
  pbind p (fun o => match o with
                    | Done r => ok r
                    | Panicked => panic
                    | OutOfStack => Ret OutOfStack
                    end).

(** A call that returns a value and an error, and one that returns an error. *)
Definition rcall {A : Type} (p : prog E R (res A)) : gp A := pbind p (fun r => done r).
Definition ecall (p : prog E R (option gerror)) : gp unit :=
  pbind p (fun r => done match r with Some e => Err e | None => Ok tt end).

(** A deferred call runs when the function returns and when it panics. *)
Definition with_defer {A : Type} (deferred : prog E R unit) (p : gp A) : gp A :=
  pbind p (fun o => match o with
                    | OutOfStack => Ret OutOfStack
                    | _ => pbind deferred (fun _ => Ret o)
                    end).

Definition of_maypanic {A : Type} (r : maypanic A) : gp A :=
  match r with Returns a => ok a | Panics => panic end.

Fixpoint nfold {A S : Type} (f : S -> A -> gp S) (s : S) (l : list A) : gp S :=
  match l with
  | [] => ok s
  | x :: l' => nbind (f s x) (fun s' => nfold f s' l')
  end.

End Monad.

Arguments gp : clear implicits.

Notation "'do!' x ':=' p 'in' q" := (nbind p (fun x => q))
  (at level 10, x pattern, p at level 100, q at level 200) : go_scope.

(** [metadata.FromIncomingContext]: keys are in lower case. *)
Definition context : Type := option (gmap string (list string)).

(** ** [pkg/utils/k8serrors], the same in both services *)

(** [ReasonForError] knows the reasons of the Kubernetes API; the kinds of the
    orchestrator's own errors are not among them. *)
Definition K8sToTypedError (e : gerror) : gerror :=
  mkErr match e_kind e with
        | KConflict => KConflict
        | KBadRequest => KInvalid
        | KInternal => KInternal
        | KAlreadyExists => KAlreadyExists
        | KForbidden => KForbidden
        | KTimeout => KTimeout
        | KInvalid => KInvalid
        | KNotFound => KNotFound
        | KServerTimeout => KTimeout
        | KServiceUnavailable => KUnavailable
        | KTooManyRequests => KUnavailable
        | KTooLarge => KInvalid
        | KUnauthorized => KForbidden
        | KUnavailable | KAborted | KOther => KOther
        end (e_msg e).

(** ** Reasoning about these programs

    [nwps S K P Q p]: with answers in [K], every request is in [P], a value that
    is returned without an error is in [Q], and the stack runs out only if
    [S].  [nwp] says nothing of the stack. *)
Definition nwps {E : Type} {R : E -> Type} {A : Type} (S : Prop) (K : forall e, R e -> Prop) (P : E -> Prop) (Q : A -> Prop) (p : gp E R A) : Prop :=
  wp K P (fun o => match o with Done (Ok a) => Q a | OutOfStack => S | _ => True end) p.

Abbreviation nwp := (nwps True).

Section Nwp.
Context {E : Type} {R : E -> Type} {S : Prop} (K : forall e, R e -> Prop) (P : E -> Prop).

Lemma nwp_ok {A : Type} (Q : A -> Prop) (a : A) : Q a -> nwps S K P Q (ok a).
Proof. done. Qed.

Lemma nwp_fail {A : Type} (Q : A -> Prop) (e : gerror) : nwps S K P Q (fail e).
Proof. done. Qed.

Lemma nwp_panic {A : Type} (Q : A -> Prop) : nwps S K P Q (panic (A := A)).
Proof. done. Qed.

Lemma nwp_stack {A : Type} (Q : A -> Prop) : S -> nwps S K P Q (Ret OutOfStack).
Proof. done. Qed.

Lemma nwp_done {A : Type} (Q : A -> Prop) (r : res A) : (forall a, r = Ok a -> Q a) -> nwps S K P Q (done r).
Proof. intros H. unfold nwps, done. simpl. destruct r; auto. Qed.

Lemma nwp_bind {A B : Type} (Q : A -> Prop) (Q' : B -> Prop) (p : gp E R A) (f : A -> gp E R B) :
  nwps S K P Q p -> (forall a, Q a -> nwps S K P Q' (f a)) -> nwps S K P Q' (nbind p f).
Proof. intros Hp Hf. eapply wp_bind; [exact Hp|]. intros [[a|e]| |] H; simpl; auto. by apply Hf. Qed.

(** The same when nothing is needed of the value. *)
Lemma nwp_seq {A B : Type} (Q' : B -> Prop) (p : gp E R A) (f : A -> gp E R B) :
  nwps S K P (fun _ => True) p -> (forall a, nwps S K P Q' (f a)) -> nwps S K P Q' (nbind p f).
Proof. intros Hp Hf. eapply nwp_bind; [exact Hp|]. auto. Qed.

Lemma nwp_mono {A : Type} (Q Q' : A -> Prop) (p : gp E R A) :
  (forall a, Q a -> Q' a) -> nwps S K P Q p -> nwps S K P Q' p.
Proof. intros HQ. apply wp_mono; [done|]. intros [[a|e]| |]; auto. Qed.

Lemma nwp_true {A : Type} (Q : A -> Prop) (p : gp E R A) : nwps S K P Q p -> nwps S K P (fun _ => True) p.
Proof. by apply nwp_mono. Qed.

Lemma nwp_map_err {A : Type} (Q : A -> Prop) (g : gerror -> gerror) (p : gp E R A) :
  nwps S K P Q p -> nwps S K P Q (map_err g p).
Proof. intros H. eapply wp_bind; [exact H|]. intros [[a|e]| |] Ha; exact Ha. Qed.

Lemma nwp_catch {A : Type} (Q : A -> Prop) (p : gp E R A) :
  nwps S K P Q p -> nwps S K P (fun r => match r with Ok a => Q a | Err _ => True end) (catch p).
Proof. intros H. eapply wp_bind; [exact H|]. intros [[a|e]| |] Ha; exact Ha. Qed.

Lemma nwp_catch_true {A : Type} (p : gp E R A) : nwps S K P (fun _ => True) p -> nwps S K P (fun _ => True) (catch p).
Proof. intros H. by eapply nwp_true, nwp_catch. Qed.

Lemma nwp_rcall {A : Type} (Q : A -> Prop) (p : prog E R (res A)) :
  wp K P (fun r => match r with Ok a => Q a | Err _ => True end) p -> nwps S K P Q (rcall p).
Proof. intros H. eapply wp_bind; [exact H|]. intros [a|e] Ha; exact Ha. Qed.

Lemma nwp_ecall (p : prog E R (option gerror)) : wp K P (fun _ => True) p -> nwps S K P (fun _ => True) (ecall p).
Proof. intros H. eapply wp_bind; [exact H|]. by intros [e|] _. Qed.

Lemma nwp_of_maypanic {A : Type} (Q : A -> Prop) (r : maypanic A) :
  (forall a, r = Returns a -> Q a) -> nwps S K P Q (of_maypanic r).
Proof. intros H. destruct r as [a|]; [by apply nwp_ok, H|done]. Qed.

Lemma nwp_nfold {A T : Type} (I : T -> Prop) (f : T -> A -> gp E R T) (s : T) (l : list A) :
  I s -> (forall s x, x ∈ l -> I s -> nwps S K P I (f s x)) -> nwps S K P I (nfold f s l).
Proof.
  revert s. induction l as [|x l IH]; intros s Hs Hf; simpl; [by apply nwp_ok|].
  eapply nwp_bind; [apply Hf; [left|done]|]. intros s' Hs'. apply IH; [done|].
  intros s0 y Hy. apply Hf. by right.
Qed.

Lemma nwp_traces {A : Type} (Q : A -> Prop) (p : gp E R A) (t : list (event E R)) (o : outcome A) :
  nwps S K P Q p -> traces p t o -> Forall (fun x : (event E R) => K (projT1 x) (projT2 x)) t ->
  Forall (fun x : (event E R) => P (projT1 x)) t /\ match o with Done (Ok a) => Q a | OutOfStack => S | _ => True end.
Proof. apply wp_traces. Qed.
End Nwp.

(** A sequence either got past its first part or ended in it. *)
Lemma traces_nbind {E : Type} {R : E -> Type} {A B : Type} (p : gp E R A) (f : A -> gp E R B) (t : list (event E R)) (o : outcome B) :
  traces (nbind p f) t o ->
  (exists t1 t2 a, t = t1 ++ t2 /\ traces p t1 (Done (Ok a)) /\ traces (f a) t2 o) \/
  (exists o', traces p t o' /\ (forall a, o' <> Done (Ok a)) /\ forall b, o <> Done (Ok b)).
Proof.
  intros H. apply traces_bind in H as (t1 & t2 & o' & -> & H1 & H2).
  destruct o' as [[a|e]| |]; [by left; eauto 10| | |];
    destruct H2 as [-> ->]; right; rewrite app_nil_r; eauto.
Qed.

(** A sequence that succeeds has succeeded in both parts. *)
Lemma nbind_ok {E : Type} {R : E -> Type} {A B : Type} (p : gp E R A) (f : A -> gp E R B) (t : list (event E R)) (b : B) :
  traces (nbind p f) t (Done (Ok b)) ->
  exists t1 t2 a, t = t1 ++ t2 /\ traces p t1 (Done (Ok a)) /\ traces (f a) t2 (Done (Ok b)).
Proof. intros H. apply traces_nbind in H as [H|(? & _ & _ & H)]; [done|]. by destruct (H b). Qed.

(** A request that the first part never makes was made by the rest. *)
Lemma nbind_request {E : Type} {R : E -> Type} {A B : Type} (p : gp E R A) (f : A -> gp E R B)
    (t : list (event E R)) (o : outcome B) (e : E) :
  nwps True (fun _ _ => True) (fun e' => e' <> e) (fun _ => True) p ->
  traces (nbind p f) t o -> requested t e ->
  exists t1 t2 a, t = t1 ++ t2 /\ traces p t1 (Done (Ok a)) /\ traces (f a) t2 o /\ requested t2 e.
Proof.
  intros Hp H Hr.
  assert (Hno : forall t1 o1, traces p t1 o1 -> ~ requested t1 e).
  { intros t1 o1 Ht1 [r Hin].
    assert (Forall (fun x : event E R => True) t1) as HT by by apply Forall_forall.
    destruct (nwp_traces _ _ _ p t1 o1 Hp Ht1 HT) as [HF _]. rewrite Forall_forall in HF. by apply (HF _ Hin). }
  apply traces_nbind in H as [(t1 & t2 & a & -> & H1 & H2)|(o' & H1 & _)].
  - apply requested_app in Hr as [Hr|Hr]; [by destruct (Hno t1 _ H1 Hr)|]. by exists t1, t2, a.
  - by destruct (Hno t o' H1 Hr).
Qed.

(** *** Reading traces backwards *)

Ltac np_unfold_in H :=
  unfold nbind, map_err, catch, rcall, ecall, of_maypanic, done, ok, fail, panic in H.

(** [unfold_trace] through the combinators above. *)
Ltac nunfold H := repeat (first [progress np_unfold_in H | trace_step H]).

(** One step of a proof of [nwp], by the shape of the program.  Calls to other
    functions are left to their lemmas. *)
Ltac nwp_step :=
  match goal with
  | |- nwps _ _ _ _ (ok _) => apply nwp_ok
  | |- nwps _ _ _ _ (fail _) => apply nwp_fail
  | |- nwps _ _ _ _ panic => apply nwp_panic
  | |- nwps _ _ _ _ (Ret OutOfStack) => apply nwp_stack
  | |- nwps _ _ _ _ (map_err _ _) => apply nwp_map_err
  | |- nwps _ _ _ (fun _ => True) (catch _) => apply nwp_catch_true
  | |- nwps _ _ _ _ (rcall (call _)) => apply nwp_rcall; split; [|intros ? ?; simpl]
  | |- nwps _ _ _ (fun _ => True) (ecall (call _)) => apply nwp_ecall; split; [|done]
  | |- nwps _ _ _ _ (let '(_, _) := ?x in _) => destruct x
  | |- nwps _ _ _ _ (match ?x with _ => _ end) => destruct x eqn:?
  | |- nwps _ _ _ _ (if ?b then _ else _) => destruct b eqn:?
  end.

(** Steps that need no thought, and the lemmas on the parts. *)
Create HintDb nwp.
Ltac nwp_go :=
  repeat first [ exact I | match goal with |- match ?r with Ok _ => True | Err _ => True end => by destruct r end | nwp_step | solve [eauto with nwp] | solve [simpl; auto] | solve [split; simpl; auto] | progress cbv zeta | apply nwp_seq; [|intros ?] ].
