(* ===== verification/GoStr.v ===== *)
(** * Go's [strings], [strconv] and [fmt] as the repository uses them

    Strings are byte strings.  [strings.ToLower], [strings.TrimSpace] and
    [strings.Fields] are given on ASCII: bytes above 127 are left alone. *)

From S2P Require Import Prelude.
From Stdlib Require Import Ascii.

Fixpoint to_list (s : string) : list ascii :=
  match s with EmptyString => [] | String c s' => c :: to_list s' end.

Fixpoint of_list (l : list ascii) : string :=
  match l with [] => EmptyString | c :: l' => String c (of_list l') end.

(** [len(s)] *)
Definition slen (s : string) : Z := Z.of_nat (String.length s).

(** [strings.HasPrefix(s, p)] *)
Fixpoint has_prefix (s p : string) : bool :=
  match p, s with
  | EmptyString, _ => true
  | String a p', String b s' => bool_decide (a = b) && has_prefix s' p'
  | String _ _, EmptyString => false
  end.

(** [strings.Contains(s, sub)] *)
Fixpoint contains (s sub : string) : bool :=
  has_prefix s sub || match s with EmptyString => false | String _ s' => contains s' sub end.

(** [s\[:n\]] and [s\[n:\]]; in range at every use. *)
Fixpoint stake (n : nat) (s : string) : string :=
  match n, s with S n', String c s' => String c (stake n' s') | _, _ => EmptyString end.

Fixpoint sdrop (n : nat) (s : string) : string :=
  match n, s with S n', String _ s' => sdrop n' s' | _, _ => s end.

(** [strings.HasSuffix(s, suf)], [strings.TrimSuffix(s, suf)] *)
Definition has_suffix (s suf : string) : bool :=
  (Nat.leb (String.length suf) (String.length s)) &&
  bool_decide (sdrop (String.length s - String.length suf) s = suf).

Definition trim_suffix (s suf : string) : string :=
  if has_suffix s suf then stake (String.length s - String.length suf) s else s.

(** [strings.TrimPrefix(s, p)] *)
Definition trim_prefix (s p : string) : string :=
  if has_prefix s p then sdrop (String.length p) s else s.

(** [strings.Cut(s, c)]: what is before and after the first [c]. *)
Fixpoint cut (c : ascii) (s : string) : string * string :=
  match s with
  | EmptyString => (EmptyString, EmptyString)
  | String a s' => if bool_decide (a = c) then (EmptyString, s') else let (x, y) := cut c s' in (String a x, y)
  end.

Definition lower_ascii (c : ascii) : ascii :=
  let n := nat_of_ascii c in
  if Nat.leb 65 n && Nat.leb n 90 then ascii_of_nat (n + 32) else c.

Fixpoint smap (f : ascii -> ascii) (s : string) : string :=
  match s with EmptyString => EmptyString | String c s' => String (f c) (smap f s') end.

(** [strings.ToLower(s)] *)
Definition to_lower (s : string) : string := smap lower_ascii s.

(** [unicode.IsSpace] on ASCII: tab, newline, vertical tab, form feed,
    carriage return, space. *)
Definition is_space (c : ascii) : bool :=
  let n := nat_of_ascii c in (Nat.leb 9 n && Nat.leb n 13) || Nat.eqb n 32.

Fixpoint drop_spaces (l : list ascii) : list ascii :=
  match l with [] => [] | c :: l' => if is_space c then drop_spaces l' else l end.

(** [strings.TrimSpace(s)] *)
Definition trim_space (s : string) : string :=
  of_list (rev (drop_spaces (rev (drop_spaces (to_list s))))).

(** [strings.Fields(s)]: the maximal runs of non-space bytes. *)
Fixpoint fields_go (acc : list ascii) (l : list ascii) : list string :=
  let flush := match acc with [] => [] | _ => [of_list (rev acc)] end in
  match l with
  | [] => flush
  | c :: l' => if is_space c then flush ++ fields_go [] l' else fields_go (c :: acc) l'
  end.

Definition fields (s : string) : list string := fields_go [] (to_list s).

(** [strings.Split(s, sep)], [sep] not empty: [skip] bytes of a separator
    remain to be dropped. *)
Fixpoint split_go (sep : string) (skip : nat) (acc : list ascii) (s : string) : list string :=
  match s with
  | EmptyString => [of_list (rev acc)]
  | String c s' =>
      match skip with
      | S n => split_go sep n acc s'
      | O => if has_prefix s sep
             then of_list (rev acc) :: split_go sep (String.length sep - 1) [] s'
             else split_go sep 0 (c :: acc) s'
      end
  end.

Definition split (s sep : string) : list string := split_go sep 0 [] s.

(** [strings.Join(elems, sep)] *)
Fixpoint join (l : list string) (sep : string) : string :=
  match l with
  | [] => EmptyString
  | [x] => x
  | x :: l' => x +:+ sep +:+ join l' sep
  end.

(** [strings.ReplaceAll(s, "c", r)] of a one-byte pattern. *)
Fixpoint replace_all_char (c : ascii) (r : string) (s : string) : string :=
  match s with
  | EmptyString => EmptyString
  | String a s' => if bool_decide (a = c) then r +:+ replace_all_char c r s'
                   else String a (replace_all_char c r s')
  end.

(** [strings.ReplaceAll(s, old, new)], [old] not empty: [skip] bytes of an
    occurrence remain to be dropped. *)
Fixpoint replace_go (old new : string) (skip : nat) (s : string) : string :=
  match s with
  | EmptyString => EmptyString
  | String c s' =>
      match skip with
      | S n => replace_go old new n s'
      | O => if has_prefix s old then new +:+ replace_go old new (String.length old - 1) s'
             else String c (replace_go old new 0 s')
      end
  end.

Definition replace_all (s old new : string) : string := replace_go old new 0 s.

(** [strings.Compare(a, b)] as -1, 0, 1: byte-wise lexicographic order. *)
Fixpoint scompare (a b : string) : Z :=
  match a, b with
  | EmptyString, EmptyString => 0
  | EmptyString, String _ _ => -1
  | String _ _, EmptyString => 1
  | String x a', String y b' =>
      if Nat.ltb (nat_of_ascii x) (nat_of_ascii y) then -1
      else if Nat.ltb (nat_of_ascii y) (nat_of_ascii x) then 1
      else scompare a' b'
  end.

(** [fmt.Sprintf("%d", n)] *)
Definition itoa (n : Z) : string := pretty n.

Definition is_digit (c : ascii) : bool :=
  let n := nat_of_ascii c in Nat.leb 48 n && Nat.leb n 57.

Fixpoint digits_value (acc : Z) (l : list ascii) : option Z :=
  match l with
  | [] => Some acc
  | c :: l' => if is_digit c
               then digits_value (acc * 10 + (Z.of_nat (nat_of_ascii c) - 48)) l'
               else None
  end.

(** [strconv.ParseInt(s, 10, 64)]: an optional sign, at least one digit, and
    a value that fits; [None] is the error result. *)
Definition parse_int64 (s : string) : option Z :=
  let parse_abs l := match l with [] => None | _ => digits_value 0 l end in
  let in_range n := if (-2^63 <=? n) && (n <=? 2^63 - 1) then Some n else None in
  match to_list s with
  | c :: l => if bool_decide (c = "-"%char) then
                match parse_abs l with Some n => in_range (- n) | None => None end
              else if bool_decide (c = "+"%char) then
                match parse_abs l with Some n => in_range n | None => None end
              else match parse_abs (c :: l) with Some n => in_range n | None => None end
  | [] => None
  end.

(** ** Lemmas *)

Lemma sapp_nil_l (s : string) : "" +:+ s = s.
Proof. done. Qed.

Lemma sapp_cons (c : ascii) (s t : string) : String c s +:+ t = String c (s +:+ t).
Proof. done. Qed.

Lemma sapp_nil_r (s : string) : s +:+ "" = s.
Proof. induction s as [|c s IH]; [done|]. rewrite sapp_cons. by rewrite IH. Qed.

Lemma sapp_assoc (s t u : string) : (s +:+ t) +:+ u = s +:+ (t +:+ u).
Proof. induction s as [|c s IH]; [done|]. rewrite !sapp_cons. by rewrite IH. Qed.

Lemma slength_app (s t : string) :
  String.length (s +:+ t) = (String.length s + String.length t)%nat.
Proof. induction s as [|c s IH]; [done|]. rewrite sapp_cons. simpl. by rewrite IH. Qed.

Lemma sdrop_app (s t : string) : sdrop (String.length s) (s +:+ t) = t.
Proof. induction s as [|c s IH]; [by destruct t|]. rewrite sapp_cons. done. Qed.

Lemma stake_app (s t : string) : stake (String.length s) (s +:+ t) = s.
Proof. induction s as [|c s IH]; [by destruct t|]. rewrite sapp_cons. simpl. by rewrite IH. Qed.

(** A suffix just appended is trimmed off again. *)
Lemma trim_suffix_app (s suf : string) : trim_suffix (s +:+ suf) suf = s.
Proof.
  unfold trim_suffix, has_suffix. rewrite slength_app.
  replace (String.length s + String.length suf - String.length suf)%nat
    with (String.length s) by lia.
  rewrite sdrop_app, stake_app, bool_decide_true by done.
  assert (Nat.leb (String.length suf) (String.length s + String.length suf) = true) as ->
    by (apply Nat.leb_le; lia). done.
Qed.

Lemma has_prefix_spec (s p : string) : has_prefix s p = true <-> exists t, s = p +:+ t.
Proof.
  revert s. induction p as [|a p IH]; intros s; simpl.
  - split; [by exists s|by destruct s].
  - destruct s as [|b s]; simpl.
    + split; [done|]. intros [t Ht]. by rewrite sapp_cons in Ht.
    + rewrite andb_true_iff, bool_decide_eq_true, IH. setoid_rewrite sapp_cons. split.
      * intros [-> [t ->]]. by exists t.
      * intros [t Ht]. injection Ht as -> ->. split; [done|by exists t].
Qed.

Lemma contains_spec (s sub : string) :
  contains s sub = true <-> exists a b, s = a +:+ sub +:+ b.
Proof.
  induction s as [|c s IH]; cbn [contains]; rewrite orb_true_iff, has_prefix_spec.
  - split.
    + intros [[t Ht]|]; [|done]. by exists "", t.
    + intros (a & b & H). left. destruct a as [|c a]; [by exists b|]. by rewrite sapp_cons in H.
  - rewrite IH. split.
    + intros [[t Ht]|(a & b & ->)]; [by exists "", t|]. by exists (String c a), b.
    + intros (a & b & H). destruct a as [|c' a].
      * left. by exists b.
      * right. rewrite sapp_cons in H. simplify_eq. by exists a, b.
Qed.

Lemma contains_refl_app (a s b : string) : contains (a +:+ s +:+ b) s = true.
Proof. apply contains_spec. eauto. Qed.

Lemma contains_empty (s : string) : contains s "" = true.
Proof. apply contains_spec. exists "", s. done. Qed.

Lemma lower_ascii_idemp (c : ascii) : lower_ascii (lower_ascii c) = lower_ascii c.
Proof. by destruct c as [[] [] [] [] [] [] [] []]. Qed.

Lemma to_lower_idemp (s : string) : to_lower (to_lower s) = to_lower s.
Proof.
  unfold to_lower. induction s as [|c s IH]; [done|]. simpl.
  by rewrite lower_ascii_idemp, IH.
Qed.

Lemma to_lower_app (s t : string) : to_lower (s +:+ t) = to_lower s +:+ to_lower t.
Proof. unfold to_lower. induction s as [|c s IH]; [done|]. rewrite !sapp_cons. simpl. by rewrite IH. Qed.

Lemma scompare_eq (a b : string) : scompare a b = 0 <-> a = b.
Proof.
  revert b. induction a as [|x a IH]; intros [|y b]; simpl; try done.
  destruct (Nat.ltb_spec (nat_of_ascii x) (nat_of_ascii y)).
  { split; [done|]. intros. simplify_eq. lia. }
  destruct (Nat.ltb_spec (nat_of_ascii y) (nat_of_ascii x)).
  { split; [done|]. intros. simplify_eq. lia. }
  rewrite IH. assert (x = y) as ->; [|split; congruence].
  rewrite <- (ascii_nat_embedding x), <- (ascii_nat_embedding y). f_equal. lia.
Qed.

Lemma scompare_antisym (a b : string) : scompare b a = - scompare a b.
Proof.
  revert b. induction a as [|x a IH]; intros [|y b]; simpl; try done.
  destruct (Nat.ltb_spec (nat_of_ascii x) (nat_of_ascii y));
    destruct (Nat.ltb_spec (nat_of_ascii y) (nat_of_ascii x)); try lia. apply IH.
Qed.

Lemma scompare_range (a b : string) :
  scompare a b = -1 \/ scompare a b = 0 \/ scompare a b = 1.
Proof.
  revert b. induction a as [|x a IH]; intros [|y b]; simpl; auto.
  repeat case_match; auto.
Qed.

Lemma scompare_lt_trans (a b c : string) :
  scompare a b = -1 -> scompare b c = -1 -> scompare a c = -1.
Proof.
  revert b c. induction a as [|x a IH]; intros [|y b] [|z c]; simpl; try done.
  destruct (Nat.ltb_spec (nat_of_ascii x) (nat_of_ascii y));
  destruct (Nat.ltb_spec (nat_of_ascii y) (nat_of_ascii x));
  destruct (Nat.ltb_spec (nat_of_ascii y) (nat_of_ascii z));
  destruct (Nat.ltb_spec (nat_of_ascii z) (nat_of_ascii y));
  destruct (Nat.ltb_spec (nat_of_ascii x) (nat_of_ascii z));
  destruct (Nat.ltb_spec (nat_of_ascii z) (nat_of_ascii x)); try lia; try done. apply IH.
Qed.

Lemma to_of_list (l : list ascii) : to_list (of_list l) = l.
Proof. induction l; simpl; congruence. Qed.

Lemma of_to_list (s : string) : of_list (to_list s) = s.
Proof. induction s; simpl; congruence. Qed.

Lemma to_list_app s t : to_list (s +:+ t) = to_list s ++ to_list t.
Proof. induction s as [|c s IH]; [done|]. rewrite sapp_cons. simpl. by rewrite IH. Qed.

Lemma to_list_inj s t : to_list s = to_list t -> s = t.
Proof. intros H. by rewrite <- (of_to_list s), <- (of_to_list t), H. Qed.

(** A separator byte that does not occur before it splits a string uniquely. *)
Lemma sep_inj (sep : ascii) (l1 l2 r1 r2 : list ascii) :
  sep ∉ l1 -> sep ∉ l2 -> l1 ++ sep :: r1 = l2 ++ sep :: r2 -> l1 = l2 /\ r1 = r2.
Proof.
  revert l2. induction l1 as [|a l1 IH]; intros [|b l2] H1 H2 H; simpl in *; simplify_eq.
  - done.
  - exfalso. apply H2. left.
  - exfalso. apply H1. left.
  - rewrite not_elem_of_cons in H1, H2. destruct (IH l2) as [-> ->]; tauto.
Qed.

#[export] Hint Rewrite sapp_nil_l sapp_nil_r sapp_assoc : appdep_rw.
#[export] Hint Resolve contains_refl_app contains_empty : appdep.
