(* ===== verification/Split.v ===== *)
(** * Lemmas on splitting, joining and trimming strings *)

From Stdlib Require Import Ascii.
From S2P Require Import Prelude GoStr.

(** ** Splitting and joining *)

Lemma join_cons (x : string) (l : list string) (sep : string) :
  l <> [] -> join (x :: l) sep = x +:+ sep +:+ join l sep.
Proof. by destruct l. Qed.

Lemma split_go_nonempty sep skip acc s : split_go sep skip acc s <> [].
Proof. revert skip acc. induction s as [|c s IH]; intros [|n] acc; simpl; try case_match; auto. Qed.

Lemma of_list_app l1 l2 : of_list (l1 ++ l2) = of_list l1 +:+ of_list l2.
Proof. induction l1 as [|c l1 IH]; [done|]. simpl. rewrite IH. by rewrite sapp_cons. Qed.

Lemma join_split_go (c : ascii) (s : string) (acc : list ascii) :
  join (split_go (String c "") 0 acc s) (String c "") = of_list (rev acc) +:+ s.
Proof.
  revert acc. induction s as [|a s IH]; intros acc; cbn [split_go].
  { simpl. by rewrite sapp_nil_r. }
  cbn [has_prefix String.length Nat.sub]. destruct (bool_decide (c = a)) eqn:Hc.
  - apply bool_decide_eq_true in Hc as ->.
    assert (has_prefix s "" = true) as -> by by destruct s.
    cbn [andb]. rewrite join_cons by apply split_go_nonempty. by rewrite IH.
  - cbn [andb]. rewrite IH. simpl. by rewrite of_list_app, sapp_assoc.
Qed.

Lemma join_split (c : ascii) (s : string) : join (split s (String c "")) (String c "") = s.
Proof. unfold split. by rewrite join_split_go. Qed.

Lemma split_not_nil s sep : split s sep <> [].
Proof. apply split_go_nonempty. Qed.

(** ** The parts between one character *)

Definition free (c : ascii) (s : string) : Prop := c ∉ to_list s.

Section Split.
Context (c : ascii).

Abbreviation sep := (String c "").

(** What was read before the first separator goes in front of the first part. *)
Lemma split_go_acc acc s :
  split_go sep 0 acc s =
  match split_go sep 0 [] s with p :: ps => (of_list (rev acc) +:+ p) :: ps | [] => [] end.
Proof.
  revert acc. induction s as [|a s IH]; intros acc; cbn -[String.append].
  - by rewrite sapp_nil_r.
  - destruct (bool_decide (c = a) && _); cbn -[String.append]; [by rewrite sapp_nil_r|].
    rewrite (IH (a :: acc)), (IH [a]). destruct (split_go sep 0 [] s) as [|p ps]; [done|].
    cbn -[String.append]. rewrite of_list_app, sapp_assoc. done.
Qed.

Lemma split_other a s :
  a <> c -> split (String a s) sep = match split s sep with p :: ps => String a p :: ps | [] => [] end.
Proof.
  intros Ha. unfold split at 1. cbn. rewrite bool_decide_false by congruence. cbn -[split_go].
  rewrite split_go_acc. done.
Qed.

Lemma split_sep s : split (String c s) sep = "" :: split s sep.
Proof. unfold split at 1. cbn. rewrite bool_decide_true by done. by destruct s. Qed.

Lemma split_free s : Forall (free c) (split s sep).
Proof.
  induction s as [|a s IH]; [repeat constructor; by intros ?%elem_of_nil|].
  destruct (decide (a = c)) as [->|Hne].
  - rewrite split_sep. constructor; [by intros ?%elem_of_nil|done].
  - rewrite split_other by done. destruct (split s sep) as [|p ps]; [constructor|].
    apply Forall_cons in IH as [Hp Hps]. constructor; [|done]. unfold free in *. cbn. set_solver.
Qed.

Lemma split_prefix p s : free c p -> split (p +:+ String c s) sep = p :: split s sep.
Proof.
  induction p as [|a p IH]; intros Hp; [apply split_sep|].
  change (String a p +:+ String c s) with (String a (p +:+ String c s)).
  rewrite split_other by (intros ->; apply Hp; left). rewrite IH; [done|]. unfold free in *. cbn in Hp. set_solver.
Qed.

Lemma split_whole p : free c p -> split p sep = [p].
Proof.
  induction p as [|a p IH]; intros Hp; [done|].
  rewrite split_other by (intros ->; apply Hp; left). rewrite IH; [done|]. unfold free in *. cbn in Hp. set_solver.
Qed.

(** Parts joined with the separator and a space. *)
Lemma split_join x l :
  c <> " "%char -> Forall (free c) (x :: l) ->
  split (join (x :: l) (String c " ")) sep = x :: map (String " ") l.
Proof.
  intros Hc. revert x. induction l as [|y l IH]; intros x HF.
  - apply Forall_inv in HF. by apply split_whole.
  - apply Forall_cons in HF as [Hx HF].
    change (join (x :: y :: l) (String c " ")) with (x +:+ String c (String " " (join (y :: l) (String c " ")))).
    rewrite split_prefix by done. rewrite split_other by congruence. rewrite (IH y HF). done.
Qed.

End Split.

Lemma split_append c s r :
  split (s +:+ String c r) (String c "") = split s (String c "") ++ split r (String c "").
Proof.
  induction s as [|a s IH]; [apply split_sep|].
  change (String a s +:+ String c r) with (String a (s +:+ String c r)).
  destruct (decide (a = c)) as [->|Hne]; [by rewrite !split_sep, IH|].
  rewrite !split_other by done. rewrite IH. pose proof (split_not_nil s (String c "")). by destruct (split s (String c "")).
Qed.

(** ** Trimming *)

Lemma drop_spaces_idem l : drop_spaces (drop_spaces l) = drop_spaces l.
Proof. induction l as [|a l IH]; cbn; [done|]. destruct (is_space a) eqn:E; [done|]. cbn. by rewrite E. Qed.

Lemma drop_spaces_suffix l : exists k, l = k ++ drop_spaces l.
Proof.
  induction l as [|a l [k IH]]; cbn; [by exists []|]. destruct (is_space a); [|by exists []].
  exists (a :: k). cbn. by rewrite <- IH.
Qed.

Lemma trim_prefix_of l : exists k, drop_spaces l = rev (drop_spaces (rev (drop_spaces l))) ++ k.
Proof.
  destruct (drop_spaces_suffix (rev (drop_spaces l))) as [k Hk]. exists (rev k).
  rewrite <- rev_app_distr, <- Hk. by rewrite rev_involutive.
Qed.

Lemma drop_spaces_fixed l k m : drop_spaces l = m ++ k -> drop_spaces m = m.
Proof.
  intros H. destruct m as [|a m]; [done|]. cbn. destruct (is_space a) eqn:E; [|done].
  pose proof (drop_spaces_idem l) as Hi. rewrite H in Hi. cbn in Hi. rewrite E in Hi.
  exfalso. destruct (drop_spaces_suffix (m ++ k)) as [j Hj]. rewrite Hi in Hj.
  apply (f_equal length) in Hj. rewrite !length_app, length_cons, !length_app in Hj. lia.
Qed.

Lemma trim_space_idem s : trim_space (trim_space s) = trim_space s.
Proof.
  unfold trim_space. rewrite to_of_list. destruct (trim_prefix_of (to_list s)) as [k Hk].
  rewrite (drop_spaces_fixed _ _ _ Hk). by rewrite rev_involutive, drop_spaces_idem.
Qed.

Lemma trim_space_leading s : trim_space (String " " s) = trim_space s.
Proof. done. Qed.

Lemma trim_space_free c s : free c s -> free c (trim_space s).
Proof.
  unfold free, trim_space. rewrite to_of_list. intros H Hc. apply H.
  apply list_elem_of_In, in_rev in Hc. apply list_elem_of_In in Hc.
  destruct (drop_spaces_suffix (rev (drop_spaces (to_list s)))) as [k Hk].
  assert (c ∈ rev (drop_spaces (to_list s))) as Hc2 by (rewrite Hk; set_solver).
  apply list_elem_of_In, in_rev in Hc2. apply list_elem_of_In in Hc2.
  destruct (drop_spaces_suffix (to_list s)) as [k2 Hk2]. rewrite Hk2. set_solver.
Qed.
