(* ===== verification/Types.v ===== *)
(** * The data model: the custom resources of [api/v1beta1] and the Fleet, batch
      and core objects the controllers read and write

    Times are nanoseconds since the epoch; a zero [metav1.Time] is [None]. *)

From S2P Require Import Prelude GoStr.

(** ** [api/v1beta1]: states, labels, finalizers *)

Definition StateType : Type := string.
Definition Down : StateType := "Down".
Definition Running : StateType := "Running".
Definition Unknown : StateType := "Unknown".
Definition Error : StateType := "Error".
Definition InternalError : StateType := "InternalError".
Definition Deploying : StateType := "Deploying".
Definition Updating : StateType := "Updating".
Definition Terminating : StateType := "Terminating".
Definition NoTargetClusters : StateType := "NoTargetClusters".

Definition DeploymentType : Type := string.
Definition AutoScaling : DeploymentType := "auto-scaling".
Definition Targeted : DeploymentType := "targeted".

Definition LabelAppName : string := "app.edge-orchestrator.intel.com/app-name".
Definition LabelBundleName : string := "app.edge-orchestrator.intel.com/bundle-name".
Definition BundleName_ : string := "app.edge-orchestrator.intel.com/bundle-name".
Definition BundleType : string := "app.edge-orchestrator.intel.com/bundle-type".
Definition DeploymentID : string := "app.edge-orchestrator.intel.com/deployment-id".
Definition FleetClusterID : string := "fleet.cattle.io/cluster".
Definition FleetClusterNamespace : string := "fleet.cattle.io/cluster-namespace".
Definition ClusterName : string := "edge-orchestrator.intel.com/clustername".
Definition FleetProjectID : string := "edge-orchestrator.intel.com/project-id".
Definition AppOrchActiveProjectID : string := "app.edge-orchestrator.intel.com/project-id".
Definition ClusterOrchKeyProjectID : string := "edge-orchestrator.intel.com/project-id".
Definition FleetRepoName : string := "fleet.cattle.io/repo-name".
Definition FleetBundleName : string := "fleet.cattle.io/bundle-name".
Definition FleetRsProxy : string := "app.edge-orchestrator.intel.com/fleet-rs-secret".

Definition FinalizerGitRemote : string := "app.edge-orchestrator.intel.com/git-remote".
Definition FinalizerCatalog : string := "app.edge-orchestrator.intel.com/catalog".
Definition FinalizerDependency : string := "app.edge-orchestrator.intel.com/dependency".
Definition FleetGitSecretName : string := "fleet-gitrepo-cred".

(** ** Conditions *)

Definition ConditionTrue : string := "True".
Definition ConditionFalse : string := "False".

(** [metav1.Condition] *)
Record Condition : Type := mkCond {
  c_type : string;
  c_status : string;
  c_time : Z;
  c_reason : string;
  c_message : string
}.

(** [genericcondition.GenericCondition] (the fields the code reads) *)
Record GenericCondition : Type := mkGCond {
  gc_type : string;
  gc_status : string;
  gc_message : string
}.

#[export] Instance Condition_eq_dec : EqDecision Condition.
Proof. solve_decision. Defined.
#[export] Instance GenericCondition_eq_dec : EqDecision GenericCondition.
Proof. solve_decision. Defined.

(** ** Deployment *)

Record NamespaceRes : Type := mkNs {
  ns_name : string;
  ns_labels : gmap string string;
  ns_annotations : gmap string string
}.

Record DeploymentPackageRef : Type := mkDPRef {
  dp_name : string;
  dp_version : string;
  dp_profile : string;
  dp_forbids : bool;
  dp_namespaces : list NamespaceRes
}.

Record DependentDeploymentRef : Type := mkDepRef {
  ddr_pkg : DeploymentPackageRef;
  ddr_name : string
}.

Record HelmApp : Type := mkHelm {
  ha_chart : string;
  ha_version : string;
  ha_repo : string;
  ha_repo_secret : string;
  ha_image_registry : string;
  ha_image_secret : string
}.

Record IgnoreResource : Type := mkIgnore {
  ig_name : string;
  ig_kind : string;
  ig_namespace : string
}.

Record Application : Type := mkApp {
  app_name : string;
  app_version : string;
  app_namespace : string;
  app_namespace_labels : gmap string string;
  app_targets : list (gmap string string);
  app_profile_secret : string;
  app_value_secret : string;
  app_depends_on : list string;
  app_redeploy : bool;
  app_ignore : list IgnoreResource;
  app_helm : HelmApp;
  app_dep_packages : gmap string DeploymentPackageRef;
  app_service_export : bool
}.

Record NetworkRef : Type := mkNet { net_name : string; net_kind : string; net_api : string }.

Record DeploymentSpec : Type := mkSpec {
  sp_display_name : string;
  sp_project : string;
  sp_pkg : DeploymentPackageRef;
  sp_apps : list Application;
  sp_type : DeploymentType;
  sp_children : gmap string DependentDeploymentRef;
  sp_network : NetworkRef
}.

Record ClusterSummary : Type := mkSummary {
  cs_total : Z;
  cs_running : Z;
  cs_down : Z;
  cs_unknown : Z
}.

Record DeploymentStatus : Type := mkStatus {
  st_conditions : list Condition;
  st_display : string;
  st_state : StateType;
  st_message : string;
  st_summary : ClusterSummary;
  st_in_progress : bool;
  st_last_resync : string;
  st_reconciled_gen : Z;
  st_parents : gmap string DependentDeploymentRef
}.

(** [v1beta1.Deployment]; [d_deletion] is the deletion timestamp.  The status
    field [LastStatusUpdate], which the code neither reads nor writes, is left out. *)
Record Deployment : Type := mkDeployment {
  d_name : string;
  d_namespace : string;
  d_uid : string;
  d_labels : gmap string string;
  d_generation : Z;
  d_resource_version : string;
  d_creation : Z;
  d_deletion : option Z;
  d_finalizers : list string;
  d_spec : DeploymentSpec;
  d_status : DeploymentStatus
}.

(** [func (d *Deployment) GetId() string] *)
Definition GetId (d : Deployment) : string := d_uid d.

(** [d.ObjectMeta.DeletionTimestamp.IsZero()] *)
Definition not_deleting (d : Deployment) : bool := bool_decide (d_deletion d = None).

#[export] Instance NamespaceRes_eq_dec : EqDecision NamespaceRes.
Proof. solve_decision. Defined.
#[export] Instance DPRef_eq_dec : EqDecision DeploymentPackageRef.
Proof. solve_decision. Defined.
#[export] Instance DepRef_eq_dec : EqDecision DependentDeploymentRef.
Proof. solve_decision. Defined.
#[export] Instance HelmApp_eq_dec : EqDecision HelmApp.
Proof. solve_decision. Defined.
#[export] Instance IgnoreResource_eq_dec : EqDecision IgnoreResource.
Proof. solve_decision. Defined.
#[export] Instance Application_eq_dec : EqDecision Application.
Proof. solve_decision. Defined.
#[export] Instance NetworkRef_eq_dec : EqDecision NetworkRef.
Proof. solve_decision. Defined.
#[export] Instance DeploymentSpec_eq_dec : EqDecision DeploymentSpec.
Proof. solve_decision. Defined.
#[export] Instance ClusterSummary_eq_dec : EqDecision ClusterSummary.
Proof. solve_decision. Defined.
#[export] Instance DeploymentStatus_eq_dec : EqDecision DeploymentStatus.
Proof. solve_decision. Defined.
#[export] Instance Deployment_eq_dec : EqDecision Deployment.
Proof. solve_decision. Defined.

(** Field assignments [d.Status.X = v], [d.Finalizers = v]. *)
Definition set_status (f : DeploymentStatus -> DeploymentStatus) (d : Deployment) : Deployment :=
  mkDeployment (d_name d) (d_namespace d) (d_uid d) (d_labels d) (d_generation d)
    (d_resource_version d) (d_creation d) (d_deletion d) (d_finalizers d) (d_spec d) (f (d_status d)).

Definition set_finalizers (fs : list string) (d : Deployment) : Deployment :=
  mkDeployment (d_name d) (d_namespace d) (d_uid d) (d_labels d) (d_generation d)
    (d_resource_version d) (d_creation d) (d_deletion d) fs (d_spec d) (d_status d).

Definition with_conditions (cs : list Condition) (s : DeploymentStatus) : DeploymentStatus :=
  mkStatus cs (st_display s) (st_state s) (st_message s) (st_summary s) (st_in_progress s)
    (st_last_resync s) (st_reconciled_gen s) (st_parents s).

Definition with_state (x : StateType) (s : DeploymentStatus) : DeploymentStatus :=
  mkStatus (st_conditions s) (st_display s) x (st_message s) (st_summary s) (st_in_progress s)
    (st_last_resync s) (st_reconciled_gen s) (st_parents s).

Definition with_message (x : string) (s : DeploymentStatus) : DeploymentStatus :=
  mkStatus (st_conditions s) (st_display s) (st_state s) x (st_summary s) (st_in_progress s)
    (st_last_resync s) (st_reconciled_gen s) (st_parents s).

Definition with_in_progress (x : bool) (s : DeploymentStatus) : DeploymentStatus :=
  mkStatus (st_conditions s) (st_display s) (st_state s) (st_message s) (st_summary s) x
    (st_last_resync s) (st_reconciled_gen s) (st_parents s).

Definition with_last_resync (x : string) (s : DeploymentStatus) : DeploymentStatus :=
  mkStatus (st_conditions s) (st_display s) (st_state s) (st_message s) (st_summary s)
    (st_in_progress s) x (st_reconciled_gen s) (st_parents s).

Definition with_reconciled_gen (x : Z) (s : DeploymentStatus) : DeploymentStatus :=
  mkStatus (st_conditions s) (st_display s) (st_state s) (st_message s) (st_summary s)
    (st_in_progress s) (st_last_resync s) x (st_parents s).

Definition with_parents (x : gmap string DependentDeploymentRef) (s : DeploymentStatus) :
    DeploymentStatus :=
  mkStatus (st_conditions s) (st_display s) (st_state s) (st_message s) (st_summary s)
    (st_in_progress s) (st_last_resync s) (st_reconciled_gen s) x.

(** ** DeploymentCluster and Cluster *)

Definition CountType : Type := string.
Definition NotUsed : CountType := "notUsed".
Definition ClusterCounts : CountType := "clusterCounts".
Definition AppCounts : CountType := "appCounts".

Record Summary : Type := mkSum {
  sm_type : CountType;
  sm_total : Z;
  sm_running : Z;
  sm_down : Z;
  sm_unknown : Z
}.

Record Status : Type := mkSt { s_state : StateType; s_message : string; s_summary : Summary }.

Record App : Type := mkDCApp {
  a_name : string;
  a_id : string;
  a_generation : Z;
  a_status : Status
}.

Record DeploymentClusterStatus : Type := mkDCStatus {
  dcs_conditions : list Condition;
  dcs_name : string;
  dcs_status : Status;
  dcs_display : string;
  dcs_last_update : option Z;
  dcs_apps : list App
}.

Record DeploymentCluster : Type := mkDC {
  dc_name : string;
  dc_namespace : string;
  dc_labels : gmap string string;
  dc_deletion : option Z;
  dc_deployment_id : string;
  dc_cluster_id : string;
  dc_spec_namespace : string;
  dc_status : DeploymentClusterStatus
}.

(** ** Fleet, batch and core objects (the fields the code uses) *)

Record GitTarget : Type := mkTarget { gt_name : string; gt_match : gmap string string }.

(** The labels of a GitRepo are never nil: the controller creates its GitRepos
    with labels, and writing to a nil map would panic. *)
Record GitRepo : Type := mkGitRepo {
  gr_name : string;
  gr_namespace : string;
  gr_labels : gmap string string;
  gr_owner : option string;
  gr_repo : string;
  gr_paths : list string;
  gr_helm_secret : string;
  gr_client_secret : string;
  gr_ca_bundle : string;
  gr_targets : list GitTarget;
  gr_polling : option Z;
  gr_force_sync : Z;
  gr_conditions : list GenericCondition;
  gr_display_message : string
}.

Record BundleDeployment : Type := mkBD {
  bd_name : string;
  bd_namespace : string;
  bd_labels : gomap;
  bd_annotations : gomap;
  bd_spec_id : string;
  bd_conditions : list GenericCondition;
  bd_ready : bool;
  bd_non_modified : bool;
  bd_applied_id : string;
  bd_display_state : string
}.

Record ContainerTerminated : Type := mkTerm { ct_reason : string; ct_message : string }.

Record Pod : Type := mkPod {
  pod_name : string;
  pod_phase : string;
  pod_creation : Z;
  pod_terminated : list (option ContainerTerminated)
}.

Record Job : Type := mkJob { job_name : string; job_succeeded : Z }.

#[export] Instance Summary_eq_dec : EqDecision Summary.
Proof. solve_decision. Defined.
#[export] Instance Status_eq_dec : EqDecision Status.
Proof. solve_decision. Defined.
#[export] Instance App_eq_dec : EqDecision App.
Proof. solve_decision. Defined.
#[export] Instance DCStatus_eq_dec : EqDecision DeploymentClusterStatus.
Proof. solve_decision. Defined.
#[export] Instance DC_eq_dec : EqDecision DeploymentCluster.
Proof. solve_decision. Defined.
#[export] Instance GitTarget_eq_dec : EqDecision GitTarget.
Proof. solve_decision. Defined.
#[export] Instance GitRepo_eq_dec : EqDecision GitRepo.
Proof. solve_decision. Defined.
#[export] Instance BD_eq_dec : EqDecision BundleDeployment.
Proof. solve_decision. Defined.
