(* ===== verification/K8sLib.v ===== *)
(** * The Kubernetes helper libraries as an interface

    [meta.FindStatusCondition] and friends, the finalizer helpers of
    [controllerutil] and [kerrors.NewAggregate] are library code.  The model
    takes them as operations of a class, its theorems use only the documented
    behaviour stated as the laws of [K8sLibLaws], and [reference_lib] is one
    implementation that satisfies them. *)

From S2P Require Import Prelude GoStr Types.

Class K8sLib : Type := {
  (** [meta.FindStatusCondition(conds, type)] *)
  find_status_condition : list Condition -> string -> option Condition;
  (** [meta.RemoveStatusCondition(&conds, type)] *)
  remove_status_condition : list Condition -> string -> list Condition;
  (** [cutil.ContainsFinalizer], [AddFinalizer], [RemoveFinalizer] *)
  contains_finalizer : list string -> string -> bool;
  add_finalizer : list string -> string -> list string;
  remove_finalizer : list string -> string -> list string;
  (** [kerrors.NewAggregate(errs)] *)
  new_aggregate : list (option gerror) -> option gerror
}.

(** [meta.IsStatusConditionTrue(conds, type)] *)
Definition is_status_condition_true `{K8sLib} (cs : list Condition) (t : string) : bool :=
  match find_status_condition cs t with
  | Some c => bool_decide (c_status c = ConditionTrue)
  | None => false
  end.

Class K8sLibLaws (L : K8sLib) : Prop := {
  find_status_condition_Some cs t c :
    find_status_condition cs t = Some c -> c ∈ cs /\ c_type c = t;
  find_status_condition_None cs t :
    find_status_condition cs t = None -> forall c, c ∈ cs -> c_type c <> t;
  elem_of_remove_status_condition cs t c :
    c ∈ remove_status_condition cs t <-> c ∈ cs /\ c_type c <> t;
  contains_finalizer_spec fs f : contains_finalizer fs f = true <-> f ∈ fs;
  elem_of_add_finalizer fs f g : g ∈ add_finalizer fs f <-> g ∈ fs \/ g = f;
  elem_of_remove_finalizer fs f g : g ∈ remove_finalizer fs f <-> g ∈ fs /\ g <> f;
  new_aggregate_None es : new_aggregate es = None <-> (forall e, e ∈ es -> e = None)
}.

(** ** A reference implementation *)

Definition ref_find (cs : list Condition) (t : string) : option Condition :=
  find_first (fun c => bool_decide (c_type c = t)) cs.

Definition ref_remove (cs : list Condition) (t : string) : list Condition :=
  base.filter (fun c => c_type c <> t) cs.

Definition ref_contains (fs : list string) (f : string) : bool := bool_decide (f ∈ fs).

Definition ref_add (fs : list string) (f : string) : list string :=
  if decide (f ∈ fs) then fs else fs ++ [f].

Definition ref_rm_finalizer (fs : list string) (f : string) : list string :=
  base.filter (fun g => g <> f) fs.

(** Errors that are not nil, joined as [\[e1, e2\]]. *)
Definition ref_aggregate (es : list (option gerror)) : option gerror :=
  match omap id es with
  | [] => None
  | [e] => Some e
  | l => Some (errorf ("[" +:+ join (map e_msg l) ", " +:+ "]"))
  end.

#[export] Instance reference_lib : K8sLib := {|
  find_status_condition := ref_find;
  remove_status_condition := ref_remove;
  contains_finalizer := ref_contains;
  add_finalizer := ref_add;
  remove_finalizer := ref_rm_finalizer;
  new_aggregate := ref_aggregate
|}.

#[export] Instance reference_lib_laws : K8sLibLaws reference_lib.
Proof.
  constructor; simpl.
  - intros cs t c H. apply find_first_Some in H as [? ?]. by reflect_guards.
  - intros cs t H c Hc He. apply find_first_None with (x := c) in H; [|done].
    by reflect_guards.
  - intros cs t c. unfold ref_remove. rewrite list_elem_of_filter. naive_solver.
  - intros fs f. apply bool_decide_eq_true.
  - intros fs f g. unfold ref_add. case_decide; set_solver.
  - intros fs f g. unfold ref_rm_finalizer. rewrite list_elem_of_filter. naive_solver.
  - intros es. unfold ref_aggregate. split.
    + intros H [e|] He; [|done]. assert (e ∈ omap id es) as Hin.
      { apply list_elem_of_omap. by exists (Some e). }
      destruct (omap id es) as [|? [|? ?]]; [by apply elem_of_nil in Hin|done|done].
    + intros H. destruct (omap id es) as [|e l] eqn:Ho; [done|].
      assert (e ∈ omap id es) as Hin by (rewrite Ho; left).
      apply list_elem_of_omap in Hin as (o & Ho' & Hs). by rewrite (H o Ho') in Hs.
Qed.

(** ** Derived facts *)

Section Derived.
Context {L : K8sLib} {HL : K8sLibLaws L}.

Lemma remove_finalizer_gone fs f : f ∉ remove_finalizer fs f.
Proof. rewrite elem_of_remove_finalizer. naive_solver. Qed.

Lemma contains_finalizer_false fs f : contains_finalizer fs f = false <-> f ∉ fs.
Proof.
  rewrite <- contains_finalizer_spec. destruct (contains_finalizer fs f); naive_solver.
Qed.

Lemma is_status_condition_true_elem cs t :
  is_status_condition_true cs t = true ->
  exists c, c ∈ cs /\ c_type c = t /\ c_status c = ConditionTrue.
Proof.
  unfold is_status_condition_true.
  destruct (find_status_condition cs t) as [c|] eqn:Hf; [|done].
  intros H. reflect_guards. apply find_status_condition_Some in Hf as [? ?]. eauto.
Qed.
End Derived.

#[export] Hint Resolve remove_finalizer_gone : appdep.
