(* ===== verification/Utils.v ===== *)
(** * [pkg/utils]: status conditions, bundle state, messages, clamping *)

From S2P Require Import Prelude GoStr Types.

(** ** Messages *)

Definition MessageFromError (e : option gerror) : string :=
  match e with Some e => e_msg e | None => "" end.

Definition AppendMessage (orig next : string) : string :=
  if bool_decide (orig = "") then next else orig +:+ "; " +:+ next.

(** ** Conditions *)

Definition GetGenericCondition (g : list GenericCondition) (cond : string) :
    option GenericCondition :=
  find_first (fun c => bool_decide (gc_type c = cond)) g.

(** [UpdateStatusCondition]: [now] is [Clock.Now()].  The recursion is the
    loop: skip unrelated conditions, overwrite the first of the type and
    stop, append at the end of the slice otherwise. *)
Fixpoint UpdateStatusCondition (now : Z) (conds : list Condition) (condType : string)
    (status reason : string) (err : option gerror) : list Condition :=
  match conds with
  | [] => [mkCond condType status now reason (MessageFromError err)]
  | c :: rest =>
      if bool_decide (c_type c = condType) then
        mkCond condType status (if bool_decide (c_status c = status) then c_time c else now)
          reason (MessageFromError err) :: rest
      else c :: UpdateStatusCondition now rest condType status reason err
  end.

(** ** BundleDeployments *)

Definition GetState (bd : BundleDeployment) : StateType :=
  match GetGenericCondition (bd_conditions bd) "Ready" with
  | Some c =>
      if bool_decide (bd_spec_id bd = bd_applied_id bd) then
        if bool_decide (gc_status c = ConditionTrue) && bd_ready bd then Running
        else if bd_ready bd && negb (bd_non_modified bd) &&
                bool_decide (bd_display_state bd = "Modified") then Running
        else Down
      else Down
  | None => Down
  end.

Definition GetMessage (bd : BundleDeployment) : string :=
  if bd_ready bd then ""
  else fold_left (fun message c =>
         if bool_decide (gc_status c = ConditionFalse) && negb (bool_decide (gc_message c = ""))
         then AppendMessage message (gc_message c) else message) (bd_conditions bd) "".

Definition GetAppID (bd : BundleDeployment) : string := gmget (bd_labels bd) LabelBundleName.

Definition GetAppName (bd : BundleDeployment) : string := gmget (bd_labels bd) LabelAppName.

Definition GetDeploymentGeneration (bd : BundleDeployment) : Z :=
  match gmlookup (bd_labels bd) "deploymentGeneration" with
  | Some genStr => match parse_int64 genStr with Some gen => gen | None => 0 end
  | None => 0
  end.

Definition GetAppRef (d : Deployment) : string :=
  dp_name (sp_pkg (d_spec d)) +:+ "-" +:+ dp_version (sp_pkg (d_spec d)).

(** ** [ToInt32Clamped] on a 64-bit [int] *)

Definition MaxInt32 : Z := 2147483647.

Definition ToInt32Clamped (i : Z) : Z :=
  if i <? 0 then 0 else if MaxInt32 <? i then MaxInt32 else i.

(** ** Lemmas *)

Lemma AppendMessage_nil (m : string) : AppendMessage "" m = m.
Proof. done. Qed.

(** Appending only ever adds text after what was already there. *)
Lemma AppendMessage_keeps (m n : string) : has_prefix (AppendMessage m n) m = true.
Proof.
  unfold AppendMessage. case_bool_decide as H.
  - subst. by destruct n.
  - apply has_prefix_spec. eauto.
Qed.

Lemma AppendMessage_contains (m n : string) : contains (AppendMessage m n) n = true.
Proof.
  unfold AppendMessage. apply contains_spec. case_bool_decide.
  - exists "", "". by rewrite sapp_nil_r.
  - exists (m +:+ "; "), "". by rewrite sapp_nil_r, sapp_assoc.
Qed.

Section UpdateCondition.
Context (now : Z) (t status reason : string) (err : option gerror).

Abbreviation update cs := (UpdateStatusCondition now cs t status reason err).

(** The conditions of other types are untouched, in order. *)
Lemma update_condition_others (cs : list Condition) :
  base.filter (fun c => c_type c <> t) (update cs) = base.filter (fun c => c_type c <> t) cs.
Proof.
  induction cs as [|c cs IH]; simpl.
  - rewrite filter_cons_False; [done|]. simpl. naive_solver.
  - case_bool_decide as Ht.
    + rewrite !filter_cons_False; [done| |]; simpl; naive_solver.
    + rewrite !filter_cons_True by done. by rewrite IH.
Qed.

(** A condition of the type is there, with the status, reason and message
    asked for. *)
Lemma update_condition_present (cs : list Condition) :
  exists time, find_first (fun c => bool_decide (c_type c = t)) (update cs) =
    Some (mkCond t status time reason (MessageFromError err)).
Proof.
  induction cs as [|c cs IH]; simpl.
  - rewrite bool_decide_true by done. eauto.
  - case_bool_decide as Ht; simpl.
    + rewrite bool_decide_true by done. eauto.
    + rewrite bool_decide_false by done. exact IH.
Qed.

(** The transition time moves exactly when the status does. *)
Lemma update_condition_time (cs : list Condition) (old : Condition) :
  find_first (fun c => bool_decide (c_type c = t)) cs = Some old ->
  find_first (fun c => bool_decide (c_type c = t)) (update cs) =
    Some (mkCond t status (if decide (c_status old = status) then c_time old else now)
            reason (MessageFromError err)).
Proof.
  induction cs as [|c cs IH]; simpl; [done|].
  destruct (bool_decide (c_type c = t)) eqn:Ht; intros H; simplify_eq; simpl.
  - rewrite bool_decide_true by done. by rewrite decide_bool_decide.
  - rewrite Ht. by apply IH.
Qed.

(** One condition per type stays one condition per type. *)
Lemma update_condition_types (cs : list Condition) :
  map c_type (update cs) = map c_type cs \/ map c_type (update cs) = map c_type cs ++ [t] /\ t ∉ map c_type cs.
Proof.
  induction cs as [|c cs IH]; simpl.
  - right. split; [done|]. apply not_elem_of_nil.
  - case_bool_decide as Ht; simpl.
    + left. by rewrite Ht.
    + destruct IH as [-> | [-> Hn]]; [by left|right]. split; [done|].
      rewrite not_elem_of_cons. auto.
Qed.

Lemma update_condition_NoDup (cs : list Condition) :
  NoDup (map c_type cs) -> NoDup (map c_type (update cs)).
Proof.
  intros H. destruct (update_condition_types cs) as [-> | [-> Hn]]; [done|].
  apply NoDup_app. split; [done|]. split; [|apply NoDup_singleton].
  intros x Hx ->%list_elem_of_singleton. done.
Qed.
End UpdateCondition.

Lemma ToInt32Clamped_bounds (i : Z) : 0 <= ToInt32Clamped i <= MaxInt32.
Proof.
  unfold ToInt32Clamped, MaxInt32. destruct (Z.ltb_spec i 0); [lia|].
  destruct (Z.ltb_spec 2147483647 i); lia.
Qed.

Lemma ToInt32Clamped_id (i : Z) : 0 <= i <= MaxInt32 -> ToInt32Clamped i = i.
Proof.
  unfold ToInt32Clamped, MaxInt32. intros. destruct (Z.ltb_spec i 0); [lia|].
  destruct (Z.ltb_spec 2147483647 i); lia.
Qed.

Lemma ToInt32Clamped_mono (i j : Z) : i <= j -> ToInt32Clamped i <= ToInt32Clamped j.
Proof.
  unfold ToInt32Clamped, MaxInt32. intros. 
  destruct (Z.ltb_spec i 0), (Z.ltb_spec j 0), (Z.ltb_spec 2147483647 i), (Z.ltb_spec 2147483647 j); lia.
Qed.

#[export] Hint Resolve ToInt32Clamped_bounds AppendMessage_keeps AppendMessage_contains : appdep.
