(* ===== verification/Pb.v ===== *)
(** * The northbound protobuf messages the services build and read

    Only the fields the hand-written code uses; nested messages the code always
    fills in are values, not optional pointers. *)

From S2P Require Import Prelude GoStr Types.

(** [deploymentpb.State] *)
Inductive State : Type :=
  | State_UNKNOWN
  | State_RUNNING
  | State_DOWN
  | State_INTERNAL_ERROR
  | State_DEPLOYING
  | State_UPDATING
  | State_TERMINATING
  | State_ERROR
  | State_NO_TARGET_CLUSTERS.

#[export] Instance State_eq_dec : EqDecision State.
Proof. solve_decision. Defined.

(** [State.String()] *)
Definition State_String (s : State) : string :=
  match s with
  | State_UNKNOWN => "UNKNOWN"
  | State_RUNNING => "RUNNING"
  | State_DOWN => "DOWN"
  | State_INTERNAL_ERROR => "INTERNAL_ERROR"
  | State_DEPLOYING => "DEPLOYING"
  | State_UPDATING => "UPDATING"
  | State_TERMINATING => "TERMINATING"
  | State_ERROR => "ERROR"
  | State_NO_TARGET_CLUSTERS => "NO_TARGET_CLUSTERS"
  end.

Record PbSummary : Type := mkPbSummary {
  pbs_total : Z;
  pbs_running : Z;
  pbs_down : Z;
  pbs_unknown : Z;
  pbs_type : string
}.

Record PbStatus : Type := mkPbStatus {
  pbst_state : State;
  pbst_message : string;
  pbst_summary : PbSummary
}.

Record PbApp : Type := mkPbApp { pba_id : string; pba_name : string; pba_status : PbStatus }.

(** [deploymentpb.Cluster], [ClusterInfo] and [Deployment] *)
Record PbCluster : Type := mkPbCluster {
  pbc_name : string;
  pbc_id : string;
  pbc_status : PbStatus;
  pbc_apps : list PbApp
}.

Record PbClusterInfo : Type := mkPbClusterInfo { pbi_name : string; pbi_id : string }.

Record PbDeployment : Type := mkPbDeployment {
  pbd_name : string;
  pbd_display_name : string;
  pbd_app_name : string;
  pbd_app_version : string;
  pbd_deploy_id : string;
  pbd_status : PbStatus
}.

(** The list requests: [PageSize] and [Offset] are [int32]. *)
Record ListRequest : Type := mkListRequest {
  lr_page_size : Z;
  lr_offset : Z;
  lr_order_by : string;
  lr_filter : string
}.
