(* ===== verification/ClusterTypes.v ===== *)
(** * The Cluster resource of [api/v1beta1], the Fleet and CAPI clusters it mirrors,
      and what the cluster-side controllers ask of the outside *)

From S2P Require Import Prelude Prog GoStr Types.

(** ** [cluster_types.go] *)

Definition ClusterConditionKubeconfig : string := "KubeconfigReady".

Record ClusterSpec : Type := mkClSpec {
  cl_spec_name : string;
  cl_display_name : string;
  cl_kubeconfig_secret : string
}.

Record BundleSummary : Type := mkBSum {
  bs_not_ready : string; bs_wait_applied : string; bs_err_applied : string; bs_out_of_sync : string;
  bs_modified : string; bs_ready : string; bs_pending : string; bs_desired_ready : string
}.

Record ResourceCounts : Type := mkRCounts {
  rc_ready : string; rc_desired_ready : string; rc_wait_applied : string; rc_modified : string;
  rc_orphaned : string; rc_missing : string; rc_unknown : string; rc_not_ready : string
}.

(** [LastSeen] is a time; the zero time lies before all others. *)
Record FleetAgentStatus : Type := mkAgent { ag_last_seen : Z; ag_namespace : string }.

Record ClusterDisplay : Type := mkClDisplay {
  cd_ready_bundles : string; cd_ready_nodes : string; cd_sample_node : string; cd_state : string
}.

Record FleetStatus : Type := mkFleetStatus {
  fs_bundles : BundleSummary;
  fs_resources : ResourceCounts;
  fs_agent : FleetAgentStatus;
  fs_display : ClusterDisplay
}.

Record ClusterStatus : Type := mkClStatus {
  cl_conditions : list Condition;
  cl_display : string;
  cl_state : StateType;
  cl_message : string;
  cl_last_update : string;
  cl_reconciled_gen : Z;
  cl_fleet_gen : Z;
  cl_fleet : FleetStatus
}.

Record Cluster : Type := mkCluster {
  cl_name : string;
  cl_namespace : string;
  cl_labels : gomap;
  cl_deletion : option Z;
  cl_generation : Z;
  cl_owner : option string;
  cl_spec : ClusterSpec;
  cl_status : ClusterStatus
}.

(** ** Fleet's Cluster (the fields the code reads and writes) *)

Record FleetBundleSummary : Type := mkFBSum {
  fb_not_ready : Z; fb_wait_applied : Z; fb_err_applied : Z; fb_out_of_sync : Z;
  fb_modified : Z; fb_ready : Z; fb_pending : Z; fb_desired_ready : Z
}.

Record FleetResourceCounts : Type := mkFRCounts {
  fr_ready : Z; fr_desired_ready : Z; fr_wait_applied : Z; fr_modified : Z;
  fr_orphaned : Z; fr_missing : Z; fr_unknown : Z; fr_not_ready : Z
}.

Record FleetClusterStatus : Type := mkFCStatus {
  fc_summary : FleetBundleSummary;
  fc_resources : FleetResourceCounts;
  fc_agent : FleetAgentStatus;
  fc_display_bundles : string;
  fc_display_state : string
}.

Record FleetCluster : Type := mkFleetCluster {
  fc_name : string;
  fc_namespace : string;
  fc_labels : gomap;
  fc_annotations : gomap;
  fc_generation : Z;
  fc_owner : option string;
  fc_kubeconfig_secret : string;
  fc_status : FleetClusterStatus
}.

(** ** The CAPI Cluster *)

Record CapiCluster : Type := mkCapi {
  ca_name : string;
  ca_namespace : string;
  ca_labels : gomap;
  ca_annotations : gomap;
  ca_phase : string;
  ca_control_plane_ready : bool;
  ca_infrastructure_ready : bool;
  ca_infrastructure : option string
}.

#[export] Instance ClusterSpec_eq_dec : EqDecision ClusterSpec.
Proof. solve_decision. Defined.
#[export] Instance BundleSummary_eq_dec : EqDecision BundleSummary.
Proof. solve_decision. Defined.
#[export] Instance ResourceCounts_eq_dec : EqDecision ResourceCounts.
Proof. solve_decision. Defined.
#[export] Instance FleetAgentStatus_eq_dec : EqDecision FleetAgentStatus.
Proof. solve_decision. Defined.
#[export] Instance ClusterDisplay_eq_dec : EqDecision ClusterDisplay.
Proof. solve_decision. Defined.
#[export] Instance FleetStatus_eq_dec : EqDecision FleetStatus.
Proof. solve_decision. Defined.
#[export] Instance ClusterStatus_eq_dec : EqDecision ClusterStatus.
Proof. solve_decision. Defined.
#[export] Instance Cluster_eq_dec : EqDecision Cluster.
Proof. solve_decision. Defined.
#[export] Instance FleetBundleSummary_eq_dec : EqDecision FleetBundleSummary.
Proof. solve_decision. Defined.
#[export] Instance FleetResourceCounts_eq_dec : EqDecision FleetResourceCounts.
Proof. solve_decision. Defined.
#[export] Instance FleetClusterStatus_eq_dec : EqDecision FleetClusterStatus.
Proof. solve_decision. Defined.
#[export] Instance FleetCluster_eq_dec : EqDecision FleetCluster.
Proof. solve_decision. Defined.
#[export] Instance CapiCluster_eq_dec : EqDecision CapiCluster.
Proof. solve_decision. Defined.

(** ** Requests *)

Inductive ceff : Type :=
  | CNow                                            (* time.Now(), time.Since, Clock.Now() *)
  | GetDC (ns name : string)
  | GetCluster (ns name : string)
  | GetFleetCluster (ns name : string)
  | GetCapiCluster (ns name : string)
  | GetSecret (ns name : string)
  | ListBDsIn (ns : string) (labels : gmap string string)
  | ListDeploymentsByProject (project : string)
  | ListDCsByCluster (key : string)
  | CreateDC (dc : DeploymentCluster)
  | RemoveDC (dc : DeploymentCluster)               (* r.Client.Delete(ctx, dc) *)
  | PatchDCStatus (before after : DeploymentCluster)
  | CreateCluster (c : Cluster)
  | DeleteCluster (c : Cluster)
  | ClusterPatchHelper (c : Cluster)                (* patch.NewPatchHelper *)
  | PatchCluster (before after : Cluster)           (* patchHelper.Patch *)
  | OwnCluster (fc : FleetCluster) (c : Cluster)    (* SetControllerReference *)
  | OwnFleetCluster (capi : CapiCluster) (fc : FleetCluster)
  | CreateFleetCluster (fc : FleetCluster)
  | UpdateFleetCluster (fc : FleetCluster)
  | UnsetDCMetric (project id display cluster name state : string)
  | SetDCMetric (project id display cluster name state : string) (val : Z)
  | UnsetTimestamps (project id : string)
  | StampTime (project id display state op : string)
  | StampDifference (project id display state1 op1 state2 op2 : string).

#[export] Instance ceff_eq_dec : EqDecision ceff.
Proof. solve_decision. Defined.

Definition cresp (e : ceff) : Type :=
  match e with
  | CNow => Z
  | GetDC _ _ => res DeploymentCluster
  | GetCluster _ _ => res Cluster
  | GetFleetCluster _ _ => res FleetCluster
  | GetCapiCluster _ _ => res CapiCluster
  | GetSecret _ _ => res string
  | ListBDsIn _ _ => res (list BundleDeployment)
  | ListDeploymentsByProject _ => res (list Deployment)
  | ListDCsByCluster _ => res (list DeploymentCluster)
  | OwnCluster _ _ => res Cluster
  | OwnFleetCluster _ _ => res FleetCluster
  | CreateDC _ | RemoveDC _ | PatchDCStatus _ _ | CreateCluster _ | DeleteCluster _
  | ClusterPatchHelper _ | PatchCluster _ _ | CreateFleetCluster _ | UpdateFleetCluster _ => option gerror
  | UnsetDCMetric _ _ _ _ _ _ | SetDCMetric _ _ _ _ _ _ _ | UnsetTimestamps _ _
  | StampTime _ _ _ _ _ | StampDifference _ _ _ _ _ _ _ => unit
  end.

Abbreviation cprog := (prog ceff cresp).
Abbreviation cevent := (event ceff cresp).

Definition ccall (e : ceff) : cprog (cresp e) := call e.

(** [unfold_trace] through [ccall]. *)
Ltac cunfold H := repeat (first [progress unfold ccall in H | trace_step H]).

(** [ctrl.Result] and the error. *)
Record cresult : Type := mkCResult { cr_requeue_after : Z; cr_err : option gerror }.

Definition done_ok : cresult := mkCResult 0 None.
Definition failed (e : gerror) : cresult := mkCResult 0 (Some e).
