(* ===== verification/Kube.v ===== *)
(** * What the controllers ask of the outside

    One constructor per call that leaves the repository: the Kubernetes API
    (reads, writes), the Git remote behind [gitclient.Repository], the catalog
    and vault clients, the metrics registries, the clock and the name
    generator.  [resp] is the Go result of the call.  Nothing is assumed
    about the answers here. *)

From S2P Require Import Prelude Prog GoStr Types.

Inductive eff : Type :=
  (** clock, generated names, process-wide configuration *)
  | Now                                    (* time.Now(), Clock.Now() *)
  | GenerateName (prefix : string)         (* names.SimpleNameGenerator *)
  | GitCaCert                              (* utils.GetGitCaCert() *)
  | RemoveAll (dir : string)               (* os.RemoveAll *)
  (** reads *)
  | GetDeployment (ns name : string)
  | ListGitRepos (ns owner : string)
  | ListDCs (labels : gmap string string)
  | ListBDs (labels : gmap string string)  (* no labels: all of them *)
  | ListDeploymentsByRef (appRef : string)
  | ListJobs (owner : string)
  | ListPods (labels : gmap string string)
  (** writes *)
  | DeleteBD (bd : BundleDeployment)
  | DeleteDC (dc : DeploymentCluster)
  | DeleteGitRepo (gr : GitRepo)
  | UpdateGitRepo (gr : GitRepo)
  | CreateGitRepo (gr : GitRepo)
  | SetControllerReference (owner : Deployment) (gr : GitRepo)
  | PatchSpec (before after : Deployment)
  | PatchStatus (before after : Deployment)
  | ConvertObject (d : Deployment)         (* GVKForObject and ToUnstructured *)
  (** the Git remote: [gitclient.ClientCreator], [gitclient.Repository] *)
  | GitRemoteURL (repo : string)           (* gitclient.GetRemoteURLWithCreds *)
  | GitNew (repo : string)
  | GitExists (repo : string)
  | GitDelete (repo : string)
  | GitClone (repo dir : string)
  | GitInitialize (repo dir : string)
  | GitCommit (repo : string)
  | GitPush (repo : string)
  | GenerateFleetConfigs (d : Deployment) (dir : string)
  (** vault and catalog *)
  | M2MToken
  | VaultLogout (token : string)
  | CatalogSetDeployed (project name version : string) (deployed : bool)
  (** metrics and events *)
  | DeleteDeploymentMetric (project id display state : string)
  | SetDeploymentMetric (project id display state : string) (val : Z)
  | DeleteDCMetric (project id display cluster name state : string)
  | DeleteTimestamps (project id : string)
  | RecordTimestamp (project id display state op : string)
  | CalcTimeDifference (project id display state1 op1 state2 op2 : string)
  | RecordEvent (etype reason msg : string).

#[export] Instance eff_eq_dec : EqDecision eff.
Proof. solve_decision. Defined.

Definition resp (e : eff) : Type :=
  match e with
  | Now => Z
  | GenerateName _ => string
  | GitCaCert => string
  | RemoveAll _ => unit
  | GetDeployment _ _ => res Deployment
  | ListGitRepos _ _ => res (list GitRepo)
  | ListDCs _ => res (list DeploymentCluster)
  | ListBDs _ => res (list BundleDeployment)
  | ListDeploymentsByRef _ => res (list Deployment)
  | ListJobs _ => res (list Job)
  | ListPods _ => res (list Pod)
  | DeleteBD _ | DeleteDC _ | DeleteGitRepo _ | UpdateGitRepo _ | CreateGitRepo _ => option gerror
  | SetControllerReference _ _ => res GitRepo
  | PatchSpec _ _ | PatchStatus _ _ | ConvertObject _ => option gerror
  | GitRemoteURL _ => res string
  | GitExists _ => res bool
  | GitNew _ | GitDelete _ | GitClone _ _ | GitInitialize _ _ | GitCommit _ | GitPush _ => option gerror
  | GenerateFleetConfigs _ _ => option gerror
  | M2MToken => res string
  | VaultLogout _ => option gerror
  | CatalogSetDeployed _ _ _ _ => option gerror
  | DeleteDeploymentMetric _ _ _ _ | SetDeploymentMetric _ _ _ _ _ => unit
  | DeleteDCMetric _ _ _ _ _ _ | DeleteTimestamps _ _ => unit
  | RecordTimestamp _ _ _ _ _ | CalcTimeDifference _ _ _ _ _ _ _ => unit
  | RecordEvent _ _ _ => unit
  end.

Abbreviation kprog := (prog eff resp).
Abbreviation kevent := (event eff resp).
Abbreviation khandler := (handler eff resp).

Definition kcall (e : eff) : kprog (resp e) := call e.

(** The calls that change a cluster object, the Git remote or the catalog:
    everything but reads, clocks, metrics, events and local scratch files. *)
Definition is_write (e : eff) : bool :=
  match e with
  | DeleteBD _ | DeleteDC _ | DeleteGitRepo _ | UpdateGitRepo _ | CreateGitRepo _
  | PatchSpec _ _ | PatchStatus _ _ | GitDelete _ | GitInitialize _ _ | GitCommit _ | GitPush _
  | CatalogSetDeployed _ _ _ _ => true
  | _ => false
  end.

(** The BundleDeployments and DeploymentClusters a trace deletes. *)
Definition sel_bd (x : kevent) : option BundleDeployment :=
  match projT1 x with DeleteBD bd => Some bd | _ => None end.

Definition sel_dc (x : kevent) : option DeploymentCluster :=
  match projT1 x with DeleteDC dc => Some dc | _ => None end.

Definition deleted_bds (t : list kevent) : list BundleDeployment := omap sel_bd t.
Definition deleted_dcs (t : list kevent) : list DeploymentCluster := omap sel_dc t.

Lemma deleted_dcs_app t1 t2 : deleted_dcs (t1 ++ t2) = deleted_dcs t1 ++ deleted_dcs t2.
Proof. apply omap_app. Qed.

Lemma deleted_bds_app t1 t2 : deleted_bds (t1 ++ t2) = deleted_bds t1 ++ deleted_bds t2.
Proof. apply omap_app. Qed.

#[export] Hint Rewrite deleted_dcs_app deleted_bds_app : appdep_rw.

(** [unfold_trace] through [kcall]. *)
Ltac kunfold H := repeat (first [progress unfold kcall in H | trace_step H]).
