(* ===== verification/Samples.v ===== *)
(** * Concrete objects for the witnesses, and an environment to run programs in *)

From S2P Require Import Prelude Prog GoStr Types Kube.

Definition sample_pkg : DeploymentPackageRef := mkDPRef "wordpress" "0.1.0" "default" false [].

Definition sample_helm : HelmApp := mkHelm "chart" "1.0" "" "" "" "".

Definition sample_app (name cluster : string) : Application :=
  mkApp name "0.1.0" "ns" ∅ [{[ClusterName := cluster]}] "" "" [] false [] sample_helm ∅ false.

Definition sample_spec : DeploymentSpec :=
  mkSpec "blog" "proj" sample_pkg [sample_app "wp" "cluster-a"] Targeted ∅ (mkNet "" "" "").

Definition sample_status : DeploymentStatus :=
  mkStatus [] "" "" "" (mkSummary 0 0 0 0) false "" 0 ∅.

(** A deployment as the API server first returns it. *)
Definition sample_deployment : Deployment :=
  mkDeployment "deployment-x" "project-1" "0123456789ab" {[AppOrchActiveProjectID := "project-1"]}
    1 "" 0 None [] sample_spec sample_status.

Definition sample_dc (name cluster : string) (state : StateType) : DeploymentCluster :=
  mkDC name "project-1" {[DeploymentID := GetId sample_deployment]} None
    (GetId sample_deployment) cluster "project-1"
    (mkDCStatus [] cluster (mkSt state "" (mkSum AppCounts 1 0 0 0)) "" None []).

Definition sample_bd (name ns : string) (labels : gomap) : BundleDeployment :=
  mkBD name ns labels None "" [] true true "" "Ready".

(** An environment that answers every read with the given lists and accepts
    every write; the clock is fixed and the state is not used. *)
Record world : Type := mkWorld {
  w_now : Z;
  w_deployment : res Deployment;
  w_gitrepos : res (list GitRepo);
  w_dcs : res (list DeploymentCluster);
  w_bds : res (list BundleDeployment);
  w_git_exists : res bool;
  w_fleet : option gerror
}.

Definition no_error : option gerror := None.

Definition answer (w : world) (e : eff) : resp e :=
  match e return resp e with
  | Now => w_now w
  | GenerateName prefix => prefix +:+ "abcde"
  | GitCaCert => ""
  | RemoveAll _ => tt
  | GetDeployment _ _ => w_deployment w
  | ListGitRepos _ _ => w_gitrepos w
  | ListDCs _ => w_dcs w
  | ListBDs _ => w_bds w
  | ListDeploymentsByRef _ => Ok []
  | ListJobs _ => Ok []
  | ListPods _ => Ok []
  | DeleteBD _ | DeleteDC _ | DeleteGitRepo _ | UpdateGitRepo _ | CreateGitRepo _ => no_error
  | SetControllerReference _ gr => Ok gr
  | PatchSpec _ _ | PatchStatus _ _ | ConvertObject _ => no_error
  | GitRemoteURL repo => Ok ("https://git/" +:+ repo)
  | GitExists _ => w_git_exists w
  | GitNew _ | GitDelete _ | GitClone _ _ | GitInitialize _ _ | GitCommit _ | GitPush _ => no_error
  | GenerateFleetConfigs _ _ => w_fleet w
  | M2MToken => Ok "token"
  | VaultLogout _ => no_error
  | CatalogSetDeployed _ _ _ _ => no_error
  | DeleteDeploymentMetric _ _ _ _ | SetDeploymentMetric _ _ _ _ _ => tt
  | DeleteDCMetric _ _ _ _ _ _ | DeleteTimestamps _ _ => tt
  | RecordTimestamp _ _ _ _ _ | CalcTimeDifference _ _ _ _ _ _ _ => tt
  | RecordEvent _ _ _ => tt
  end.

Definition env : khandler world := fun e w => (answer w e, w).

(** The log of a run, its requests and answers. *)
Definition log_of {A : Type} (w : world) (p : kprog A) : list kevent := (run_log env w p).2.

Definition result_of {A : Type} (w : world) (p : kprog A) : A := (run env w p).1.

Lemma log_of_traces {A : Type} (w : world) (p : kprog A) : traces p (log_of w p) (result_of w p).
Proof.
  unfold log_of, result_of. rewrite <- run_log_run. apply run_log_traces.
Qed.

Lemma log_of_result {A : Type} (w : world) (p : kprog A) (a : A) :
  result_of w p = a -> traces p (log_of w p) a.
Proof. intros <-. apply log_of_traces. Qed.

Lemma log_of_pair {A B : Type} (w : world) (p : kprog (A * B)) :
  traces p (log_of w p) ((result_of w p).1, (result_of w p).2).
Proof. rewrite <- surjective_pairing. apply log_of_traces. Qed.

Lemma log_of_triple {A B C : Type} (w : world) (p : kprog (A * B * C)) :
  traces p (log_of w p) ((result_of w p).1.1, (result_of w p).1.2, (result_of w p).2).
Proof. rewrite <- !surjective_pairing. apply log_of_traces. Qed.

(** Nothing deployed, the remote repository absent. *)
Definition empty_world : world :=
  mkWorld 1000000000000 (Ok sample_deployment) (Ok []) (Ok []) (Ok []) (Ok false) None.

Definition with_bds (bds : res (list BundleDeployment)) (w : world) : world :=
  mkWorld (w_now w) (w_deployment w) (w_gitrepos w) (w_dcs w) bds (w_git_exists w) (w_fleet w).

Definition with_dcs (dcs : res (list DeploymentCluster)) (w : world) : world :=
  mkWorld (w_now w) (w_deployment w) (w_gitrepos w) dcs (w_bds w) (w_git_exists w) (w_fleet w).

Definition with_git (b : res bool) (w : world) : world :=
  mkWorld (w_now w) (w_deployment w) (w_gitrepos w) (w_dcs w) (w_bds w) b (w_fleet w).
