(* ===== verification/ClusterSamples.v ===== *)
(** * Concrete cluster objects and an environment for the cluster-side controllers *)

From S2P Require Import Prelude Prog GoStr Types ClusterTypes Samples.

Definition sample_summary8 : FleetBundleSummary := mkFBSum 0 0 0 0 0 2 0 2.
Definition sample_counts8 : FleetResourceCounts := mkFRCounts 4 4 0 0 0 0 0 0.

Definition sample_fleet_status (seen : Z) : FleetClusterStatus :=
  mkFCStatus sample_summary8 sample_counts8 (mkAgent seen "cattle-fleet") "2/2" "".

Definition sample_fleet_cluster (seen : Z) : FleetCluster :=
  mkFleetCluster "cluster-a" "project-1"
    (Some {[ClusterName := "Edge A"; ClusterOrchKeyProjectID := "project-1"]}) None 7 None "cluster-a-kubeconfig"
    (sample_fleet_status seen).

Definition empty_fleet_status : FleetStatus :=
  mkFleetStatus (mkBSum "" "" "" "" "" "" "" "") (mkRCounts "" "" "" "" "" "" "" "") (mkAgent 0 "")
    (mkClDisplay "" "" "" "").

Definition sample_cluster (state : StateType) : Cluster :=
  mkCluster "cluster-a" "project-1" None None 3 None (mkClSpec "cluster-a" "Edge A" "cluster-a-kubeconfig")
    (mkClStatus [] "" state "" "" 0 0 empty_fleet_status).

Definition sample_capi : CapiCluster :=
  mkCapi "cluster-a" "project-1" (Some {[ClusterName := "Edge A"]}) None "Provisioned" true true (Some "infra-a").

(** The answers of a cluster-side environment. *)
Record cworld : Type := mkCWorld {
  cw_now : Z;
  cw_dc : res DeploymentCluster;
  cw_cluster : res Cluster;
  cw_fleet : res FleetCluster;
  cw_capi : res CapiCluster;
  cw_bds : res (list BundleDeployment);
  cw_deployments : res (list Deployment)
}.

Definition canswer (w : cworld) (e : ceff) : cresp e :=
  match e return cresp e with
  | CNow => cw_now w
  | GetDC _ _ => cw_dc w
  | GetCluster _ _ => cw_cluster w
  | GetFleetCluster _ _ => cw_fleet w
  | GetCapiCluster _ _ => cw_capi w
  | GetSecret _ name => Ok name
  | ListBDsIn _ _ => cw_bds w
  | ListDeploymentsByProject _ => cw_deployments w
  | ListDCsByCluster _ => Ok []
  | OwnCluster _ c => Ok c
  | OwnFleetCluster _ fc => Ok fc
  | CreateDC _ | RemoveDC _ | PatchDCStatus _ _ | CreateCluster _ | DeleteCluster _
  | ClusterPatchHelper _ | PatchCluster _ _ | CreateFleetCluster _ | UpdateFleetCluster _ => no_error
  | UnsetDCMetric _ _ _ _ _ _ | SetDCMetric _ _ _ _ _ _ _ | UnsetTimestamps _ _
  | StampTime _ _ _ _ _ | StampDifference _ _ _ _ _ _ _ => tt
  end.

Definition cenv : handler ceff cresp cworld := fun e w => (canswer w e, w).

Definition clog {A : Type} (w : cworld) (p : cprog A) : list cevent := (run_log cenv w p).2.

Definition cresult_of {A : Type} (w : cworld) (p : cprog A) : A := (run cenv w p).1.

Lemma clog_traces {A : Type} (w : cworld) (p : cprog A) : traces p (clog w p) (cresult_of w p).
Proof. unfold clog, cresult_of. rewrite <- run_log_run. apply run_log_traces. Qed.

Lemma clog_result {A : Type} (w : cworld) (p : cprog A) (a : A) :
  cresult_of w p = a -> traces p (clog w p) a.
Proof. intros <-. apply clog_traces. Qed.

(** A run whose log is known. *)
Lemma clog_known {A : Type} (w : cworld) (p : cprog A) (a : A) (t : list cevent) :
  run_log cenv w p = (a, w, t) -> traces p t a.
Proof. intros H. pose proof (run_log_traces cenv p w) as Ht. by rewrite H in Ht. Qed.
