(* ===== verification/DataSelect.v ===== *)
(** * [pkg/utils/dataselector], [pkg/utils/parser] and
      [internal/northbound/dataselection.go]: filtering, sorting and paging of
      the northbound lists *)

From S2P Require Import Prelude GoStr Types Pb.
From Stdlib Require Import Ascii Sorted Permutation.

(** ** Go's [sort] and [regexp] as interfaces

    [sort.Sort] promises a permutation, in order when [Less] is a strict weak
    order, and no stability.  [regexp.MatchString] is only specified on the
    patterns a wildcard filter without regexp metacharacters produces. *)
Class GoSort : Type := { go_sort : forall {T : Type}, (T -> T -> bool) -> list T -> list T }.

Definition asymmetric {T} (less : T -> T -> bool) : Prop :=
  forall a b, less a b = true -> less b a = false.
Definition neg_transitive {T} (less : T -> T -> bool) : Prop :=
  forall a b c, less b a = false -> less c b = false -> less c a = false.

Class GoSortLaws (S : GoSort) : Prop := {
  go_sort_perm {T} (less : T -> T -> bool) l : Permutation (go_sort less l) l;
  go_sort_sorted {T} (less : T -> T -> bool) l :
    asymmetric less -> neg_transitive less ->
    StronglySorted (fun a b => less b a = false) (go_sort less l)
}.

(** Pieces of a wildcard pattern: a literal byte, [.] and [.*]. *)
Inductive ritem : Type := RChar (c : ascii) | RAny | RStar.

#[export] Instance ritem_eq_dec : EqDecision ritem.
Proof. solve_decision. Defined.

Definition is_meta (c : ascii) : bool :=
  existsb (fun m => bool_decide (c = m)) (to_list "\.+*?()|[]{}^$").

Definition render_item (i : ritem) : string :=
  match i with RChar c => String c "" | RAny => "." | RStar => ".*" end.

Definition render (l : list ritem) : string := fold_right (fun i s => render_item i +:+ s) "" l.

Definition newline : ascii := ascii_of_nat 10.

(** What the pieces match, anchored at both ends; [.] is any byte but newline. *)
Fixpoint items_match (l : list ritem) (s : list ascii) {struct l} : bool :=
  match l with
  | [] => match s with [] => true | _ => false end
  | RChar c :: l' => match s with a :: s' => bool_decide (a = c) && items_match l' s' | [] => false end
  | RAny :: l' => match s with a :: s' => negb (bool_decide (a = newline)) && items_match l' s' | [] => false end
  | RStar :: l' =>
      (fix star (s : list ascii) : bool :=
         items_match l' s ||
         match s with a :: s' => negb (bool_decide (a = newline)) && star s' | [] => false end) s
  end.

Definition item_ok (i : ritem) : bool :=
  match i with RChar c => negb (is_meta c) && Nat.ltb (nat_of_ascii c) 128 | _ => true end.

Class GoRegexp : Type := {
  (** [regexp.MatchString(pattern, s)]; [None] is the error result *)
  match_string : string -> string -> option bool
}.

Class GoRegexpLaws (G : GoRegexp) : Prop := {
  match_string_items l s :
    forallb item_ok l = true ->
    match_string ("^" +:+ render l +:+ "$") s = Some (items_match l (to_list s))
}.

(** ** Comparable values ([dataselector.go], [std_comparable_types.go]) *)

Inductive Comparable : Type :=
  | StdComparableInt (n : Z)
  | StdComparableString (s : string)
  | StdComparableRFC3339Timestamp (s : string)
  | StdComparableTime (unix : Z).

Definition intsCompare (a b : Z) : Z := if b <? a then 1 else if a =? b then 0 else -1.
Definition ints64Compare (a b : Z) : Z := if b <? a then 1 else if a =? b then 0 else -1.

Section Comparable.
(** [time.Parse(time.RFC3339, s)] and then [Unix()] *)
Context (parse_rfc3339 : string -> option Z) {G : GoRegexp}.

(** [Compare]; [None] is the panic of a failed type assertion. *)
Definition Compare (sc otherV : Comparable) : option Z :=
  match sc, otherV with
  | StdComparableInt a, StdComparableInt b => Some (intsCompare a b)
  | StdComparableString a, StdComparableString b => Some (scompare (to_lower a) (to_lower b))
  | StdComparableRFC3339Timestamp a, StdComparableRFC3339Timestamp b =>
      match parse_rfc3339 a, parse_rfc3339 b with
      | Some ta, Some tb => Some (ints64Compare ta tb)
      | _, _ => Some (scompare a b)
      end
  | StdComparableTime a, StdComparableTime b => Some (ints64Compare a b)
  | _, _ => None
  end.

Definition checkWildcardPattern (pattern : string) : string :=
  let pattern := if has_prefix pattern "*" then ".*" +:+ trim_prefix pattern "*" else pattern in
  "^" +:+ replace_all_char "*" ".*" pattern +:+ "$".

Definition matchesRegx (fieldValue pattern : string) : bool :=
  match match_string pattern fieldValue with Some m => m | None => false end.

(** [Contains]; [None] is a panic. *)
Definition Contains (sc otherV : Comparable) : option bool :=
  match sc with
  | StdComparableString s =>
      match otherV with
      | StdComparableString other =>
          let lowerOther := to_lower other in
          let lowerSc := to_lower (to_lower s) in
          if contains lowerOther "*"
          then Some (matchesRegx lowerSc (checkWildcardPattern lowerOther))
          else Some (contains lowerSc lowerOther)
      | _ => Some false
      end
  | _ => match Compare sc otherV with Some c => Some (c =? 0) | None => None end
  end.
End Comparable.

(** ** The selector *)

(** [DataItem]: a field that does not exist is [None]. *)
Class DataItem (T : Type) : Type := { GetField : T -> string -> option Comparable }.

(** What [Sort] needs of a data item: a field is absent for all items or a
    string for all items. *)
Class UniformFields (T : Type) `{DataItem T} : Prop := {
  field_kind (f : string) :
    (forall x : T, GetField x f = None) \/
    (forall x : T, exists s, GetField x f = Some (StdComparableString s))
}.

Record OrderBy : Type := mkOrderBy { ob_field : string; ob_asc : bool }.
Record FilterBy : Type := mkFilterBy { fb_field : string; fb_value : Comparable }.
Record PaginationQuery : Type := mkPagination { pq_size : Z; pq_offset : Z }.

Record DataSelectQuery : Type := mkQuery {
  q_page : PaginationQuery;
  q_sort : list OrderBy;
  q_filter : list FilterBy
}.

Definition DefaultPageSize : Z := 20.
Definition MaxPageSize : Z := 500.
Definition MinPageSize : Z := 0.
Definition MinOffset : Z := 0.

Definition NewPaginationQuery (pageSize offSet : Z) : PaginationQuery := mkPagination pageSize offSet.

(** [NewSortQuery]: ["asc"|"desc", field] pairs; anything else is [NoSort]. *)
Fixpoint sort_pairs (raw : list string) : option (list OrderBy) :=
  match raw with
  | [] => Some []
  | [_] => None
  | orderOption :: fieldName :: rest =>
      if bool_decide (orderOption = "asc") then
        (fun l => mkOrderBy fieldName true :: l) <$> sort_pairs rest
      else if bool_decide (orderOption = "desc") then
        (fun l => mkOrderBy fieldName false :: l) <$> sort_pairs rest
      else None
  end.

Definition NewSortQuery (raw : list string) : list OrderBy := default [] (sort_pairs raw).

Definition IsValidPagination (p : PaginationQuery) : option gerror :=
  if pq_size p <? MinPageSize then
    Some (mkErr KInvalid ("validation error:
 - page_size: value must be greater than or equal to " +:+ itoa MinPageSize +:+ " [uint32.gte]"))
  else if MaxPageSize <? pq_size p then
    Some (mkErr KInvalid ("validation error:
 - page_size: value must be less than or equal to " +:+ itoa MaxPageSize +:+ " [uint32.lte]"))
  else if pq_offset p <? MinOffset then
    Some (mkErr KInvalid "validation error:
 - offset: value must be greater than or equal to 0 [uint32.gte]")
  else None.

Definition IsPageAvailable (p : PaginationQuery) (itemsCount startingIndex : Z) : bool :=
  (startingIndex <? itemsCount) && (0 <? pq_size p).

Definition GetPaginationSettings (p : PaginationQuery) (itemsCount : Z) : Z * Z :=
  let startIndex := pq_offset p in
  let endIndex := wrap64 (startIndex + pq_size p) in
  let endIndex := if endIndex <? 0 then startIndex else endIndex in
  let endIndex := if itemsCount <? endIndex then itemsCount else endIndex in
  (startIndex, endIndex).

(** [l\[i:j\]]; [None] is the out-of-range panic. *)
Definition slice {T} (l : list T) (i j : Z) : option (list T) :=
  if (0 <=? i) && (i <=? j) && (j <=? zlen l)
  then Some (take (Z.to_nat (j - i)) (drop (Z.to_nat i) l)) else None.

Section Selector.
Context (parse_rfc3339 : string -> option Z) {G : GoRegexp} {S : GoSort} {T : Type} `{DataItem T}.

(** [Less(i, j)] on the two elements; [None] is a panic.  The loop over the
    order-by list stops at a field that is not there. *)
Fixpoint Less (orderBys : list OrderBy) (x y : T) : option bool :=
  match orderBys with
  | [] => Some false
  | orderBy :: rest =>
      match GetField x (ob_field orderBy), GetField y (ob_field orderBy) with
      | Some a, Some b =>
          match Compare parse_rfc3339 a b with
          | None => None
          | Some cmp =>
              if negb (cmp =? 0) then
                Some (((cmp =? -1) && ob_asc orderBy) || ((cmp =? 1) && negb (ob_asc orderBy)))
              else Less rest x y
          end
      | _, _ => Some false
      end
  end.

(** [Sort]; [Less] does not panic on the repository's items ([Less_total]). *)
Definition Sort (orderBys : list OrderBy) (l : list T) : list T :=
  go_sort (fun x y => bool_decide (Less orderBys x y = Some true)) l.

(** The body of [Filter]'s loop for one item: some clause whose field
    exists contains the value; [None] is a panic. *)
Fixpoint keep (filterBys : list FilterBy) (c : T) : option bool :=
  match filterBys with
  | [] => Some false
  | filterBy :: rest =>
      match GetField c (fb_field filterBy) with
      | None => keep rest c
      | Some v =>
          match Contains parse_rfc3339 v (fb_value filterBy) with
          | None => None
          | Some true => Some true
          | Some false => keep rest c
          end
      end
  end.

Definition Filter (filterBys : list FilterBy) (l : list T) : option (list T) :=
  match filterBys with
  | [] => Some l
  | _ =>
      fold_right (fun c acc =>
        match keep filterBys c, acc with
        | Some true, Some l' => Some (c :: l')
        | Some false, Some l' => Some l'
        | _, _ => None
        end) (Some []) l
  end.

Definition Paginate (p : PaginationQuery) (l : list T) : option (list T) :=
  let '(startIndex, endIndex) := GetPaginationSettings p (zlen l) in
  if negb (IsPageAvailable p (zlen l) startIndex) then Some []
  else slice l startIndex endIndex.

(** [ds.Filter().Sort().Paginate().GenericDataList] *)
Definition select_data (q : DataSelectQuery) (l : list T) : option (list T) :=
  match Filter (q_filter q) l with
  | Some l' => Paginate (q_page q) (Sort (q_sort q) l')
  | None => None
  end.
End Selector.

(** ** The query parameters ([query_param_parser.go]) *)

(** One clause of [order_by]: a field name and an optional direction. *)
Definition parse_order_field (field : string) : res OrderBy :=
  match fields (trim_space field) with
  | [f] => Ok (mkOrderBy f true)
  | [f; dir] =>
      let direction := to_lower dir in
      if bool_decide (direction = "desc") then Ok (mkOrderBy f false)
      else if bool_decide (direction = "asc") then Ok (mkOrderBy f true)
      else Err (mkErr KInvalid "invalid order direction; must be 'asc' or 'desc'")
  | _ => Err (mkErr KInvalid "invalid format for order by parameter")
  end.

(** [for _, x := range xs { y, err := f(x); if err != nil { return err }; ... }] *)
Fixpoint map_res {A B : Type} (f : A -> res B) (l : list A) : res (list B) :=
  match l with
  | [] => Ok []
  | x :: l' => try y := f x in try ys := map_res f l' in Ok (y :: ys)
  end.

Definition ParseOrderBy (orderByParameter : string) : res (list OrderBy) :=
  if bool_decide (orderByParameter = "") then Ok []
  else map_res parse_order_field (split orderByParameter ",").

Definition is_blank (c : ascii) : bool := bool_decide (c = " "%char) || Nat.eqb (nat_of_ascii c) 9.

Fixpoint take_blanks (l : list ascii) : list ascii * list ascii :=
  match l with
  | c :: l' => if is_blank c then let '(b, r) := take_blanks l' in (c :: b, r) else ([], l)
  | [] => ([], [])
  end.

Fixpoint take_line (l : list ascii) : list ascii :=
  match l with
  | c :: l' => if bool_decide (c = newline) then [] else c :: take_line l'
  | [] => []
  end.

(** What [\[ \t\]*(.+)] captures right after the [=]: the blanks are skipped
    unless nothing would be left of the line, and then the last blank is given
    back. *)
Definition filter_value (l : list ascii) : option (list ascii) :=
  let '(blanks, rest) := take_blanks l in
  match take_line rest with
  | [] => match last blanks with Some b => Some [b] | None => None end
  | v => Some v
  end.

(** [FindStringSubmatch] of [(\[^=\]+)\[ \t\]*=\[ \t\]*(.+)]: the leftmost run of
    bytes other than [=] that is followed by [=] and a value.  The greedy first
    group takes the blanks before the [=] with it. *)
Fixpoint filter_submatch_go (run : list ascii) (l : list ascii) : option (string * string) :=
  match l with
  | [] => None
  | c :: l' =>
      if bool_decide (c = "="%char) then
        match run, filter_value l' with
        | _ :: _, Some v => Some (of_list (rev run), of_list v)
        | _, _ => filter_submatch_go [] l'
        end
      else filter_submatch_go (c :: run) l'
  end.

Definition filter_submatch (expr : string) : option (string * string) :=
  filter_submatch_go [] (to_list expr).

Definition quote : string := String (ascii_of_nat 34) "".

Definition unquote (s : string) : string :=
  if has_prefix s quote && has_suffix s quote && negb (slen s =? 1)
  then stake (String.length s - 2) (sdrop 1 s) else s.

Definition ParseFilterBy (filterByParameter : string) : res (list FilterBy) :=
  if bool_decide (filterByParameter = "") then Ok []
  else map_res (fun expr =>
         match filter_submatch expr with
         | Some (f, v) => Ok (mkFilterBy f (StdComparableString v))
         | None => Err (mkErr KInvalid "invalid filter request")
         end) (split (unquote filterByParameter) " OR ").

(** ** The data items ([datatypes]) *)

#[export] Instance Deployment_item : DataItem PbDeployment := {
  GetField d name :=
    if bool_decide (name = "name") then Some (StdComparableString (pbd_name d))
    else if bool_decide (name = "displayName") then Some (StdComparableString (pbd_display_name d))
    else if bool_decide (name = "appName") then Some (StdComparableString (pbd_app_name d))
    else if bool_decide (name = "appVersion") then Some (StdComparableString (pbd_app_version d))
    else if bool_decide (name = "deployId") then Some (StdComparableString (pbd_deploy_id d))
    else if bool_decide (name = "status") then
      Some (StdComparableString (State_String (pbst_state (pbd_status d))))
    else None
}.

#[export] Instance Cluster_item : DataItem PbCluster := {
  GetField c name :=
    if bool_decide (name = "name") then Some (StdComparableString (pbc_name c))
    else if bool_decide (name = "id") then Some (StdComparableString (pbc_id c))
    else if bool_decide (name = "status") then
      Some (StdComparableString (State_String (pbst_state (pbc_status c))))
    else None
}.

#[export] Instance ClusterInfo_item : DataItem PbClusterInfo := {
  GetField c name :=
    if bool_decide (name = "name") then Some (StdComparableString (pbi_name c))
    else if bool_decide (name = "id") then Some (StdComparableString (pbi_id c))
    else None
}.

(** ** [dataselection.go] *)

(** [uint32(x)] of an [int32]. *)
Definition to_uint32 (n : Z) : Z := n `mod` 2^32.

Definition convertPaginationParams (pageSize offset : Z) : Z * Z :=
  (to_uint32 pageSize, to_uint32 offset).

Definition newPaginationQuery (pageSize offset : Z) : PaginationQuery :=
  if (pageSize =? 0) && (offset =? 0) then NewPaginationQuery DefaultPageSize 0
  else if (pageSize =? 0) && negb (offset =? 0) then NewPaginationQuery DefaultPageSize offset
  else NewPaginationQuery pageSize offset.

Section Select.
Context (parse_rfc3339 : string -> option Z) {G : GoRegexp} {S : GoSort}.

(** The common text of the three [select...] functions; [None] inside [Ok]
    is a panic. *)
Definition select_items {T : Type} `{DataItem T} (req : ListRequest) (items : list T) :
    res (option (list T)) :=
  let '(pageSize, offset) := convertPaginationParams (lr_page_size req) (lr_offset req) in
  let paginationQuery := newPaginationQuery pageSize offset in
  match IsValidPagination paginationQuery with
  | Some err => Err err
  | None =>
      try orderByList := ParseOrderBy (lr_order_by req) in
      try filterByList := ParseFilterBy (lr_filter req) in
      Ok (select_data parse_rfc3339 (mkQuery paginationQuery orderByList filterByList) items)
  end.

Definition selectDeployments : ListRequest -> list PbDeployment -> res (option (list PbDeployment)) :=
  select_items.
Definition selectClusters : ListRequest -> list PbClusterInfo -> res (option (list PbClusterInfo)) :=
  select_items.
Definition selectClustersPerDeployment : ListRequest -> list PbCluster -> res (option (list PbCluster)) :=
  select_items.
End Select.
