(* ===== verification/DataSelectFacts.v ===== *)
(** * Correctness of filtering, sorting and paging *)

From S2P Require Import Prelude GoStr Types Pb DataSelect.
From Stdlib Require Import Ascii Sorted Permutation.

(** ** Reference implementations of the two library interfaces *)

(** The insertion sort Go's [sort] runs on short slices. *)
Fixpoint insert_by {T} (less : T -> T -> bool) (x : T) (l : list T) : list T :=
  match l with
  | [] => [x]
  | y :: l' => if less x y then x :: l else y :: insert_by less x l'
  end.

Definition insertion_sort {T} (less : T -> T -> bool) (l : list T) : list T :=
  fold_left (fun acc x => insert_by less x acc) l [].

#[export] Instance reference_sort : GoSort := {| go_sort := @insertion_sort |}.

Section InsertionSort.
Context {T : Type} (less : T -> T -> bool).

Lemma insert_by_perm x l : Permutation (insert_by less x l) (x :: l).
Proof.
  induction l as [|y l IH]; simpl; [done|]. destruct (less x y); [done|].
  rewrite IH. apply perm_swap.
Qed.

Lemma insertion_sort_perm l : Permutation (insertion_sort less l) l.
Proof.
  unfold insertion_sort. assert (forall acc, Permutation
    (fold_left (fun acc x => insert_by less x acc) l acc) (l ++ acc)) as H.
  { induction l as [|x l IH]; intros acc; simpl; [done|]. rewrite IH, insert_by_perm.
    rewrite Permutation_middle. done. }
  rewrite H. by rewrite app_nil_r.
Qed.

Context (Hasym : asymmetric less) (Hneg : neg_transitive less).

Lemma insert_by_sorted x l :
  StronglySorted (fun a b => less b a = false) l ->
  StronglySorted (fun a b => less b a = false) (insert_by less x l).
Proof.
  induction 1 as [|y l Hl IH Hy]; simpl; [repeat constructor|].
  destruct (less x y) eqn:Hxy.
  - constructor; [by constructor|]. constructor; [by apply Hasym|].
    eapply List.Forall_impl; [|exact Hy]. intros z Hz. simpl in Hz.
    apply (Hneg x y z); [by apply Hasym|done].
  - constructor; [done|]. rewrite insert_by_perm. by constructor.
Qed.

Lemma insertion_sort_sorted l :
  StronglySorted (fun a b => less b a = false) (insertion_sort less l).
Proof.
  unfold insertion_sort. assert (forall acc,
    StronglySorted (fun a b => less b a = false) acc ->
    StronglySorted (fun a b => less b a = false)
      (fold_left (fun acc x => insert_by less x acc) l acc)) as H.
  { induction l as [|x l IH]; intros acc Hacc; simpl; [done|]. by apply IH, insert_by_sorted. }
  apply H. constructor.
Qed.
End InsertionSort.

#[export] Instance reference_sort_laws : GoSortLaws reference_sort.
Proof. constructor; intros; [apply insertion_sort_perm|by apply insertion_sort_sorted]. Qed.

(** A matcher for the wildcard fragment. *)
Fixpoint ref_items (l : list ascii) : option (list ritem) :=
  match l with
  | [] => None
  | c :: l' =>
      if bool_decide (c = "."%char) then
        match l' with
        | d :: l'' => if bool_decide (d = "*"%char) then cons RStar <$> ref_items l''
                      else cons RAny <$> ref_items l'
        | [] => None
        end
      else if bool_decide (c = "$"%char) then match l' with [] => Some [] | _ => None end
      else if item_ok (RChar c) then cons (RChar c) <$> ref_items l' else None
  end.

#[export] Instance reference_regexp : GoRegexp := {|
  match_string pattern s :=
    match pattern with
    | String c p => if bool_decide (c = "^"%char)
                    then (fun l => items_match l (to_list s)) <$> ref_items (to_list p) else None
    | EmptyString => None
    end
|}.

Lemma ref_items_render l :
  forallb item_ok l = true -> ref_items (to_list (render l +:+ "$")) = Some l.
Proof.
  induction l as [|i l IH]; [done|]. cbn [forallb]. rewrite andb_true_iff. intros [Hi Hl].
  specialize (IH Hl). unfold render in *. cbn [fold_right].
  rewrite sapp_assoc, to_list_app. destruct i as [c| |]; cbn [render_item to_list app].
  - cbn [ref_items]. simpl in Hi. destruct (bool_decide_reflect (c = "."%char)) as [->|]; [done|].
    destruct (bool_decide_reflect (c = "$"%char)) as [->|]; [done|].
    cbn [item_ok]. rewrite Hi. simpl. rewrite IH. done.
  - cbn [ref_items]. rewrite bool_decide_true by done.
    destruct (to_list (fold_right _ _ _ +:+ "$")) as [|d r] eqn:Hd; [by simpl in IH|].
    destruct (bool_decide_reflect (d = "*"%char)) as [->|]; [by simpl in IH|].
    change (cons RAny <$> ref_items (d :: r) = Some (RAny :: l)). rewrite IH. done.
  - cbn [ref_items]. rewrite !bool_decide_true by done. rewrite IH. done.
Qed.

#[export] Instance reference_regexp_laws : GoRegexpLaws reference_regexp.
Proof.
  constructor. intros l s Hl. cbn -[ref_items to_list render String.app].
  rewrite sapp_cons, sapp_nil_l. cbn -[ref_items render String.app].
  by rewrite ref_items_render.
Qed.

(** ** The data items are uniform *)

Ltac uniform_fields :=
  constructor; intros f; simpl; repeat case_bool_decide; eauto.

#[export] Instance Deployment_uniform : UniformFields PbDeployment.
Proof. uniform_fields. Qed.
#[export] Instance Cluster_uniform : UniformFields PbCluster.
Proof. uniform_fields. Qed.
#[export] Instance ClusterInfo_uniform : UniformFields PbClusterInfo.
Proof. uniform_fields. Qed.

(** ** Sorting *)

Section Sorting.
Context (parse_rfc3339 : string -> option Z) {S : GoSort} {SL : GoSortLaws S}.
Context {T : Type} `{UF : UniformFields T}.

(** The order a list of order-by clauses means: lexicographic, -1 / 0 / 1,
    descending clauses reversed, unknown fields ending the comparison. *)
Fixpoint order (obs : list OrderBy) (x y : T) : Z :=
  match obs with
  | [] => 0
  | ob :: rest =>
      match GetField x (ob_field ob), GetField y (ob_field ob) with
      | Some (StdComparableString a), Some (StdComparableString b) =>
          let c := scompare (to_lower a) (to_lower b) in
          if c =? 0 then order rest x y else if ob_asc ob then c else - c
      | _, _ => 0
      end
  end.

Lemma Less_order obs x y : Less parse_rfc3339 obs x y = Some (order obs x y =? -1).
Proof using UF.
  induction obs as [|ob obs IH]; simpl; [done|].
  destruct (field_kind (T := T) (ob_field ob)) as [Hn|Hs].
  - by rewrite !Hn.
  - destruct (Hs x) as [a ->], (Hs y) as [b ->]. simpl.
    destruct (scompare_range (to_lower a) (to_lower b)) as [-> | [-> | ->]];
      simpl; [|done|]; by destruct (ob_asc ob).
Qed.

Lemma order_antisym obs x y : order obs y x = - order obs x y.
Proof using UF.
  induction obs as [|ob obs IH]; simpl; [done|].
  destruct (field_kind (T := T) (ob_field ob)) as [Hn|Hs]; [by rewrite !Hn|].
  destruct (Hs x) as [a ->], (Hs y) as [b ->].
  rewrite (scompare_antisym (to_lower a) (to_lower b)).
  destruct (scompare_range (to_lower a) (to_lower b)) as [-> | [-> | ->]]; simpl;
    [|done|]; by destruct (ob_asc ob).
Qed.

Lemma order_range obs x y : order obs x y = -1 \/ order obs x y = 0 \/ order obs x y = 1.
Proof using UF.
  induction obs as [|ob obs IH]; simpl; [auto|].
  destruct (field_kind (T := T) (ob_field ob)) as [Hn|Hs]; [rewrite !Hn; auto|].
  destruct (Hs x) as [a ->], (Hs y) as [b ->].
  destruct (scompare_range (to_lower a) (to_lower b)) as [-> | [-> | ->]]; simpl;
    [|done|]; destruct (ob_asc ob); auto.
Qed.

Lemma scompare_le_trans a b c :
  scompare a b <> 1 -> scompare b c <> 1 ->
  scompare a c <> 1 /\ (scompare a c = 0 -> scompare a b = 0 /\ scompare b c = 0).
Proof.
  intros H1 H2. destruct (scompare_range a b) as [Hab|[Hab|Hab]]; [| |done].
  - destruct (scompare_range b c) as [Hbc|[Hbc|Hbc]]; [| |done].
    + by rewrite (scompare_lt_trans a b c).
    + apply scompare_eq in Hbc as ->. by rewrite Hab.
  - apply scompare_eq in Hab as ->. split; [done|]. intros ->. split; [|done].
    by apply scompare_eq.
Qed.

Lemma order_le_trans obs x y z :
  order obs x y <> 1 -> order obs y z <> 1 -> order obs x z <> 1.
Proof using UF.
  induction obs as [|ob obs IH]; simpl; [done|].
  destruct (field_kind (T := T) (ob_field ob)) as [Hn|Hs]; [by rewrite !Hn|].
  destruct (Hs x) as [a ->], (Hs y) as [b ->], (Hs z) as [c ->].
  set (ab := scompare (to_lower a) (to_lower b)).
  set (bc := scompare (to_lower b) (to_lower c)).
  set (ac := scompare (to_lower a) (to_lower c)).
  pose proof (scompare_le_trans (to_lower a) (to_lower b) (to_lower c)) as Hup.
  pose proof (scompare_le_trans (to_lower c) (to_lower b) (to_lower a)) as Hdn.
  rewrite (scompare_antisym (to_lower b) (to_lower c)) in Hdn.
  rewrite (scompare_antisym (to_lower a) (to_lower b)) in Hdn.
  rewrite (scompare_antisym (to_lower a) (to_lower c)) in Hdn.
  fold ab bc ac in Hup, Hdn.
  pose proof (scompare_range (to_lower a) (to_lower b)) as Rab.
  pose proof (scompare_range (to_lower b) (to_lower c)) as Rbc.
  pose proof (scompare_range (to_lower a) (to_lower c)) as Rac.
  fold ab bc ac in Rab, Rbc, Rac.
  destruct (Z.eqb_spec ab 0), (Z.eqb_spec bc 0), (Z.eqb_spec ac 0), (ob_asc ob);
    try lia; auto; intros; destruct Hup, Hdn; lia.
Qed.

Definition less_bool (obs : list OrderBy) (x y : T) : bool :=
  bool_decide (Less parse_rfc3339 obs x y = Some true).

Lemma less_bool_order obs x y : less_bool obs x y = true <-> order obs x y = -1.
Proof using UF.
  unfold less_bool. rewrite bool_decide_eq_true, Less_order.
  rewrite <- Z.eqb_eq. split; [by intros [=]|by intros ->].
Qed.

Lemma less_bool_false obs x y : less_bool obs x y = false <-> order obs y x <> 1.
Proof using UF.
  rewrite <- not_true_iff_false, less_bool_order, (order_antisym obs y x). lia.
Qed.

Lemma less_bool_asymmetric obs : asymmetric (less_bool obs).
Proof using UF.
  intros x y. rewrite less_bool_order, less_bool_false. lia.
Qed.

Lemma less_bool_neg_transitive obs : neg_transitive (less_bool obs).
Proof using UF.
  intros x y z. rewrite !less_bool_false. apply order_le_trans.
Qed.

Lemma Sort_perm obs l : Permutation (Sort parse_rfc3339 obs l) l.
Proof using SL. apply go_sort_perm. Qed.

Lemma Sort_sorted obs l :
  StronglySorted (fun x y => order obs x y <> 1) (Sort parse_rfc3339 obs l).
Proof using SL UF.
  assert (StronglySorted (fun x y => less_bool obs y x = false) (Sort parse_rfc3339 obs l)) as Hsorted.
  { apply go_sort_sorted; [apply less_bool_asymmetric|apply less_bool_neg_transitive]. }
  induction Hsorted as [|x l' _ IH Hx]; constructor; [done|].
  eapply List.Forall_impl; [|exact Hx]. intros y Hy. by apply less_bool_false.
Qed.
End Sorting.

(** ** Filtering *)

Section Filtering.
Context (parse_rfc3339 : string -> option Z) {G : GoRegexp}.
Context {T : Type} `{UF : UniformFields T}.

(** The clause [fb] selects the item [c]. *)
Definition clause_selects (c : T) (fb : FilterBy) : bool :=
  match GetField c (fb_field fb) with
  | Some v => match Contains parse_rfc3339 v (fb_value fb) with Some b => b | None => false end
  | None => false
  end.

Lemma keep_spec fbs c : keep parse_rfc3339 fbs c = Some (existsb (clause_selects c) fbs).
Proof using UF.
  induction fbs as [|fb fbs IH]; simpl; [done|]. unfold clause_selects at 1.
  destruct (field_kind (T := T) (fb_field fb)) as [Hn|Hs]; [by rewrite Hn|].
  destruct (Hs c) as [s ->]. simpl. destruct (fb_value fb); simpl; try done.
  destruct (contains (to_lower _) _); simpl; by case_match.
Qed.

Lemma Filter_spec fbs l :
  Filter parse_rfc3339 fbs l =
    Some (match fbs with [] => l | _ => List.filter (fun c => existsb (clause_selects c) fbs) l end).
Proof using UF.
  destruct fbs as [|fb fbs]; [done|]. unfold Filter.
  induction l as [|c l IH]; [done|]. cbn [fold_right]. rewrite keep_spec, IH.
  cbn [List.filter]. by destruct (existsb (clause_selects c) (fb :: fbs)).
Qed.
End Filtering.

(** ** Paging *)

(** Page sizes and offsets a request can carry once validated. *)
Definition page_ok (p : PaginationQuery) : Prop :=
  0 <= pq_size p <= MaxPageSize /\ 0 <= pq_offset p < 2^32.

Lemma Paginate_spec {T : Type} (p : PaginationQuery) (l : list T) :
  page_ok p ->
  Paginate p l = Some (take (Z.to_nat (pq_size p)) (drop (Z.to_nat (pq_offset p)) l)).
Proof.
  unfold page_ok, MaxPageSize. intros [Hs Ho].
  unfold Paginate, GetPaginationSettings, IsPageAvailable.
  rewrite wrap64_small by lia.
  destruct (Z.ltb_spec (pq_offset p + pq_size p) 0); [lia|].
  destruct (Z.ltb_spec (pq_offset p) (zlen l)) as [Hav|Hav]; cbn [andb negb].
  - destruct (Z.ltb_spec 0 (pq_size p)) as [Hp|Hp]; cbn [negb].
    + unfold slice, zlen in *.
      destruct (Z.ltb_spec (Z.of_nat (length l)) (pq_offset p + pq_size p)) as [He|He].
      * replace ((0 <=? pq_offset p) && (pq_offset p <=? Z.of_nat (length l)) &&
          (Z.of_nat (length l) <=? Z.of_nat (length l))) with true by lia.
        f_equal. rewrite (take_ge _ (Z.to_nat (pq_size p))) by (rewrite length_drop; lia).
        apply take_ge. rewrite length_drop. lia.
      * replace ((0 <=? pq_offset p) && (pq_offset p <=? pq_offset p + pq_size p) &&
          (pq_offset p + pq_size p <=? Z.of_nat (length l))) with true by lia.
        do 2 f_equal. lia.
    + assert (pq_size p = 0) as -> by lia. by rewrite take_0.
  - f_equal. unfold zlen in Hav. rewrite drop_ge by lia. by rewrite take_nil.
Qed.

(** Consecutive pages of one size. *)
Definition page {T} (k i : nat) (l : list T) : list T := take k (drop (i * k) l).

Lemma pages_concat {T : Type} (k n : nat) (l : list T) :
  concat (map (fun i => page k i l) (seq 0 n)) = take (n * k) l.
Proof.
  induction n as [|n IH]; [done|].
  rewrite seq_S, map_app, concat_app, IH. simpl. rewrite app_nil_r. unfold page.
  rewrite <- (take_drop (n * k) (take (k + n * k) l)).
  rewrite take_take, skipn_firstn_comm. f_equal; f_equal; lia.
Qed.

(** ** Wildcards *)

(** A user pattern as pieces: [*] is [.*], a dot is any byte. *)
Definition wild_item (c : ascii) : ritem :=
  if bool_decide (c = "*"%char) then RStar
  else if bool_decide (c = "."%char) then RAny else RChar c.

Definition wild_items (p : string) : list ritem := map wild_item (to_list p).

(** No regexp metacharacter other than the dot. *)
Definition plain (p : string) : bool := forallb (fun c => item_ok (wild_item c)) (to_list p).

(** Neither wildcard nor metacharacter. *)
Definition literal (p : string) : bool := forallb (fun c => item_ok (RChar c)) (to_list p).

(** What [checkWildcardPattern] makes of a pattern: a leading star becomes
    [..*], one byte more than the star it stands for. *)
Definition pattern_items (p : string) : list ritem :=
  match p with
  | String c r => if bool_decide (c = "*"%char) then RAny :: RStar :: wild_items r else wild_items p
  | EmptyString => []
  end.

Lemma render_cons i l : render (i :: l) = render_item i +:+ render l.
Proof. done. Qed.

Lemma wild_items_cons c p : wild_items (String c p) = wild_item c :: wild_items p.
Proof. done. Qed.

Lemma replace_all_render p : replace_all_char "*" ".*" p = render (wild_items p).
Proof.
  induction p as [|c p IH]; [done|]. rewrite wild_items_cons, render_cons, <- IH.
  cbn [replace_all_char]. unfold wild_item.
  destruct (bool_decide_reflect (c = "*"%char)) as [->|Hc]; [done|].
  destruct (bool_decide_reflect (c = "."%char)) as [->|Hd]; done.
Qed.

Lemma checkWildcardPattern_items p :
  checkWildcardPattern p = "^" +:+ render (pattern_items p) +:+ "$".
Proof.
  destruct p as [|c p]; [done|]. unfold checkWildcardPattern, trim_prefix, pattern_items.
  cbn [has_prefix].
  destruct (bool_decide_reflect (c = "*"%char)) as [->|Hc].
  - rewrite bool_decide_true by done. replace (true && has_prefix p "") with true by (by destruct p).
    rewrite !render_cons, <- replace_all_render. by destruct p.
  - rewrite bool_decide_false by congruence. cbn [andb]. by rewrite <- replace_all_render.
Qed.

Lemma forallb_map_comp {A B} (f : B -> bool) (g : A -> B) (l : list A) :
  forallb f (map g l) = forallb (fun x => f (g x)) l.
Proof. induction l as [|x l IH]; [done|]. simpl. by rewrite IH. Qed.

(** A pattern with a wildcard matches as its pieces do, case-insensitively. *)
Lemma Contains_wildcard parse_rfc3339 {G : GoRegexp} {GL : GoRegexpLaws G} (s p : string) :
  contains (to_lower p) "*" = true -> plain (to_lower p) = true ->
  Contains parse_rfc3339 (StdComparableString s) (StdComparableString p) =
    Some (items_match (pattern_items (to_lower p)) (to_list (to_lower s))).
Proof.
  intros Hstar Hplain. simpl. rewrite Hstar, checkWildcardPattern_items, to_lower_idemp.
  unfold matchesRegx. rewrite match_string_items; [done|].
  unfold plain in Hplain. destruct (to_lower p) as [|c q]; [done|].
  unfold pattern_items. case_bool_decide.
  - cbn [to_list forallb] in *. apply andb_true_iff in Hplain as [_ Hq].
    cbn [item_ok andb]. unfold wild_items. rewrite forallb_map_comp. exact Hq.
  - unfold wild_items. rewrite forallb_map_comp. exact Hplain.
Qed.

(** Every piece but [.*] consumes a byte. *)
Lemma items_match_length l s :
  items_match l s = true ->
  (length (base.filter (fun i => i <> RStar) l) <= length s)%nat.
Proof.
  revert s. induction l as [|i l IH]; intros s; [simpl; lia|].
  destruct i as [c| |].
  - rewrite filter_cons_True by done. destruct s as [|a s]; simpl; [done|].
    rewrite andb_true_iff. intros [_ H]. apply IH in H. lia.
  - rewrite filter_cons_True by done. destruct s as [|a s]; simpl; [done|].
    rewrite andb_true_iff. intros [_ H]. apply IH in H. lia.
  - rewrite filter_cons_False by (by intros []). cbn [items_match].
    induction s as [|a s IHs]; rewrite orb_true_iff.
    + intros [H|H]; [by apply IH in H|done].
    + intros [H|H]; [by apply IH in H|]. apply andb_true_iff in H as [_ H].
      apply IHs in H. simpl. lia.
Qed.

Lemma literal_wild_item c : item_ok (RChar c) = true -> wild_item c = RChar c.
Proof.
  unfold wild_item. destruct (bool_decide_reflect (c = "*"%char)) as [->|]; [done|].
  destruct (bool_decide_reflect (c = "."%char)) as [->|]; done.
Qed.

Lemma literal_wild_items p : literal p = true -> wild_items p = map RChar (to_list p).
Proof.
  unfold literal. induction p as [|c p IH]; [done|].
  cbn [to_list forallb]. rewrite andb_true_iff. intros [Hc Hp].
  rewrite wild_items_cons, literal_wild_item by done. cbn [to_list map]. by rewrite IH.
Qed.

Lemma literal_plain p : literal p = true -> plain p = true.
Proof.
  unfold literal, plain. rewrite !forallb_forall. intros H c Hc.
  rewrite literal_wild_item; by apply H.
Qed.

Lemma filter_RChar (l : list ascii) :
  base.filter (fun i => i <> RStar) (map RChar l) = map RChar l.
Proof. induction l as [|c l IH]; [done|]. cbn [map]. rewrite filter_cons_True by done. by rewrite IH. Qed.

(** A literal prefix followed by [.*] matches exactly the one-line strings
    with that prefix. *)
Lemma items_match_prefix (l s : list ascii) :
  forallb (fun c => negb (bool_decide (c = newline))) s = true ->
  items_match (map RChar l ++ [RStar]) s = bool_decide (l `prefix_of` s).
Proof.
  revert s. induction l as [|c l IH]; intros s Hs.
  - rewrite bool_decide_true by (by exists s). cbn [map app items_match].
    induction s as [|a s IHs]; [done|]. cbn [forallb] in Hs.
    apply andb_true_iff in Hs as [Ha Hs]. rewrite Ha. simpl. by apply IHs.
  - destruct s as [|a s]; cbn [map app items_match].
    + rewrite bool_decide_false; [done|]. intros H. by apply prefix_nil_not in H.
    + cbn [forallb] in Hs. apply andb_true_iff in Hs as [_ Hs]. rewrite IH by done.
      destruct (bool_decide_reflect (a = c)) as [->|Hne]; simpl.
      * apply bool_decide_ext. split; [apply prefix_cons|apply prefix_cons_inv_2].
      * rewrite bool_decide_false; [done|]. intros H. by apply prefix_cons_inv_1 in H.
Qed.

(** ** The properties *)

Lemma select_data_spec {T : Type} `{UF : UniformFields T} parse_rfc3339 {G : GoRegexp}
    {S : GoSort} (q : DataSelectQuery) (l : list T) :
  page_ok (q_page q) ->
  select_data parse_rfc3339 q l = Some (take (Z.to_nat (pq_size (q_page q)))
    (drop (Z.to_nat (pq_offset (q_page q)))
      (Sort parse_rfc3339 (q_sort q)
        (match q_filter q with
         | [] => l
         | _ => List.filter (fun c => existsb (clause_selects parse_rfc3339 c) (q_filter q)) l
         end)))).
Proof. intros Hp. unfold select_data. rewrite Filter_spec by apply _. by apply Paginate_spec. Qed.

Lemma newPaginationQuery_valid ps off :
  0 <= ps < 2^31 -> 0 <= off < 2^31 ->
  let q := newPaginationQuery (to_uint32 ps) (to_uint32 off) in
  pq_size q = (if ps =? 0 then DefaultPageSize else ps) /\ pq_offset q = off.
Proof.
  intros Hps Hoff. unfold to_uint32. rewrite !Z.mod_small by lia.
  unfold newPaginationQuery.
  destruct (Z.eqb_spec ps 0), (Z.eqb_spec off 0); subst; done.
Qed.

Lemma map_res_invalid {A B : Type} (f : A -> res B) (l : list A) (e : gerror) :
  (forall x e, f x = Err e -> e_kind e = KInvalid) -> map_res f l = Err e -> e_kind e = KInvalid.
Proof.
  intros Hf. induction l as [|x l IH]; simpl; [done|].
  destruct (f x) as [y|e'] eqn:Hx; simpl; [|intros [= <-]; by eapply Hf].
  destruct (map_res f l); simpl; [done|]. intros [= <-]. by apply IH.
Qed.

Lemma ParseOrderBy_invalid s e : ParseOrderBy s = Err e -> e_kind e = KInvalid.
Proof.
  unfold ParseOrderBy. case_bool_decide; [done|]. apply map_res_invalid.
  intros x e'. unfold parse_order_field. repeat case_match; by intros [= <-].
Qed.

Lemma ParseFilterBy_invalid s e : ParseFilterBy s = Err e -> e_kind e = KInvalid.
Proof.
  unfold ParseFilterBy. case_bool_decide; [done|]. apply map_res_invalid.
  intros x e'. repeat case_match; by intros [= <-].
Qed.

(** *** What the parameters mean *)

(** A clause of [order_by]: a field, and at most a direction in any case. *)
Definition order_clause (part : string) (ob : OrderBy) : Prop :=
  fields part = [ob_field ob] /\ ob_asc ob = true \/
  exists dir, fields part = [ob_field ob; dir] /\
    (ob_asc ob = true /\ to_lower dir = "asc" \/ ob_asc ob = false /\ to_lower dir = "desc").

Definition order_parts (s : string) : list string := if bool_decide (s = "") then [] else split s ",".

(** Every clause has a field and perhaps asc or desc, and nothing else. *)
Definition order_by_valid (s : string) : Prop := Forall (fun part => exists ob, order_clause part ob) (order_parts s).

Definition filter_parts (s : string) : list string := if bool_decide (s = "") then [] else split (unquote s) " OR ".

(** Every clause has an equals sign between a character that is none and one
    that ends no line. *)
Definition filter_clause_valid (expr : string) : Prop :=
  exists l1 c d l2, to_list expr = l1 ++ c :: "="%char :: d :: l2 /\ c <> "="%char /\ d <> newline.

Definition filter_valid (s : string) : Prop := Forall filter_clause_valid (filter_parts s).

Definition filter_clause (expr : string) (fb : FilterBy) : Prop :=
  exists v, filter_submatch expr = Some (fb_field fb, v) /\ fb_value fb = StdComparableString v.

(** The words of a text do not change when its ends are trimmed. *)
Lemma fields_drop_spaces l : fields_go [] (drop_spaces l) = fields_go [] l.
Proof. induction l as [|c l IH]; cbn; [done|]. destruct (is_space c) eqn:E; cbn; [done|by rewrite E]. Qed.

Lemma fields_trailing acc l c : is_space c = true -> fields_go acc (l ++ [c]) = fields_go acc l.
Proof.
  intros Hc. revert acc. induction l as [|a l IH]; intros acc; cbn; [by rewrite Hc, app_nil_r|].
  destruct (is_space a); by rewrite IH.
Qed.

Lemma fields_drop_end l : fields_go [] (rev (drop_spaces (rev l))) = fields_go [] l.
Proof.
  induction l as [|c l IH] using rev_ind; [done|]. rewrite rev_app_distr. cbn. destruct (is_space c) eqn:E.
  - by rewrite fields_trailing.
  - cbn. by rewrite rev_involutive.
Qed.

Lemma fields_trim_space s : fields (trim_space s) = fields s.
Proof. unfold fields, trim_space. rewrite to_of_list, fields_drop_end. apply fields_drop_spaces. Qed.

Lemma parse_order_field_spec part ob : parse_order_field part = Ok ob <-> order_clause part ob.
Proof.
  unfold parse_order_field, order_clause. rewrite fields_trim_space. destruct ob as [f asc]. cbn.
  destruct (fields part) as [|f' [|dir [|? ?]]].
  - split; [done|]. by intros [[? _]|(? & ? & _)].
  - split; [intros [= -> <-]; by left|]. intros [[[= ->] ->]|(? & ? & _)]; done.
  - repeat case_bool_decide; (split; [intros Hd; simplify_eq; right; eauto|]);
      intros [[? _]|(? & [= -> ->] & [[-> ?]|[-> ?]])]; congruence.
  - split; [done|]. by intros [[? _]|(? & ? & _)].
Qed.

Lemma filter_value_some l : is_Some (filter_value l) <-> exists d l', l = d :: l' /\ d <> newline.
Proof.
  unfold filter_value. destruct l as [|d l]; [by split; [intros [? ?]|intros (? & ? & ? & _)]|].
  cbn [take_blanks]. destruct (is_blank d) eqn:Hd.
  - assert (d <> newline) by (by intros ->). destruct (take_blanks l) as [blanks rest].
    split; [eauto|]. intros _. destruct (take_line rest); [|by eexists].
    destruct (last (d :: blanks)) eqn:E; [by eexists|]. by apply last_None in E.
  - cbn [take_line]. case_bool_decide as Hn.
    + cbn. split; [by intros [? ?]|]. by intros (? & ? & [= <- <-] & ?).
    + split; [eauto|]. intros _. by eexists.
Qed.

Lemma last_of_run (run : list ascii) (c : ascii) l1 l2 l :
  Forall (fun c => c <> "="%char) run -> l1 ++ c :: l2 = rev run ++ "="%char :: l -> c <> "="%char ->
  (exists d l', l2 = "="%char :: d :: l' /\ d <> newline) ->
  (run <> [] /\ exists d l', l = d :: l' /\ d <> newline) \/ exists l1' l2', l = l1' ++ c :: l2' /\ l2 = l2'.
Proof.
  intros Hrun Heq Hc (d & l' & -> & Hd). apply app_eq_inv in Heq as [(k & Hk & Hl)|(k & Hk & Hl)].
  - destruct k as [|e k]; cbn in Hl; [congruence|]. injection Hl as <- ->. right. by exists k, ("="%char :: d :: l').
  - destruct k as [|e k]; cbn in Hl; [congruence|]. injection Hl as -> Hl. destruct k as [|e' k]; cbn in Hl.
    + left. split; [|injection Hl as <-; eauto]. intros ->. by destruct l1.
    + injection Hl as <- _. exfalso. assert ("="%char ∈ rev run) as Hin by (rewrite Hk; apply elem_of_app; right; right; left).
      rewrite list_elem_of_In, <- in_rev, <- list_elem_of_In in Hin. rewrite Forall_forall in Hrun. by apply (Hrun _ Hin).
Qed.

Lemma filter_submatch_go_some run l :
  Forall (fun c => c <> "="%char) run ->
  is_Some (filter_submatch_go run l) <->
  exists l1 c d l2, rev run ++ l = l1 ++ c :: "="%char :: d :: l2 /\ c <> "="%char /\ d <> newline.
Proof.
  revert run. induction l as [|a l IH]; intros run Hrun; cbn [filter_submatch_go].
  - rewrite app_nil_r. split; [by intros [? ?]|]. intros (l1 & c & d & l2 & Heq & _). exfalso.
    assert ("="%char ∈ rev run) as Hin by (rewrite Heq; apply elem_of_app; right; right; left).
    rewrite list_elem_of_In, <- in_rev, <- list_elem_of_In in Hin. rewrite Forall_forall in Hrun. by apply (Hrun _ Hin).
  - case_bool_decide as Ha.
    + subst a. assert (is_Some (filter_submatch_go [] l) <->
        exists l1 c d l2, l = l1 ++ c :: "="%char :: d :: l2 /\ c <> "="%char /\ d <> newline) as Hl.
      { rewrite IH by constructor. done. }
      transitivity (run <> [] /\ is_Some (filter_value l) \/ is_Some (filter_submatch_go [] l)).
      { destruct run as [|r run]; [naive_solver|]. destruct (filter_value l); [|naive_solver].
        split; [left; split; [done|by eexists]|by eexists]. }
      rewrite Hl, filter_value_some. clear Hl IH. split.
      * intros [[Hne (d & l' & -> & Hd)]|(l1 & c & d & l2 & -> & Hc & Hd)].
        -- destruct run as [|c run]; [done|]. apply Forall_cons in Hrun as [Hc _]. exists (rev run), c, d, l'.
           cbn. by rewrite <- app_assoc.
        -- exists (rev run ++ "="%char :: l1), c, d, l2. by rewrite <- app_assoc.
      * intros (l1 & c & d & l2 & Heq & Hc & Hd). symmetry in Heq.
        destruct (last_of_run run c l1 ("="%char :: d :: l2) l Hrun Heq Hc) as [H|(l1' & l2' & -> & <-)]; [eauto|by left|].
        right. by exists l1', c, d, l2.
    + rewrite IH by (by constructor). cbn [rev]. by rewrite <- app_assoc.
Qed.

Lemma filter_submatch_some expr : is_Some (filter_submatch expr) <-> filter_clause_valid expr.
Proof. unfold filter_submatch. rewrite filter_submatch_go_some by constructor. done. Qed.

Lemma map_res_Forall2 {A B : Type} (f : A -> res B) (l : list A) (ys : list B) :
  map_res f l = Ok ys -> Forall2 (fun x y => f x = Ok y) l ys.
Proof.
  revert ys. induction l as [|x l IH]; intros ys; simpl; [intros [= <-]; constructor|].
  destruct (f x) as [y|e] eqn:Hx; simpl; [|done]. destruct (map_res f l) as [ys'|e]; simpl; [|done].
  intros [= <-]. constructor; [done|by apply IH].
Qed.

Lemma map_res_error {A B : Type} (f : A -> res B) (l : list A) (e : gerror) :
  map_res f l = Err e -> exists x, x ∈ l /\ f x = Err e.
Proof.
  induction l as [|x l IH]; simpl; [done|]. destruct (f x) as [y|e'] eqn:Hx; simpl.
  - destruct (map_res f l); simpl; [done|]. intros [= <-]. destruct (IH eq_refl) as (z & ? & ?). exists z. split; [by right|done].
  - intros [= <-]. exists x. split; [left|done].
Qed.

Lemma ParseOrderBy_spec s :
  match ParseOrderBy s with
  | Ok obs => Forall2 order_clause (order_parts s) obs
  | Err e => e_kind e = KInvalid /\ ~ order_by_valid s
  end.
Proof.
  destruct (ParseOrderBy s) as [obs|e] eqn:H.
  - unfold ParseOrderBy, order_parts in *. case_bool_decide; [injection H as <-; constructor|].
    apply map_res_Forall2 in H. eapply Forall2_impl; [exact H|]. intros ??. apply parse_order_field_spec.
  - split; [by eapply ParseOrderBy_invalid|]. unfold ParseOrderBy, order_by_valid, order_parts in *.
    case_bool_decide; [done|]. apply map_res_error in H as (x & Hx & He). rewrite Forall_forall.
    intros Hv. destruct (Hv x Hx) as [ob Hob%parse_order_field_spec]. congruence.
Qed.

Lemma ParseFilterBy_spec s :
  match ParseFilterBy s with
  | Ok fbs => Forall2 filter_clause (filter_parts s) fbs
  | Err e => e_kind e = KInvalid /\ ~ filter_valid s
  end.
Proof.
  destruct (ParseFilterBy s) as [fbs|e] eqn:H.
  - unfold ParseFilterBy, filter_parts in *. case_bool_decide; [injection H as <-; constructor|].
    apply map_res_Forall2 in H. eapply Forall2_impl; [exact H|]. cbn. intros x y.
    destruct (filter_submatch x) as [[f v]|] eqn:E; [|done]. intros [= <-]. by exists v.
  - split; [by eapply ParseFilterBy_invalid|]. unfold ParseFilterBy, filter_valid, filter_parts in *.
    case_bool_decide; [done|]. apply map_res_error in H as (x & Hx & He). rewrite Forall_forall.
    intros Hv. destruct (proj2 (filter_submatch_some x) (Hv x Hx)) as [[f v] E]. by rewrite E in He.
Qed.

(** The clauses that are parsed are valid. *)
Lemma order_clauses_valid s obs : Forall2 order_clause (order_parts s) obs -> order_by_valid s.
Proof. intros H. unfold order_by_valid. induction H; constructor; eauto. Qed.

Lemma filter_clauses_valid s fbs : Forall2 filter_clause (filter_parts s) fbs -> filter_valid s.
Proof.
  intros H. unfold filter_valid. induction H as [|x y l l' (v & Hxy & _)]; constructor; [|done].
  apply filter_submatch_some. by eexists.
Qed.

Definition request_valid (req : ListRequest) : Prop :=
  lr_page_size req <= MaxPageSize /\ order_by_valid (lr_order_by req) /\ filter_valid (lr_filter req).

(** What a list request must answer: an Invalid error if it is not valid, and else the
    requested page of an ordered permutation of the selected items. *)
Definition selection_ok {T : Type} `{DataItem T} (parse_rfc3339 : string -> option Z)
    {G : GoRegexp} (req : ListRequest) (items : list T) (r : res (option (list T))) : Prop :=
  match r with
  | Err e => e_kind e = KInvalid /\ ~ request_valid req
  | Ok None => False
  | Ok (Some out) =>
      request_valid req /\
      exists obs fbs sorted,
        Forall2 order_clause (order_parts (lr_order_by req)) obs /\
        Forall2 filter_clause (filter_parts (lr_filter req)) fbs /\
        Permutation sorted
          (match fbs with
           | [] => items
           | _ => List.filter (fun c => existsb (clause_selects parse_rfc3339 c) fbs) items
           end) /\
        StronglySorted (fun x y => order obs x y <> 1) sorted /\
        out = take (Z.to_nat (if lr_page_size req =? 0 then DefaultPageSize else lr_page_size req))
                (drop (Z.to_nat (lr_offset req)) sorted)
  end.

(** C40: for every list request protobuf validation lets through, the select
    functions reject it with an Invalid error if and only if the page size is above 500,
    a comma-separated clause of order_by is not a field with at most asc or desc after it (in
    any case), or a clause of the filter has no equals sign with a character before it
    (not an equals sign) and one after it (not a line break); else they return, without panicking, exactly the
    requested page of an ordered permutation of the items some filter clause
    selects; a page size of 0 means 20. *)
Theorem select_items_spec {T : Type} `{UF : UniformFields T} (parse_rfc3339 : string -> option Z)
    {G : GoRegexp} {S : GoSort} {SL : GoSortLaws S} (req : ListRequest) (items : list T)
    (Hps : 0 <= lr_page_size req < 2^31) (Hoff : 0 <= lr_offset req < 2^31) :
  selection_ok parse_rfc3339 req items (select_items parse_rfc3339 req items).
Proof.
  unfold selection_ok, select_items, convertPaginationParams, request_valid.
  destruct (newPaginationQuery_valid (lr_page_size req) (lr_offset req) Hps Hoff) as [Hs Ho].
  set (q := newPaginationQuery _ _) in *.
  unfold IsValidPagination. destruct (Z.ltb_spec (pq_size q) MinPageSize) as [H0|H0].
  { exfalso. rewrite Hs in H0. destruct (Z.eqb_spec (lr_page_size req) 0); unfold MinPageSize, DefaultPageSize in *; lia. }
  destruct (Z.ltb_spec MaxPageSize (pq_size q)) as [H1|H1].
  { split; [done|]. rewrite Hs in H1. destruct (Z.eqb_spec (lr_page_size req) 0); unfold MaxPageSize, DefaultPageSize in *; lia. }
  destruct (Z.ltb_spec (pq_offset q) MinOffset); [unfold MinOffset in *; lia|].
  pose proof (ParseOrderBy_spec (lr_order_by req)) as Hobs.
  destruct (ParseOrderBy _) as [obs|e]; simpl; [|destruct Hobs; by split; [|intros (_ & ? & _)]].
  pose proof (ParseFilterBy_spec (lr_filter req)) as Hfbs.
  destruct (ParseFilterBy _) as [fbs|e]; simpl; [|destruct Hfbs; by split; [|intros (_ & _ & ?)]].
  rewrite select_data_spec by (split; simpl; unfold MinPageSize, MinOffset in *; lia).
  cbn [q_page q_sort q_filter]. rewrite Hs, Ho. split; [split|].
  { rewrite Hs in *. destruct (Z.eqb_spec (lr_page_size req) 0); unfold MaxPageSize in *; lia. }
  { split; [by eapply order_clauses_valid|by eapply filter_clauses_valid]. }
  eexists obs, fbs, _. split; [done|]. split; [done|].
  split; [apply Sort_perm; apply _|]. split; [by apply Sort_sorted; apply _|done].
Qed.

Definition sample_request : ListRequest := mkListRequest 1 1 "name desc" "name=a OR id=2".

Definition sample_clusters : list PbClusterInfo :=
  [mkPbClusterInfo "b" "1"; mkPbClusterInfo "ab" "3"; mkPbClusterInfo "c" "2"].

Lemma select_items_spec_witness :
  selection_ok (fun _ => None) sample_request sample_clusters
    (select_items (fun _ => None) sample_request sample_clusters) /\
  select_items (fun _ => None) sample_request sample_clusters =
    Ok (Some [mkPbClusterInfo "ab" "3"]).
Proof.
  split; [apply select_items_spec; [apply _|cbn; lia|cbn; lia]|vm_compute; reflexivity].
Defined.

(** Paging is complete and non-overlapping: reading page after page of
    [k] items until the offset passes the end returns every item exactly once,
    in order, and no page request panics. *)
Theorem pages_partition {T : Type} (k n : nat) (l : list T)
    (Hk : 0 < Z.of_nat k <= MaxPageSize) (Hn : Z.of_nat (n * k) < 2^32)
    (Hlen : (length l <= n * k)%nat) :
  exists pages,
    map (fun i => Paginate (NewPaginationQuery (Z.of_nat k) (Z.of_nat (i * k))) l) (seq 0 n) =
      map Some pages /\ concat pages = l.
Proof.
  exists (map (fun i => page k i l) (seq 0 n)). split.
  - rewrite map_map. apply map_ext_in. intros i Hi. apply in_seq in Hi.
    rewrite Paginate_spec; [cbn; by rewrite !Nat2Z.id|].
    split; simpl; [lia|]. split; [lia|].
    assert (i * k <= n * k)%nat by (apply Nat.mul_le_mono_r; lia). lia.
  - rewrite pages_concat. by apply take_ge.
Qed.

Lemma pages_partition_witness :
  exists pages,
    map (fun i => Paginate (NewPaginationQuery 2 (Z.of_nat (i * 2))) [10; 20; 30; 40; 50]) (seq 0 3) =
      map Some pages /\ concat pages = [10; 20; 30; 40; 50].
Proof. apply (pages_partition 2 3 [10; 20; 30; 40; 50]); [done|done|simpl; lia]. Defined.

Lemma pattern_items_trailing p :
  literal p = true -> p <> "" -> pattern_items (p +:+ "*") = map RChar (to_list p) ++ [RStar].
Proof.
  intros Hp Hne. destruct p as [|c p]; [done|]. rewrite sapp_cons. unfold pattern_items.
  assert (c <> "*"%char) by (intros ->; done). rewrite bool_decide_false by done.
  rewrite <- sapp_cons. unfold wild_items. rewrite to_list_app, map_app. f_equal.
  by apply literal_wild_items.
Qed.

Lemma plain_app p q : plain (p +:+ q) = plain p && plain q.
Proof. unfold plain. by rewrite to_list_app, forallb_app. Qed.

(** A filter value [lit*] selects exactly the one-line field values that
    start with [lit], ignoring case. *)
Theorem trailing_wildcard_prefix (parse_rfc3339 : string -> option Z)
    {G : GoRegexp} {GL : GoRegexpLaws G} (s lit : string)
    (Hlit : literal (to_lower lit) = true) (Hne : to_lower lit <> "")
    (Hline : forallb (fun c => negb (bool_decide (c = newline))) (to_list (to_lower s)) = true) :
  Contains parse_rfc3339 (StdComparableString s) (StdComparableString (lit +:+ "*")) =
    Some (bool_decide (to_list (to_lower lit) `prefix_of` to_list (to_lower s))).
Proof.
  assert (to_lower (lit +:+ "*") = to_lower lit +:+ "*") as Hl by apply to_lower_app.
  rewrite (@Contains_wildcard _ _ GL); rewrite Hl.
  - by rewrite pattern_items_trailing, items_match_prefix.
  - apply contains_spec. exists (to_lower lit), "". done.
  - by rewrite plain_app, (literal_plain _ Hlit).
Qed.

Lemma trailing_wildcard_prefix_witness :
  Contains (fun _ => None) (StdComparableString "Dep-one") (StdComparableString "dep*") = Some true.
Proof.
  rewrite (trailing_wildcard_prefix (fun _ => None) "Dep-one" "dep"); [reflexivity|reflexivity|discriminate|reflexivity].
Defined.

(** A leading star stands for at least one byte: the filter value [*lit]
    does not select the very value [lit], although [lit*] does. *)
Theorem leading_wildcard_misses (parse_rfc3339 : string -> option Z)
    {G : GoRegexp} {GL : GoRegexpLaws G} (lit : string) (Hlit : literal (to_lower lit) = true) :
  Contains parse_rfc3339 (StdComparableString lit) (StdComparableString ("*" +:+ lit)) = Some false.
Proof.
  assert (to_lower ("*" +:+ lit) = "*" +:+ to_lower lit) as Hl by apply to_lower_app.
  rewrite (@Contains_wildcard _ _ GL); rewrite Hl.
  - f_equal. apply not_true_iff_false. intros H. apply items_match_length in H. revert H.
    rewrite sapp_cons, sapp_nil_l. unfold pattern_items. rewrite bool_decide_true by done.
    rewrite literal_wild_items by done. rewrite filter_cons_True by done.
    rewrite filter_cons_False by (intros Hs; by apply Hs). rewrite filter_RChar.
    simpl. rewrite length_map. lia.
  - apply contains_spec. exists "", (to_lower lit). done.
  - by rewrite plain_app, (literal_plain _ Hlit).
Qed.

Lemma leading_wildcard_misses_witness :
  Contains (fun _ => None) (StdComparableString "node-1") (StdComparableString "*node-1") = Some false.
Proof. apply (leading_wildcard_misses (fun _ => None) "node-1"). reflexivity. Defined.

(** *** Parsing filter clauses *)

Definition no_eq (s : string) : bool := forallb (fun c => negb (bool_decide (c = "="%char))) (to_list s).

Lemma filter_submatch_go_run run f rest :
  forallb (fun c => negb (bool_decide (c = "="%char))) f = true ->
  filter_submatch_go run (f ++ rest) = filter_submatch_go (rev f ++ run) rest.
Proof.
  revert run. induction f as [|c f IH]; intros run; [done|].
  cbn [forallb]. rewrite andb_true_iff. intros [Hc Hf]. cbn [app filter_submatch_go].
  apply negb_true_iff in Hc. rewrite Hc. rewrite IH by done. simpl.
  by rewrite <- app_assoc.
Qed.

(** The clause [field = value] is parsed with the blank before the [=]
    kept in the field name and the blank after it dropped from the value; only
    [field=value] names the field itself. *)
Theorem filter_clause_field (f v : string)
    (Hf : no_eq f = true) (Hne : f <> "")
    (Hv : take_line (to_list v) = to_list v) (Hvne : v <> "") (Hb : (take_blanks (to_list v)).1 = []) :
  filter_submatch (f +:+ "=" +:+ v) = Some (f, v) /\
  filter_submatch (f +:+ " = " +:+ v) = Some (f +:+ " ", v).
Proof.
  assert (forall bl, filter_value (bl ++ to_list v) = Some (to_list v) \/ bl <> [] /\ bl <> [" "%char]) as Hfv.
  { intros bl. destruct (take_blanks (to_list v)) as [b r] eqn:Htb. simpl in Hb. subst b.
    assert (r = to_list v) as ->.
    { destruct v as [|c v]; [done|]. simpl in Htb. destruct (is_blank c); [|by simplify_eq].
      by destruct (take_blanks (to_list v)). }
    destruct bl as [|c [|]].
    - left. unfold filter_value. simpl. rewrite Htb, Hv. by destruct v.
    - destruct (bool_decide_reflect (c = " "%char)) as [->|]; [left|right; split; congruence].
      unfold filter_value. simpl. rewrite Htb, Hv. by destruct v.
    - right. done. }
  assert (forall c, c ∈ to_list f -> True) as _ by done.
  unfold filter_submatch. rewrite !to_list_app. split.
  - rewrite filter_submatch_go_run by done. cbn [to_list app filter_submatch_go].
    rewrite bool_decide_true, app_nil_r by done. destruct (Hfv []) as [Hv0|[? ?]]; [|done].
    simpl in Hv0. rewrite Hv0. destruct f as [|c f]; [done|].
    destruct (rev (to_list (String c f))) eqn:Hr.
    { apply (f_equal (@rev _)) in Hr. by rewrite rev_involutive in Hr. }
    rewrite <- Hr, rev_involutive, !of_to_list. done.
  - rewrite filter_submatch_go_run by done. cbn [to_list app filter_submatch_go].
    rewrite bool_decide_false, bool_decide_true, app_nil_r by done.
    destruct (Hfv [" "%char]) as [Hv0|[? ?]]; [|done]. simpl in Hv0. rewrite Hv0.
    cbn [rev]. rewrite rev_involutive, of_to_list. do 2 f_equal.
    rewrite <- (of_to_list (f +:+ " ")), to_list_app. done.
Qed.

Lemma filter_clause_field_witness :
  filter_submatch "name=abc" = Some ("name", "abc") /\
  filter_submatch "name = abc" = Some ("name ", "abc").
Proof. apply (filter_clause_field "name" "abc"); [reflexivity|discriminate|reflexivity|discriminate|reflexivity]. Defined.
