(* ===== verification/Cleanup.v ===== *)
(** * [controllers/deployment]: the metadata cache, the metrics and the clean-up
      of DeploymentClusters and BundleDeployments *)

From S2P Require Import Prelude Prog GoStr Types Kube.

(** ** The deletion metadata cache *)

Module Cache.

Record deploymentMetadata : Type := mkMeta {
  md_id : string;
  md_display : string;
  md_project : string;
  md_time : Z
}.

Abbreviation cache := (gmap string deploymentMetadata).

Definition second : Z := 1000000000.
Definition minute : Z := 60 * second.
Definition metadataCacheTTL : Z := 30 * minute.

Definition cache_key (namespace name : string) : string := namespace +:+ "/" +:+ name.

(** [pid, ok := d.Labels\[AppOrchActiveProjectID\]], empty when absent. *)
Definition project_of (d : Deployment) : string := mget (d_labels d) AppOrchActiveProjectID.

Definition cacheDeploymentMetadata (now : Z) (namespace name : string) (d : Deployment)
    (c : cache) : cache :=
  <[cache_key namespace name :=
      mkMeta (GetId d) (sp_display_name (d_spec d)) (project_of d) now]> c.

Definition getAndRemoveMetadata (namespace name : string) (c : cache) :
    option deploymentMetadata * cache :=
  let key := cache_key namespace name in
  match c !! key with
  | Some metadata => (Some metadata, delete key c)
  | None => (None, c)
  end.

Definition cleanupOldEntries (now : Z) (c : cache) : cache :=
  base.filter (fun kv => ~ (now - md_time kv.2 > metadataCacheTTL)) c.

End Cache.
Import Cache.

(** ** Metrics *)

(** The keys of [metricValue], in some order: the code ranges over a map. *)
Definition deployment_states : list StateType :=
  [Running; Down; Unknown; Error; InternalError; Deploying; Updating; Terminating; NoTargetClusters].

Definition cluster_states : list StateType := [Running; Down; Unknown].

Definition cleanupMetricsFromCache (metadata : option deploymentMetadata) : kprog unit :=
  match metadata with
  | None => Ret tt
  | Some metadata =>
      pfor deployment_states (fun status =>
        kcall (DeleteDeploymentMetric (md_project metadata) (md_id metadata) (md_display metadata) status)) ;;;
      kcall (DeleteTimestamps (md_project metadata) (md_id metadata))
  end.

(** The values published for a state: 1 for it, 0 for the others. *)
Definition metric_values (state : StateType) : list (StateType * Z) :=
  map (fun s => (s, if bool_decide (s = state) then 1 else 0)) deployment_states ++
  (if bool_decide (state ∈ deployment_states) then [] else [(state, 1)]).

Definition updateStatusMetrics (d : Deployment) (deleteMetrics : bool) : kprog unit :=
  let displayName := sp_display_name (d_spec d) in
  let projectID := project_of d in
  if deleteMetrics then
    pfor deployment_states (fun i => kcall (DeleteDeploymentMetric projectID (GetId d) displayName i)) ;;;
    kcall (DeleteTimestamps projectID (GetId d))
  else
    pfor (metric_values (st_state (d_status d))) (fun iv =>
      kcall (SetDeploymentMetric projectID (GetId d) displayName iv.1 iv.2)).

Definition deployment_label (d : Deployment) : gmap string string := {[DeploymentID := GetId d]}.

Definition commonClusterPatterns : list string :=
  [""; "cluster-1"; "default"; "local"; "management"; "worker"].

Definition cleanupOrphanedDeploymentClusterMetrics (d : Deployment) : kprog unit :=
  let projectID := project_of d in
  let displayName := sp_display_name (d_spec d) in
  let! bundles := kcall (ListBDs ∅) in
  (match bundles with
   | Ok items =>
       pfor items (fun bundle =>
         if bool_decide (gmlookup (bd_labels bundle) DeploymentID = Some (GetId d)) then
           pfor cluster_states (fun state =>
             kcall (DeleteDCMetric projectID (GetId d) displayName (bd_spec_id bundle) (bd_name bundle) state) ;;;
             kcall (DeleteDCMetric projectID (GetId d) displayName (bd_spec_id bundle) "" state))
         else Ret tt)
   | Err _ => Ret tt
   end) ;;;
  pfor commonClusterPatterns (fun pattern =>
    pfor cluster_states (fun state =>
      kcall (DeleteDCMetric projectID (GetId d) displayName pattern pattern state))).

Definition cleanupAllDeploymentClusterMetrics (d : Deployment) : kprog (option gerror) :=
  let! dcList := kcall (ListDCs (deployment_label d)) in
  match dcList with
  | Err err => Ret (Some err)
  | Ok items =>
      pfor items (fun dc =>
        pfor cluster_states (fun state =>
          kcall (DeleteDCMetric (project_of d) (GetId d) (sp_display_name (d_spec d))
                   (dc_cluster_id dc) (dcs_name (dc_status dc)) state))) ;;;
      cleanupOrphanedDeploymentClusterMetrics d ;;;
      Ret None
  end.

(** ** BundleDeployments *)

(** Every error of a delete is logged and ignored. *)
Definition delete_bds (bds : list BundleDeployment) : kprog unit :=
  pfor bds (fun bd => kcall (DeleteBD bd) ;;; Ret tt).

(** The label part of the comprehensive search: only when the map is not nil. *)
Definition labels_reference (d : Deployment) (gitRepos : list GitRepo) (bd : BundleDeployment) : bool :=
  match bd_labels bd with
  | None => false
  | Some labels =>
      bool_decide (mget labels DeploymentID = GetId d) ||
      match labels !! FleetRepoName with
      | Some repoName => existsb (fun gr => bool_decide (gr_name gr = repoName)) gitRepos
      | None => false
      end ||
      match labels !! FleetBundleName with
      | Some bundleName =>
          existsb (fun gr => bool_decide (bundleName = gr_name gr) ||
                             has_prefix bundleName (gr_name gr +:+ "-")) gitRepos
      | None => false
      end
  end.

Definition annotations_reference (d : Deployment) (bd : BundleDeployment) : bool :=
  match bd_annotations bd with
  | None => false
  | Some annotations => bool_decide (mget annotations DeploymentID = GetId d)
  end.

Definition short_id (d : Deployment) : string :=
  if 8 <? slen (GetId d) then stake 8 (GetId d) else GetId d.

Definition name_references (d : Deployment) (bd : BundleDeployment) : bool :=
  contains (bd_name bd) (short_id d) || contains (bd_name bd) (d_name d).

Definition shouldDelete (d : Deployment) (gitRepos : list GitRepo) (bd : BundleDeployment) : bool :=
  labels_reference d gitRepos bd || annotations_reference d bd || name_references d bd.

Definition cleanupOrphanedBundleDeployments (d : Deployment) : kprog (option gerror) :=
  let! listed := kcall (ListGitRepos (d_namespace d) (d_name d)) in
  let gitRepos := match listed with Ok items => items | Err _ => [] end in
  let! bdList := kcall (ListBDs (deployment_label d)) in
  (match bdList with Ok items => delete_bds items | Err _ => Ret tt end) ;;;
  pfor gitRepos (fun gr =>
    let! bdList2 := kcall (ListBDs {[FleetRepoName := gr_name gr]}) in
    match bdList2 with Ok items => delete_bds items | Err _ => Ret tt end) ;;;
  let! allBdList := kcall (ListBDs ∅) in
  (match allBdList with
   | Ok items =>
       pfor items (fun bd =>
         if shouldDelete d gitRepos bd then kcall (DeleteBD bd) ;;; Ret tt else Ret tt)
   | Err _ => Ret tt
   end) ;;;
  Ret None.

(** ** DeploymentClusters *)

Definition cleanupOrphanedDeploymentClusters (d : Deployment) : kprog (option gerror) :=
  let! dcList := kcall (ListDCs (deployment_label d)) in
  match dcList with
  | Err err => Ret (Some err)
  | Ok items => pfor items (fun dc => kcall (DeleteDC dc) ;;; Ret tt) ;;; Ret None
  end.

(** [currentTargets]: the cluster names the applications target. *)
Definition currentTargets (d : Deployment) : list string :=
  concat (map (fun app =>
    omap (fun target : gmap string string =>
      match target !! ClusterName with
      | Some clusterName => if bool_decide (clusterName = "") then None else Some clusterName
      | None => None
      end) (app_targets app)) (sp_apps (d_spec d))).

(** [err != nil && !apierrors.IsNotFound(err)] *)
Definition real_failure (e : option gerror) : option gerror :=
  match e with Some err => if is_not_found err then None else Some err | None => None end.

Definition cleanupRemovedTargetClusters (d : Deployment) : kprog (option gerror) :=
  if negb (bool_decide (sp_type (d_spec d) = Targeted)) then Ret None
  else
    let! dcList := kcall (ListDCs (deployment_label d)) in
    match dcList with
    | Err err => Ret (Some err)
    | Ok items =>
        pfor_ret items (fun dc =>
          if bool_decide (dc_cluster_id dc ∈ currentTargets d) then Ret None
          else let! err := kcall (DeleteDC dc) in Ret (real_failure err))
    end.
