(* ===== verification/CleanupFacts.v ===== *)
(** * What the clean-up deletes *)

From S2P Require Import Prelude Prog GoStr Types Kube Cleanup Samples.
From Stdlib Require Import Ascii.
Import Cache.

(** ** The metadata cache *)

Definition no_slash (s : string) : bool := negb (bool_decide ("/"%char ∈ to_list s)).

Lemma cache_key_inj ns1 n1 ns2 n2 :
  no_slash ns1 = true -> no_slash ns2 = true ->
  cache_key ns1 n1 = cache_key ns2 n2 -> ns1 = ns2 /\ n1 = n2.
Proof.
  unfold cache_key, no_slash. intros H1 H2 H. reflect_guards.
  apply (f_equal to_list) in H. rewrite !to_list_app in H.
  apply sep_inj in H as [Ha Hb]; [|done|done]. split; by apply to_list_inj.
Qed.

(** The metadata of a deployment being deleted is found again under its
    namespace and name exactly once, whatever other deployments were cached or
    looked up meanwhile, unless it grew older than the TTL before a sweep. *)
Theorem cache_roundtrip (now now' : Z) (ns name ns2 name2 : string) (d d2 : Deployment) (c : cache)
    (Hns : no_slash ns = true) (Hns2 : no_slash ns2 = true) (Hne : (ns, name) <> (ns2, name2)) :
  let c1 := cacheDeploymentMetadata now ns name d c in
  let c2 := (getAndRemoveMetadata ns2 name2 (cacheDeploymentMetadata now' ns2 name2 d2 c1)).2 in
  let found := mkMeta (GetId d) (sp_display_name (d_spec d)) (project_of d) now in
  getAndRemoveMetadata ns name c2 = (Some found, delete (cache_key ns name) c2) /\
  (getAndRemoveMetadata ns name (getAndRemoveMetadata ns name c2).2).1 = None /\
  (getAndRemoveMetadata ns name (cleanupOldEntries now' c2)).1 =
    (if decide (now' - now > metadataCacheTTL) then None else Some found).
Proof.
  intros c1 c2 found.
  assert (cache_key ns name <> cache_key ns2 name2) as Hkey.
  { intros H. apply cache_key_inj in H as [-> ->]; done. }
  assert (c2 !! cache_key ns name = Some found) as Hf.
  { subst c2 c1. unfold getAndRemoveMetadata, cacheDeploymentMetadata.
    rewrite lookup_insert_eq. simpl.
    rewrite lookup_delete_ne, lookup_insert_ne by done. apply lookup_insert_eq. }
  clearbody c2. unfold getAndRemoveMetadata. rewrite Hf. simpl. rewrite lookup_delete_eq.
  split; [done|]. split; [done|].
  unfold cleanupOldEntries. destruct (decide (now' - now > metadataCacheTTL)) as [Ho|Ho].
  - assert (base.filter (fun kv : string * deploymentMetadata => ~ now' - md_time kv.2 > metadataCacheTTL) c2
      !! cache_key ns name = None) as ->; [|done].
    apply map_lookup_filter_None. right. intros x Hx. rewrite Hf in Hx. simplify_eq. simpl. auto.
  - assert (base.filter (fun kv : string * deploymentMetadata => ~ now' - md_time kv.2 > metadataCacheTTL) c2
      !! cache_key ns name = Some found) as ->; [|done].
    apply map_lookup_filter_Some. done.
Qed.

Lemma cache_roundtrip_witness :
  let c1 := cacheDeploymentMetadata 5 "p1" "a" sample_deployment ∅ in
  let c2 := (getAndRemoveMetadata "p2" "a"
               (cacheDeploymentMetadata 9 "p2" "a" sample_deployment c1)).2 in
  let found := mkMeta "0123456789ab" "blog" "project-1" 5 in
  getAndRemoveMetadata "p1" "a" c2 = (Some found, delete (cache_key "p1" "a") c2) /\
  (getAndRemoveMetadata "p1" "a" (getAndRemoveMetadata "p1" "a" c2).2).1 = None /\
  (getAndRemoveMetadata "p1" "a" (cleanupOldEntries 9 c2)).1 =
    (if decide (9 - 5 > metadataCacheTTL) then None else Some found).
Proof. apply (cache_roundtrip 5 9 "p1" "a" "p2" "a"); [reflexivity|reflexivity|congruence]. Defined.

(** ** Metrics *)

Lemma deployment_states_NoDup : NoDup deployment_states.
Proof. apply (bool_decide_unpack _). vm_compute. exact I. Qed.

(** Publishing a status sets each known state exactly once and gives the
    value 1 to the deployment's state and to no other. *)
Theorem metric_values_one_hot (state : StateType) :
  NoDup (map fst (metric_values state)) /\
  (forall s, s ∈ deployment_states -> s ∈ map fst (metric_values state)) /\
  (forall s v, (s, v) ∈ metric_values state -> v = if decide (s = state) then 1 else 0) /\
  (state, 1) ∈ metric_values state.
Proof.
  unfold metric_values. rewrite map_app, map_map. cbn [fst].
  rewrite map_id. repeat split.
  - case_bool_decide as Hin; cbn [map fst].
    + rewrite app_nil_r. apply deployment_states_NoDup.
    + apply NoDup_app. split; [apply deployment_states_NoDup|]. split; [|apply NoDup_singleton].
      intros x Hx ->%list_elem_of_singleton. done.
  - intros s Hs. apply elem_of_app. by left.
  - intros s v [H|H]%elem_of_app.
    + apply list_elem_of_fmap in H as (s' & [= -> ->] & _). by rewrite decide_bool_decide.
    + case_bool_decide; [by apply elem_of_nil in H|].
      apply list_elem_of_singleton in H as [= -> ->]. by rewrite decide_True.
  - apply elem_of_app. case_bool_decide as Hin; [left|right; left].
    apply list_elem_of_fmap. exists state. by rewrite bool_decide_true.
Qed.

(** ** BundleDeployments *)

Lemma traces_delete_bd bd t u :
  traces (kcall (DeleteBD bd) ;;; Ret tt) t u -> omap sel_bd t = [bd].
Proof. intros (r & t' & -> & -> & _). done. Qed.

Lemma concat_map_singleton {A : Type} (l : list A) : concat (map (fun x => [x]) l) = l.
Proof. induction l as [|x l IH]; simpl; congruence. Qed.

Lemma traces_delete_bds bds t u : traces (delete_bds bds) t u -> omap sel_bd t = bds.
Proof.
  intros Ht. rewrite <- (concat_map_singleton bds).
  eapply traces_pfor_omap; [|exact Ht]. intros bd t' u' _ Hb. by eapply traces_delete_bd.
Qed.

Lemma concat_map_filter {A : Type} (p : A -> bool) (l : list A) :
  concat (map (fun x => if p x then [x] else []) l) = List.filter p l.
Proof. induction l as [|x l IH]; simpl; [done|]. rewrite IH. by destruct (p x). Qed.

Lemma traces_delete_matching (p : BundleDeployment -> bool) bds t u :
  traces (pfor bds (fun bd => if p bd then kcall (DeleteBD bd) ;;; Ret tt else Ret tt)) t u ->
  omap sel_bd t = List.filter p bds.
Proof.
  intros Ht. rewrite <- concat_map_filter. eapply traces_pfor_omap; [|exact Ht].
  intros bd t' u' _. simpl. destruct (p bd); [by apply traces_delete_bd|by intros [-> _]].
Qed.

(** Some list call of the trace was answered with these items. *)
Definition answered_bds (t : list kevent) (labels : gmap string string)
    (items : list BundleDeployment) : Prop := ev (ListBDs labels) (Ok items) ∈ t.

Lemma traces_by_repo grs t u :
  traces (pfor grs (fun gr =>
    let! bdList2 := kcall (ListBDs {[FleetRepoName := gr_name gr]}) in
    match bdList2 with Ok items => delete_bds items | Err _ => Ret tt end)) t u ->
  forall bd, bd ∈ omap sel_bd t ->
    exists gr items, gr ∈ grs /\ answered_bds t {[FleetRepoName := gr_name gr]} items /\ bd ∈ items.
Proof.
  revert t. induction grs as [|gr grs IH]; intros t; simpl.
  - intros [-> _] bd H. by apply elem_of_nil in H.
  - intros (r & t0 & -> & Ht) bd Hbd. apply traces_bind in Ht as (t1 & t2 & [] & -> & H1 & H2).
    simpl in Hbd. rewrite omap_app in Hbd. apply elem_of_app in Hbd as [Hbd|Hbd].
    + destruct r as [items|e]; [|by destruct H1 as [-> _]; apply elem_of_nil in Hbd].
      apply traces_delete_bds in H1. rewrite H1 in Hbd. exists gr, items.
      split; [left|]. split; [left|done].
    + destruct (IH t2 H2 bd Hbd) as (gr' & items & Hgr & Ha & Hin).
      exists gr', items. split; [by right|]. split; [|done].
      unfold answered_bds. rewrite elem_of_cons, elem_of_app. auto.
Qed.

(** Whatever the API answers, the clean-up of BundleDeployments never
    fails, and it deletes exactly: every BundleDeployment listed under the
    deployment's id, those listed under the name of one of its GitRepos, and
    of the list of all BundleDeployments those [shouldDelete] selects; nothing
    else is deleted. *)
Theorem cleanup_bds_exact (d : Deployment) (t : list kevent) (r : option gerror)
    (Ht : traces (cleanupOrphanedBundleDeployments d) t r) :
  r = None /\
  exists gitRepos byId byRepo all,
    (gitRepos = [] \/ ev (ListGitRepos (d_namespace d) (d_name d)) (Ok gitRepos) ∈ t) /\
    (byId = [] \/ answered_bds t (deployment_label d) byId) /\
    (forall bd, bd ∈ byRepo -> exists gr items,
       gr ∈ gitRepos /\ answered_bds t {[FleetRepoName := gr_name gr]} items /\ bd ∈ items) /\
    (all = [] \/ answered_bds t ∅ all) /\
    deleted_bds t = byId ++ byRepo ++ List.filter (shouldDelete d gitRepos) all.
Proof.
  destruct Ht as (r1 & t0 & -> & r2 & t0' & -> & Ht). simpl in Ht.
  apply traces_bind in Ht as (t1 & t2 & [] & -> & H1 & H2).
  apply traces_bind in H2 as (t3 & t4 & [] & -> & H3 & (r4 & t5 & -> & H4)). simpl in H4.
  apply traces_bind in H4 as (t6 & t7 & [] & -> & H6 & [-> ->]).
  split; [done|].
  exists (match r1 with Ok items => items | Err _ => [] end), (match r2 with Ok items => items | Err _ => [] end),
    (omap sel_bd t3), (match r4 with Ok items => items | Err _ => [] end).
  unfold answered_bds. rewrite app_nil_r. repeat split.
  - destruct r1; [right; left|by left].
  - destruct r2; [right; right; left|by left].
  - intros bd Hbd. destruct (traces_by_repo _ _ _ H3 bd Hbd) as (gr & items & Hg & Ha & Hi).
    exists gr, items. split; [done|]. split; [|done]. set_solver.
  - destruct r4; [right|by left]. set_solver.
  - unfold deleted_bds. simpl. rewrite !omap_app. simpl. rewrite ?omap_app, ?app_nil_r.
    f_equal; [|f_equal].
    + destruct r2; [by eapply traces_delete_bds|by destruct H1 as [-> _]].
    + destruct r4; [by eapply traces_delete_matching|by destruct H6 as [-> _]].
Qed.

Lemma cleanup_bds_exact_witness :
  let bds := [sample_bd "b-1" "cluster-a" None; sample_bd "x-deployment-x" "other" None] in
  let t := log_of (with_bds (Ok bds) empty_world) (cleanupOrphanedBundleDeployments sample_deployment) in
  (None = (None : option gerror) /\
   exists gitRepos byId byRepo all,
    (gitRepos = [] \/ ev (ListGitRepos "project-1" "deployment-x") (Ok gitRepos) ∈ t) /\
    (byId = [] \/ answered_bds t (deployment_label sample_deployment) byId) /\
    (forall bd, bd ∈ byRepo -> exists gr items,
       gr ∈ gitRepos /\ answered_bds t {[FleetRepoName := gr_name gr]} items /\ bd ∈ items) /\
    (all = [] \/ answered_bds t ∅ all) /\
    deleted_bds t = byId ++ byRepo ++ List.filter (shouldDelete sample_deployment gitRepos) all).
Proof. intros bds t. apply (cleanup_bds_exact sample_deployment t None). apply log_of_traces. Defined.

(** The comprehensive search matches by name across all namespaces and
    tenants: of the BundleDeployments the API lists in total, every one whose
    name merely contains the deployment's name is deleted, also when no label,
    annotation or GitRepo ties it to the deployment. *)
Theorem foreign_bundle_deleted (d : Deployment) (t : list kevent) (r : option gerror)
    (Ht : traces (cleanupOrphanedBundleDeployments d) t r) :
  exists answer : res (list BundleDeployment),
    ev (ListBDs ∅) answer ∈ t /\
    match answer with
    | Ok items => forall bd a b, bd ∈ items -> bd_name bd = a +:+ d_name d +:+ b -> bd ∈ deleted_bds t
    | Err _ => True
    end.
Proof.
  destruct Ht as (r1 & t0 & -> & r2 & t0' & -> & Ht). simpl in Ht.
  apply traces_bind in Ht as (t1 & t2 & [] & -> & H1 & H2).
  apply traces_bind in H2 as (t3 & t4 & [] & -> & H3 & (r4 & t5 & -> & H4)). simpl in H4.
  apply traces_bind in H4 as (t6 & t7 & [] & -> & H6 & [-> ->]).
  exists r4. split; [set_solver|]. destruct r4 as [items|e]; [|done].
  intros bd a b Hin Hname. apply traces_delete_matching in H6.
  unfold deleted_bds. simpl. rewrite !omap_app. simpl. rewrite omap_app, H6, !elem_of_app.
  right. right. left. apply list_elem_of_In, filter_In. rewrite <- list_elem_of_In.
  split; [done|]. unfold shouldDelete, name_references. rewrite Hname, contains_refl_app.
  by rewrite !orb_true_r.
Qed.

Lemma foreign_bundle_deleted_witness :
  let bds := [sample_bd "s-my-deployment-x-2" "another-tenant" (Some {[DeploymentID := "ffff"]})] in
  let t := log_of (with_bds (Ok bds) empty_world) (cleanupOrphanedBundleDeployments sample_deployment) in
  deleted_bds t = bds ++ bds /\
  exists answer : res (list BundleDeployment),
    ev (ListBDs ∅) answer ∈ t /\
    match answer with
    | Ok items => forall bd a b, bd ∈ items -> bd_name bd = a +:+ "deployment-x" +:+ b -> bd ∈ deleted_bds t
    | Err _ => True
    end.
Proof.
  intros bds t. split; [vm_compute; reflexivity|].
  apply (foreign_bundle_deleted sample_deployment t None). apply log_of_traces.
Defined.

(** ** DeploymentClusters *)

(** Editing the targets of a deployment: an auto-scaling deployment loses
    nothing; for a targeted one exactly the listed DeploymentClusters whose
    cluster no application targets any more are deleted, in order, stopping at
    the first delete that really fails (a missing object is not a failure). *)
Theorem removed_targets_exact (d : Deployment) (t : list kevent) (r : option gerror)
    (Ht : traces (cleanupRemovedTargetClusters d) t r) :
  if decide (sp_type (d_spec d) = Targeted) then
    exists answer : res (list DeploymentCluster),
      head t = Some (ev (ListDCs (deployment_label d)) answer) /\
      match answer with
      | Err e => r = Some e /\ deleted_dcs t = []
      | Ok items =>
          let removed := List.filter (fun dc => negb (bool_decide (dc_cluster_id dc ∈ currentTargets d))) items in
          deleted_dcs t `prefix_of` removed /\ (r = None -> deleted_dcs t = removed)
      end
  else t = [] /\ r = None.
Proof.
  unfold cleanupRemovedTargetClusters in Ht. case_decide as Hty.
  - rewrite bool_decide_true in Ht by done. destruct Ht as (answer & t' & -> & Ht).
    exists answer. split; [done|]. destruct answer as [items|e]; [|destruct Ht as [-> ->]; done].
    simpl in Ht. apply (traces_pfor_ret_omap sel_dc (fun dc =>
      if negb (bool_decide (dc_cluster_id dc ∈ currentTargets d)) then [dc] else [])) in Ht
      as (l1 & l2 & -> & Heq & Hend).
    + rewrite concat_map_filter in Heq. cbv zeta.
      assert (deleted_dcs (ev (ListDCs (deployment_label d)) (Ok (l1 ++ l2)) :: t') =
              omap sel_dc t') as -> by done.
      rewrite Heq, List.filter_app. split; [by eexists|].
      intros Hr. rewrite (Hend Hr). by rewrite app_nil_r.
    + intros dc t o _. simpl. destruct (bool_decide _); simpl; [by intros [-> _]|].
      by intros (e & t1 & -> & -> & _).
  - rewrite bool_decide_false in Ht by done. destruct Ht as [-> ->]. done.
Qed.

Lemma removed_targets_exact_witness :
  let dcs := [sample_dc "dc-1" "cluster-a" Running; sample_dc "dc-2" "cluster-b" Running] in
  let t := log_of (with_dcs (Ok dcs) empty_world) (cleanupRemovedTargetClusters sample_deployment) in
  deleted_dcs t = [sample_dc "dc-2" "cluster-b" Running] /\
  exists answer : res (list DeploymentCluster),
    head t = Some (ev (ListDCs (deployment_label sample_deployment)) answer) /\
    match answer with
    | Err e => None = Some e /\ deleted_dcs t = []
    | Ok items =>
        let removed := List.filter (fun dc =>
          negb (bool_decide (dc_cluster_id dc ∈ currentTargets sample_deployment))) items in
        deleted_dcs t `prefix_of` removed /\ (None = (None : option gerror) -> deleted_dcs t = removed)
    end.
Proof.
  intros dcs t. split; [vm_compute; reflexivity|].
  exact (removed_targets_exact sample_deployment t None (log_of_traces _ _)).
Defined.
