(* ===== verification/Status.v ===== *)
(** * [controllers/deployment]: the status of a Deployment

    [updateStatus], [updateWithGitJobStatus], [updateDeploymentStatus] and
    [forceRedeployStuckApps]. *)

From S2P Require Import Prelude Prog GoStr Types K8sLib Utils Kube Cleanup.

Definition typeReady : string := "Ready".
Definition typeGitSynced : string := "GitSynced".
Definition typeGitReposUpdated : string := "GitReposUpdated".
Definition typeNotStalled : string := "NotStalled".
Definition reasonSuccess : string := "Success".
Definition reasonFailed : string := "Failed".
Definition forceResyncInterval : Z := Cache.minute.
Definition readyWait : Z := 10.
Definition noTargetClustersWait : Z := 5 * Cache.minute.

(** ** Names *)

Definition getGitRepoName (appName depID : string) : string := appName +:+ "-" +:+ depID.

Definition getAppNameForGitRepo (gitrepo : GitRepo) (depID : string) : string :=
  trim_suffix (gr_name gitrepo) ("-" +:+ depID).

(** ** [pkg/logchecker]: patterns with the canned text shown instead *)

Definition LogChecker : Type := list ((string -> bool) * string).

Definition LogChecker_New : LogChecker := [].

Definition AddCheck (lc : LogChecker) (re : string -> bool) (response : string) : LogChecker :=
  lc ++ [(re, response)].

Definition ProcessLog (lc : LogChecker) (log : string) : string :=
  match find_first (fun p => p.1 log) lc with Some (_, response) => response | None => log end.

(** The controller's [logchecker]: [SetupWithManager] adds no pattern. *)
Definition logchecker : LogChecker := LogChecker_New.

Section Status.
Context {L : K8sLib} {M : MapRange}.

(** ** Git job pods *)

(** The latest failed pod. *)
Definition latest_failed (pods : list Pod) : option Pod :=
  fold_left (fun errPod p =>
    if negb (bool_decide (pod_phase p = "Failed")) then errPod
    else match errPod with
         | None => Some p
         | Some q => if pod_creation q <? pod_creation p then Some p else errPod
         end) pods None.

Definition job_error (cs : option ContainerTerminated) : option string :=
  match cs with
  | Some t => if bool_decide (ct_reason t = "Error") && negb (bool_decide (ct_message t = ""))
              then Some (ct_message t) else None
  | None => None
  end.

Abbreviation condMap := (gmap string Condition).

Definition updateWithGitJobStatus (d : Deployment) (gitRepo : GitRepo) (conds : condMap) :
    kprog (condMap * option gerror) :=
  let! gitJobs := kcall (ListJobs (gr_name gitRepo)) in
  match gitJobs with
  | Err err => Ret (conds, Some err)
  | Ok [] => Ret (conds, None)
  | Ok (job :: _) =>
      if job_succeeded job =? 1 then
        let! now := kcall Now in
        Ret (<[gr_name gitRepo := mkCond typeNotStalled ConditionTrue now reasonSuccess
                 (MessageFromError None)]> conds, None)
      else
        let! gitjobPods := kcall (ListPods {["job-name" := job_name job]}) in
        match gitjobPods with
        | Err err => Ret (conds, Some err)
        | Ok pods =>
            match latest_failed pods with
            | None => Ret (conds, None)
            | Some errPod =>
                let! conds' := pfold (pod_terminated errPod) conds (fun conds cs =>
                  match job_error cs with
                  | Some msg =>
                      let! now := kcall Now in
                      Ret (<[gr_name gitRepo := mkCond typeNotStalled ConditionFalse now reasonFailed
                               (MessageFromError (Some (errorf
                                 (getAppNameForGitRepo gitRepo (GetId d) +:+ ": " +:+ msg))))]> conds)
                  | None => Ret conds
                  end) in
                Ret (conds', None)
            end
        end
  end.

(** ** [updateDeploymentStatus] *)

Definition app_message (appName msg : string) : string := "App " +:+ appName +:+ ": " +:+ msg.

(** One GitRepo: whether it is stalled, and the message so far. *)
Definition walk_gitrepo (d : Deployment) (acc : bool * string) (gitrepo : GitRepo) : bool * string :=
  let '(stalledApps, message) := acc in
  let appName := getAppNameForGitRepo gitrepo (GetId d) in
  let '(stalledApps, message) :=
    if st_in_progress (d_status d) then
      match GetGenericCondition (gr_conditions gitrepo) "Stalled" with
      | Some sc =>
          if bool_decide (gc_status sc = ConditionTrue)
          then (true, AppendMessage (ProcessLog logchecker message) (app_message appName (gc_message sc)))
          else (stalledApps, message)
      | None => (stalledApps, message)
      end
    else (stalledApps, message) in
  if negb (bool_decide (gr_display_message gitrepo = ""))
  then (stalledApps, AppendMessage (ProcessLog logchecker message)
                       (app_message appName (gr_display_message gitrepo)))
  else (stalledApps, message).

Definition walk_gitrepos (d : Deployment) (grlist : list GitRepo) : bool * string :=
  fold_left (walk_gitrepo d) grlist (false, "").

(** The NotStalled condition. *)
Definition walk_stalled (d : Deployment) (acc : bool * string) : bool * string :=
  if st_in_progress (d_status d) then
    match find_status_condition (st_conditions (d_status d)) typeNotStalled with
    | Some cond => if bool_decide (c_status cond = ConditionFalse)
                   then (true, AppendMessage acc.2 (c_message cond)) else acc
    | None => acc
    end
  else acc.

(** What the walk over the DeploymentClusters accumulates. *)
Record tally : Type := mkTally {
  t_running : Z;
  t_down : Z;
  t_unknown : Z;
  t_stalled : bool;
  t_message : string;
  t_requeue : bool
}.

Definition apps_current (d : Deployment) (dc : DeploymentCluster) : bool :=
  forallb (fun app => d_generation d =? a_generation app) (dcs_apps (dc_status dc)).

(** A Ready condition that is at most [readyWait] seconds old, or missing. *)
Definition too_fresh (dc : DeploymentCluster) : kprog bool :=
  match find_status_condition (dcs_conditions (dc_status dc)) typeReady with
  | None => Ret true
  | Some cond =>
      let! now := kcall Now in
      Ret (now - c_time cond <=? readyWait * Cache.second)
  end.

Definition dc_state (dc : DeploymentCluster) : StateType := s_state (dcs_status (dc_status dc)).
Definition dc_message (dc : DeploymentCluster) : string := s_message (dcs_status (dc_status dc)).

Definition walk_dc (d : Deployment) (t : tally) (dc : DeploymentCluster) : kprog tally :=
  if bool_decide (dc_state dc = Unknown) then
    Ret (mkTally (t_running t) (t_down t) (t_unknown t + 1) (t_stalled t) (t_message t) (t_requeue t))
  else if bool_decide (dc_state dc = Down) then
    let deadline := contains (dc_message dc) "Progress deadline exceeded" in
    Ret (mkTally (t_running t) (t_down t + 1) (t_unknown t) (t_stalled t || deadline)
           (if deadline then AppendMessage (t_message t) (dc_message dc) else t_message t) (t_requeue t))
  else if bool_decide (dc_state dc = Running) then
    let! fresh := too_fresh dc in
    let ready := apps_current d dc && negb fresh in
    Ret (mkTally (t_running t + (if ready then 1 else 0)) (t_down t + (if ready then 0 else 1))
           (t_unknown t) (t_stalled t) (t_message t) (t_requeue t || fresh))
  else Ret t.

Definition walk_dcs (d : Deployment) (stalled : bool) (message : string)
    (dclist : list DeploymentCluster) : kprog tally :=
  pfold dclist (mkTally 0 0 0 stalled message false) (walk_dc d).

(** The [switch] that picks the state; [total] is [len(dclist)]. *)
Definition calculate_state (d : Deployment) (total : Z) (t : tally) : kprog StateType :=
  if t_stalled t then Ret Error
  else if 0 <? t_unknown t then Ret Unknown
  else if total =? 0 then
    let! now := kcall Now in
    if d_creation d + noTargetClustersWait <? now then Ret NoTargetClusters
    else if st_in_progress (d_status d) then Ret Deploying
    else Ret NoTargetClusters
  else if (0 <? t_down t) || (t_running t <? total) then
    if st_in_progress (d_status d) then
      if d_generation d <=? 1 then Ret Deploying else Ret Updating
    else Ret Down
  else
    kcall (RecordTimestamp (mget (d_labels d) AppOrchActiveProjectID) (GetId d)
             (sp_display_name (d_spec d)) Running "status-change") ;;;
    kcall (CalcTimeDifference (mget (d_labels d) AppOrchActiveProjectID) (GetId d)
             (sp_display_name (d_spec d)) "start" "CreateDeployment" Running "status-change") ;;;
    Ret Running.

Definition cluster_display (total : Z) (t : tally) (apps : Z) : string :=
  "Clusters: " +:+ itoa total +:+ "/" +:+ itoa (t_running t) +:+ "/" +:+ itoa (t_down t) +:+ "/" +:+
  itoa (t_unknown t) +:+ ", Apps: " +:+ itoa apps.

(** Returns the deployment with its new status and [r.requeueStatus]. *)
Definition updateDeploymentStatus (d : Deployment) (grlist : list GitRepo)
    (dclist : list DeploymentCluster) : kprog (Deployment * bool) :=
  let '(stalledApps, message) := walk_stalled d (walk_gitrepos d grlist) in
  let total := zlen dclist in
  let! t := walk_dcs d stalledApps message dclist in
  let! newState := calculate_state d total t in
  let st := d_status d in
  Ret (set_status (fun st =>
         mkStatus (st_conditions st) (cluster_display total t (zlen grlist)) newState (t_message t)
           (mkSummary total (t_running t) (t_down t) (t_unknown t))
           (st_in_progress st && negb (bool_decide (newState = Running)))
           (st_last_resync st) (st_reconciled_gen st) (st_parents st)) d,
       t_requeue t).

(** ** [updateStatus] *)

(** The text [fmt.Errorf("%+v", msgs)] gives a slice of strings. *)
Definition print_strings (msgs : list string) : string := "[" +:+ join msgs " " +:+ "]".

Definition failed_messages (conds : condMap) : list string :=
  omap (fun kv => if bool_decide (c_reason kv.2 = reasonFailed) then Some (c_message kv.2) else None)
    (map_range conds).

(** The NotStalled condition out of the conditions of all GitRepos. *)
Definition stalled_condition (d : Deployment) (repos : Z) (conds : condMap) : kprog Deployment :=
  let msgs := failed_messages conds in
  let set status reason err :=
    let! now := kcall Now in
    Ret (set_status (fun st => with_conditions (UpdateStatusCondition now (st_conditions st)
      typeNotStalled status reason err) st) d) in
  match msgs with
  | _ :: _ => set ConditionFalse reasonFailed (Some (errorf (print_strings msgs)))
  | [] => if repos =? Z.of_nat (size conds) then set ConditionTrue reasonSuccess None else Ret d
  end.

(** Returns the deployment, the error and the new [r.requeueStatus]. *)
Definition updateStatus (d : Deployment) (requeue : bool) : kprog (Deployment * bool * option gerror) :=
  if negb (not_deleting d) then Ret (set_status (with_state Terminating) d, requeue, None)
  else
    let! childGitRepos := kcall (ListGitRepos (d_namespace d) (d_name d)) in
    match childGitRepos with
    | Err err => Ret (d, requeue, Some err)
    | Ok gitrepos =>
        let! deploymentClusters := kcall (ListDCs (deployment_label d)) in
        match deploymentClusters with
        | Err err => Ret (d, requeue, Some err)
        | Ok dcs =>
            let! walked := (if st_in_progress (d_status d) then
              let! conds := pfold_ret gitrepos (∅ : condMap) (fun conds gitRepo =>
                updateWithGitJobStatus d gitRepo conds) in
              match conds with
              | (_, Some err) => Ret (d, Some err)
              | (conds, None) =>
                  let! d' := stalled_condition d (zlen gitrepos) conds in
                  Ret (d', None)
              end
            else Ret (d, None)) in
            match walked with
            | (d, Some err) => Ret (d, requeue, Some err)
            | (d, None) =>
                match find_first (fun cond => bool_decide (c_status cond = ConditionFalse))
                        (st_conditions (d_status d)) with
                | Some cond =>
                    Ret (set_status (fun st => with_state InternalError (with_message (c_message cond) st)) d,
                         requeue, None)
                | None =>
                    let! dr := updateDeploymentStatus d gitrepos dcs in
                    Ret (dr.1, dr.2, None)
                end
            end
        end
    end.

(** ** [forceRedeployStuckApps] *)

(** [time.Time.Format(time.RFC3339)] and [time.Parse]; seconds survive. *)
Context (format_rfc3339 : Z -> string) (parse_rfc3339 : string -> option Z).

Definition stuck (gitRepo : GitRepo) : bool :=
  match GetGenericCondition (gr_conditions gitRepo) "Ready" with
  | Some c => bool_decide (gc_status c = "False") && contains (gc_message c) "Unable to continue"
  | None => false
  end ||
  match GetGenericCondition (gr_conditions gitRepo) "Stalled" with
  | Some c => bool_decide (gc_status c = "True")
  | None => false
  end.

Definition bump_force_sync (gr : GitRepo) : GitRepo :=
  mkGitRepo (gr_name gr) (gr_namespace gr) (gr_labels gr) (gr_owner gr) (gr_repo gr) (gr_paths gr)
    (gr_helm_secret gr) (gr_client_secret gr) (gr_ca_bundle gr) (gr_targets gr) (gr_polling gr)
    (wrap64 (gr_force_sync gr + 1)) (gr_conditions gr) (gr_display_message gr).

Definition forceRedeployStuckApps (d : Deployment) : kprog (Deployment * option gerror) :=
  if bool_decide (st_last_resync (d_status d) = "") then
    let! now := kcall Now in
    Ret (set_status (with_last_resync (format_rfc3339 now)) d, None)
  else
    match parse_rfc3339 (st_last_resync (d_status d)) with
    | None => Ret (d, Some (errorf "failed to parse LastForceResync"))
    | Some lastForceResync =>
        let! now := kcall Now in
        if now - lastForceResync <? forceResyncInterval then Ret (d, None)
        else
          let! gitRepos := kcall (ListGitRepos (d_namespace d) (d_name d)) in
          match gitRepos with
          | Err err => Ret (d, Some (errorf ("failed list GitRepos (" +:+ e_msg err +:+ ")")))
          | Ok items =>
              pfold_ret items d (fun d gitRepo =>
                if stuck gitRepo then
                  let app := getAppNameForGitRepo gitRepo (GetId d) in
                  let! err := kcall (UpdateGitRepo (bump_force_sync gitRepo)) in
                  match err with
                  | Some err =>
                      Ret (d, Some (errorf ("failed to force sync app " +:+ app +:+ "(" +:+ e_msg err +:+ ")")))
                  | None =>
                      let! now := kcall Now in
                      kcall (RecordEvent "Normal" "Reconciling" ("Force sync triggered for app " +:+ app)) ;;;
                      Ret (set_status (with_last_resync (format_rfc3339 now)) d, None)
                  end
                else Ret (d, None))
          end
    end.
End Status.
