(* ===== verification/StatusFacts.v ===== *)
(** * Correctness of the Deployment status *)

From S2P Require Import Prelude Prog GoStr Types K8sLib Utils Kube Cleanup Status Samples.

Section Facts.
Context {L : K8sLib} {M : MapRange}.

(** ** The walk over the DeploymentClusters *)

(** What it takes to count as running: Running state, every app at the
    deployment's generation, and a Ready condition seen to be older than the
    grace period. *)
Definition dc_good (d : Deployment) (tr : list kevent) (dc : DeploymentCluster) : Prop :=
  dc_state dc = Running /\ apps_current d dc = true /\
  exists cond now, find_status_condition (dcs_conditions (dc_status dc)) typeReady = Some cond /\
    ev Now now ∈ tr /\ now - c_time cond > readyWait * Cache.second.

Definition known_state (dc : DeploymentCluster) : bool :=
  bool_decide (dc_state dc ∈ cluster_states).

Definition past_deadline (dc : DeploymentCluster) : bool :=
  bool_decide (dc_state dc = Down) && contains (dc_message dc) "Progress deadline exceeded".

Definition b2z (b : bool) : Z := if b then 1 else 0.

(** The counters one DeploymentCluster adds. *)
Record increments (d : Deployment) (tr : list kevent) (dc : DeploymentCluster) (t0 t : tally) : Prop := {
  inc_running : t_running t0 <= t_running t <= t_running t0 + 1;
  inc_down : t_down t0 <= t_down t;
  inc_unknown : t_unknown t = t_unknown t0 + b2z (bool_decide (dc_state dc = Unknown));
  inc_sum : t_running t + t_down t + t_unknown t =
            t_running t0 + t_down t0 + t_unknown t0 + b2z (known_state dc);
  inc_good : t_running t = t_running t0 + 1 -> dc_good d tr dc;
  inc_stalled : t_stalled t = t_stalled t0 || past_deadline dc
}.

Lemma known_state_iff dc :
  known_state dc = bool_decide (dc_state dc = Unknown) || bool_decide (dc_state dc = Down) ||
                   bool_decide (dc_state dc = Running).
Proof.
  unfold known_state, cluster_states.
  repeat case_bool_decide; try done; exfalso; set_solver.
Qed.

Lemma walk_dc_increments d t0 dc tr t :
  traces (walk_dc d t0 dc) tr t -> increments d tr dc t0 t.
Proof.
  unfold walk_dc. pose proof (known_state_iff dc) as Hk.
  destruct (bool_decide_reflect (dc_state dc = Unknown)) as [Hu|Hu]; [|
  destruct (bool_decide_reflect (dc_state dc = Down)) as [Hd|Hd]; [|
  destruct (bool_decide_reflect (dc_state dc = Running)) as [Hr|Hr]]].
  - intros [-> ->]. split; simpl; rewrite ?bool_decide_true by done; simpl; rewrite ?Hk; simpl; try lia.
    unfold past_deadline. by rewrite bool_decide_false, orb_false_r by (rewrite Hu; done).
  - intros [-> ->]. split; simpl; rewrite ?(bool_decide_false (dc_state dc = Unknown)) by done;
      simpl; rewrite ?Hk; simpl; try lia.
    unfold past_deadline. by rewrite bool_decide_true by done.
  - intros Ht. apply traces_bind in Ht as (t1 & t2 & fresh & -> & Hf & [-> ->]).
    split; simpl; rewrite ?(bool_decide_false (dc_state dc = Unknown)) by done;
      simpl; rewrite ?Hk; simpl; try (destruct (apps_current d dc && negb fresh); simpl; lia).
    + destruct (apps_current d dc) eqn:Ha; simpl; [|lia].
      destruct fresh; simpl; [lia|]. intros _. split; [done|]. split; [done|].
      unfold too_fresh in Hf. destruct (find_status_condition _ _) as [cond|]; [|by destruct Hf].
      destruct Hf as (now & t' & -> & [-> Hle]). exists cond, now. rewrite app_nil_r.
      split; [done|]. split; [left|]. symmetry in Hle. reflect_guards. lia.
    + unfold past_deadline. by rewrite bool_decide_false, orb_false_r by done.
  - intros [-> ->]. split; simpl; rewrite ?bool_decide_false by done; simpl; rewrite ?Hk; simpl; try lia.
    unfold past_deadline. by rewrite bool_decide_false, orb_false_r by done.
Qed.

Lemma dc_good_mono d tr1 tr2 dc : tr1 ⊆ tr2 -> dc_good d tr1 dc -> dc_good d tr2 dc.
Proof. intros Hs (H1 & H2 & cond & now & H3 & H4 & H5). repeat split; eauto 10. Qed.

(** The counters of the whole walk. *)
Record walk_result (d : Deployment) (tr : list kevent) (dcs : list DeploymentCluster) (t0 t : tally) : Prop := {
  wr_running : t_running t0 <= t_running t <= t_running t0 + zlen dcs;
  wr_down : t_down t0 <= t_down t;
  wr_unknown : t_unknown t = t_unknown t0 +
    zlen (List.filter (fun dc => bool_decide (dc_state dc = Unknown)) dcs);
  wr_sum : t_running t + t_down t + t_unknown t =
           t_running t0 + t_down t0 + t_unknown t0 + zlen (List.filter known_state dcs);
  wr_good : t_running t = t_running t0 + zlen dcs -> forall dc, dc ∈ dcs -> dc_good d tr dc;
  wr_stalled : t_stalled t = t_stalled t0 || existsb past_deadline dcs
}.

Lemma zlen_filter_cons {A : Type} (p : A -> bool) x (l : list A) :
  zlen (List.filter p (x :: l)) = b2z (p x) + zlen (List.filter p l).
Proof. simpl. destruct (p x); simpl; rewrite ?zlen_cons; lia. Qed.

Lemma walk_dcs_result d dcs t0 tr t :
  traces (pfold dcs t0 (walk_dc d)) tr t -> walk_result d tr dcs t0 t.
Proof.
  revert t0 tr. induction dcs as [|dc dcs IH]; intros t0 tr; simpl.
  - intros [-> ->]. split; simpl; unfold zlen; simpl; try lia; [set_solver|by rewrite orb_false_r].
  - intros Ht. apply traces_bind in Ht as (tr1 & tr2 & t1 & -> & H1 & H2).
    apply walk_dc_increments in H1 as [I1 I2 I3 I4 I5 I6].
    apply IH in H2 as [W1 W2 W3 W4 W5 W6].
    split; rewrite ?zlen_cons, ?zlen_filter_cons; try lia.
    + intros Hfull dc' [->|Hin]%elem_of_cons.
      * eapply dc_good_mono; [|apply I5; lia]. set_solver.
      * eapply dc_good_mono; [|apply W5; [lia|done]]. set_solver.
    + simpl. by rewrite W6, I6, orb_assoc.
Qed.

(** ** The state as a function of what was seen *)

Definition gitrepo_stalled (gitrepo : GitRepo) : bool :=
  match GetGenericCondition (gr_conditions gitrepo) "Stalled" with
  | Some sc => bool_decide (gc_status sc = ConditionTrue)
  | None => false
  end.

Definition condition_stalled (d : Deployment) : bool :=
  match find_status_condition (st_conditions (d_status d)) typeNotStalled with
  | Some cond => bool_decide (c_status cond = ConditionFalse)
  | None => false
  end.

(** Something is stuck: a stalled GitRepo or failed git job while a rollout is
    in progress, or a cluster past its progress deadline. *)
Definition stalled_spec (d : Deployment) (grlist : list GitRepo) (dclist : list DeploymentCluster) : bool :=
  (st_in_progress (d_status d) && (existsb gitrepo_stalled grlist || condition_stalled d)) ||
  existsb past_deadline dclist.

(** The abstract state table; [grace_over] is whether the deployment is older
    than [noTargetClustersWait]. *)
Definition state_spec (stalled : bool) (s : ClusterSummary) (in_progress : bool) (generation : Z)
    (grace_over : bool) : StateType :=
  if stalled then Error
  else if bool_decide (cs_unknown s > 0) then Unknown
  else if bool_decide (cs_total s = 0) then
    if grace_over || negb in_progress then NoTargetClusters else Deploying
  else if bool_decide (cs_running s = cs_total s) then Running
  else if in_progress then (if bool_decide (generation <= 1) then Deploying else Updating)
  else Down.

Lemma state_spec_Running st s ip g old :
  state_spec st s ip g old = Running ->
  st = false /\ cs_total s <> 0 /\ cs_running s = cs_total s.
Proof.
  unfold state_spec. destruct st; [done|]. case_bool_decide; [done|].
  case_bool_decide; [by case_match|]. case_bool_decide; [done|].
  destruct ip; [|done]. by case_bool_decide.
Qed.

Lemma walk_gitrepos_stalled d grs acc :
  (fold_left (walk_gitrepo d) grs acc).1 =
    acc.1 || (st_in_progress (d_status d) && existsb gitrepo_stalled grs).
Proof.
  revert acc. induction grs as [|gr grs IH]; intros [st msg]; simpl.
  - by rewrite andb_false_r, orb_false_r.
  - rewrite IH. unfold gitrepo_stalled at 2.
    destruct (st_in_progress (d_status d)); simpl.
    + destruct (GetGenericCondition _ _) as [sc|]; simpl; [destruct (bool_decide (gc_status sc = _)); simpl|];
        destruct (bool_decide (gr_display_message gr = "")); simpl; by rewrite ?orb_true_r, ?orb_false_r.
    + by destruct (bool_decide (gr_display_message gr = "")).
Qed.

Lemma walk_stalled_stalled d acc :
  (walk_stalled d acc).1 = acc.1 || (st_in_progress (d_status d) && condition_stalled d).
Proof.
  unfold walk_stalled, condition_stalled. destruct (st_in_progress (d_status d)); simpl; [|by rewrite orb_false_r].
  destruct (find_status_condition _ _) as [c|]; simpl; [|by rewrite orb_false_r].
  destruct (bool_decide _); simpl; by rewrite ?orb_true_r, ?orb_false_r.
Qed.

Lemma calculate_state_spec d total t tr s :
  0 <= t_running t <= total -> 0 <= t_down t -> 0 <= t_unknown t -> t_running t + t_down t + t_unknown t <= total ->
  traces (calculate_state d total t) tr s ->
  exists now, (t_stalled t = false -> t_unknown t = 0 -> total = 0 -> ev Now now ∈ tr) /\
    s = state_spec (t_stalled t) (mkSummary total (t_running t) (t_down t) (t_unknown t))
          (st_in_progress (d_status d)) (d_generation d)
          (bool_decide (d_creation d + noTargetClustersWait < now)).
Proof.
  intros Hr Hd Hu Hsum. unfold calculate_state, state_spec. simpl.
  destruct (t_stalled t); [intros [_ ->]; exists 0; done|].
  destruct (Z.ltb_spec 0 (t_unknown t)).
  { rewrite bool_decide_true by lia. intros [_ ->]. exists 0. split; [lia|done]. }
  rewrite (bool_decide_false (t_unknown t > 0)) by lia.
  destruct (Z.eqb_spec total 0) as [H0|H0].
  { rewrite (bool_decide_true (total = 0)) by done. intros (now & t' & -> & H'). exists now.
    split; [intros; left|]. destruct (Z.ltb_spec (d_creation d + noTargetClustersWait) now).
    - rewrite bool_decide_true by done. by destruct H' as [_ ->].
    - rewrite bool_decide_false by lia. simpl. destruct (st_in_progress _); by destruct H' as [_ ->]. }
  rewrite (bool_decide_false (total = 0)) by done.
  destruct (Z.ltb_spec (t_running t) total).
  { rewrite orb_true_r, bool_decide_false by lia. intros Ht. exists 0. split; [lia|]. revert Ht.
    destruct (st_in_progress _); [|by intros [_ ->]].
    destruct (Z.leb_spec (d_generation d) 1); intros [_ ->].
    - by rewrite bool_decide_true.
    - by rewrite bool_decide_false by lia. }
  destruct (Z.ltb_spec 0 (t_down t)); [lia|]. simpl.
  rewrite bool_decide_true by lia. intros (r1 & t1 & -> & r2 & t2 & -> & [-> ->]).
  exists 0. split; [lia|done].
Qed.

(** ** The properties *)

Lemma updateDeploymentStatus_trace d grs dcs tr d' rq :
  traces (updateDeploymentStatus d grs dcs) tr (d', rq) ->
  exists t tr1 tr2,
    walk_result d tr1 dcs (mkTally 0 0 0 (stalled_spec d grs []) (walk_stalled d (walk_gitrepos d grs)).2 false) t /\
    traces (calculate_state d (zlen dcs) t) tr2 (st_state (d_status d')) /\
    tr = tr1 ++ tr2 /\
    st_summary (d_status d') = mkSummary (zlen dcs) (t_running t) (t_down t) (t_unknown t) /\
    st_in_progress (d_status d') = st_in_progress (d_status d) && negb (bool_decide (st_state (d_status d') = Running)).
Proof.
  unfold updateDeploymentStatus. destruct (walk_stalled d (walk_gitrepos d grs)) as [st msg] eqn:Hw.
  intros Ht. apply traces_bind in Ht as (tr1 & tr2 & t & -> & Hwalk & Ht).
  apply traces_bind in Ht as (tr3 & tr4 & s & -> & Hcalc & [-> [= -> ->]]). simpl.
  apply walk_dcs_result in Hwalk. exists t, tr1, tr3. rewrite app_nil_r.
  assert (stalled_spec d grs [] = st) as ->; [|done].
  apply (f_equal fst) in Hw. simpl in Hw. rewrite <- Hw, walk_stalled_stalled. unfold walk_gitrepos.
  rewrite walk_gitrepos_stalled. unfold stalled_spec. simpl.
  by rewrite orb_false_r, andb_orb_distrib_r.
Qed.

(** C28: a Deployment is only ever reported Running when it has at least one
    target cluster, every cluster is itself Running with every app at the
    deployment's current generation and a Ready condition observed to be older
    than the grace period, and nothing is stalled; only then does the rollout
    stop being in progress. *)
Theorem running_sound (d d' : Deployment) (grs : list GitRepo) (dcs : list DeploymentCluster)
    (tr : list kevent) (rq : bool)
    (Ht : traces (updateDeploymentStatus d grs dcs) tr (d', rq)) :
  (st_state (d_status d') = Running ->
     dcs <> [] /\ stalled_spec d grs dcs = false /\ (forall dc, dc ∈ dcs -> dc_good d tr dc)) /\
  st_in_progress (d_status d') =
    st_in_progress (d_status d) && negb (bool_decide (st_state (d_status d') = Running)).
Proof.
  apply updateDeploymentStatus_trace in Ht as (t & tr1 & tr2 & [W1 W2 W3 W4 W5 W6] & Hc & -> & _ & Hp).
  split; [|done]. simpl in *.
  pose proof (zlen_nonneg (List.filter (fun dc => bool_decide (dc_state dc = Unknown)) dcs)).
  assert (zlen (List.filter known_state dcs) <= zlen dcs).
  { unfold zlen. pose proof (filter_length_le known_state dcs). lia. }
  apply calculate_state_spec in Hc as (now & _ & Hs); [|lia..].
  rewrite Hs. intros Hrun. apply state_spec_Running in Hrun as (Hst & Hn0 & Hall).
  simpl in Hn0, Hall. split; [by intros ->|]. split.
  - unfold stalled_spec in *. simpl in W6. rewrite orb_false_r in W6. congruence.
  - intros dc Hdc. eapply dc_good_mono; [|apply W5; [lia|done]]. set_solver.
Qed.

(** The cluster summary adds up: the total is the number of
    DeploymentClusters, the three counters are never negative, unknown counts
    exactly the clusters in Unknown state, and running + down + unknown counts
    exactly the clusters whose state is Running, Down or Unknown. *)
Theorem summary_counts (d d' : Deployment) (grs : list GitRepo) (dcs : list DeploymentCluster)
    (tr : list kevent) (rq : bool)
    (Ht : traces (updateDeploymentStatus d grs dcs) tr (d', rq)) :
  let s := st_summary (d_status d') in
  cs_total s = zlen dcs /\ 0 <= cs_running s /\ 0 <= cs_down s /\
  cs_unknown s = zlen (List.filter (fun dc => bool_decide (dc_state dc = Unknown)) dcs) /\
  cs_running s + cs_down s + cs_unknown s = zlen (List.filter known_state dcs) /\
  cs_running s + cs_down s + cs_unknown s <= cs_total s.
Proof.
  apply updateDeploymentStatus_trace in Ht as (t & tr1 & tr2 & [W1 W2 W3 W4 W5 W6] & Hc & -> & -> & Hp).
  simpl in *.
  assert (zlen (List.filter known_state dcs) <= zlen dcs).
  { unfold zlen. pose proof (filter_length_le known_state dcs). lia. }
  repeat split; lia.
Qed.

(** C27: the reported state refines the state table: it is [state_spec] of
    whether something is stalled, the published summary, the in-progress flag,
    the generation and whether the bootstrap grace period is over; when the
    clock decides, it was read during the update. *)
Theorem state_refines_spec (d d' : Deployment) (grs : list GitRepo) (dcs : list DeploymentCluster)
    (tr : list kevent) (rq : bool)
    (Ht : traces (updateDeploymentStatus d grs dcs) tr (d', rq)) :
  exists now,
    st_state (d_status d') =
      state_spec (stalled_spec d grs dcs) (st_summary (d_status d')) (st_in_progress (d_status d))
        (d_generation d) (bool_decide (d_creation d + noTargetClustersWait < now)) /\
    (dcs = [] -> stalled_spec d grs dcs = false -> ev Now now ∈ tr).
Proof.
  apply updateDeploymentStatus_trace in Ht as (t & tr1 & tr2 & [W1 W2 W3 W4 W5 W6] & Hc & -> & -> & Hp).
  simpl in *.
  pose proof (zlen_nonneg (List.filter (fun dc => bool_decide (dc_state dc = Unknown)) dcs)).
  assert (zlen (List.filter known_state dcs) <= zlen dcs).
  { unfold zlen. pose proof (filter_length_le known_state dcs). lia. }
  apply calculate_state_spec in Hc as (now & Hnow & Hs); [|lia..].
  assert (stalled_spec d grs dcs = t_stalled t) as Hst.
  { unfold stalled_spec in *. simpl in W6. rewrite orb_false_r in W6. by rewrite W6. }
  exists now. rewrite Hst. split; [done|]. intros -> Hf. apply elem_of_app. right.
  apply Hnow; [done| |done]. simpl in W3. unfold zlen in W3. simpl in W3. lia.
Qed.

(** *** [updateStatus] *)

Lemma state_spec_not_internal st s ip g old : state_spec st s ip g old <> InternalError.
Proof. unfold state_spec. repeat case_match; done. Qed.

Lemma updateDeploymentStatus_keeps d grs dcs tr d' rq :
  traces (updateDeploymentStatus d grs dcs) tr (d', rq) ->
  st_conditions (d_status d') = st_conditions (d_status d) /\ st_state (d_status d') <> InternalError.
Proof.
  intros Ht. split.
  - unfold updateDeploymentStatus in Ht. destruct (walk_stalled d (walk_gitrepos d grs)) as [st msg].
    apply traces_bind in Ht as (tr1 & tr2 & t & -> & _ & Ht).
    apply traces_bind in Ht as (tr3 & tr4 & s & -> & _ & [_ [= -> _]]). done.
  - apply updateDeploymentStatus_trace in Ht as (t & tr1 & tr2 & [W1 W2 W3 W4 W5 W6] & Hc & _ & _ & _).
    simpl in *.
    pose proof (zlen_nonneg (List.filter (fun dc => bool_decide (dc_state dc = Unknown)) dcs)).
    assert (zlen (List.filter known_state dcs) <= zlen dcs).
    { unfold zlen. pose proof (filter_length_le known_state dcs). lia. }
    apply calculate_state_spec in Hc as (now & _ & ->); [|lia..]. apply state_spec_not_internal.
Qed.

Definition has_false_condition (d : Deployment) : bool :=
  existsb (fun c => bool_decide (c_status c = ConditionFalse)) (st_conditions (d_status d)).

Lemma find_false_condition d :
  has_false_condition d =
    match find_first (fun c => bool_decide (c_status c = ConditionFalse)) (st_conditions (d_status d)) with
    | Some _ => true | None => false end.
Proof.
  unfold has_false_condition. induction (st_conditions (d_status d)) as [|c cs IH]; simpl; [done|].
  by destruct (bool_decide _).
Qed.

(** The part of [updateStatus] after the git jobs have been looked at. *)
Lemma status_of_conditions d gitrepos dcs requeue tr d' rq err :
  traces (match find_first (fun cond => bool_decide (c_status cond = ConditionFalse))
                  (st_conditions (d_status d)) with
          | Some cond =>
              Ret (set_status (fun st => with_state InternalError (with_message (c_message cond) st)) d,
                   requeue, None : option gerror)
          | None => let! dr := updateDeploymentStatus d gitrepos dcs in Ret (dr.1, dr.2, None)
          end) tr (d', rq, err) ->
  err = None /\
  (st_state (d_status d') = InternalError <-> has_false_condition d' = true).
Proof.
  pose proof (find_false_condition d) as Hf. destruct (find_first _ _) as [cond|].
  - intros [_ [= -> -> ->]]. split; [done|]. simpl. done.
  - intros Ht. apply traces_bind in Ht as (t1 & t2 & [d1 rq1] & -> & Hu & [_ [= -> -> ->]]).
    simpl. split; [done|]. apply updateDeploymentStatus_keeps in Hu as [Hc Hs].
    unfold has_false_condition in *. rewrite Hc, Hf. done.
Qed.

(** Precedence of the reported states.  A deployment being deleted becomes
    Terminating without any call; when a listing fails nothing is changed and
    the error is returned; otherwise the state is InternalError exactly when
    some condition of the deployment is False. *)
Theorem status_precedence (d d' : Deployment) (requeue rq : bool) (tr : list kevent) (err : option gerror)
    (Ht : traces (updateStatus d requeue) tr (d', rq, err)) :
  if not_deleting d then
    match err with
    | Some _ => d' = d
    | None => st_state (d_status d') = InternalError <-> has_false_condition d' = true
    end
  else tr = [] /\ err = None /\ d' = set_status (with_state Terminating) d.
Proof.
  unfold updateStatus in Ht. destruct (not_deleting d); cbn [negb] in Ht;
    [|by destruct Ht as [-> [= -> -> ->]]].
  destruct Ht as (r1 & t1 & -> & Ht). simpl in Ht.
  destruct r1 as [gitrepos|e]; [|by destruct Ht as [_ [= -> _ ->]]].
  destruct Ht as (r2 & t2 & -> & Ht). simpl in Ht.
  destruct r2 as [dcs|e]; [|by destruct Ht as [_ [= -> _ ->]]].
  apply traces_bind in Ht as (t3 & t4 & [d1 e1] & -> & Hw & Ht).
  assert (e1 = None \/ d1 = d) as Hd.
  { destruct (st_in_progress _); [|destruct Hw as [_ [= -> ->]]; auto].
    apply traces_bind in Hw as (t5 & t6 & [conds [e|]] & -> & _ & Hw).
    - destruct Hw as [_ [= -> ->]]. auto.
    - apply traces_bind in Hw as (t7 & t8 & d2 & -> & _ & [_ [= -> ->]]). auto. }
  destruct e1 as [e|].
  - destruct Ht as [_ [= -> _ ->]]. by destruct Hd.
  - apply status_of_conditions in Ht as [-> H]. done.
Qed.
End Facts.

(** ** Witnesses *)

Definition ready_dc (name : string) : DeploymentCluster :=
  mkDC name "project-1" {[DeploymentID := GetId sample_deployment]} None
    (GetId sample_deployment) name "project-1"
    (mkDCStatus [mkCond typeReady ConditionTrue 0 "BundleDeploymentsReady" ""] name
       (mkSt Running "" (mkSum AppCounts 1 1 0 0)) "" None
       [mkDCApp "wp" "b-1" 1 (mkSt Running "" (mkSum NotUsed 0 0 0 0))]).

Definition rolling_out : Deployment := set_status (with_in_progress true) sample_deployment.

Definition one_ready : list DeploymentCluster := [ready_dc "cluster-a"].

Definition ready_run : kprog (Deployment * bool) := updateDeploymentStatus rolling_out [] one_ready.

Lemma ready_run_trace :
  traces ready_run (log_of empty_world ready_run)
    ((result_of empty_world ready_run).1, (result_of empty_world ready_run).2).
Proof. rewrite <- surjective_pairing. apply log_of_traces. Qed.

Lemma running_sound_witness :
  st_state (d_status (result_of empty_world ready_run).1) = Running /\
  ((st_state (d_status (result_of empty_world ready_run).1) = Running ->
     one_ready <> [] /\ stalled_spec rolling_out [] one_ready = false /\
     (forall dc, dc ∈ one_ready -> dc_good rolling_out (log_of empty_world ready_run) dc)) /\
   st_in_progress (d_status (result_of empty_world ready_run).1) =
    st_in_progress (d_status rolling_out) &&
    negb (bool_decide (st_state (d_status (result_of empty_world ready_run).1) = Running))).
Proof.
  split; [vm_compute; reflexivity|].
  exact (running_sound rolling_out _ [] one_ready _ _ ready_run_trace).
Defined.

Lemma summary_counts_witness :
  let s := st_summary (d_status (result_of empty_world ready_run).1) in
  cs_total s = zlen one_ready /\ 0 <= cs_running s /\ 0 <= cs_down s /\
  cs_unknown s = zlen (List.filter (fun dc => bool_decide (dc_state dc = Unknown)) one_ready) /\
  cs_running s + cs_down s + cs_unknown s = zlen (List.filter known_state one_ready) /\
  cs_running s + cs_down s + cs_unknown s <= cs_total s.
Proof. exact (summary_counts rolling_out _ [] one_ready _ _ ready_run_trace). Defined.

Lemma state_refines_spec_witness :
  exists now,
    st_state (d_status (result_of empty_world ready_run).1) =
      state_spec (stalled_spec rolling_out [] one_ready)
        (st_summary (d_status (result_of empty_world ready_run).1)) true 1
        (bool_decide (0 + noTargetClustersWait < now)) /\
    (one_ready = [] -> stalled_spec rolling_out [] one_ready = false ->
     ev Now now ∈ log_of empty_world ready_run).
Proof. exact (state_refines_spec rolling_out _ [] one_ready _ _ ready_run_trace). Defined.

Definition failing : Deployment :=
  set_status (with_conditions [mkCond typeGitSynced ConditionFalse 0 "GitPushFailed" "denied"])
    sample_deployment.

Lemma status_precedence_witness :
  st_state (d_status (result_of empty_world (updateStatus failing false)).1.1) = InternalError <->
  has_false_condition (result_of empty_world (updateStatus failing false)).1.1 = true.
Proof.
  exact (status_precedence failing (result_of empty_world (updateStatus failing false)).1.1 false false
           (log_of empty_world (updateStatus failing false)) None (log_of_traces _ _)).
Defined.
