(* ===== verification/Reconcile.v ===== *)
(** * [controllers/deployment]: the reconciler

    Each phase takes the Deployment the reconcile works on and returns it with
    the phase's changes and its error. *)

From S2P Require Import Prelude Prog GoStr Types K8sLib Utils Kube Cleanup Status.
Import Cache.

(** ** [internal/patch]: patching what changed *)

Module Patch.

Definition same_metadata (a b : Deployment) : bool :=
  bool_decide (d_name a = d_name b) && bool_decide (d_namespace a = d_namespace b) &&
  bool_decide (d_uid a = d_uid b) && bool_decide (d_labels a = d_labels b) &&
  bool_decide (d_generation a = d_generation b) &&
  bool_decide (d_resource_version a = d_resource_version b) &&
  bool_decide (d_creation a = d_creation b) && bool_decide (d_deletion a = d_deletion b) &&
  bool_decide (d_finalizers a = d_finalizers b).

(** [calculateChanges]: which top-level fields differ. *)
Record changes : Type := mkChanges { ch_metadata : bool; ch_spec : bool; ch_status : bool }.

Definition calculateChanges (before after : Deployment) : changes :=
  mkChanges (negb (same_metadata before after)) (negb (bool_decide (d_spec before = d_spec after)))
    (negb (bool_decide (d_status before = d_status after))).

(** [NewPatchHelper]: keeps a copy of the object, or fails to convert it. *)
Definition NewPatchHelper (d : Deployment) : kprog (res Deployment) :=
  let! err := kcall (ConvertObject d) in
  Ret (match err with Some e => Err e | None => Ok d end).

(** [calculatePatch]: both objects are converted back. *)
Definition calculatePatch (before after : Deployment) : kprog (option gerror) :=
  let! e1 := kcall (ConvertObject before) in
  match e1 with
  | Some e => Ret (Some e)
  | None => kcall (ConvertObject after)
  end.

Definition patch (ch : changes) (before after : Deployment) : kprog (option gerror) :=
  if negb (ch_metadata ch) && negb (ch_spec ch) then Ret None
  else
    let! err := calculatePatch before after in
    match err with
    | Some e => Ret (Some e)
    | None => kcall (PatchSpec before after)
    end.

Definition patchStatus (ch : changes) (before after : Deployment) : kprog (option gerror) :=
  if negb (ch_status ch) then Ret None
  else
    let! err := calculatePatch before after in
    match err with
    | Some e => Ret (Some e)
    | None => kcall (PatchStatus before after)
    end.

(** [Helper.Patch]: metadata and spec first, then the status. *)
Definition HelperPatch `{K8sLib} (before after : Deployment) : kprog (option gerror) :=
  let! err := kcall (ConvertObject after) in
  match err with
  | Some e => Ret (Some e)
  | None =>
      let ch := calculateChanges before after in
      let! e1 := patch ch before after in
      let! e2 := patchStatus ch before after in
      Ret (new_aggregate [e1; e2])
  end.

End Patch.
Import Patch.

Definition wrapf (pre : string) (e : gerror) (post : string) : gerror :=
  errorf (pre +:+ e_msg e +:+ post).

(** [fmt.Errorf("... (%v)", err)] when [err] is nil. *)
Definition nil_text : string := "<nil>".

(** A phase: the Deployment after it, and its error. *)
Abbreviation phase := (Deployment -> kprog (Deployment * option gerror)).

Section Reconciler.
Context {L : K8sLib} {M : MapRange}.
(** The UUID [fleet.BundleName] derives from the SHA-1 of a token. *)
Context (sha_uuid : string -> string).
Context (format_rfc3339 : Z -> string) (parse_rfc3339 : string -> option Z).

(** The fields of [Reconciler] set once by [SetupWithManager]. *)
Record config : Type := mkConfig { deleteGitRepo : bool; fleetGitPollingInterval : option Z }.
Context (cfg : config).

Definition BundleName (app : Application) (depName : string) : string :=
  let token := app_name app in
  let token := if app_redeploy app then token +:+ app_version app else token in
  "b-" +:+ stake 16 (sha_uuid (token +:+ depName)).

Definition set_condition (now : Z) (condType status reason : string) (err : option gerror) (d : Deployment) : Deployment :=
  set_status (fun st => with_conditions
    (UpdateStatusCondition now (st_conditions st) condType status reason err) st) d.

(** ** The catalog *)

(** [getCtxWithToken], [AddToOutgoingContext] *)
Definition AddToOutgoingContext : kprog (option gerror) :=
  let! token := kcall M2MToken in
  match token with
  | Err e => Ret (Some e)
  | Ok token =>
      if bool_decide (token = "") then Ret (Some (errorf "token is empty"))
      else kcall (VaultLogout token)
  end.

Definition IsDeployed (d : Deployment) : kprog (res bool) :=
  let! deploymentList := kcall (ListDeploymentsByRef (GetAppRef d)) in
  match deploymentList with
  | Err e => Ret (Err e)
  | Ok items =>
      Ret (Ok (existsb (fun i =>
        bool_decide (mget (d_labels d) AppOrchActiveProjectID = mget (d_labels i) AppOrchActiveProjectID) &&
        negb (bool_decide (d_name d = d_name i))) items))
  end.

Definition HandleIsDeployed (d : Deployment) (isDeployed : bool) : kprog (option gerror) :=
  let setOrUnset := if isDeployed then "set" else "unset" in
  let fail e := Some (wrapf ("failed to " +:+ setOrUnset +:+ " isDeployed (") e ")") in
  let! err := AddToOutgoingContext in
  match err with
  | Some e => Ret (fail e)
  | None =>
      let! err := kcall (CatalogSetDeployed (mget (d_labels d) AppOrchActiveProjectID)
        (dp_name (sp_pkg (d_spec d))) (dp_version (sp_pkg (d_spec d))) isDeployed) in
      Ret (match err with Some e => fail e | None => None end)
  end.

(** ** Finalizers *)

Definition remove_fin (f : string) (d : Deployment) : Deployment :=
  set_finalizers (remove_finalizer (d_finalizers d) f) d.

Definition has_fin (f : string) (d : Deployment) : bool := contains_finalizer (d_finalizers d) f.

(** One child of a deployment being deleted: forget the parent. *)
Definition detach_child (d : Deployment) (k : string) : kprog (option gerror) :=
  let! got := kcall (GetDeployment (d_namespace d) k) in
  match got with
  | Err err =>
      if is_not_found err then Ret None
      else Ret (Some (wrapf "children is not created yet - will requeue: " err ""))
  | Ok cd =>
      let! helper := NewPatchHelper cd in
      match helper with
      | Err err => Ret (Some err)
      | Ok before =>
          if bool_decide (st_parents (d_status cd) = ∅) then Ret None
          else
            let cd' := set_status (fun st => with_parents (delete (d_name d) (st_parents st)) st) cd in
            let! err := HelperPatch before cd' in
            Ret (match err with
                 | Some e => Some (wrapf "children status could not be updated - will retry: " e "")
                 | None => None
                 end)
      end
  end.

Definition handleFinalizerDependency : phase := fun d =>
  if negb (has_fin FinalizerDependency d) then Ret (d, None)
  else if bool_decide (sp_children (d_spec d) = ∅) then Ret (remove_fin FinalizerDependency d, None)
  else
    let! err := pfor_ret (map fst (map_range (sp_children (d_spec d)))) (detach_child d) in
    Ret (match err with
         | Some e => (d, Some e)
         | None => (remove_fin FinalizerDependency d, None)
         end).

Definition handleFinalizerGitRemote : phase := fun d =>
  if negb (has_fin FinalizerGitRemote d) then Ret (d, None)
  else
    let! err := kcall (GitNew (GetId d)) in
    match err with
    | Some e => Ret (d, Some e)
    | None =>
        let! exists_ := kcall (GitExists (GetId d)) in
        match exists_ with
        | Ok true =>
            let! err := kcall (GitDelete (GetId d)) in
            match err with
            | Some e => Ret (d, Some e)
            | None => Ret (remove_fin FinalizerGitRemote d, None)
            end
        | _ => Ret (remove_fin FinalizerGitRemote d, None)
        end
    end.

Definition handleFinalizerCatalog : phase := fun d =>
  if negb (has_fin FinalizerCatalog d) then Ret (d, None)
  else
    let! isDeployed := IsDeployed d in
    let! err := (match isDeployed with
                 | Err e => Ret (Some e)
                 | Ok true => Ret None
                 | Ok false => HandleIsDeployed d false
                 end) in
    match err with
    | Some e =>
        if contains (e_msg e) "failed to unset isDeployed" &&
           contains (e_msg e) "rpc error: code = NotFound"
        then Ret (remove_fin FinalizerCatalog d, None)
        else Ret (d, Some e)
    | None => Ret (remove_fin FinalizerCatalog d, None)
    end.

(** [for _, phase := range phases]: all of them, whatever they return. *)
Fixpoint run_phases (phases : list phase) (d : Deployment) : kprog (Deployment * list gerror) :=
  match phases with
  | [] => Ret (d, [])
  | p :: ps =>
      let! de := p d in
      let! des := run_phases ps de.1 in
      Ret (des.1, match de.2 with Some e => e :: des.2 | None => des.2 end)
  end.

(** [delete], which also updates the metadata cache. *)
Definition delete_ (d : Deployment) (c : cache) : kprog (Deployment * cache * option gerror) :=
  let! now := kcall Now in
  let c := cacheDeploymentMetadata now (d_namespace d) (d_name d) d c in
  updateStatusMetrics d true ;;;
  cleanupAllDeploymentClusterMetrics d ;;;
  cleanupOrphanedDeploymentClusters d ;;;
  cleanupOrphanedBundleDeployments d ;;;
  let! des := run_phases [handleFinalizerDependency; handleFinalizerGitRemote; handleFinalizerCatalog] d in
  updateStatusMetrics des.1 true ;;;
  cleanupAllDeploymentClusterMetrics des.1 ;;;
  Ret (des.1, c, new_aggregate (map Some des.2)).

(** ** The reconcile phases *)

Definition reconcileState : phase := fun d =>
  let! state := (if bool_decide (st_state (d_status d) = "") || (d_generation d =? 1) then
    kcall (RecordTimestamp (mget (d_labels d) AppOrchActiveProjectID) (GetId d)
      (sp_display_name (d_spec d)) "start" "CreateDeployment") ;;;
    Ret Deploying
  else Ret Updating) in
  Ret (set_status (fun st =>
    with_in_progress true (with_conditions
      (fold_left (fun cs c => remove_status_condition cs (c_type c)) (st_conditions st) (st_conditions st))
      (with_state state st))) d, None).

Definition cleanupRemovedTargetClustersPhase : phase := fun d =>
  let! err := cleanupRemovedTargetClusters d in Ret (d, err).

(** One child of a deployment: record the parent in its status. *)
Definition attach_child (d : Deployment) (k : string) : kprog (option gerror) :=
  let! got := kcall (GetDeployment (d_namespace d) k) in
  match got with
  | Err err => Ret (Some (wrapf "children is not created yet - will requeue: " err ""))
  | Ok cd =>
      let! helper := NewPatchHelper cd in
      match helper with
      | Err err => Ret (Some err)
      | Ok before =>
          let ref := mkDepRef (sp_pkg (d_spec d)) (d_name d) in
          if bool_decide (st_parents (d_status cd) !! d_name d = Some ref) then Ret None
          else
            let cd' := set_status (fun st => with_parents (<[d_name d := ref]> (st_parents st)) st) cd in
            let! err := HelperPatch before cd' in
            Ret (match err with
                 | Some e => Some (wrapf "children status could not be updated - will retry: " e "")
                 | None => None
                 end)
      end
  end.

Definition reconcileDependency : phase := fun d =>
  let! err := pfor_ret (map fst (map_range (sp_children (d_spec d)))) (attach_child d) in
  Ret (d, err).

(** The body of [reconcileRepository]: the reason and the error. *)
Definition sync_repository (d : Deployment) : kprog (string * option gerror) :=
  let id := GetId d in
  let basedir := "/tmp/" +:+ id in
  kcall (RemoveAll basedir) ;;;
  let! err := kcall (GitNew id) in
  match err with
  | Some e => Ret ("NewGitClientFailed", Some e)
  | None =>
      let! repoExists := kcall (GitExists id) in
      match repoExists with
      | Err e => Ret ("GitRemoteCheckFailed", Some e)
      | Ok repoExists =>
          let! opened := (if repoExists
            then let! e := kcall (GitClone id basedir) in Ret ("GitCloneFailed", e)
            else let! e := kcall (GitInitialize id basedir) in Ret ("GitInitializationFailed", e)) in
          match opened with
          | (reason, Some e) => Ret (reason, Some e)
          | (_, None) =>
              let! err := kcall (GenerateFleetConfigs d basedir) in
              match err with
              | Some e => Ret ("FleetConfigFailed", Some e)
              | None =>
                  let! err := kcall (GitCommit id) in
                  match err with
                  | Some e => Ret ("GitCommitFailed", Some e)
                  | None =>
                      let! err := kcall (GitPush id) in
                      match err with
                      | Some e => Ret ("GitPushFailed", Some e)
                      | None =>
                          kcall (RecordEvent "Normal" "Reconciling"
                                   ("Completed sync git repository " +:+ id)) ;;;
                          Ret (reasonSuccess, None)
                      end
                  end
              end
          end
      end
  end.

Definition reconcileRepository : phase := fun d =>
  let! re := sync_repository d in
  let! now := kcall Now in
  let status := match re.2 with None => ConditionTrue | Some _ => ConditionFalse end in
  Ret (set_condition now typeGitSynced status re.1 re.2 d, re.2).

Definition gitURLHasChanged (d : Deployment) : kprog (res bool) :=
  let! gitRepoURL := kcall (GitRemoteURL (GetId d)) in
  match gitRepoURL with
  | Err e => Ret (Err e)
  | Ok gitRepoURL =>
      let! childGitRepos := kcall (ListGitRepos (d_namespace d) (d_name d)) in
      Ret (match childGitRepos with
           | Err e => Err e
           | Ok items => Ok (existsb (fun gr => negb (bool_decide (gr_repo gr = gitRepoURL))) items)
           end)
  end.

(** ** GitRepos *)

Definition BundleTypeApp : string := "app".

(** The Fleet targets of an application: one per label set, freshly named. *)
Fixpoint git_targets (ts : list (gmap string string)) : kprog (list GitTarget) :=
  match ts with
  | [] => Ret []
  | t :: ts =>
      let! name := kcall (GenerateName "match-") in
      let! rest := git_targets ts in
      Ret (mkTarget name t :: rest)
  end.

(** The GitRepo of an application brought up to date. *)
Definition updated_gitrepo (d : Deployment) (app : Application) (url caCert : string)
    (targets : list GitTarget) (gr : GitRepo) : GitRepo :=
  mkGitRepo (gr_name gr) (gr_namespace gr) (<[BundleName_ := BundleName app (d_name d)]> (gr_labels gr))
    (gr_owner gr) url (gr_paths gr) (ha_repo_secret (app_helm app)) FleetGitSecretName
    (if bool_decide (caCert = "") then gr_ca_bundle gr else caCert)
    targets (gr_polling gr) (gr_force_sync gr) (gr_conditions gr) (gr_display_message gr).

(** The GitRepo of an application that has none yet. *)
Definition new_gitrepo (d : Deployment) (app : Application) (url caCert : string)
    (targets : list GitTarget) : GitRepo :=
  mkGitRepo (getGitRepoName (app_name app) (GetId d)) (d_namespace d)
    (<[BundleType := BundleTypeApp]> {[BundleName_ := BundleName app (d_name d)]})
    None url [app_name app] (ha_repo_secret (app_helm app)) FleetGitSecretName caCert
    targets (fleetGitPollingInterval cfg) 0 [] "".

Definition add_label (k v : string) (gr : GitRepo) : GitRepo :=
  mkGitRepo (gr_name gr) (gr_namespace gr) (<[k := v]> (gr_labels gr)) (gr_owner gr) (gr_repo gr)
    (gr_paths gr) (gr_helm_secret gr) (gr_client_secret gr) (gr_ca_bundle gr) (gr_targets gr)
    (gr_polling gr) (gr_force_sync gr) (gr_conditions gr) (gr_display_message gr).

(** The branch that creates a GitRepo. *)
Definition create_gitrepo (d : Deployment) (app : Application) (url : string)
    (targets : list GitTarget) : kprog (option gerror) :=
  let! caCert := kcall GitCaCert in
  match d_labels d !! AppOrchActiveProjectID with
  | None => Ret (Some (errorf ("GitRepo creation failed (" +:+ nil_text +:+ ")")))
  | Some activeProjectID =>
      let gr := add_label AppOrchActiveProjectID activeProjectID (new_gitrepo d app url caCert targets) in
      let! owned := kcall (SetControllerReference d gr) in
      match owned with
      | Err e => Ret (Some e)
      | Ok gr =>
          let! err := kcall (CreateGitRepo gr) in
          match err with
          | Some e => Ret (Some (wrapf "GitRepo creation failed (" e ")"))
          | None =>
              let projectID := mget (d_labels d) AppOrchActiveProjectID in
              kcall (RecordEvent "Normal" "Reconciling"
                ("Completed creating GitRepo " +:+ getGitRepoName (app_name app) (GetId d))) ;;;
              kcall (RecordTimestamp projectID (GetId d) (sp_display_name (d_spec d)) "start" "CreateGitRepo") ;;;
              kcall (CalcTimeDifference projectID (GetId d) (sp_display_name (d_spec d))
                       "start" "CreateDeployment" "start" "CreateGitRepo") ;;;
              Ret None
          end
      end
  end.

(** One iteration over the applications; the state is [grmap]. *)
Definition sync_app (d : Deployment) (url : string) (grmap : gmap string GitRepo) (app : Application) :
    kprog (gmap string GitRepo * option gerror) :=
  let gitRepoName := getGitRepoName (app_name app) (GetId d) in
  let! targets := git_targets (app_targets app) in
  match grmap !! gitRepoName with
  | Some gitRepo =>
      let! caCert := kcall GitCaCert in
      let! err := kcall (UpdateGitRepo (updated_gitrepo d app url caCert targets gitRepo)) in
      match err with
      | Some e => Ret (delete gitRepoName grmap, Some (wrapf "GitRepo update failed(" e ")"))
      | None =>
          kcall (RecordEvent "Normal" "Reconciling" ("Completed updating GitRepo " +:+ gitRepoName)) ;;;
          Ret (delete gitRepoName grmap, None)
      end
  | None => let! err := create_gitrepo d app url targets in Ret (grmap, err)
  end.

(** [grmap\[gr.Name\] = gr] over the GitRepos found. *)
Definition index_gitrepos (items : list GitRepo) : gmap string GitRepo :=
  fold_left (fun m gr => <[gr_name gr := gr]> m) items ∅.

(** The body of [reconcileGitRepo]: its error. *)
Definition sync_gitrepos (d : Deployment) : kprog (option gerror) :=
  let! gitRepoURL := kcall (GitRemoteURL (GetId d)) in
  match gitRepoURL with
  | Err e => Ret (Some e)
  | Ok url =>
      let! childGitRepos := kcall (ListGitRepos (d_namespace d) (d_name d)) in
      match childGitRepos with
      | Err e => Ret (Some e)
      | Ok items =>
          let! synced := pfold_ret (sp_apps (d_spec d)) (index_gitrepos items) (sync_app d url) in
          match synced with
          | (_, Some e) => Ret (Some e)
          | (grmap, None) => pfor_ret (map snd (map_range grmap)) (fun gr => kcall (DeleteGitRepo gr))
          end
      end
  end.

(** The deferred function sees the error the body returned. *)
Definition reconcileGitRepo : phase := fun d =>
  let! err := sync_gitrepos d in
  let! now := kcall Now in
  Ret (match err with
       | None => set_condition now typeGitReposUpdated ConditionTrue reasonSuccess None d
       | Some _ => set_condition now typeGitReposUpdated ConditionFalse "GitRepoUpdateFailed" err d
       end, err).

(** ** The loop *)

Definition reconcile_phases : list phase :=
  [reconcileState; cleanupRemovedTargetClustersPhase; reconcileDependency; reconcileRepository;
   reconcileGitRepo].

Definition reconcile : phase := fun d =>
  let! des := run_phases reconcile_phases d in
  let! now := kcall Now in
  let d := des.1 in
  Ret (match des.2 with
       | [] => set_condition now typeReady ConditionTrue reasonSuccess None
                 (set_status (with_reconciled_gen (d_generation d)) d)
       | _ :: _ => set_condition now typeReady ConditionFalse reasonFailed None d
       end, new_aggregate (map Some des.2)).

(** What [Reconcile] keeps between calls: the package's metadata cache and
    [r.requeueStatus]. *)
Record memory : Type := mkMem { mem_cache : cache; mem_requeue : bool }.

Definition put_cache (c : cache) (s : memory) : memory := mkMem c (mem_requeue s).

(** [ctrl.Result]: the delay before the next call, 0 for none. *)
Record outcome : Type := mkOut { o_requeue_after : Z; o_err : option gerror }.

(** Everything between the installation of the deferred function and it. *)
Definition reconcile_body (d : Deployment) (c : cache) : kprog (Deployment * cache * option gerror) :=
  if deleteGitRepo cfg && negb (has_fin FinalizerGitRemote d) && not_deleting d then
    Ret (set_finalizers (add_finalizer (d_finalizers d) FinalizerGitRemote) d, c, None)
  else if negb (has_fin FinalizerDependency d) && not_deleting d then
    Ret (set_finalizers (add_finalizer (d_finalizers d) FinalizerDependency) d, c, None)
  else if negb (not_deleting d) then delete_ d c
  else
    cleanupOrphanedBundleDeployments d ;;;
    let ready := is_status_condition_true (st_conditions (d_status d)) typeReady in
    let! changed := gitURLHasChanged d in
    match changed with
    | Err e => Ret (d, c, Some e)
    | Ok changed =>
        if ready && negb changed && (st_reconciled_gen (d_status d) =? d_generation d) then
          if st_in_progress (d_status d) then
            let! de := forceRedeployStuckApps format_rfc3339 parse_rfc3339 d in Ret (de.1, c, de.2)
          else Ret (d, c, None)
        else
          let! de := reconcile d in
          match de.2 with
          | Some e => kcall (RecordEvent "Warning" "ReconcileError" ("Reconcile failed: " +:+ e_msg e)) ;;;
                      Ret (de.1, c, Some e)
          | None => Ret (de.1, c, None)
          end
    end.

(** [reterr = kerrors.NewAggregate(\[\]error{reterr, err})] when [err] is not nil. *)
Definition also (reterr err : option gerror) : option gerror :=
  match err with None => reterr | Some _ => new_aggregate [reterr; err] end.

(** The deferred function: status, patch, metrics, requeue. *)
Definition reconcile_deferred (before d : Deployment) (s : memory) (reterr : option gerror) :
    kprog (memory * outcome) :=
  if negb (not_deleting d) then
    let! now := kcall Now in
    let c := cacheDeploymentMetadata now (d_namespace d) (d_name d) d (mem_cache s) in
    updateStatusMetrics d true ;;;
    let! err := HelperPatch before d in
    Ret (put_cache c s, mkOut 0 (also reterr err))
  else
    let! updated := updateStatus d (mem_requeue s) in
    let '(d, requeue, err) := updated in
    let reterr := also reterr err in
    let! err := HelperPatch before d in
    updateStatusMetrics d false ;;;
    Ret (mkMem (mem_cache s) requeue,
         mkOut (if requeue then readyWait * second else 0) (also reterr err)).

Definition Reconcile (namespace name : string) (s : memory) : kprog (memory * outcome) :=
  let! now := kcall Now in
  let s := put_cache (cleanupOldEntries now (mem_cache s)) s in
  let! got := kcall (GetDeployment namespace name) in
  match got with
  | Err err =>
      if is_not_found err then
        let mc := getAndRemoveMetadata namespace name (mem_cache s) in
        cleanupMetricsFromCache mc.1 ;;;
        Ret (put_cache mc.2 s, mkOut 0 None)
      else Ret (s, mkOut 0 (Some err))
  | Ok d =>
      let! helper := NewPatchHelper d in
      match helper with
      | Err err => Ret (s, mkOut 0 (Some err))
      | Ok before =>
          let! body := reconcile_body d (mem_cache s) in
          let '(d, c, reterr) := body in
          reconcile_deferred before d (put_cache c s) reterr
      end
  end.
End Reconciler.
