(* ===== verification/ReconcileFacts.v ===== *)
(** * Correctness of the Deployment reconciler *)

From S2P Require Import Prelude Prog GoStr Types K8sLib Utils Kube Samples Cleanup Status Reconcile.
Import Cache Patch.

(** ** Patching *)

Lemma calculatePatch_shape before after :
  issues (fun e => exists d, e = ConvertObject d) (calculatePatch before after).
Proof. simpl. split; [eauto|]. intros [e|]; simpl; eauto. Qed.

(** Metadata or spec changed. *)
Definition object_changed (before after : Deployment) : bool :=
  negb (same_metadata before after) || negb (bool_decide (d_spec before = d_spec after)).

Definition status_changed (before after : Deployment) : bool :=
  negb (bool_decide (d_status before = d_status after)).

Section PatchFacts.
Context {L : K8sLib} {HL : K8sLibLaws L}.

(** The requests of a patch. *)
Definition patch_request (before after : Deployment) (e : eff) : Prop :=
  (exists d, e = ConvertObject d) \/
  (e = PatchSpec before after /\ object_changed before after = true) \/
  (e = PatchStatus before after /\ status_changed before after = true).

Lemma patch_requests before after :
  issues (patch_request before after) (patch (calculateChanges before after) before after).
Proof.
  unfold patch, patch_request, object_changed. simpl.
  destruct (negb (same_metadata before after)); simpl.
  2: destruct (negb (bool_decide (d_spec before = d_spec after))); simpl; [|done].
  all: split; [by eauto|]; intros [e|]; simpl; [done|];
       split; [by eauto|]; intros [e|]; simpl; [done|]; split; [by auto|done].
Qed.

Lemma patchStatus_requests before after :
  issues (patch_request before after) (patchStatus (calculateChanges before after) before after).
Proof.
  unfold patchStatus, patch_request, status_changed. simpl.
  destruct (negb (bool_decide (d_status before = d_status after))); simpl; [|done].
  split; [by eauto|]; intros [e|]; simpl; [done|];
  split; [by eauto|]; intros [e|]; simpl; [done|]; split; [by auto|done].
Qed.

Lemma HelperPatch_requests before after :
  issues (patch_request before after) (HelperPatch before after).
Proof.
  split; [left; eauto|]. intros [e|]; simpl; [done|].
  apply issues_bind; [apply patch_requests|]. intros e1.
  apply issues_bind; [apply patchStatus_requests|]. done.
Qed.

(** Without an error, what changed was sent. *)
Lemma patch_sent before after t :
  traces (patch (calculateChanges before after) before after) t None ->
  object_changed before after = true -> ev (PatchSpec before after) None ∈ t.
Proof.
  unfold patch, calculateChanges. cbn [ch_metadata ch_spec]. rewrite <- negb_orb.
  change (negb (same_metadata before after) || _) with (object_changed before after).
  intros H Hc. rewrite Hc in H. cbn [negb] in H. unfold calculatePatch in H.
  kunfold H; set_solver.
Qed.

Lemma patchStatus_sent before after t :
  traces (patchStatus (calculateChanges before after) before after) t None ->
  status_changed before after = true -> ev (PatchStatus before after) None ∈ t.
Proof.
  unfold patchStatus, calculateChanges. cbn [ch_status].
  change (negb (bool_decide _)) with (status_changed before after).
  intros H Hc. rewrite Hc in H. cbn [negb] in H. unfold calculatePatch in H.
  kunfold H; set_solver.
Qed.

Lemma HelperPatch_sent before after t :
  traces (HelperPatch before after) t None ->
  (object_changed before after = true -> ev (PatchSpec before after) None ∈ t) /\
  (status_changed before after = true -> ev (PatchStatus before after) None ∈ t).
Proof.
  unfold HelperPatch. intros H. kunfold H.
  split_trace H t1 t2 e1 H1. split_trace H t3 t4 e2 H2.
  destruct H as [-> Hagg]. symmetry in Hagg. pose proof (proj1 (new_aggregate_None _) Hagg) as Hn.
  rewrite (Hn e1) in H1 by set_solver. rewrite (Hn e2) in H2 by set_solver.
  split; intros Hc.
  - pose proof (patch_sent _ _ _ H1 Hc). set_solver.
  - pose proof (patchStatus_sent _ _ _ H2 Hc). set_solver.
Qed.

(** The patch helper sends the API server exactly what changed: the only
    writes it issues are one patch of the object when the metadata or the spec
    differs from the copy taken at the start and one of the status when the
    status differs, both from that copy to the current object; when it reports
    no error both were accepted where they were due; and an unchanged object is not
    written at all. *)
Theorem patch_exact (before after : Deployment) (t : list kevent) (err : option gerror) :
  traces (HelperPatch before after) t err ->
  (forall x, x ∈ t -> is_write (projT1 x) = true ->
     projT1 x = PatchSpec before after /\ object_changed before after = true \/
     projT1 x = PatchStatus before after /\ status_changed before after = true) /\
  (err = None ->
     (object_changed before after = true -> ev (PatchSpec before after) None ∈ t) /\
     (status_changed before after = true -> ev (PatchStatus before after) None ∈ t)) /\
  (before = after -> forall x, x ∈ t -> is_write (projT1 x) = false).
Proof.
  intros H.
  pose proof (issues_traces _ _ _ _ (HelperPatch_requests before after) H) as Hreq.
  rewrite Forall_forall in Hreq.
  assert (forall x, x ∈ t -> is_write (projT1 x) = true ->
     projT1 x = PatchSpec before after /\ object_changed before after = true \/
     projT1 x = PatchStatus before after /\ status_changed before after = true) as Hw.
  { intros x Hx. destruct (Hreq x Hx) as [[d Hd]|?]; [|done].
    destruct x as [e r]. simpl in *. by subst e. }
  split; [done|]. split.
  - intros ->. by apply HelperPatch_sent.
  - intros -> x Hx. destruct (is_write (projT1 x)) eqn:Hwr; [|done].
    destruct (Hw x Hx Hwr) as [[_ Hc]|[_ Hc]].
    + unfold object_changed, same_metadata in Hc. by rewrite !bool_decide_true in Hc.
    + unfold status_changed in Hc. by rewrite bool_decide_true in Hc.
Qed.
End PatchFacts.

Definition terminated_sample : Deployment := set_status (with_state Terminating) sample_deployment.

(** Only the status of the sample changes, and only it is sent. *)
Lemma patch_exact_witness :
  map (fun x : kevent => is_write (projT1 x))
    (log_of empty_world (HelperPatch sample_deployment terminated_sample)) = [false; false; false; true] /\
  ev (PatchStatus sample_deployment terminated_sample) None ∈
    log_of empty_world (HelperPatch sample_deployment terminated_sample).
Proof.
  split; [reflexivity|].
  refine (proj2 (proj1 (proj2 (patch_exact sample_deployment terminated_sample
    (log_of empty_world (HelperPatch sample_deployment terminated_sample)) None _)) eq_refl) _).
  - apply log_of_result. vm_compute. reflexivity.
  - vm_compute. reflexivity.
Defined.

(** ** The reconcile phases *)

Section ReconcileFacts.
Context {L : K8sLib} {HL : K8sLibLaws L} {M : MapRange} {ML : MapRangeLaws M}.
Context (sha_uuid : string -> string) (cfg : config).

(** Only the status moved. *)
Definition status_only (d d' : Deployment) : Prop := d' = set_status (fun _ => d_status d') d.

Lemma status_only_refl d : status_only d d.
Proof. by destruct d. Qed.

Lemma status_only_set f d : status_only d (set_status f d).
Proof. done. Qed.

Lemma status_only_trans d1 d2 d3 : status_only d1 d2 -> status_only d2 d3 -> status_only d1 d3.
Proof. unfold status_only. intros -> ->. done. Qed.

Lemma status_only_GetId d d' : status_only d d' -> GetId d' = GetId d.
Proof. by intros ->. Qed.

Lemma status_only_generation d d' : status_only d d' -> d_generation d' = d_generation d.
Proof. by intros ->. Qed.

(** Removing every listed type empties the list. *)
Lemma remove_all_conditions (cs todo : list Condition) c :
  c ∈ fold_left (fun cs c => remove_status_condition cs (c_type c)) todo cs ->
  c ∈ cs /\ forall c', c' ∈ todo -> c_type c <> c_type c'.
Proof.
  revert cs. induction todo as [|x todo IH]; intros cs; simpl.
  - split; [done|]. intros c' Hc'. by apply elem_of_nil in Hc'.
  - intros [Hc Hne]%IH. apply elem_of_remove_status_condition in Hc as [? ?].
    split; [done|]. intros c' [->|Hc']%elem_of_cons; auto.
Qed.

Lemma remove_all_conditions_nil (cs : list Condition) :
  fold_left (fun cs c => remove_status_condition cs (c_type c)) cs cs = [].
Proof.
  apply elem_of_nil_inv. intros c [Hc Hne]%remove_all_conditions. by apply (Hne c Hc).
Qed.

Lemma reconcileState_spec d t d' e :
  traces (reconcileState d) t (d', e) ->
  e = None /\ status_only d d' /\ st_conditions (d_status d') = [] /\ st_in_progress (d_status d') = true /\
  st_reconciled_gen (d_status d') = st_reconciled_gen (d_status d).
Proof.
  unfold reconcileState. intros H. kunfold H; simpl; rewrite remove_all_conditions_nil; done.
Qed.

Lemma cleanup_phase_spec d t d' e :
  traces (cleanupRemovedTargetClustersPhase d) t (d', e) -> d' = d.
Proof. unfold cleanupRemovedTargetClustersPhase. intros H. split_trace H t1 t2 a H1. by destruct H as [_ [= -> _]]. Qed.

Lemma reconcileDependency_same d t d' e :
  traces (reconcileDependency d) t (d', e) -> d' = d.
Proof. unfold reconcileDependency. intros H. split_trace H t1 t2 a H1. by destruct H as [_ [= -> _]]. Qed.

(** The condition a phase leaves: True without an error, False with one. *)
Definition verdict (e : option gerror) : string :=
  match e with None => ConditionTrue | Some _ => ConditionFalse end.

Lemma reconcileRepository_spec d t d' e :
  traces (reconcileRepository d) t (d', e) ->
  exists now reason, d' = set_condition now typeGitSynced (verdict e) reason e d /\
    requested t (RemoveAll ("/tmp/" +:+ GetId d)).
Proof.
  unfold reconcileRepository. intros H. split_trace H t1 t2 a H1.
  destruct H as (now & t' & -> & [-> [= -> ->]]). exists now, a.1. split; [by destruct a.2|].
  unfold sync_repository in H1. destruct H1 as (u & t'' & -> & _). requested_solver.
Qed.

Lemma reconcileGitRepo_spec d t d' e :
  traces (reconcileGitRepo sha_uuid cfg d) t (d', e) ->
  exists now reason, d' = set_condition now typeGitReposUpdated (verdict e) reason e d /\
    requested t (GitRemoteURL (GetId d)).
Proof.
  unfold reconcileGitRepo. intros H. split_trace H t1 t2 a H1.
  destruct H as (now & t' & -> & [-> [= -> ->]]).
  exists now, (match a with None => reasonSuccess | Some _ => "GitRepoUpdateFailed" end).
  split; [by destruct a|].
  unfold sync_gitrepos in H1. destruct H1 as (u & t'' & -> & _). requested_solver.
Qed.
(** The deletion of what is no longer targeted starts by listing what there is. *)
Lemma cleanup_lists d t e :
  traces (cleanupRemovedTargetClusters d) t e -> sp_type (d_spec d) = Targeted ->
  requested t (ListDCs (deployment_label d)).
Proof.
  unfold cleanupRemovedTargetClusters. intros H Ht. rewrite bool_decide_true in H by done.
  destruct H as (r & t' & -> & _). requested_solver.
Qed.

(** The first child is always asked for, and without an error every child has been. *)
Lemma attach_child_asks d k t e :
  traces (attach_child d k) t e -> requested t (GetDeployment (d_namespace d) k).
Proof. unfold attach_child. intros (r & t' & -> & _). requested_solver. Qed.

Lemma attach_children_ask d ks t e :
  traces (pfor_ret ks (attach_child d)) t e ->
  (forall k, head ks = Some k -> requested t (GetDeployment (d_namespace d) k)) /\
  (e = None -> forall k, k ∈ ks -> requested t (GetDeployment (d_namespace d) k)).
Proof.
  revert t. induction ks as [|k ks IH]; intros t H.
  - split; [done|]. intros _ k Hk. by apply elem_of_nil in Hk.
  - cbn [pfor_ret] in H. split_trace H t1 t2 o H1. apply attach_child_asks in H1. split.
    + intros k' [= <-]. requested_solver.
    + intros -> k' [->|Hk']%elem_of_cons; [requested_solver|].
      destruct o as [e|]; [by destruct H as [_ H]|]. apply IH in H as [_ H].
      apply requested_app. right. by apply H.
Qed.

Lemma reconcileDependency_asks d t d' e :
  traces (reconcileDependency d) t (d', e) ->
  d' = d /\
  (forall k, head (map fst (map_range (sp_children (d_spec d)))) = Some k ->
     requested t (GetDeployment (d_namespace d) k)) /\
  (e = None -> forall k, is_Some (sp_children (d_spec d) !! k) ->
     requested t (GetDeployment (d_namespace d) k)).
Proof.
  unfold reconcileDependency. intros H. split_trace H t1 t2 a H1. destruct H as [-> [= -> ->]].
  rewrite app_nil_r. apply attach_children_ask in H1 as [Hh Ha]. split; [done|]. split; [done|].
  intros -> k [v Hv]. apply Ha; [done|].
  apply list_elem_of_fmap. exists (k, v). by rewrite elem_of_map_range.
Qed.

(** The five phases of a reconcile: each has a trace of its own, and the errors
    of the last four are kept in order. *)
Definition five_phases (d d1 d4 d5 : Deployment) (e2 e3 e4 e5 : option gerror) (t : list kevent) : Prop :=
  exists t1 t2 t3 t4 t5,
    t = t1 ++ t2 ++ t3 ++ t4 ++ t5 /\
    traces (reconcileState d) t1 (d1, None) /\
    traces (cleanupRemovedTargetClusters d1) t2 e2 /\
    traces (reconcileDependency d1) t3 (d1, e3) /\
    traces (reconcileRepository d1) t4 (d4, e4) /\
    traces (reconcileGitRepo sha_uuid cfg d4) t5 (d5, e5).

Lemma reconcile_phases_run d t d' es :
  traces (run_phases (reconcile_phases sha_uuid cfg) d) t (d', es) ->
  exists d1 d4 e2 e3 e4 e5,
    five_phases d d1 d4 d' e2 e3 e4 e5 t /\ es = omap id [e2; e3; e4; e5].
Proof.
  unfold reconcile_phases. cbn [run_phases]. intros H.
  split_trace H t1 u1 de1 H1. destruct de1 as [d1 e1]. split_trace H t2 u2 des H2.
  destruct H as [-> [= -> ->]]. destruct (reconcileState_spec _ _ _ _ H1) as [-> _].
  split_trace H2 t3 u3 de2 H3. destruct de2 as [d2 e2]. split_trace H2 t4 u4 des2 H4.
  destruct H2 as [-> ->]. unfold cleanupRemovedTargetClustersPhase in H3.
  split_trace H3 t3' t3'' e2' H3'. destruct H3 as [-> [= -> ->]].
  split_trace H4 t5 u5 de3 H5. destruct de3 as [d3 e3]. split_trace H4 t6 u6 des3 H6.
  destruct H4 as [-> ->]. pose proof (reconcileDependency_same _ _ _ _ H5) as ->.
  split_trace H6 t7 u7 de4 H7. destruct de4 as [d4 e4]. split_trace H6 t8 u8 des4 H8.
  destruct H6 as [-> ->].
  split_trace H8 t9 u9 de5 H9. destruct de5 as [d5 e5]. destruct H8 as [-> ->].
  exists d1, d4, e2', e3, e4, e5. split; [|by destruct e2', e3, e4, e5].
  exists t1, t3', t5, t7, t9. cbn [fst snd] in *. rewrite ?app_nil_r, <- ?app_assoc. auto 10.
Qed.

(** What the phases leave in the deployment and what they certainly ask for. *)
Lemma five_phases_spec d d1 d4 d' e2 e3 e4 e5 t :
  five_phases d d1 d4 d' e2 e3 e4 e5 t ->
  (exists n4 r4 n5 r5, st_conditions (d_status d') =
     [mkCond typeGitSynced (verdict e4) n4 r4 (MessageFromError e4);
      mkCond typeGitReposUpdated (verdict e5) n5 r5 (MessageFromError e5)]) /\
  status_only d d' /\ st_in_progress (d_status d') = true /\
  st_reconciled_gen (d_status d') = st_reconciled_gen (d_status d) /\
  (sp_type (d_spec d) = Targeted -> requested t (ListDCs (deployment_label d))) /\
  (forall k, head (map fst (map_range (sp_children (d_spec d)))) = Some k ->
     requested t (GetDeployment (d_namespace d) k)) /\
  (e3 = None -> forall k, is_Some (sp_children (d_spec d) !! k) ->
     requested t (GetDeployment (d_namespace d) k)) /\
  requested t (RemoveAll ("/tmp/" +:+ GetId d)) /\ requested t (GitRemoteURL (GetId d)).
Proof.
  intros (t1 & t2 & t3 & t4 & t5 & -> & H1 & H2 & H3 & H4 & H5).
  apply reconcileState_spec in H1 as (_ & Hso & Hc & Hp & Hg).
  pose proof (cleanup_lists _ _ _ H2) as Hl. apply reconcileDependency_asks in H3 as (_ & Hh & Ha).
  apply reconcileRepository_spec in H4 as (n4 & r4 & -> & Hu).
  apply reconcileGitRepo_spec in H5 as (n5 & r5 & -> & Hr).
  change (GetId (set_condition _ _ _ _ _ d1)) with (GetId d1) in Hr.
  rewrite (status_only_GetId _ _ Hso) in Hu, Hr. rewrite Hso in Hl, Hh, Ha.
  split; [exists n4, r4, n5, r5; simpl; rewrite Hc; reflexivity|]. split; [by rewrite Hso|].
  split; [done|]. split; [done|].
  split; [intros Ht; specialize (Hl Ht); requested_solver|].
  split; [intros k Hk; specialize (Hh k Hk); requested_solver|].
  split; [intros He k Hk; specialize (Ha He k Hk); requested_solver|].
  split; requested_solver.
Qed.

Lemma omap_id_nil {A : Type} (es : list (option A)) :
  omap id es = [] <-> forall e, e ∈ es -> e = None.
Proof.
  induction es as [|[a|] es IH]; simpl.
  - split; [|done]. intros _ e He. by apply elem_of_nil in He.
  - split; [done|]. intros H. discriminate (H (Some a)). left.
  - rewrite IH. split.
    + intros H e [->|He]%elem_of_cons; auto.
    + intros H e He. apply H. by right.
Qed.

Lemma new_aggregate_Somes (es : list gerror) : new_aggregate (map Some es) = None <-> es = [].
Proof.
  rewrite new_aggregate_None. split.
  - destruct es as [|e es]; [done|]. intros H. discriminate (H (Some e)). left.
  - intros -> e He. by apply elem_of_nil in He.
Qed.

(** Looking a condition up in a list with one condition of its type. *)
Lemma is_true_unique cs t c :
  c ∈ cs -> c_type c = t -> (forall c', c' ∈ cs -> c_type c' = t -> c' = c) ->
  is_status_condition_true cs t = bool_decide (c_status c = ConditionTrue).
Proof.
  intros Hc Ht Hu. unfold is_status_condition_true. destruct (find_status_condition cs t) as [c'|] eqn:Hf.
  - apply find_status_condition_Some in Hf as [? ?]. by rewrite (Hu c').
  - by destruct (find_status_condition_None cs t Hf c Hc).
Qed.

Lemma verdict_True e : verdict e = ConditionTrue <-> e = None.
Proof. by destruct e. Qed.

(** What the end of a reconcile makes of the conditions the phases left. *)
Definition finish (now : Z) (d : Deployment) (es : list gerror) : Deployment :=
  match es with
  | [] => set_condition now typeReady ConditionTrue reasonSuccess None
            (set_status (with_reconciled_gen (d_generation d)) d)
  | _ :: _ => set_condition now typeReady ConditionFalse reasonFailed None d
  end.

Lemma reconcile_status d d5 es e4 e5 n4 r4 n5 r5 now :
  (es = [] -> e4 = None /\ e5 = None) ->
  st_conditions (d_status d5) =
    [mkCond typeGitSynced (verdict e4) n4 r4 (MessageFromError e4);
     mkCond typeGitReposUpdated (verdict e5) n5 r5 (MessageFromError e5)] ->
  status_only d d5 -> st_in_progress (d_status d5) = true ->
  st_reconciled_gen (d_status d5) = st_reconciled_gen (d_status d) ->
  let st := d_status (finish now d5 es) in
  let err := new_aggregate (map Some es) in
  status_only d (finish now d5 es) /\
  map c_type (st_conditions st) = [typeGitSynced; typeGitReposUpdated; typeReady] /\
  st_in_progress st = true /\
  (err = None <-> is_status_condition_true (st_conditions st) typeReady = true) /\
  (err = None -> forall c, c ∈ st_conditions st -> c_status c = ConditionTrue) /\
  st_reconciled_gen st =
    match err with None => d_generation d | Some _ => st_reconciled_gen (d_status d) end.
Proof.
  intros Hnil Hc Hso Hp Hg. cbv zeta.
  pose proof (new_aggregate_Somes es) as Hagg. destruct (new_aggregate (map Some es)) as [e|].
  - destruct es as [|e' es]; [by destruct Hagg as [_ Hagg]; discriminate Hagg|].
    simpl. rewrite Hc. cbn [UpdateStatusCondition c_type].
    rewrite !bool_decide_false by done. split; [by rewrite Hso|]. split; [done|].
    split; [done|]. split; [|done].
    rewrite (is_true_unique _ typeReady (mkCond typeReady ConditionFalse now reasonFailed ""));
      [done|set_solver|done|]. intros c'. rewrite !elem_of_cons, elem_of_nil. naive_solver.
  - destruct es as [|e' es]; [|by destruct Hagg as [Hagg _]; discriminate Hagg].
    destruct (Hnil eq_refl) as [-> ->].
    simpl. rewrite Hc. cbn [UpdateStatusCondition c_type].
    rewrite !bool_decide_false by done. split; [by rewrite Hso|]. split; [done|].
    split; [done|]. split.
    + rewrite (is_true_unique _ typeReady (mkCond typeReady ConditionTrue now reasonSuccess ""));
        [done|set_solver|done|]. intros c'. rewrite !elem_of_cons, elem_of_nil. naive_solver.
    + split; [intros _ c; rewrite !elem_of_cons, elem_of_nil; naive_solver|]. by rewrite Hso.
Qed.

(** C3: What a reconcile does and leaves behind, whatever the API server, Git
    and the clock answer. Its trace is the traces of the five phases one after
    the other (the state, the clusters no longer targeted, the dependencies,
    the repository, the GitRepos) and one last look at the clock, so every phase
    has run even when an earlier one failed, and the error returned is the aggregate of the
    errors of all of them. In particular a targeted deployment's DeploymentClusters have
    been listed, the first child deployment asked for (every child when no
    error is returned), the working copy cleared and the Git URL asked
    for. Only the status is changed and it says the deployment is in progress; the
    conditions are exactly GitSynced, GitReposUpdated and Ready; Ready is True, the
    observed generation is the current one, and no condition is False, exactly when no
    error is returned; otherwise the reconciled generation stays what it was,
    so the next pass reconciles again. *)
Theorem reconcile_outcome (d d' : Deployment) (t : list kevent) (err : option gerror) :
  traces (reconcile sha_uuid cfg d) t (d', err) ->
  let st := d_status d' in
  (exists d1 d4 d5 e2 e3 e4 e5 t' now,
     t = t' ++ [ev Now now] /\ five_phases d d1 d4 d5 e2 e3 e4 e5 t' /\
     err = new_aggregate (map Some (omap id [e2; e3; e4; e5]))) /\
  (sp_type (d_spec d) = Targeted -> requested t (ListDCs (deployment_label d))) /\
  (forall k, head (map fst (map_range (sp_children (d_spec d)))) = Some k ->
     requested t (GetDeployment (d_namespace d) k)) /\
  (err = None -> forall k, is_Some (sp_children (d_spec d) !! k) ->
     requested t (GetDeployment (d_namespace d) k)) /\
  requested t (RemoveAll ("/tmp/" +:+ GetId d)) /\ requested t (GitRemoteURL (GetId d)) /\
  status_only d d' /\
  map c_type (st_conditions st) = [typeGitSynced; typeGitReposUpdated; typeReady] /\
  st_in_progress st = true /\
  (err = None <-> is_status_condition_true (st_conditions st) typeReady = true) /\
  (err = None -> forall c, c ∈ st_conditions st -> c_status c = ConditionTrue) /\
  st_reconciled_gen st =
    match err with None => d_generation d | Some _ => st_reconciled_gen (d_status d) end.
Proof.
  unfold reconcile. intros H. split_trace H t1 u1 des H1. destruct des as [d5 es].
  destruct H as (now & t' & -> & [-> [= -> ->]]).
  apply reconcile_phases_run in H1 as (d1 & d4 & e2 & e3 & e4 & e5 & Hf & Hes).
  pose proof (five_phases_spec _ _ _ _ _ _ _ _ _ Hf) as
    ((n4 & r4 & n5 & r5 & Hc) & Hso & Hp & Hg & Hl & Hh & Ha & Hu & Hr).
  pose proof (new_aggregate_Somes es) as Hagg.
  pose proof (omap_id_nil [e2; e3; e4; e5]) as Hnil. rewrite <- Hes in Hnil.
  cbn [fst snd]. split; [exists d1, d4, d5, e2, e3, e4, e5, t1, now; by rewrite <- Hes|].
  split; [intros Ht; specialize (Hl Ht); requested_solver|].
  split; [intros k Hk; specialize (Hh k Hk); requested_solver|].
  split.
  { intros Hn k Hk. apply requested_app. left. apply Ha; [|done].
    apply Hnil; [by apply Hagg|set_solver]. }
  do 2 (split; [requested_solver|]). apply (reconcile_status d d5 es e4 e5 n4 r4 n5 r5); [|done..].
  intros Hn. pose proof (proj1 Hnil Hn) as He. split; apply He; set_solver.
Qed.

(** ** One GitRepo per application *)

Definition sel_updated (x : kevent) : option GitRepo :=
  match projT1 x with UpdateGitRepo gr => Some gr | _ => None end.
Definition sel_created (x : kevent) : option GitRepo :=
  match projT1 x with CreateGitRepo gr => Some gr | _ => None end.
Definition sel_deleted (x : kevent) : option GitRepo :=
  match projT1 x with DeleteGitRepo gr => Some gr | _ => None end.

(** What identifies a GitRepo for Fleet: its name, where it pulls from, which clusters. *)
Definition repo_view (gr : GitRepo) : string * string * list (gmap string string) :=
  (gr_name gr, gr_repo gr, map gt_match (gr_targets gr)).

Definition app_view (d : Deployment) (url : string) (app : Application) :
    string * string * list (gmap string string) :=
  (getGitRepoName (app_name app) (GetId d), url, app_targets app).

(** [SetControllerReference] sets the owner and nothing else. *)
Definition owner_reference_only (t : list kevent) : Prop :=
  forall owner gr gr', ev (SetControllerReference owner gr) (Ok gr') ∈ t -> repo_view gr' = repo_view gr.

Lemma git_targets_quiet ts t l :
  traces (git_targets ts) t l ->
  omap sel_updated t = [] /\ omap sel_created t = [] /\ omap sel_deleted t = [] /\ map gt_match l = ts.
Proof.
  revert t l. induction ts as [|x ts IH]; intros t l; simpl; [by intros [-> ->]|].
  intros (name & t' & -> & H). split_trace H t1 t2 rest H1. destruct H as [-> ->].
  rewrite app_nil_r. destruct (IH _ _ H1) as (Hu & Hc & Hd & Hm). simpl. by rewrite Hm.
Qed.

Definition repo_name (d : Deployment) (app : Application) : string :=
  getGitRepoName (app_name app) (GetId d).

(** One application, when nothing fails. *)
Lemma sync_app_spec d url grmap app t grmap' :
  owner_reference_only t ->
  traces (sync_app sha_uuid cfg d url grmap app) t (grmap', None) ->
  grmap' = delete (repo_name d app) grmap /\ omap sel_deleted t = [] /\
  map repo_view (omap sel_created t) =
    (if bool_decide (is_Some (grmap !! repo_name d app)) then [] else [app_view d url app]) /\
  map (fun gr => (gr_repo gr, map gt_match (gr_targets gr))) (omap sel_updated t) =
    (if bool_decide (is_Some (grmap !! repo_name d app)) then [(url, app_targets app)] else []) /\
  (forall gr, gr ∈ omap sel_updated t -> exists old, grmap !! repo_name d app = Some old /\ gr_name gr = gr_name old).
Proof.
  intros Hown. unfold sync_app. intros H. split_trace H t1 t2 targets H1.
  apply git_targets_quiet in H1 as (Hu & Hc & Hd & Hm). rewrite !omap_app, Hu, Hc, Hd.
  fold (repo_name d app) in *. destruct (grmap !! repo_name d app) as [gr|] eqn:Hgr.
  - rewrite bool_decide_true by eauto. kunfold H. simpl. rewrite Hm.
    split; [done|]. split; [done|]. split; [done|]. split; [done|].
    intros gr' ->%list_elem_of_singleton. eauto.
  - rewrite bool_decide_false by (by intros [? [=]]). unfold create_gitrepo in H. kunfold H.
    rewrite delete_id by done. simpl. unfold owner_reference_only in Hown.
    split; [done|]. split; [done|]. split; [|split; [done|set_solver]].
    erewrite Hown; [|apply elem_of_app; right; right; left]. unfold repo_view, app_view, add_label, new_gitrepo. simpl.
    by rewrite Hm.
Qed.

Lemma owner_reference_only_app t1 t2 :
  owner_reference_only (t1 ++ t2) -> owner_reference_only t1 /\ owner_reference_only t2.
Proof.
  unfold owner_reference_only. intros H.
  split; intros o gr gr' Hin; apply (H o gr gr'); apply elem_of_app; auto.
Qed.

(** [grmap] only holds GitRepos under their own name. *)
Definition named (m : gmap string GitRepo) : Prop := forall k gr, m !! k = Some gr -> gr_name gr = k.

Lemma named_delete m k : named m -> named (delete k m).
Proof. intros H k' gr [_ Hk]%lookup_delete_Some. eauto. Qed.

Lemma index_gitrepos_spec items (m : gmap string GitRepo) k gr :
  NoDup (map gr_name items) -> (forall x, x ∈ items -> m !! gr_name x = None) ->
  fold_left (fun m gr => <[gr_name gr := gr]> m) items m !! k = Some gr <->
  m !! k = Some gr \/ gr ∈ items /\ gr_name gr = k.
Proof.
  revert m. induction items as [|x items IH]; intros m Hnd Hm; simpl.
  - split; [auto|]. intros [?|[Hin _]]; [done|]. by apply elem_of_nil in Hin.
  - inversion_clear Hnd as [|? ? Hx Hnd']. rewrite IH; [|done|].
    + rewrite elem_of_cons. destruct (decide (k = gr_name x)) as [->|Hk].
      * rewrite lookup_insert_eq. split; [naive_solver|].
        intros [H|[[->|Hin] Hn]]; [|by left|].
        -- rewrite (Hm x) in H by left. done.
        -- destruct Hx. rewrite <- Hn. by apply list_elem_of_fmap_2.
      * rewrite lookup_insert_ne by done. naive_solver.
    + intros y Hy. rewrite lookup_insert_ne; [apply Hm; by right|].
      intros Heq. destruct Hx. rewrite Heq. by apply list_elem_of_fmap_2.
Qed.

Lemma getGitRepoName_inj n1 n2 id : getGitRepoName n1 id = getGitRepoName n2 id -> n1 = n2.
Proof.
  unfold getGitRepoName. intros H. rewrite <- (trim_suffix_app n1 ("-" +:+ id)), H. apply trim_suffix_app.
Qed.

(** Which application has a listed GitRepo left to it, in order: [left] are the
    names not yet taken by an earlier application. *)
Fixpoint gitrepo_plan (d : Deployment) (left : gset string) (apps : list Application) :
    list (bool * Application) :=
  match apps with
  | [] => []
  | app :: apps =>
      (bool_decide (repo_name d app ∈ left), app) :: gitrepo_plan d (left ∖ {[repo_name d app]}) apps
  end.

Definition to_update (plan : list (bool * Application)) : list Application :=
  omap (fun p : bool * Application => if p.1 then Some p.2 else None) plan.
Definition to_create (plan : list (bool * Application)) : list Application :=
  omap (fun p : bool * Application => if p.1 then None else Some p.2) plan.

(** A name that is not taken again may as well stay. *)
Lemma gitrepo_plan_absent d left n apps :
  n ∉ map (repo_name d) apps -> gitrepo_plan d (left ∖ {[n]}) apps = gitrepo_plan d left apps.
Proof.
  revert left. induction apps as [|app apps IH]; intros left; simpl; [done|]. intros Hn. f_equal.
  - f_equal. apply bool_decide_ext. set_solver.
  - rewrite <- (IH (left ∖ {[repo_name d app]})) by set_solver. f_equal. set_solver.
Qed.

(** When no two applications have the same name, it is whether the GitRepo was listed. *)
Lemma gitrepo_plan_distinct d left apps :
  NoDup (map app_name apps) ->
  gitrepo_plan d left apps = map (fun app => (bool_decide (repo_name d app ∈ left), app)) apps.
Proof.
  intros Hnd. revert left. induction apps as [|app apps IH]; intros left; simpl; [done|].
  inversion_clear Hnd as [|? ? Hx Hnd']. f_equal. rewrite gitrepo_plan_absent, IH; [done|done|].
  intros (x & Heq & Hin)%list_elem_of_fmap. apply Hx. apply getGitRepoName_inj in Heq.
  rewrite Heq. by apply list_elem_of_fmap_2.
Qed.

Lemma gitrepo_plan_filters d names apps :
  NoDup (map app_name apps) ->
  let plan := gitrepo_plan d (list_to_set names) apps in
  let known app := bool_decide (repo_name d app ∈ names) in
  to_create plan = List.filter (fun a => negb (known a)) apps /\ to_update plan = List.filter known apps.
Proof.
  intros Hnd. cbv zeta. rewrite (gitrepo_plan_distinct d _ apps Hnd). clear Hnd.
  unfold to_create, to_update. induction apps as [|app apps [IHc IHu]]; [done|]. simpl.
  rewrite (bool_decide_ext (repo_name d app ∈ list_to_set (C := gset string) names) (repo_name d app ∈ names))
    by set_solver.
  destruct (bool_decide (repo_name d app ∈ names)); simpl;
    (split; [first [exact IHc|f_equal; exact IHc]|first [exact IHu|f_equal; exact IHu]]).
Qed.

Lemma lookup_delete_all {V : Type} (m : gmap string V) (a k : string) (l : list string) :
  (if bool_decide (k ∈ l) then None else delete a m !! k) =
  (if bool_decide (k ∈ a :: l) then None else m !! k).
Proof.
  destruct (decide (k = a)) as [->|Hne].
  - rewrite (bool_decide_true (a ∈ a :: l)) by set_solver. rewrite lookup_delete_eq. by case_bool_decide.
  - rewrite lookup_delete_ne by done.
    by rewrite (bool_decide_ext (k ∈ a :: l) (k ∈ l)) by set_solver.
Qed.

(** All applications, when nothing fails. *)
Lemma sync_apps_spec d url apps t m m' :
  owner_reference_only t -> named m ->
  traces (pfold_ret apps m (sync_app sha_uuid cfg d url)) t (m', None) ->
  omap sel_deleted t = [] /\
  map repo_view (omap sel_created t) = map (app_view d url) (to_create (gitrepo_plan d (dom m) apps)) /\
  map repo_view (omap sel_updated t) = map (app_view d url) (to_update (gitrepo_plan d (dom m) apps)) /\
  (forall k, m' !! k = if bool_decide (k ∈ map (repo_name d) apps) then None else m !! k).
Proof.
  revert t m. induction apps as [|app apps IH]; intros t m Hown Hm; simpl.
  - intros [-> [= ->]]. by split_and!.
  - intros H. apply traces_bind in H as (t1 & t2 & [m1 [e|]] & -> & H1 & H2); simpl in H2.
    { by destruct H2 as [_ [=]]. }
    apply owner_reference_only_app in Hown as [Hown1 Hown2].
    apply sync_app_spec in H1 as (-> & Hd & Hc & Hu & Hn); [|done].
    apply IH in H2 as (Hd2 & Hc2 & Hu2 & Hm2); [|done|by apply named_delete].
    rewrite dom_delete_L in Hc2, Hu2.
    rewrite !omap_app, !map_app, Hd, Hd2, Hc, Hc2, Hu2.
    assert (forall k, m' !! k = if bool_decide (k ∈ repo_name d app :: map (repo_name d) apps) then None
                                else m !! k) as Hm3.
    { intros k. by rewrite Hm2, lookup_delete_all. }
    rewrite (bool_decide_ext (repo_name d app ∈ dom m) (is_Some (m !! repo_name d app))) by apply elem_of_dom.
    destruct (bool_decide (is_Some (m !! repo_name d app))) eqn:Hk; simpl; split_and!; try done.
    + f_equal.
      destruct (omap sel_updated t1) as [|gr [|? ?]]; try done. simpl in *.
      destruct (Hn gr) as (old & Hold & Hname); [left|].
      unfold repo_view, app_view. rewrite Hname, (Hm _ _ Hold). by injection Hu as -> ->.
    + by destruct (omap sel_updated t1).
Qed.

Lemma delete_all_spec (l : list GitRepo) t :
  traces (pfor_ret l (fun gr => kcall (DeleteGitRepo gr))) t None ->
  omap sel_deleted t = l /\ omap sel_created t = [] /\ omap sel_updated t = [].
Proof.
  revert t. induction l as [|gr l IH]; intros t; simpl.
  - by intros [-> _].
  - intros (r & t' & -> & H). simpl. destruct r as [e|]; [by destruct H as [_ [=]]|].
    destruct (IH t' H) as (Hd & Hc & Hu). split_and!; [exact (f_equal (cons gr) Hd)|exact Hc|exact Hu].
Qed.

Definition names_of (items : list GitRepo) : list string := map gr_name items.

Lemma dom_index items :
  NoDup (names_of items) -> dom (index_gitrepos items) = list_to_set (C := gset string) (names_of items).
Proof.
  intros Hnd. apply set_eq. intros k. rewrite elem_of_dom, elem_of_list_to_set. split.
  - intros [gr Hgr]. apply index_gitrepos_spec in Hgr as [Hgr|[Hin <-]]; [done|by apply list_elem_of_fmap_2|done|done].
  - intros (gr & -> & Hin)%list_elem_of_fmap. exists gr. apply index_gitrepos_spec; auto.
Qed.

Lemma named_index items : NoDup (names_of items) -> named (index_gitrepos items).
Proof. intros Hnd k gr Hgr. apply index_gitrepos_spec in Hgr as [Hgr|[_ <-]]; done. Qed.

(** C21: When [reconcileGitRepo] reports no error it has made the GitRepos match
    the applications. Against the GitRepos listed for the deployment (if no two
    have the same name, as names are unique in a namespace), it goes through the
    applications in order; one whose GitRepo is listed and not yet taken by an
    earlier application of the same name has exactly that GitRepo updated, and
    every other one has exactly one GitRepo created: so when all names differ,
    one is created for each application that had none and the one of each application
    that had one is updated. Each has the application's name, the
    repository URL of this deployment and one target per label set of the
    application, provided that SetControllerReference changes nothing but
    the owner. Deleted are exactly the listed GitRepos that are named after no application. *)
Theorem gitrepos_exact (d : Deployment) (t : list kevent) :
  traces (sync_gitrepos sha_uuid cfg d) t None -> owner_reference_only t ->
  let apps := sp_apps (d_spec d) in
  exists url items,
    ev (GitRemoteURL (GetId d)) (Ok url) ∈ t /\
    ev (ListGitRepos (d_namespace d) (d_name d)) (Ok items) ∈ t /\
    (NoDup (names_of items) ->
     let plan := gitrepo_plan d (list_to_set (names_of items)) apps in
     map repo_view (omap sel_created t) = map (app_view d url) (to_create plan) /\
     map repo_view (omap sel_updated t) = map (app_view d url) (to_update plan) /\
     (NoDup (map app_name apps) ->
        let known app := bool_decide (repo_name d app ∈ names_of items) in
        to_create plan = List.filter (fun a => negb (known a)) apps /\
        to_update plan = List.filter known apps) /\
     (forall gr, gr ∈ omap sel_deleted t <-> gr ∈ items /\ gr_name gr ∉ map (repo_name d) apps)).
Proof.
  unfold sync_gitrepos. intros H Hown. kunfold H.
  split_trace H t1 t2 mo H1. destruct mo as [m [e|]]; [by destruct H as [_ [=]]|].
  exists a, a0. split; [left|]. split; [right; left|]. intros Hnd.
  rewrite (app_comm_cons _ _ (ev (ListGitRepos _ _) _)), app_comm_cons in Hown.
  assert (owner_reference_only t1) as Hown1.
  { intros o gr gr' Hin. apply (Hown o gr gr'). set_solver. }
  apply delete_all_spec in H as (Hd2 & Hc2 & Hu2).
  apply sync_apps_spec in H1 as (Hd & Hc & Hu & Hm); [|done|by apply named_index].
  rewrite (dom_index _ Hnd) in Hc, Hu.
  simpl. rewrite !omap_app, !map_app, Hd, Hd2, Hc2, Hu2, !app_nil_r, Hc, Hu. simpl.
  split; [done|]. split; [done|]. split; [apply gitrepo_plan_filters|].
  intros gr. split.
  - intros ([k gr'] & -> & Hin)%list_elem_of_fmap. simpl. apply elem_of_map_range in Hin.
    rewrite Hm in Hin. case_bool_decide as Hk; [done|].
    apply index_gitrepos_spec in Hin as [Hin|[Hin <-]]; done.
  - intros [Hin Hk]. apply list_elem_of_fmap. exists (gr_name gr, gr). split; [done|].
    apply elem_of_map_range. rewrite Hm. rewrite bool_decide_false by done.
    apply index_gitrepos_spec; auto.
Qed.

(** ** Finalizers *)

(** A finalizer phase touches its own finalizer only, and removes it exactly
    when it reports no error. *)
Record fin_phase (F : string) (d d' : Deployment) (e : option gerror) : Prop := {
  fin_only : d' = set_finalizers (d_finalizers d') d;
  fin_gone : e = None <-> F ∉ d_finalizers d';
  fin_others : forall g, g <> F -> g ∈ d_finalizers d' <-> g ∈ d_finalizers d
}.

Lemma fin_phase_absent F d : has_fin F d = false -> fin_phase F d d None.
Proof.
  unfold has_fin. intros H. apply contains_finalizer_false in H. split; [by destruct d|done|done].
Qed.

Lemma fin_phase_removed F d : fin_phase F d (remove_fin F d) None.
Proof.
  clear sha_uuid cfg.
  split; [done| |].
  - split; [|done]. intros _. apply remove_finalizer_gone.
  - intros g Hg. simpl. rewrite elem_of_remove_finalizer. naive_solver.
Qed.

Lemma fin_phase_kept F d e : has_fin F d = true -> fin_phase F d d (Some e).
Proof.
  clear sha_uuid cfg.
  unfold has_fin. intros H. apply contains_finalizer_spec in H. split; [by destruct d|naive_solver|done].
Qed.

Lemma handleFinalizerDependency_phase d t d' e :
  traces (handleFinalizerDependency d) t (d', e) -> fin_phase FinalizerDependency d d' e.
Proof.
  unfold handleFinalizerDependency. intros H. destruct (has_fin FinalizerDependency d) eqn:Hf; cbn [negb] in H.
  2: { destruct H as [_ [= -> ->]]. by apply fin_phase_absent. }
  case_bool_decide; [destruct H as [_ [= -> ->]]; apply fin_phase_removed|].
  split_trace H t1 t2 o H1. destruct o; destruct H as [_ [= -> ->]];
    [by apply fin_phase_kept|apply fin_phase_removed].
Qed.

Lemma handleFinalizerGitRemote_phase d t d' e :
  traces (handleFinalizerGitRemote d) t (d', e) -> fin_phase FinalizerGitRemote d d' e.
Proof.
  unfold handleFinalizerGitRemote. intros H. destruct (has_fin FinalizerGitRemote d) eqn:Hf; cbn [negb] in H.
  2: { destruct H as [_ [= -> ->]]. by apply fin_phase_absent. }
  kunfold H; first [by apply fin_phase_kept | apply fin_phase_removed].
Qed.

Lemma handleFinalizerCatalog_phase d t d' e :
  traces (handleFinalizerCatalog d) t (d', e) -> fin_phase FinalizerCatalog d d' e.
Proof.
  unfold handleFinalizerCatalog. intros H. destruct (has_fin FinalizerCatalog d) eqn:Hf; cbn [negb] in H.
  2: { destruct H as [_ [= -> ->]]. by apply fin_phase_absent. }
  split_trace H t1 t2 dep H1. split_trace H t3 t4 err H2.
  kunfold H; first [by apply fin_phase_kept | apply fin_phase_removed].
Qed.

Lemma finalizer_phases_spec d t d' es :
  traces (run_phases [handleFinalizerDependency; handleFinalizerGitRemote; handleFinalizerCatalog] d) t (d', es) ->
  d' = set_finalizers (d_finalizers d') d /\
  (es = [] <-> FinalizerDependency ∉ d_finalizers d' /\ FinalizerGitRemote ∉ d_finalizers d' /\
               FinalizerCatalog ∉ d_finalizers d') /\
  (forall g, g ∉ [FinalizerDependency; FinalizerGitRemote; FinalizerCatalog] ->
     g ∈ d_finalizers d' <-> g ∈ d_finalizers d).
Proof.
  clear sha_uuid cfg.
  cbn [run_phases]. intros H.
  split_trace H t1 u1 de1 H1. destruct de1 as [d1 e1]. split_trace H t2 u2 des H2.
  destruct H as [_ [= -> ->]].
  split_trace H2 t3 u3 de2 H3. destruct de2 as [d2 e2]. split_trace H2 t4 u4 des2 H4.
  destruct H2 as [_ ->].
  split_trace H4 t5 u5 de3 H5. destruct de3 as [d3 e3]. cbn [pbind] in H4. destruct H4 as [_ ->].
  cbn [fst snd] in *.
  apply handleFinalizerDependency_phase in H1 as [Ho1 Hg1 Hot1].
  apply handleFinalizerGitRemote_phase in H3 as [Ho2 Hg2 Hot2].
  apply handleFinalizerCatalog_phase in H5 as [Ho3 Hg3 Hot3].
  split; [rewrite Ho3, Ho2, Ho1; done|]. split.
  - rewrite !Hot3, !Hot2, <- Hg1 by done. rewrite <- Hg3, <- Hg2.
    destruct e1, e2, e3; simpl; naive_solver.
  - intros g Hg. rewrite Hot3, Hot2, Hot1; set_solver.
Qed.

(** C26: Deleting a deployment reports success exactly when none of the three
    finalizers of this controller is left, so the API server can drop the
    object only after every clean-up phase has succeeded; finalizers
    of others, the spec and the status are not touched; and the metadata needed to clean
    the metrics of a deployment that is already gone has been cached. *)
Theorem delete_finalizers (d d' : Deployment) (c c' : cache) (t : list kevent) (err : option gerror) :
  traces (delete_ d c) t (d', c', err) ->
  (err = None <-> FinalizerDependency ∉ d_finalizers d' /\ FinalizerGitRemote ∉ d_finalizers d' /\
                  FinalizerCatalog ∉ d_finalizers d') /\
  (forall g, g ∉ [FinalizerDependency; FinalizerGitRemote; FinalizerCatalog] ->
     g ∈ d_finalizers d' <-> g ∈ d_finalizers d) /\
  d' = set_finalizers (d_finalizers d') d /\
  exists now, ev Now now ∈ t /\ c' = cacheDeploymentMetadata now (d_namespace d) (d_name d) d c.
Proof.
  unfold delete_. intros (now & t0 & -> & H). cbn [pbind] in H.
  split_trace H t1 u1 r1 H1. split_trace H t2 u2 r2 H2. split_trace H t3 u3 r3 H3.
  split_trace H t4 u4 r4 H4. split_trace H t5 u5 des H5. destruct des as [d1 es].
  split_trace H t6 u6 r6 H6. split_trace H t7 u7 r7 H7. destruct H as [_ [= -> -> ->]].
  apply finalizer_phases_spec in H5 as (Ho & Hg & Hot). cbn [fst snd].
  split; [by rewrite new_aggregate_Somes|]. split; [done|]. split; [done|].
  exists now. split; [left|done].
Qed.

(** The Git finalizer goes only when the remote repository is known deleted
    or was not reported present: if the phase reports no error then either the
    delete succeeded, or the existence check did not answer "present".  The
    second case covers a check that failed: its error is dropped, the
    finalizer is removed all the same and the repository, which may still be
    there, is never deleted. *)
Theorem git_finalizer_exact (d d' : Deployment) (t : list kevent) (err : option gerror) :
  traces (handleFinalizerGitRemote d) t (d', err) ->
  has_fin FinalizerGitRemote d = true ->
  (err = None <->
     ev (GitNew (GetId d)) None ∈ t /\
     (ev (GitDelete (GetId d)) None ∈ t \/
      exists answer, ev (GitExists (GetId d)) answer ∈ t /\ answer <> Ok true)) /\
  (forall e, ev (GitExists (GetId d)) (Err e) ∈ t ->
     err = None /\ d' = remove_fin FinalizerGitRemote d /\ deleted_bds t = [] /\
     ~ requested t (GitDelete (GetId d))).
Proof.
  unfold handleFinalizerGitRemote. intros H Hf. rewrite Hf in H. cbn [negb] in H.
  kunfold H; split; try (intros ? He; which_event He).
  - split; [done|]. intros [Hin _]. which_event Hin.
  - split; [done|]. intros [_ [Hd|(a & Ha & Hn)]]; [which_event Hd|which_event Ha]. done.
  - split; [|done]. intros _. split; [left|left]. set_solver.
  - split; [|done]. intros _. split; [left|right]. exists (Ok false). set_solver.
  - split; [|done]. intros _. split; [left|right]. exists (Err e). set_solver.
  - split_and!; try done. intros [r Hr]. which_event Hr.
Qed.

(** Another deployment of the same package in the same project. *)
Definition shares_package (d other : Deployment) : bool :=
  bool_decide (mget (d_labels d) AppOrchActiveProjectID = mget (d_labels other) AppOrchActiveProjectID) &&
  negb (bool_decide (d_name d = d_name other)).

Definition unset_failure (e : gerror) : string := "failed to unset isDeployed (" +:+ e_msg e +:+ ")".

Lemma unset_failure_text e : contains (unset_failure e) "failed to unset isDeployed" = true.
Proof. apply contains_spec. exists "", (" (" +:+ e_msg e +:+ ")"). done. Qed.

(** The catalog is told that a package is no longer deployed exactly by
    its last deployment of the project: when the index lists another one the
    finalizer goes and the catalog is not called; when the catalog is called,
    the finalizer goes if it accepts or answers that it does not know the package, and
    stays, with an error, on any other failure. *)
Theorem catalog_finalizer_exact (d d' : Deployment) (t : list kevent) (err : option gerror) :
  traces (handleFinalizerCatalog d) t (d', err) ->
  has_fin FinalizerCatalog d = true ->
  let set_undeployed := CatalogSetDeployed (mget (d_labels d) AppOrchActiveProjectID)
    (dp_name (sp_pkg (d_spec d))) (dp_version (sp_pkg (d_spec d))) false in
  (forall items, ev (ListDeploymentsByRef (GetAppRef d)) (Ok items) ∈ t ->
     existsb (shares_package d) items = true ->
     err = None /\ d' = remove_fin FinalizerCatalog d /\ ~ requested t set_undeployed) /\
  (forall answer : option gerror, ev (R:=resp) set_undeployed answer ∈ t ->
     err = None <->
     match answer with
     | None => True
     | Some e => contains (unset_failure e) "rpc error: code = NotFound" = true
     end).
Proof.
  unfold handleFinalizerCatalog. intros H Hf. rewrite Hf in H. cbn [negb] in H.
  unfold IsDeployed, HandleIsDeployed, AddToOutgoingContext in H.
  kunfold H; split; try (intros ? Ha; which_event Ha); try done.
  all: try match goal with
           | Ha : Ok _ = Ok ?a, Hb : existsb _ ?a = ?b |- _ =>
               injection Ha as ->; change (existsb (shares_package d) a = b) in Hb; rewrite Hb
           end; try done.
  all: try (intros _; split_and!; [done|done|]; intros [r Hr]; which_event Hr).
  all: subst; repeat match goal with r : resp (CatalogSetDeployed _ _ _ _) |- _ => destruct r end; simplify_eq; try done.
  all: match goal with
       | Hc : contains (e_msg (wrapf _ ?g _)) _ && _ = ?b |- _ =>
           change (contains (unset_failure g) "failed to unset isDeployed" &&
                   contains (unset_failure g) "rpc error: code = NotFound" = b) in Hc;
           rewrite unset_failure_text in Hc; cbn [andb] in Hc; rewrite Hc; done
       end.
Qed.

(** ** Dependencies between deployments *)

(** A loop that may stop early and did not: every iteration ran and went on. *)
Lemma traces_pfor_ret_None {A B : Type} (l : list A) (f : A -> kprog (option B)) t :
  traces (pfor_ret l f) t None ->
  forall x, x ∈ l -> exists t', t' ⊆ t /\ traces (f x) t' None.
Proof.
  revert t. induction l as [|y l IH]; intros t; simpl.
  - intros _ x Hx. by apply elem_of_nil in Hx.
  - intros H x Hx. apply traces_bind in H as (t1 & t2 & [b|] & -> & H1 & H2);
      [by destruct H2 as [_ [=]]|].
    apply elem_of_cons in Hx as [->|Hx].
    + exists t1. split; [|done]. set_solver.
    + destruct (IH t2 H2 x Hx) as (t' & Hsub & Ht'). exists t'. split; [|done]. set_solver.
Qed.

Definition parent_ref (d : Deployment) : DependentDeploymentRef :=
  mkDepRef (sp_pkg (d_spec d)) (d_name d).

Definition link_parent (d cd : Deployment) : Deployment :=
  set_status (fun st => with_parents (<[d_name d := parent_ref d]> (st_parents st)) st) cd.

Definition unlink_parent (d cd : Deployment) : Deployment :=
  set_status (fun st => with_parents (delete (d_name d) (st_parents st)) st) cd.

Lemma status_changed_parents (d1 d2 : Deployment) :
  st_parents (d_status d1) <> st_parents (d_status d2) -> status_changed d1 d2 = true.
Proof. intros H. unfold status_changed. by rewrite bool_decide_false by congruence. Qed.

(** The copy a patch helper keeps is the object itself. *)
Ltac copy_inv :=
  repeat match goal with Hr : match ?r with _ => _ end = Ok _ |- _ => destruct r; simplify_eq end.

Lemma attach_child_spec d k t :
  traces (attach_child d k) t None ->
  exists cd, ev (GetDeployment (d_namespace d) k) (Ok cd) ∈ t /\
    (st_parents (d_status cd) !! d_name d = Some (parent_ref d) \/
     ev (PatchStatus cd (link_parent d cd)) None ∈ t).
Proof.
  unfold attach_child, NewPatchHelper. intros H. kunfold H; copy_inv.
  - eexists. split; [left|]. left. by reflect_guards.
  - split_trace H t1 t2 e H1. destruct e; [by destruct H|]. destruct H as [-> _].
    eexists. split; [left|]. right. reflect_guards.
    apply HelperPatch_sent in H1 as [_ Hs]. rewrite !elem_of_cons, elem_of_app. do 2 right. left.
    apply Hs. apply status_changed_parents. simpl. intros Heq.
    match goal with Hn : _ !! _ <> Some _ |- _ => apply Hn; rewrite Heq; apply lookup_insert_eq end.
Qed.

Lemma detach_child_spec d k t :
  traces (detach_child d k) t None ->
  exists answer, ev (GetDeployment (d_namespace d) k) answer ∈ t /\
    match answer with
    | Err e => is_not_found e = true
    | Ok cd => st_parents (d_status cd) !! d_name d = None \/
               ev (PatchStatus cd (unlink_parent d cd)) None ∈ t
    end.
Proof.
  unfold detach_child, NewPatchHelper. intros H. kunfold H; copy_inv.
  - eexists (Ok _). split; [left|]. left. reflect_guards. by rewrite Heqb, lookup_empty.
  - split_trace H t1 t2 err H1. destruct err; [by destruct H|]. destruct H as [-> _].
    eexists (Ok _). split; [left|]. apply HelperPatch_sent in H1 as [_ Hs]. apply or_comm.
    match goal with |- _ \/ ?m !! ?x = None => destruct (m !! x) as [ref|] eqn:Hp; [left|by right] end.
    rewrite !elem_of_cons, elem_of_app. do 2 right. left.
    apply Hs. apply status_changed_parents. simpl. intros Heq. rewrite Heq, lookup_delete_eq in Hp. done.
  - exists (Err e). split; [left|done].
Qed.

(** When [reconcileDependency] succeeds every child deployment exists and
    knows this deployment as a parent, with the package it was deployed from:
    either its status already said so, or the status patch that adds exactly
    this entry was accepted. *)
Theorem dependency_linked (d d' : Deployment) (t : list kevent) (k : string) :
  traces (reconcileDependency d) t (d', None) ->
  is_Some (sp_children (d_spec d) !! k) ->
  exists cd, ev (GetDeployment (d_namespace d) k) (Ok cd) ∈ t /\
    (st_parents (d_status cd) !! d_name d = Some (parent_ref d) \/
     ev (PatchStatus cd (link_parent d cd)) None ∈ t) /\
    st_parents (d_status (link_parent d cd)) !! d_name d = Some (parent_ref d).
Proof.
  unfold reconcileDependency. intros H [ref Hk]. split_trace H t1 t2 e H1.
  destruct H as [-> [= -> <-]]. rewrite app_nil_r.
  destruct (traces_pfor_ret_None _ _ _ H1 k) as (t' & Hsub & Ht').
  { apply list_elem_of_fmap. exists (k, ref). split; [done|]. by apply elem_of_map_range. }
  apply attach_child_spec in Ht' as (cd & Hg & Hl). exists cd.
  split; [by apply Hsub|]. split; [destruct Hl; auto|]. apply lookup_insert_eq.
Qed.

(** The dependency finalizer of a deployment with children is removed only
    when no child refers to it any more: each child was found to be gone, or had
    no entry for this deployment, or accepted the status patch that deletes
    exactly that entry. *)
Theorem dependency_unlinked (d d' : Deployment) (t : list kevent) (k : string) :
  traces (handleFinalizerDependency d) t (d', None) ->
  has_fin FinalizerDependency d = true ->
  is_Some (sp_children (d_spec d) !! k) ->
  exists answer, ev (GetDeployment (d_namespace d) k) answer ∈ t /\
    match answer with
    | Err e => is_not_found e = true
    | Ok cd => st_parents (d_status cd) !! d_name d = None \/
               ev (PatchStatus cd (unlink_parent d cd)) None ∈ t
    end.
Proof.
  unfold handleFinalizerDependency. intros H Hf [ref Hk]. rewrite Hf in H. cbn [negb] in H.
  rewrite bool_decide_false in H by (intros He; by rewrite He, lookup_empty in Hk).
  split_trace H t1 t2 e H1. destruct e; [by destruct H|]. destruct H as [-> _]. rewrite app_nil_r.
  destruct (traces_pfor_ret_None _ _ _ H1 k) as (t' & Hsub & Ht').
  { apply list_elem_of_fmap. exists (k, ref). split; [done|]. by apply elem_of_map_range. }
  apply detach_child_spec in Ht' as (answer & Hg & Hl). exists answer.
  split; [by apply Hsub|]. destruct answer; [|done]. destruct Hl; auto.
Qed.

(** ** The loop *)

Context (format_rfc3339 : Z -> string) (parse_rfc3339 : string -> option Z).

Lemma delete_bds_requests bds t u bd : traces (delete_bds bds) t u -> bd ∈ bds -> requested t (DeleteBD bd).
Proof.
  unfold delete_bds. revert t. induction bds as [|x bds IH]; intros t; simpl.
  - intros _ H. by apply elem_of_nil in H.
  - intros (r & t' & -> & H) [->|Hbd]%elem_of_cons; rewrite requested_cons; [by left|right; by apply IH].
Qed.

Lemma cleanup_bds_by_id d t r :
  traces (cleanupOrphanedBundleDeployments d) t r ->
  exists answer, ev (ListBDs (deployment_label d)) answer ∈ t /\
    forall items bd, answer = Ok items -> bd ∈ items -> requested t (DeleteBD bd).
Proof.
  unfold cleanupOrphanedBundleDeployments. intros (r1 & t1 & -> & answer & t2 & -> & H).
  exists answer. split; [set_solver|]. intros items bd -> Hbd.
  cbn [pbind] in H. split_trace H t3 t4 u H1. pose proof (delete_bds_requests _ _ _ _ H1 Hbd). requested_solver.
Qed.

Lemma delete_bds_only bds : issues (fun e => is_write e = true -> exists bd, e = DeleteBD bd) (delete_bds bds).
Proof. apply issues_pfor. intros bd _. simpl. eauto. Qed.

Lemma cleanup_bds_only d :
  issues (fun e => is_write e = true -> exists bd, e = DeleteBD bd) (cleanupOrphanedBundleDeployments d).
Proof.
  unfold cleanupOrphanedBundleDeployments. split; [done|]. intros r1. split; [done|]. intros r2. cbn [pbind].
  apply issues_bind; [destruct r2; [apply delete_bds_only|done]|]. intros _.
  apply issues_bind.
  { apply issues_pfor. intros gr _. split; [done|]. intros [items|e]; cbn [pbind]; [apply delete_bds_only|done]. }
  intros _. split; [done|]. intros r3. cbn [pbind]. apply issues_bind; [|done].
  destruct r3; [|done]. apply issues_pfor. intros bd _. destruct (shouldDelete _ _ _); simpl; eauto.
Qed.

(** The deployment needs nothing: live, finalized, reconciled and deployed. *)
Definition settled (d : Deployment) : bool :=
  not_deleting d && has_fin FinalizerDependency d && has_fin FinalizerGitRemote d &&
  is_status_condition_true (st_conditions (d_status d)) typeReady &&
  (st_reconciled_gen (d_status d) =? d_generation d) && negb (st_in_progress (d_status d)).

(** A pass over a settled deployment changes neither the deployment nor
    the cache, unless a GitRepo pulls from another URL than the configured one;
    but it is not quiet: every BundleDeployment listed under the deployment's
    id is deleted, on each such pass, and these deletes are its only writes. *)
Theorem settled_pass (d d' : Deployment) (c c' : cache) (t : list kevent) (err : option gerror) :
  traces (reconcile_body sha_uuid format_rfc3339 parse_rfc3339 cfg d c) t (d', c', err) ->
  settled d = true ->
  (exists answer, ev (ListBDs (deployment_label d)) answer ∈ t /\
     forall items bd, answer = Ok items -> bd ∈ items -> requested t (DeleteBD bd)) /\
  ((exists url items gr, ev (GitRemoteURL (GetId d)) (Ok url) ∈ t /\
      ev (ListGitRepos (d_namespace d) (d_name d)) (Ok items) ∈ t /\ gr ∈ items /\ gr_repo gr <> url) \/
   (d' = d /\ c' = c /\ forall e, requested t e -> is_write e = true -> exists bd, e = DeleteBD bd)).
Proof.
  unfold reconcile_body, settled. intros H Hs.
  repeat match type of Hs with _ && _ = true => apply andb_true_iff in Hs as [Hs ?] end.
  apply negb_true_iff in H0.
  rewrite Hs in H. rewrite H4, H3 in H. rewrite andb_false_r in H. cbn [negb andb] in H.
  split_trace H t1 t2 u Hc.
  split.
  { destruct (cleanup_bds_by_id _ _ _ Hc) as (answer & Hin & Hd). exists answer. split; [set_solver|].
    intros items bd Ha Hbd. pose proof (Hd items bd Ha Hbd). requested_solver. }
  assert (forall e, requested t1 e -> is_write e = true -> exists bd, e = DeleteBD bd) as Hq.
  { intros e He. exact (requested_traces _ _ _ _ e (cleanup_bds_only d) Hc He). }
  unfold gitURLHasChanged in H. rewrite H2, H1, H0 in H.
  destruct H as (r & t3 & -> & H). destruct r as [url|e]; cbn in H.
  2: { destruct H as [-> [= -> -> ->]]. right. split_and!; [done|done|].
       intros e'. rewrite requested_app, requested_cons. intros [He|[He|He]];
         [by apply Hq|by rewrite <- He|by apply requested_nil in He]. }
  destruct H as (r & t4 & -> & H). destruct r as [items|e]; cbn in H.
  2: { destruct H as [-> [= -> -> ->]]. right. split_and!; [done|done|].
       intros e'. rewrite requested_app, !requested_cons. intros [He|[He|[He|He]]];
         [by apply Hq|by rewrite <- He|by rewrite <- He|by apply requested_nil in He]. }
  destruct (existsb _ items) eqn:He.
  - left. apply existsb_elem_of in He as (gr & Hgr & Hne). reflect_guards.
    exists url, items, gr. split_and!; [set_solver|set_solver|done|done].
  - destruct H as [-> [= -> -> ->]]. right. split_and!; [done|done|].
    intros e'. rewrite requested_app, !requested_cons. intros [He'|[He'|[He'|He']]];
      [by apply Hq|by rewrite <- He'|by rewrite <- He'|by apply requested_nil in He'].
Qed.

(** *** The metrics of a deleted deployment *)

Lemma pfor_requests {A : Type} (l : list A) (f : A -> kprog unit) t u x e :
  traces (pfor l f) t u -> x ∈ l -> (forall t' u', traces (f x) t' u' -> requested t' e) -> requested t e.
Proof.
  revert t. induction l as [|y l IH]; intros t; simpl.
  - intros _ H. by apply elem_of_nil in H.
  - intros H Hx Hf. split_trace H t1 t2 v H1. rewrite requested_app.
    apply elem_of_cons in Hx as [->|Hx]; [left; by eapply Hf|right; by apply IH].
Qed.

Lemma cleanupMetricsFromCache_spec md t u :
  traces (cleanupMetricsFromCache (Some md)) t u ->
  (forall s, s ∈ deployment_states ->
     requested t (DeleteDeploymentMetric (md_project md) (md_id md) (md_display md) s)) /\
  requested t (DeleteTimestamps (md_project md) (md_id md)).
Proof.
  unfold cleanupMetricsFromCache. intros H. split_trace H t1 t2 v H1.
  destruct H as (r & t3 & -> & [-> _]). split; [intros s Hs|requested_solver].
  rewrite requested_app. left. eapply pfor_requests; [exact H1|exact Hs|].
  intros t' u' (r' & t'' & -> & _). requested_solver.
Qed.

Lemma cleanupMetricsFromCache_quiet md : issues (fun e => is_write e = false) (cleanupMetricsFromCache md).
Proof.
  destruct md as [md|]; [|done]. apply issues_bind; [|done].
  apply issues_pfor. intros s _. done.
Qed.

(** The metadata of a deployment at some time. *)
Definition metadata_of (d : Deployment) (now : Z) : deploymentMetadata :=
  mkMeta (GetId d) (sp_display_name (d_spec d)) (project_of d) now.

Lemma deleting_pass d c t s s' o before :
  traces (let! body := reconcile_body sha_uuid format_rfc3339 parse_rfc3339 cfg d c in
          let '(d, c, reterr) := body in reconcile_deferred before d (put_cache c s) reterr) t (s', o) ->
  not_deleting d = false ->
  exists now, ev Now now ∈ t /\
    mem_cache s' !! cache_key (d_namespace d) (d_name d) = Some (metadata_of d now).
Proof.
  intros H Hdel. split_trace H t1 t2 body H1. destruct body as [[d1 c1] e1].
  unfold reconcile_body in H1. rewrite Hdel in H1. rewrite !andb_false_r in H1. cbn [negb] in H1.
  assert (d1 = set_finalizers (d_finalizers d1) d) as Hd1.
  { unfold delete_ in H1. destruct H1 as (n & t0 & -> & H1). cbn [pbind] in H1.
    split_trace H1 x1 y1 r1 X1. split_trace H1 x2 y2 r2 X2. split_trace H1 x3 y3 r3 X3.
    split_trace H1 x4 y4 r4 X4. split_trace H1 x5 y5 des X5. destruct des as [d2 es].
    split_trace H1 x6 y6 r6 X6. split_trace H1 x7 y7 r7 X7. destruct H1 as [_ [= -> -> ->]].
    by apply finalizer_phases_spec in X5 as (Ho & _). }
  unfold reconcile_deferred in H.
  assert (not_deleting d1 = false) as Hdel1 by (rewrite Hd1; done).
  rewrite Hdel1 in H. cbn [negb] in H. destruct H as (now & t3 & -> & H). cbn [pbind] in H.
  split_trace H x1 y1 r1 X1. split_trace H x2 y2 r2 X2. destruct H as [_ [= -> _]].
  exists now. split; [set_solver|]. rewrite Hd1. simpl. apply lookup_insert_eq.
Qed.

(** C38: Two passes clean the metrics of a deployment that vanishes between
    them.  If a pass finds the deployment being deleted, then whatever the
    outcome of that pass, a later pass that no longer finds it (within the
    cache's lifetime of the first) reports no error, deletes the metric of
    every state and the timestamps under the deployment's project, id and
    display name, writes nothing to the cluster, and leaves no entry for it in
    the cache. *)
Theorem vanished_deployment_metrics (d : Deployment) (s s1 s2 : memory) (o1 o2 : outcome)
    (n1 n2 : Z) (e : gerror) (t1 t2 : list kevent) :
  traces (Reconcile sha_uuid format_rfc3339 parse_rfc3339 cfg (d_namespace d) (d_name d) s)
    (ev Now n1 :: ev (GetDeployment (d_namespace d) (d_name d)) (Ok d) :: ev (ConvertObject d) None :: t1)
    (s1, o1) ->
  traces (Reconcile sha_uuid format_rfc3339 parse_rfc3339 cfg (d_namespace d) (d_name d) s1)
    (ev Now n2 :: ev (GetDeployment (d_namespace d) (d_name d)) (Err e) :: t2) (s2, o2) ->
  not_deleting d = false -> is_not_found e = true ->
  (forall n, ev Now n ∈ t1 -> n2 - n <= metadataCacheTTL) ->
  o2 = mkOut 0 None /\
  (forall state, state ∈ deployment_states ->
     requested t2 (DeleteDeploymentMetric (project_of d) (GetId d) (sp_display_name (d_spec d)) state)) /\
  requested t2 (DeleteTimestamps (project_of d) (GetId d)) /\
  (forall x, requested t2 x -> is_write x = false) /\
  mem_cache s2 !! cache_key (d_namespace d) (d_name d) = None.
Proof.
  intros H1 H2 Hdel Hnf Httl. unfold Reconcile in H1, H2.
  apply traces_vis_inv in H1. cbn [pbind] in H1. apply traces_vis_inv in H1. cbn [pbind] in H1.
  unfold NewPatchHelper in H1. apply traces_vis_inv in H1. cbn [pbind] in H1.
  apply deleting_pass in H1 as (now & Hnow & Hcache); [|done].
  apply traces_vis_inv in H2. cbn [pbind] in H2. apply traces_vis_inv in H2. cbn [pbind] in H2.
  rewrite Hnf in H2. cbn [put_cache mem_cache] in H2. unfold getAndRemoveMetadata in H2.
  assert (cleanupOldEntries n2 (mem_cache s1) !! cache_key (d_namespace d) (d_name d) =
          Some (metadata_of d now)) as Hc.
  { unfold cleanupOldEntries. apply map_lookup_filter_Some. split; [done|]. simpl.
    pose proof (Httl now Hnow). lia. }
  rewrite Hc in H2. cbn [fst snd] in H2. split_trace H2 t3 t4 u Hm.
  destruct H2 as [-> [= -> ->]]. rewrite app_nil_r.
  pose proof (cleanupMetricsFromCache_spec _ _ _ Hm) as [Hs Ht].
  split_and!; [done|exact Hs|exact Ht| |apply lookup_delete_eq].
  intros x Hx. exact (requested_traces _ _ _ _ x (cleanupMetricsFromCache_quiet _) Hm Hx).
Qed.

(** *** Forced redeployment *)

Lemma pfold_ret_requests {A S B : Type} (P : eff -> Prop) (Q : A -> eff -> Prop) (l : list A) (s : S)
    (f : S -> A -> kprog (S * option B)) t sb :
  (forall s x, x ∈ l -> issues (fun e => P e -> Q x e) (f s x)) ->
  traces (pfold_ret l s f) t sb -> forall e, requested t e -> P e -> exists x, x ∈ l /\ Q x e.
Proof.
  revert t s. induction l as [|y l IH]; intros t s Hf; simpl.
  - intros [-> _] e He. by apply requested_nil in He.
  - intros H e He HP. apply traces_bind in H as (t1 & t2 & [s1 o] & -> & H1 & H2).
    apply requested_app in He as [He|He].
    + exists y. split; [left|]. exact (requested_traces _ _ _ _ e (Hf s y ltac:(left)) H1 He HP).
    + destruct o; [by destruct H2 as [-> _]; apply requested_nil in He|].
      destruct (IH t2 s1 ltac:(intros; apply Hf; by right) H2 e He HP) as (x & Hx & HQ).
      exists x. split; [by right|done].
Qed.

(** A forced redeployment is rate limited and selective: the cluster is
    written only if a previous forced resync is on record, its time parses, and
    the clock read is at least the resync interval past it; every write is an
    update of a listed GitRepo that is stuck (not ready with "Unable to continue", or
    Stalled) and only raises its force-sync generation by one; on the first
    request the current time is recorded and nothing else happens. *)
Theorem force_sync_limited (d d' : Deployment) (t : list kevent) (err : option gerror) :
  traces (forceRedeployStuckApps format_rfc3339 parse_rfc3339 d) t (d', err) ->
  (forall e, requested t e -> is_write e = true ->
     exists lastForceResync now items gr,
       parse_rfc3339 (st_last_resync (d_status d)) = Some lastForceResync /\
       ev Now now ∈ t /\ forceResyncInterval <= now - lastForceResync /\
       ev (ListGitRepos (d_namespace d) (d_name d)) (Ok items) ∈ t /\
       gr ∈ items /\ stuck gr = true /\ e = UpdateGitRepo (bump_force_sync gr)) /\
  (st_last_resync (d_status d) = "" ->
     exists now, t = [ev Now now] /\ err = None /\
       d' = set_status (with_last_resync (format_rfc3339 now)) d).
Proof.
  unfold forceRedeployStuckApps. intros H. case_bool_decide as Hl.
  { kunfold H. split; [|eauto]. intros e [<-|He]%requested_cons; [done|by apply requested_nil in He]. }
  split; [|done]. intros e He Hw.
  destruct (parse_rfc3339 _) as [last|] eqn:Hp; [|destruct H as [-> _]; by apply requested_nil in He].
  destruct H as (now & t1 & -> & H). cbn [pbind] in H.
  apply requested_cons in He as [<-|He]; [done|].
  destruct (Z.ltb_spec (now - last) forceResyncInterval);
    [destruct H as [-> _]; by apply requested_nil in He|].
  destruct H as (r & t2 & -> & H). cbn [pbind] in H.
  apply requested_cons in He as [<-|He]; [done|].
  destruct r as [items|]; [|destruct H as [-> _]; by apply requested_nil in He].
  pose proof (fun Hf => pfold_ret_requests (fun e => is_write e = true)
    (fun gr e => stuck gr = true /\ e = UpdateGitRepo (bump_force_sync gr)) _ _ _ _ _ Hf H e He Hw) as Hx.
  destruct Hx as (gr & Hgr & Hs & ->).
  { intros d0 gr _. destruct (stuck gr); [|done]. split; [done|]. intros [er|]; [done|].
    split; [done|]. intros n. split; [done|]. done. }
  exists last, now, items, gr. split_and!; [done|set_solver|done|set_solver|done|done|done].
Qed.
End ReconcileFacts.

(** ** Witnesses *)

Definition sample_uuid (s : string) : string := s +:+ "0123456789abcdef".
Definition sample_cfg : config := mkConfig true None.
Definition sample_format (t : Z) : string := "now".
Definition sample_parse (s : string) : option Z := Some 0.

Definition reconcile_sample : kprog (Deployment * option gerror) :=
  reconcile sample_uuid sample_cfg sample_deployment.

Lemma reconcile_outcome_witness :
  (result_of empty_world reconcile_sample).2 = None /\
  is_status_condition_true (st_conditions (d_status (result_of empty_world reconcile_sample).1)) typeReady = true.
Proof.
  split; [vm_compute; reflexivity|].
  pose proof (reconcile_outcome sample_uuid sample_cfg sample_deployment
    (result_of empty_world reconcile_sample).1 (log_of empty_world reconcile_sample)
    (result_of empty_world reconcile_sample).2 (log_of_pair empty_world reconcile_sample))
    as (_ & _ & _ & _ & _ & _ & _ & _ & _ & [Hready _] & _).
  apply Hready. vm_compute. reflexivity.
Defined.

(** One GitRepo of a removed application is listed; the application has none. *)
Definition stale_gitrepo : GitRepo :=
  mkGitRepo "old-0123456789ab" "project-1" ∅ None "https://git/x" [] "" "" "" [] None 0 [] "".

Definition with_gitrepos (grs : res (list GitRepo)) (w : world) : world :=
  mkWorld (w_now w) (w_deployment w) grs (w_dcs w) (w_bds w) (w_git_exists w) (w_fleet w).

Definition stale_world : world := with_gitrepos (Ok [stale_gitrepo]) empty_world.

Definition sync_sample : kprog (option gerror) :=
  sync_gitrepos sample_uuid sample_cfg sample_deployment.

(** The environment's [SetControllerReference] answers with its argument. *)
Lemma env_owner_reference_only {A : Type} (w : world) (p : kprog A) :
  owner_reference_only (log_of w p).
Proof.
  intros owner gr gr'. unfold log_of. revert w. induction p as [a|e k IH]; intros w; simpl.
  - intros H. by apply elem_of_nil in H.
  - specialize (IH (answer w e) w). destruct (run_log env w (k (answer w e))) as [[a w'] t]. simpl in *.
    intros [H|H]%elem_of_cons; [|by apply IH].
    pose proof (f_equal (@projT1 _ _) H) as He. simpl in He. subst e. apply ev_inj in H.
    simpl in H. by injection H as ->.
Qed.

Lemma gitrepos_exact_witness :
  exists url items,
    ev (GitRemoteURL (GetId sample_deployment)) (Ok url) ∈ log_of stale_world sync_sample /\
    ev (ListGitRepos "project-1" "deployment-x") (Ok items) ∈ log_of stale_world sync_sample /\
    (NoDup (names_of items) ->
     let plan := gitrepo_plan sample_deployment (list_to_set (names_of items)) [sample_app "wp" "cluster-a"] in
     map repo_view (omap sel_created (log_of stale_world sync_sample)) =
       map (app_view sample_deployment url) (to_create plan) /\
     map repo_view (omap sel_updated (log_of stale_world sync_sample)) =
       map (app_view sample_deployment url) (to_update plan) /\
     (NoDup (map app_name [sample_app "wp" "cluster-a"]) ->
        let known app := bool_decide (repo_name sample_deployment app ∈ names_of items) in
        to_create plan = List.filter (fun a => negb (known a)) [sample_app "wp" "cluster-a"] /\
        to_update plan = List.filter known [sample_app "wp" "cluster-a"]) /\
     (forall gr, gr ∈ omap sel_deleted (log_of stale_world sync_sample) <->
        gr ∈ items /\ gr_name gr ∉ map (repo_name sample_deployment) [sample_app "wp" "cluster-a"])).
Proof.
  apply (gitrepos_exact sample_uuid sample_cfg sample_deployment (log_of stale_world sync_sample)).
  - apply log_of_result. vm_compute. reflexivity.
  - apply env_owner_reference_only.
Defined.

(** A deployment being deleted that has the three finalizers and one of someone else. *)
Definition deleting (fs : list string) : Deployment :=
  mkDeployment "deployment-x" "project-1" "0123456789ab" {[AppOrchActiveProjectID := "project-1"]}
    1 "" 0 (Some 5) fs sample_spec sample_status.

Definition leaving : Deployment :=
  deleting [FinalizerDependency; FinalizerGitRemote; FinalizerCatalog; "foregroundDeletion"].

Definition delete_sample : kprog (Deployment * cache * option gerror) := delete_ leaving ∅.

Lemma delete_finalizers_witness :
  (result_of empty_world delete_sample).2 = None /\
  d_finalizers (result_of empty_world delete_sample).1.1 = ["foregroundDeletion"] /\
  FinalizerGitRemote ∉ d_finalizers (result_of empty_world delete_sample).1.1.
Proof.
  split; [vm_compute; reflexivity|]. split; [vm_compute; reflexivity|].
  refine (proj1 (proj2 (proj1 (proj1 (delete_finalizers leaving
    (result_of empty_world delete_sample).1.1 ∅ (result_of empty_world delete_sample).1.2
    (log_of empty_world delete_sample) (result_of empty_world delete_sample).2
    (log_of_triple empty_world delete_sample))) _))).
  vm_compute. reflexivity.
Defined.

(** The existence check fails: the finalizer is gone, the repository is not. *)
Definition broken_git_world : world := with_git (Err (errorf "timeout")) empty_world.

Definition git_sample : kprog (Deployment * option gerror) := handleFinalizerGitRemote leaving.

Lemma git_finalizer_exact_witness :
  (result_of broken_git_world git_sample).2 = None /\
  has_fin FinalizerGitRemote (result_of broken_git_world git_sample).1 = false /\
  ~ requested (log_of broken_git_world git_sample) (GitDelete (GetId leaving)).
Proof.
  split; [vm_compute; reflexivity|]. split; [vm_compute; reflexivity|].
  refine (proj2 (proj2 (proj2 (proj2 (git_finalizer_exact leaving (result_of broken_git_world git_sample).1
    (log_of broken_git_world git_sample) (result_of broken_git_world git_sample).2
    (log_of_pair broken_git_world git_sample) _) (errorf "timeout") _)))).
  - vm_compute. reflexivity.
  - apply (nth_event 1). vm_compute. reflexivity.
Defined.

Definition catalog_sample : kprog (Deployment * option gerror) := handleFinalizerCatalog leaving.

Lemma catalog_finalizer_exact_witness :
  (result_of empty_world catalog_sample).2 = None <-> True.
Proof.
  refine (proj2 (catalog_finalizer_exact leaving (result_of empty_world catalog_sample).1
    (log_of empty_world catalog_sample) (result_of empty_world catalog_sample).2
    (log_of_pair empty_world catalog_sample) _) None _).
  - vm_compute. reflexivity.
  - apply (nth_event 3). vm_compute. reflexivity.
Defined.

(** A parent of one child. *)
Definition with_children (d : Deployment) : Deployment :=
  mkDeployment "parent" (d_namespace d) "parent-id" (d_labels d) (d_generation d) (d_resource_version d)
    (d_creation d) (d_deletion d) (d_finalizers d)
    (mkSpec "parent" "proj" sample_pkg [] Targeted {["deployment-x" := mkDepRef sample_pkg "deployment-x"]}
      (mkNet "" "" "")) (d_status d).

Lemma has_child d : is_Some (sp_children (d_spec (with_children d)) !! "deployment-x").
Proof. eexists. vm_compute. reflexivity. Defined.

Definition attach_sample : kprog (Deployment * option gerror) :=
  reconcileDependency (with_children sample_deployment).

Lemma dependency_linked_witness :
  exists cd, ev (GetDeployment "project-1" "deployment-x") (Ok cd) ∈ log_of empty_world attach_sample /\
    (st_parents (d_status cd) !! "parent" = Some (parent_ref (with_children sample_deployment)) \/
     ev (PatchStatus cd (link_parent (with_children sample_deployment) cd)) None ∈
       log_of empty_world attach_sample) /\
    st_parents (d_status (link_parent (with_children sample_deployment) cd)) !! "parent" =
      Some (parent_ref (with_children sample_deployment)).
Proof.
  apply (dependency_linked (with_children sample_deployment) (with_children sample_deployment)
    (log_of empty_world attach_sample) "deployment-x"); [|apply has_child].
  apply log_of_result. vm_compute. reflexivity.
Defined.

Definition parting : Deployment := with_children (deleting [FinalizerDependency]).

Definition detach_sample : kprog (Deployment * option gerror) := handleFinalizerDependency parting.

Lemma dependency_unlinked_witness :
  exists answer, ev (GetDeployment "project-1" "deployment-x") answer ∈ log_of empty_world detach_sample /\
    match answer with
    | Err e => is_not_found e = true
    | Ok cd => st_parents (d_status cd) !! "parent" = None \/
               ev (PatchStatus cd (unlink_parent parting cd)) None ∈ log_of empty_world detach_sample
    end.
Proof.
  apply (dependency_unlinked parting (remove_fin FinalizerDependency parting)
    (log_of empty_world detach_sample) "deployment-x"); [|vm_compute; reflexivity|apply has_child].
  apply log_of_result. vm_compute. reflexivity.
Defined.

(** A deployment that is deployed and reconciled. *)
Definition settled_sample : Deployment :=
  set_status (fun _ => mkStatus [mkCond typeReady ConditionTrue 0 reasonSuccess ""] "" Running ""
      (mkSummary 1 1 0 0) false "" 1 ∅)
    (set_finalizers [FinalizerDependency; FinalizerGitRemote] sample_deployment).

(** One healthy BundleDeployment of it. *)
Definition own_bd : BundleDeployment := sample_bd "b-1" "cluster-a" (Some (deployment_label settled_sample)).

Definition busy_world : world := with_bds (Ok [own_bd]) empty_world.

Definition settled_run : kprog (Deployment * cache * option gerror) :=
  reconcile_body sample_uuid sample_format sample_parse sample_cfg settled_sample ∅.

Lemma settled_pass_witness :
  (result_of busy_world settled_run).1.1 = settled_sample /\
  deleted_bds (log_of busy_world settled_run) = [own_bd; own_bd] /\
  exists answer, ev (ListBDs (deployment_label settled_sample)) answer ∈ log_of busy_world settled_run /\
     forall items bd, answer = Ok items -> bd ∈ items -> requested (log_of busy_world settled_run) (DeleteBD bd).
Proof.
  split; [vm_compute; reflexivity|]. split; [vm_compute; reflexivity|].
  refine (proj1 (settled_pass sample_uuid sample_cfg sample_format sample_parse settled_sample
    (result_of busy_world settled_run).1.1 ∅ (result_of busy_world settled_run).1.2
    (log_of busy_world settled_run) (result_of busy_world settled_run).2
    (log_of_triple busy_world settled_run) _)).
  vm_compute. reflexivity.
Defined.

(** A deployment being deleted, then gone. *)
Definition found_world : world :=
  mkWorld 0 (Ok leaving) (Ok []) (Ok []) (Ok []) (Ok false) None.

Definition not_found : gerror := mkErr KNotFound "not found".

Definition gone_world : world :=
  mkWorld 60 (Err not_found) (Ok []) (Ok []) (Ok []) (Ok false) None.

Definition pass (s : memory) : kprog (memory * outcome) :=
  Reconcile sample_uuid sample_format sample_parse sample_cfg "project-1" "deployment-x" s.

Definition start : memory := mkMem ∅ false.
Definition after_first : memory := (result_of found_world (pass start)).1.

Definition first_rest : list kevent := drop 3 (log_of found_world (pass start)).
Definition second_rest : list kevent := drop 2 (log_of gone_world (pass after_first)).

Lemma first_log : log_of found_world (pass start) =
  ev Now 0 :: ev (GetDeployment "project-1" "deployment-x") (Ok leaving) :: ev (ConvertObject leaving) None :: first_rest.
Proof. vm_compute. reflexivity. Qed.

Lemma second_log : log_of gone_world (pass after_first) =
  ev Now 60 :: ev (GetDeployment "project-1" "deployment-x") (Err not_found) :: second_rest.
Proof. vm_compute. reflexivity. Qed.

(** The clock of the first world stands at 0. *)
Lemma clock_of_log {A : Type} (w : world) (p : kprog A) (n : Z) : ev Now n ∈ log_of w p -> n = w_now w.
Proof.
  unfold log_of. induction p as [a|e k IH]; simpl.
  - intros H. by apply elem_of_nil in H.
  - specialize (IH (answer w e)). destruct (run_log env w (k (answer w e))) as [[a w'] t]. simpl in *.
    intros [H|H]%elem_of_cons; [|by apply IH].
    pose proof (f_equal (@projT1 _ _) H) as He. simpl in He. subst e. by apply ev_inj in H.
Qed.

Lemma vanished_deployment_metrics_witness :
  (result_of gone_world (pass after_first)).2 = mkOut 0 None /\
  requested second_rest (DeleteTimestamps "project-1" "0123456789ab") /\
  (forall state, state ∈ deployment_states ->
     requested second_rest (DeleteDeploymentMetric "project-1" "0123456789ab" "blog" state)).
Proof.
  destruct (vanished_deployment_metrics sample_uuid sample_cfg sample_format sample_parse leaving
    start after_first (result_of gone_world (pass after_first)).1
    (result_of found_world (pass start)).2 (result_of gone_world (pass after_first)).2
    0 60 not_found first_rest second_rest) as (H1 & H2 & H3 & _).
  - exact (eq_ind _ (fun t => traces (pass start) t _) (log_of_pair found_world (pass start)) _ first_log).
  - exact (eq_ind _ (fun t => traces (pass after_first) t _) (log_of_pair gone_world (pass after_first)) _ second_log).
  - reflexivity.
  - reflexivity.
  - intros n Hn. assert (n = 0) as ->; [|vm_compute; discriminate].
    apply (clock_of_log found_world (pass start)). rewrite first_log. do 3 right. exact Hn.
  - split; [exact H1|]. split; [exact H3|exact H2].
Defined.

(** Resynced long ago, with one stuck GitRepo. *)
Definition stuck_gitrepo : GitRepo :=
  mkGitRepo "wp-0123456789ab" "project-1" ∅ None "https://git/x" [] "" "" "" [] None 3
    [mkGCond "Stalled" "True" ""] "".

Definition stuck_world : world := with_gitrepos (Ok [stuck_gitrepo; stale_gitrepo]) empty_world.

Definition stuck_deployment : Deployment := set_status (with_last_resync "then") sample_deployment.

Definition force_sample : kprog (Deployment * option gerror) :=
  forceRedeployStuckApps sample_format sample_parse stuck_deployment.

Lemma force_sync_limited_witness :
  exists lastForceResync now items gr,
    sample_parse "then" = Some lastForceResync /\
    ev Now now ∈ log_of stuck_world force_sample /\ forceResyncInterval <= now - lastForceResync /\
    ev (ListGitRepos "project-1" "deployment-x") (Ok items) ∈ log_of stuck_world force_sample /\
    gr ∈ items /\ stuck gr = true /\ UpdateGitRepo (bump_force_sync stuck_gitrepo) = UpdateGitRepo (bump_force_sync gr).
Proof.
  refine (proj1 (force_sync_limited sample_format sample_parse stuck_deployment
    (result_of stuck_world force_sample).1 (log_of stuck_world force_sample)
    (result_of stuck_world force_sample).2 (log_of_pair stuck_world force_sample))
    (UpdateGitRepo (bump_force_sync stuck_gitrepo)) _ eq_refl).
  exists None. apply (nth_event 2). vm_compute. reflexivity.
Defined.
