(* ===== verification/DCluster.v ===== *)
(** * [controllers/deploymentcluster]: one status object per deployment and cluster

    A DeploymentCluster collects the BundleDeployments of one Deployment on
    one Cluster: how many run, how many are down, with which messages. *)

From S2P Require Import Prelude Prog GoStr Types K8sLib Utils ClusterTypes.

Definition BundleTypeAppString : string := "app".
Definition BundleTypeInitString : string := "init".

(** [ClusterInfo] *)
Record ClusterInfo : Type := mkInfo {
  ci_name : string;
  ci_deployment_id : string;
  ci_cluster_id : string;
  ci_cluster_namespace : string
}.

(** ** Events that trigger a reconcile *)

Inductive watch_event : Type :=
  | CreateEvent
  | DeleteEvent
  | UpdateEvent (old next : StateType)
  | GenericEvent.

Definition deploymentClusterPredicate (e : watch_event) : bool :=
  match e with CreateEvent => true | _ => false end.

(** A Cluster's update matters when it goes to or comes from Unknown. *)
Definition clusterStatePredicate (e : watch_event) : bool :=
  match e with
  | CreateEvent | DeleteEvent => true
  | UpdateEvent old next =>
      negb (bool_decide (old = next)) && (bool_decide (old = Unknown) || bool_decide (next = Unknown))
  | GenericEvent => false
  end.

Definition getNamespacedName (namespace name : string) : string := namespace +:+ "/" +:+ name.

(** ** Status *)

Definition initial_summary : Summary := mkSum AppCounts 0 0 0 0.

Definition initializeStatus (dc : DeploymentCluster) : DeploymentCluster :=
  mkDC (dc_name dc) (dc_namespace dc) (dc_labels dc) (dc_deletion dc) (dc_deployment_id dc)
    (dc_cluster_id dc) (dc_spec_namespace dc)
    (mkDCStatus (dcs_conditions (dc_status dc)) "" (mkSt Running "" initial_summary) "" None []).

Definition set_dc_status (f : DeploymentClusterStatus -> DeploymentClusterStatus)
    (dc : DeploymentCluster) : DeploymentCluster :=
  mkDC (dc_name dc) (dc_namespace dc) (dc_labels dc) (dc_deletion dc) (dc_deployment_id dc)
    (dc_cluster_id dc) (dc_spec_namespace dc) (f (dc_status dc)).

(** The App entry of a BundleDeployment. *)
Definition app_of (bd : BundleDeployment) : App :=
  mkDCApp (GetAppName bd) (GetAppID bd) (GetDeploymentGeneration bd)
    (mkSt (if bool_decide (GetState bd = Running) then Running else Down) (GetMessage bd)
      (mkSum NotUsed 0 0 0 0)).

(** [addDeploymentClusterApp] on the status. *)
Definition addDeploymentClusterApp (bd : BundleDeployment) (st : DeploymentClusterStatus) :
    DeploymentClusterStatus :=
  let app := app_of bd in
  let s := dcs_status st in
  let sm := s_summary s in
  let s' :=
    if bool_decide (s_state (a_status app) = Running) then
      mkSt (s_state s) (s_message s)
        (mkSum (sm_type sm) (sm_total sm + 1) (sm_running sm + 1) (sm_down sm) (sm_unknown sm))
    else
      mkSt Down (AppendMessage (s_message s) (s_message (a_status app)))
        (mkSum (sm_type sm) (sm_total sm + 1) (sm_running sm) (sm_down sm + 1) (sm_unknown sm)) in
  mkDCStatus (dcs_conditions st) (dcs_name st) s' (dcs_display st) (dcs_last_update st)
    (dcs_apps st ++ [app]).

Section DCluster.
Context {L : K8sLib}.
(** [uuid.NewSHA1(uuid.MustParse(id), name)], [None] where [MustParse] panics. *)
Context (uuid_sha1 : string -> string -> option string).

(** The missing label, or the panic of [MustParse]. *)
Definition deploymentClusterInfo (bd : BundleDeployment) : maypanic (res ClusterInfo) :=
  match gmlookup (bd_labels bd) DeploymentID with
  | None => Returns (Err (errorf "deployment ID label not found in BundleDeployment"))
  | Some deplid =>
      match gmlookup (bd_labels bd) FleetClusterID with
      | None => Returns (Err (errorf "cluster ID label not found in BundleDeployment"))
      | Some clusterid =>
          match gmlookup (bd_labels bd) FleetClusterNamespace with
          | None => Returns (Err (errorf "cluster namespace label not found in BundleDeployment"))
          | Some clusternamespace =>
              match uuid_sha1 deplid clusterid with
              | None => Panics
              | Some next => Returns (Ok (mkInfo ("dc-" +:+ next) deplid clusterid clusternamespace))
              end
          end
      end
  end.

(** The BundleDeployments that belong to the DeploymentCluster [name]. *)
Definition belongs (name : string) (bd : BundleDeployment) : maypanic bool :=
  unless_panic (deploymentClusterInfo bd) (fun dci =>
    Returns (match dci with Ok dci => bool_decide (ci_name dci = name) | Err _ => false end)).

(** The walk over the BundleDeployments. *)
Fixpoint walk_bds (name : string) (bds : list BundleDeployment) (st : DeploymentClusterStatus) :
    maypanic DeploymentClusterStatus :=
  match bds with
  | [] => Returns st
  | bd :: bds =>
      unless_panic (belongs name bd) (fun mine =>
        walk_bds name bds (if mine then addDeploymentClusterApp bd st else st))
  end.

(** ** Metrics *)

Definition dc_states : list StateType := [Running; Down; Unknown].

Definition dc_metric_values (state : StateType) : list (StateType * Z) :=
  map (fun s => (s, if bool_decide (s = state) then 1 else 0)) dc_states ++
  (if bool_decide (state ∈ dc_states) then [] else [(state, 1)]).

Definition dc_project (dc : DeploymentCluster) : string := mget (dc_labels dc) AppOrchActiveProjectID.

Definition getDisplayName (projectID deploymentID : string) : cprog (res string) :=
  let! deploymentList := ccall (ListDeploymentsByProject projectID) in
  Ret (match deploymentList with
       | Err e => Err e
       | Ok items =>
           match find_first (fun d => bool_decide (d_uid d = deploymentID)) items with
           | Some d => Ok (sp_display_name (d_spec d))
           | None => Err (errorf "deployment not found")
           end
       end).

Definition possibleDisplayNames (dc : DeploymentCluster) : list string :=
  ["";
   "deleted-deployment-" +:+ stake 8 (dc_deployment_id dc);
   dc_deployment_id dc;
   dcs_name (dc_status dc);
   "unknown";
   "deleted"] ++
  (if bool_decide (dcs_name (dc_status dc) = "") then [] else [dcs_name (dc_status dc)]) ++
  (if bool_decide (dc_cluster_id dc = "") then [] else [dc_cluster_id dc]).

(** [dc.Spec.DeploymentID\[:8\]] panics on a shorter id. *)
Definition updateStatusMetricsOrphaned (dc : DeploymentCluster) (deleteMetrics : bool) :
    cprog (maypanic unit) :=
  if slen (dc_deployment_id dc) <? 8 then Ret Panics
  else if deleteMetrics then
    pfor (possibleDisplayNames dc) (fun displayNameVariant =>
      pfor dc_states (fun i =>
        ccall (UnsetDCMetric (dc_project dc) (dc_deployment_id dc) displayNameVariant (dc_cluster_id dc)
                 (dcs_name (dc_status dc)) i))) ;;;
    ccall (UnsetTimestamps (dc_project dc) (dc_deployment_id dc)) ;;;
    Ret (Returns tt)
  else Ret (Returns tt).

Definition updateStatusMetrics (dc : DeploymentCluster) (deleteMetrics : bool) : cprog (maypanic unit) :=
  let projectID := dc_project dc in
  let deploymentID := dc_deployment_id dc in
  let state := s_state (dcs_status (dc_status dc)) in
  let! displayName := getDisplayName projectID deploymentID in
  match displayName with
  | Err _ => updateStatusMetricsOrphaned dc true
  | Ok displayName =>
      if deleteMetrics then
        pfor dc_states (fun i =>
          ccall (UnsetDCMetric projectID deploymentID displayName (dc_cluster_id dc)
                   (dcs_name (dc_status dc)) i)) ;;;
        Ret (Returns tt)
      else
        pfor (dc_metric_values state) (fun iv =>
          ccall (SetDCMetric projectID deploymentID displayName (dc_cluster_id dc)
                   (dcs_name (dc_status dc)) iv.1 iv.2)) ;;;
        let dcStatusChange := "dc-" +:+ dc_cluster_id dc +:+ "-status-change" in
        ccall (StampTime projectID deploymentID displayName state dcStatusChange) ;;;
        (if bool_decide (state = Running) then
           ccall (StampDifference projectID deploymentID displayName "start" "CreateDeployment"
                    Running dcStatusChange)
         else Ret tt) ;;;
        Ret (Returns tt)
  end.

(** ** Creating and deleting *)

Definition newDeploymentCluster (ns name : string) (dci : ClusterInfo) : DeploymentCluster :=
  mkDC name ns (<[ClusterName := ci_cluster_id dci]> {[DeploymentID := ci_deployment_id dci]}) None
    (ci_deployment_id dci) (ci_cluster_id dci) (ci_cluster_namespace dci)
    (mkDCStatus [] "" (mkSt "" "" (mkSum "" 0 0 0 0)) "" None []).

Definition set_dc_label (k v : string) (dc : DeploymentCluster) : DeploymentCluster :=
  mkDC (dc_name dc) (dc_namespace dc) (<[k := v]> (dc_labels dc)) (dc_deletion dc) (dc_deployment_id dc)
    (dc_cluster_id dc) (dc_spec_namespace dc) (dc_status dc).

(** The first BundleDeployment of the list that belongs to [name]. *)
Fixpoint first_owner (name : string) (bds : list BundleDeployment) :
    maypanic (option (BundleDeployment * ClusterInfo)) :=
  match bds with
  | [] => Returns None
  | bd :: bds =>
      unless_panic (deploymentClusterInfo bd) (fun dci =>
        match dci with
        | Ok dci => if bool_decide (ci_name dci = name) then Returns (Some (bd, dci)) else first_owner name bds
        | Err _ => first_owner name bds
        end)
  end.

Definition createDeploymentCluster (ns name : string) : cprog (maypanic (option gerror)) :=
  let! bdlist := ccall (ListBDsIn ns ∅) in
  match bdlist with
  | Err e => Ret (Returns (Some e))
  | Ok items =>
      match first_owner name items with
      | Panics => Ret Panics
      | Returns None => Ret (Returns None)
      | Returns (Some (bd, dci)) =>
          let dc := newDeploymentCluster ns name dci in
          match gmlookup (bd_labels bd) AppOrchActiveProjectID with
          | None =>
              Ret (Returns (Some (errorf ("cannot create DeploymentCluster " +:+ name +:+
                ": active project ID label not found in BundleDeployment " +:+ bd_name bd))))
          | Some projectID =>
              let dc := set_dc_label AppOrchActiveProjectID projectID dc in
              let! display := getDisplayName projectID (dc_deployment_id dc) in
              let displayName := match display with Ok n => n | Err _ => "" end in
              let dcForDeployment := "dc-" +:+ dc_cluster_id dc in
              ccall (StampTime projectID (dc_deployment_id dc) displayName "start" dcForDeployment) ;;;
              ccall (StampDifference projectID (dc_deployment_id dc) displayName "start" "CreateDeployment"
                       "start" dcForDeployment) ;;;
              let! err := ccall (CreateDC dc) in
              Ret (Returns err)
          end
      end
  end.

Definition deleteDeploymentCluster (dc : DeploymentCluster) : cprog (maypanic (option gerror)) :=
  let! err := ccall (RemoveDC dc) in
  match err with
  | Some e => Ret (Returns (Some e))
  | None => go! _ := updateStatusMetrics dc true in Ret (Returns None)
  end.

(** ** [Reconcile] *)

Definition dc_bd_labels (dc : DeploymentCluster) : gmap string string :=
  <[BundleType := BundleTypeAppString]> {[DeploymentID := mget (dc_labels dc) DeploymentID]}.

Definition with_dc_name (n : string) (st : DeploymentClusterStatus) : DeploymentClusterStatus :=
  mkDCStatus (dcs_conditions st) n (dcs_status st) (dcs_display st) (dcs_last_update st) (dcs_apps st).

Definition with_dc_state (s : StateType) (st : DeploymentClusterStatus) : DeploymentClusterStatus :=
  mkDCStatus (dcs_conditions st) (dcs_name st)
    (mkSt s (s_message (dcs_status st)) (s_summary (dcs_status st)))
    (dcs_display st) (dcs_last_update st) (dcs_apps st).

(** An offline cluster: the counters start over and the state is Unknown. *)
Definition offline (cluster : Cluster) (dc : DeploymentCluster) : DeploymentCluster :=
  if bool_decide (cl_state (cl_status cluster) = Unknown) then
    set_dc_status (fun st => with_dc_state Unknown (with_dc_name (cl_display_name (cl_spec cluster)) st))
      (initializeStatus dc)
  else dc.

(** [condstatus] and [reason]. *)
Definition ready_verdict (cluster : Cluster) (dc : DeploymentCluster) : string * string :=
  if bool_decide (s_state (dcs_status (dc_status dc)) = Running) then (ConditionTrue, "BundleDeploymentsReady")
  else (ConditionFalse, if bool_decide (cl_state (cl_status cluster) = Unknown) then "ClusterStatusUnknown"
                        else "BundleDeploymentsNotReady").

(** The Ready condition, the display and the time. *)
Definition finish_status (verdict : string * string) (now1 now2 : Z) (dc : DeploymentCluster) : DeploymentCluster :=
  set_dc_status (fun st =>
    let sm := s_summary (dcs_status st) in
    mkDCStatus (UpdateStatusCondition now1 (dcs_conditions st) "Ready" verdict.1 verdict.2 None)
      (dcs_name st) (dcs_status st) (itoa (sm_running sm) +:+ "/" +:+ itoa (sm_total sm)) (Some now2)
      (dcs_apps st)) dc.

(** The metrics after the patch: by the state of the parent deployment. *)
Definition publish_metrics (dc : DeploymentCluster) : cprog (maypanic unit) :=
  let! parent := (if bool_decide (dc_project dc = "") then Ret None
    else
      let! deploymentList := ccall (ListDeploymentsByProject (dc_project dc)) in
      Ret (match deploymentList with
           | Ok items => find_first (fun d => bool_decide (d_uid d = dc_deployment_id dc)) items
           | Err _ => None
           end)) in
  match parent with
  | Some d => updateStatusMetrics dc (negb (not_deleting d))
  | None => updateStatusMetricsOrphaned dc true
  end.

(** The part of [Reconcile] after the deletion check. *)
Definition reconcile_live (ns name : string) (before : DeploymentCluster) :
    cprog (maypanic (option gerror)) :=
  let dc := initializeStatus before in
  let! got := ccall (GetCluster (dc_spec_namespace dc) (dc_cluster_id dc)) in
  match got with
  | Err e => if is_not_found e then deleteDeploymentCluster dc else Ret (Returns (Some e))
  | Ok cluster =>
      let dc := set_dc_status (with_dc_name (cl_display_name (cl_spec cluster))) dc in
      let! bdlist := ccall (ListBDsIn ns (dc_bd_labels dc)) in
      match bdlist with
      | Err e => Ret (Returns (Some e))
      | Ok items =>
          match walk_bds name items (dc_status dc) with
          | Panics => Ret Panics
          | Returns st =>
              let dc := set_dc_status (fun _ => st) dc in
              if sm_total (s_summary (dcs_status st)) =? 0 then deleteDeploymentCluster dc
              else
                let dc := offline cluster dc in
                let! now1 := ccall CNow in
                let! now2 := ccall CNow in
                let dc := finish_status (ready_verdict cluster dc) now1 now2 dc in
                let! err := ccall (PatchDCStatus before dc) in
                match err with
                | Some e => Ret (Returns (Some e))
                | None => go! _ := publish_metrics dc in Ret (Returns None)
                end
          end
      end
  end.

Definition Reconcile (ns name : string) : cprog (maypanic (option gerror)) :=
  let! got := ccall (GetDC ns name) in
  match got with
  | Err e => if is_not_found e then createDeploymentCluster ns name else Ret (Returns (Some e))
  | Ok dc =>
      if bool_decide (dc_deletion dc = None) then reconcile_live ns name dc
      else go! _ := updateStatusMetrics dc true in reconcile_live ns name dc
  end.

(** ** Which DeploymentClusters a change concerns *)

Definition triggerReconcileBD (bd : BundleDeployment) : maypanic (list (string * string)) :=
  if bool_decide (gmlookup (bd_labels bd) BundleType = Some BundleTypeInitString) then Returns []
  else unless_panic (deploymentClusterInfo bd) (fun dci =>
    Returns (match dci with Ok dci => [(bd_namespace bd, ci_name dci)] | Err _ => [] end)).

Definition triggerReconcileCluster (cluster : Cluster) : cprog (list (string * string)) :=
  let! dclist := ccall (ListDCsByCluster (getNamespacedName (cl_namespace cluster) (cl_name cluster))) in
  Ret (match dclist with
       | Ok items => map (fun dc => (dc_namespace dc, dc_name dc)) items
       | Err _ => []
       end).
End DCluster.
