(* ===== verification/DClusterFacts.v ===== *)
(** * Correctness of the DeploymentCluster controller *)

From S2P Require Import Prelude Prog GoStr Types K8sLib Utils ClusterTypes Samples ClusterSamples DCluster.

(** ** What the walk computes *)

Definition bd_running (bd : BundleDeployment) : bool := bool_decide (GetState bd = Running).

Definition count_z {A : Type} (p : A -> bool) (l : list A) : Z := zlen (List.filter p l).

Lemma count_z_cons {A : Type} (p : A -> bool) (x : A) (l : list A) :
  count_z p (x :: l) = (if p x then 1 else 0) + count_z p l.
Proof. unfold count_z. simpl. destruct (p x); [rewrite zlen_cons|]; lia. Qed.

Lemma count_z_split {A : Type} (p : A -> bool) (l : list A) :
  count_z p l + count_z (fun x => negb (p x)) l = zlen l.
Proof.
  induction l as [|x l IH]; [done|]. rewrite !count_z_cons, zlen_cons. destruct (p x); simpl; lia.
Qed.

Lemma count_z_nonneg {A : Type} (p : A -> bool) (l : list A) : 0 <= count_z p l.
Proof. apply zlen_nonneg. Qed.

(** The messages of the BundleDeployments that do not run, joined. *)
Definition down_messages (bds : list BundleDeployment) (m : string) : string :=
  fold_left (fun m bd => AppendMessage m (GetMessage bd)) (List.filter (fun bd => negb (bd_running bd)) bds) m.

(** The status after a list of BundleDeployments has been added to [st]. *)
Definition added (bds : list BundleDeployment) (st : DeploymentClusterStatus) : DeploymentClusterStatus :=
  let s := dcs_status st in
  let sm := s_summary s in
  mkDCStatus (dcs_conditions st) (dcs_name st)
    (mkSt (if forallb bd_running bds then s_state s else Down) (down_messages bds (s_message s))
      (mkSum (sm_type sm) (sm_total sm + zlen bds) (sm_running sm + count_z bd_running bds)
        (sm_down sm + count_z (fun bd => negb (bd_running bd)) bds) (sm_unknown sm)))
    (dcs_display st) (dcs_last_update st) (dcs_apps st ++ map app_of bds).

Lemma added_nil st : added [] st = st.
Proof.
  destruct st as [cs n [s m [ty t r d u]] di lu apps]. unfold added. simpl.
  by rewrite app_nil_r, !Z.add_0_r.
Qed.

Lemma added_cons bd bds st : added (bd :: bds) st = added bds (addDeploymentClusterApp bd st).
Proof.
  unfold added, addDeploymentClusterApp. rewrite !count_z_cons, zlen_cons. unfold down_messages, bd_running.
  destruct (bool_decide (GetState bd = Running)) eqn:Hr; simpl; rewrite ?Hr; simpl; rewrite <- app_assoc; simpl;
    f_equal; f_equal; try (f_equal; lia).
  by destruct (forallb _ bds).
Qed.

Section Facts.
Context {L : K8sLib} {HL : K8sLibLaws L}.
Context (uuid_sha1 : string -> string -> option string).

Definition is_mine (name : string) (bd : BundleDeployment) : bool :=
  match belongs uuid_sha1 name bd with Returns b => b | Panics => false end.

(** The BundleDeployments of a DeploymentCluster. *)
Definition mine (name : string) (bds : list BundleDeployment) : list BundleDeployment :=
  List.filter (is_mine name) bds.

Lemma walk_bds_added name bds st st' :
  walk_bds uuid_sha1 name bds st = Returns st' -> st' = added (mine name bds) st.
Proof.
  revert st. induction bds as [|bd bds IH]; intros st; simpl.
  - intros [= <-]. by rewrite added_nil.
  - unfold is_mine at 1. destruct (belongs uuid_sha1 name bd) as [b|]; [|done]. simpl.
    intros H. apply IH in H. destruct b; [|done]. by rewrite added_cons.
Qed.

(** The walk panics only on a deployment id that is not a UUID. *)
Lemma walk_bds_total name bds st :
  (forall bd, bd ∈ bds -> forall id cl, gmlookup (bd_labels bd) DeploymentID = Some id -> is_Some (uuid_sha1 id cl)) ->
  exists st', walk_bds uuid_sha1 name bds st = Returns st'.
Proof.
  revert st. induction bds as [|bd bds IH]; intros st Hok; simpl; [eauto|].
  unfold belongs, deploymentClusterInfo.
  destruct (gmlookup (bd_labels bd) DeploymentID) as [id|] eqn:Hid; simpl.
  - destruct (gmlookup _ FleetClusterID) as [cl|]; simpl; [|apply IH; set_solver].
    destruct (gmlookup _ FleetClusterNamespace); simpl; [|apply IH; set_solver].
    destruct (Hok bd ltac:(left) id cl Hid) as [u ->]. simpl. apply IH. set_solver.
  - apply IH. set_solver.
Qed.

(** C36: The status computed for a DeploymentCluster is the exact sum of its
    BundleDeployments: one app per BundleDeployment that belongs to it, in
    list order and with its own name, id, generation and message; total,
    running and down counts that agree with them and add up, none
    unknown; Running exactly when every one runs; and as message the messages of those that do not
    run, joined. *)
Theorem dc_status_exact (name : string) (dc : DeploymentCluster) (bds : list BundleDeployment)
    (st : DeploymentClusterStatus) :
  walk_bds uuid_sha1 name bds (dc_status (initializeStatus dc)) = Returns st ->
  let own := mine name bds in
  let sm := s_summary (dcs_status st) in
  dcs_apps st = map app_of own /\
  sm_total sm = zlen own /\
  sm_running sm = count_z bd_running own /\
  sm_running sm + sm_down sm = sm_total sm /\ 0 <= sm_running sm /\ 0 <= sm_down sm /\ sm_unknown sm = 0 /\
  (s_state (dcs_status st) = Running <-> forall bd, bd ∈ own -> GetState bd = Running) /\
  s_message (dcs_status st) = down_messages own "" /\
  dcs_conditions st = dcs_conditions (dc_status dc).
Proof.
  intros H. apply walk_bds_added in H as ->. unfold added, initializeStatus. simpl.
  pose proof (count_z_split bd_running (mine name bds)).
  pose proof (count_z_nonneg bd_running (mine name bds)).
  pose proof (count_z_nonneg (fun bd => negb (bd_running bd)) (mine name bds)).
  split_and!; try done; try lia.
  destruct (forallb bd_running (mine name bds)) eqn:Ha.
  - split; [|done]. intros _ bd Hbd. rewrite forallb_forall in Ha.
    apply list_elem_of_In, Ha in Hbd. unfold bd_running in Hbd. by reflect_guards.
  - split; [done|]. intros Hr. exfalso. rewrite <- not_true_iff_false in Ha. apply Ha.
    apply forallb_forall. intros bd Hbd. apply bool_decide_eq_true_2, Hr. by apply list_elem_of_In.
Qed.

(** ** What a reconcile writes *)

Lemma orphaned_events dc b :
  issues (fun e => (exists p i d c n s, e = UnsetDCMetric p i d c n s /\ n = dcs_name (dc_status dc)) \/
                   exists p i, e = UnsetTimestamps p i)
    (updateStatusMetricsOrphaned dc b).
Proof.
  unfold updateStatusMetricsOrphaned. destruct (_ <? _); [done|]. destruct b; [|done].
  apply issues_bind.
  - apply issues_pfor. intros v _. apply issues_pfor. intros s _. split; [|done]. left. eauto 10.
  - intros _. split; [eauto|]. done.
Qed.

(** Deleting metrics: only series under the name the status carries now. *)
Definition unset_event (dc : DeploymentCluster) (e : ceff) : Prop :=
  (exists p i d c s, e = UnsetDCMetric p i d c (dcs_name (dc_status dc)) s) \/
  (exists p i, e = UnsetTimestamps p i) \/ (exists p, e = ListDeploymentsByProject p).

Lemma unset_metrics_events dc : issues (unset_event dc) (updateStatusMetrics dc true).
Proof.
  unfold updateStatusMetrics, unset_event. split; [eauto|]. intros r. cbn [pbind].
  destruct (match r with Ok _ => _ | Err _ => _ end) as [n|e].
  - apply issues_bind; [|done]. apply issues_pfor. intros s _. split; [|done]. left. eauto 10.
  - eapply issues_mono; [|apply (orphaned_events dc true)]. intros e' [H|H]; [|by auto].
    destruct H as (p & i & d & c & n & s & -> & ->). left. eauto 10.
Qed.

Lemma deleteDeploymentCluster_events dc :
  issues (fun e => e = RemoveDC dc \/ unset_event dc e) (deleteDeploymentCluster dc).
Proof.
  split; [by left|]. intros [e|]; [done|]. cbn [pbind].
  apply issues_bind; [|by intros [|]].
  eapply issues_mono; [|apply unset_metrics_events]. auto.
Qed.

(** The metrics published last do not write to the cluster. *)
Definition cluster_write (e : ceff) : bool :=
  match e with
  | CreateDC _ | RemoveDC _ | PatchDCStatus _ _ | CreateCluster _ | DeleteCluster _ | PatchCluster _ _
  | CreateFleetCluster _ | UpdateFleetCluster _ => true
  | _ => false
  end.

Lemma updateStatusMetrics_quiet dc b : issues (fun e => cluster_write e = false) (updateStatusMetrics dc b).
Proof.
  destruct b.
  - eapply issues_mono; [|apply unset_metrics_events].
    intros e [(p & i & d & c & s & ->)|[(p & i & ->)|(p & ->)]]; done.
  - unfold updateStatusMetrics. split; [done|]. intros r. cbn [pbind].
    destruct (match r with Ok _ => _ | Err _ => _ end) as [n|e].
    + apply issues_bind; [by apply issues_pfor|]. intros _.
      split; [done|]. intros u. cbn [pbind]. destruct (bool_decide _); simpl; done.
    + eapply issues_mono; [|apply (orphaned_events dc true)].
      intros e' [(p & i & d & c & n & s & -> & _)|(p & i & ->)]; done.
Qed.

Lemma publish_metrics_quiet dc : issues (fun e => cluster_write e = false) (publish_metrics dc).
Proof.
  unfold publish_metrics.
  assert (forall o : option Deployment, issues (fun e => cluster_write e = false)
    match o with Some d => updateStatusMetrics dc (negb (not_deleting d))
               | None => updateStatusMetricsOrphaned dc true end) as Hmain.
  { intros [d|]; [apply updateStatusMetrics_quiet|].
    eapply issues_mono; [|apply (orphaned_events dc true)].
    intros e' [(p & i & d & c & n & s & -> & _)|(p & i & ->)]; done. }
  case_bool_decide; cbn [pbind]; [apply (Hmain None)|]. split; [done|]. intros r. apply Hmain.
Qed.

Lemma ready_condition now cs status reason :
  NoDup (map c_type cs) ->
  is_status_condition_true (UpdateStatusCondition now cs "Ready" status reason None) "Ready" =
    bool_decide (status = ConditionTrue).
Proof.
  intros Hnd. pose proof (update_condition_NoDup now "Ready" status reason None cs Hnd) as Hnd'.
  destruct (update_condition_present now "Ready" status reason None cs) as (time & Hf).
  apply find_first_Some in Hf as [Hin _].
  unfold is_status_condition_true. destruct (find_status_condition _ _) as [c|] eqn:Hc.
  - apply find_status_condition_Some in Hc as [Hc Ht].
    assert (c = mkCond "Ready" status time reason (MessageFromError None)) as ->; [|done].
    apply list_elem_of_lookup_1 in Hc as (i & Hi). apply list_elem_of_lookup_1 in Hin as (j & Hj).
    assert (i = j) as ->; [|congruence].
    eapply NoDup_lookup; [exact Hnd'| |]; rewrite list_lookup_fmap.
    + by rewrite Hi; simpl; rewrite Ht.
    + by rewrite Hj.
  - by destruct (find_status_condition_None _ _ Hc _ Hin).
Qed.

(** The status written for a cluster and the walk's result. *)
Definition written (before : DeploymentCluster) (cluster : Cluster) (st : DeploymentClusterStatus)
    (now1 now2 : Z) : DeploymentCluster :=
  let dc := offline cluster (set_dc_status (fun _ => st)
    (set_dc_status (with_dc_name (cl_display_name (cl_spec cluster))) (initializeStatus before))) in
  finish_status (ready_verdict cluster dc) now1 now2 dc.

Lemma publish_no_patch dc err t r b' after :
  traces (match err with
          | Some e => Ret (Returns (Some e))
          | None => go! _ := publish_metrics dc in Ret (Returns None)
          end : cprog (maypanic (option gerror))) t r ->
  ~ requested t (PatchDCStatus b' after).
Proof.
  destruct err as [e|]; [intros [-> _] Hr; by apply requested_nil in Hr|].
  intros H Hr. apply traces_bind in H as (t6 & t7 & u & -> & H1 & H2). apply requested_app in Hr as [Hr|Hr].
  - discriminate (requested_traces _ _ _ _ _ (publish_metrics_quiet _) H1 Hr).
  - destruct u; destruct H2 as [-> _]; by apply requested_nil in Hr.
Qed.

Lemma delete_no_patch dc t r b' after :
  traces (deleteDeploymentCluster dc) t r -> ~ requested t (PatchDCStatus b' after).
Proof.
  intros Ht Hr.
  destruct (requested_traces _ _ _ _ _ (deleteDeploymentCluster_events dc) Ht Hr)
    as [[=]|[(p & i & d & c & s & [=])|[(p & i & [=])|(p & [=])]]].
Qed.

(** A reconcile that patches: what it patches, and what comes before and after. *)
Lemma reconcile_live_patch ns name before b' after t r :
  traces (reconcile_live uuid_sha1 ns name before) t r ->
  requested t (PatchDCStatus b' after) ->
  b' = before /\
  exists cluster items now1 now2 err t2,
    let st := with_dc_name (cl_display_name (cl_spec cluster)) (dc_status (initializeStatus before)) in
    t = [ev (GetCluster (dc_spec_namespace before) (dc_cluster_id before)) (Ok cluster);
         ev (ListBDsIn ns (dc_bd_labels before)) (Ok items); ev CNow now1; ev CNow now2;
         ev (PatchDCStatus before after) err] ++ t2 /\
    sm_total (s_summary (dcs_status (added (mine name items) st))) <> 0 /\
    after = written before cluster (added (mine name items) st) now1 now2 /\
    (forall b a, ~ requested t2 (PatchDCStatus b a)) /\
    (err = None -> exists t3 t4 u, t2 = t3 ++ t4 /\ traces (publish_metrics after) t3 u).
Proof.
  intros H Hreq. unfold reconcile_live in H.
  destruct H as (got & t1 & -> & H). apply requested_cons in Hreq as [[=]|Hreq]. cbn [pbind] in H.
  destruct got as [cluster|e].
  2: { destruct (is_not_found e); [destruct (delete_no_patch _ _ _ _ _ H Hreq)|]. destruct H as [-> _]. by apply requested_nil in Hreq. }
  destruct H as (bdlist & t2 & -> & H). apply requested_cons in Hreq as [[=]|Hreq]. cbn [pbind] in H.
  destruct bdlist as [items|e]; [|destruct H as [-> _]; by apply requested_nil in Hreq].
  destruct (walk_bds _ _ _ _) as [st|] eqn:Hw; [|destruct H as [-> _]; by apply requested_nil in Hreq].
  apply walk_bds_added in Hw.
  destruct (Z.eqb_spec (sm_total (s_summary (dcs_status st))) 0) as [|Htot]; [destruct (delete_no_patch _ _ _ _ _ H Hreq)|].
  destruct H as (now1 & t3 & -> & now2 & t4 & -> & err & t5 & -> & H). cbn [pbind] in H.
  do 2 (apply requested_cons in Hreq as [[=]|Hreq]).
  apply requested_cons in Hreq as [Heq|Hreq]; [|destruct (publish_no_patch _ _ _ _ _ _ H Hreq)].
  cbn [projT1 ev] in Heq. injection Heq as <- <-. split; [done|].
  rewrite Hw in *. exists cluster, items, now1, now2, err, t5. split; [done|]. split; [done|].
  split; [done|]. split; [intros b a; by eapply publish_no_patch|].
  intros ->. apply traces_bind in H as (t6 & t7 & u & -> & H1 & H2). eauto.
Qed.

(** C35: Every status a reconcile writes is right about readiness: the only patch it sends
    starts from the object it was given, and in the patched status the
    condition Ready is True exactly when the state is Running, which is
    exactly when the cluster is reachable, at least one
    BundleDeployment belongs to the DeploymentCluster and all of them run; the display
    is "running/total"; and an unreachable cluster counts nothing and is
    Unknown. *)
Theorem dc_patch_exact (ns name : string) (before after b' : DeploymentCluster) (t : list cevent)
    (r : maypanic (option gerror)) :
  traces (reconcile_live uuid_sha1 ns name before) t r ->
  requested t (PatchDCStatus b' after) ->
  NoDup (map c_type (dcs_conditions (dc_status before))) ->
  b' = before /\
  exists cluster items,
    ev (GetCluster (dc_spec_namespace before) (dc_cluster_id before)) (Ok cluster) ∈ t /\
    ev (ListBDsIn ns (dc_bd_labels before)) (Ok items) ∈ t /\
    let own := mine name items in
    let st := dc_status after in
    let reachable := bool_decide (cl_state (cl_status cluster) <> Unknown) in
    (is_status_condition_true (dcs_conditions st) "Ready" = true <-> s_state (dcs_status st) = Running) /\
    (s_state (dcs_status st) = Running <->
       reachable = true /\ own <> [] /\ forall bd, bd ∈ own -> GetState bd = Running) /\
    dcs_display st = itoa (sm_running (s_summary (dcs_status st))) +:+ "/" +:+ itoa (sm_total (s_summary (dcs_status st))) /\
    dcs_name st = cl_display_name (cl_spec cluster) /\
    (reachable = false -> s_state (dcs_status st) = Unknown /\ sm_total (s_summary (dcs_status st)) = 0).
Proof.
  intros H Hreq Hnd.
  apply (reconcile_live_patch _ _ _ _ _ _ _ H) in Hreq
    as (-> & cluster & items & now1 & now2 & err & t2 & -> & Htot & -> & _).
  split; [done|]. exists cluster, items. split; [left|]. split; [right; left|].
  unfold written, offline, ready_verdict. destruct (decide (cl_state (cl_status cluster) = Unknown)) as [Hu|Hu].
  - rewrite !(bool_decide_true (_ = Unknown)) by done. rewrite (bool_decide_false (_ <> Unknown)) by naive_solver.
    simpl. rewrite ready_condition by done.
    split_and!; [split; done|split; [done|by intros (? & _)]|done|done|done].
  - rewrite !(bool_decide_false (_ = Unknown)) by done. rewrite (bool_decide_true (_ <> Unknown)) by done.
    simpl in Htot |- *. rewrite ready_condition by done.
    destruct (forallb bd_running (mine name items)) eqn:Ha; simpl; split_and!; try done.
    + split; [|done]. intros _. split; [done|]. split; [intros Hn; by rewrite Hn in Htot|].
      intros bd Hbd. rewrite forallb_forall in Ha. apply list_elem_of_In, Ha in Hbd.
      unfold bd_running in Hbd. by reflect_guards.
    + split; [done|]. intros (_ & _ & Hr). exfalso.
      rewrite <- not_true_iff_false in Ha. apply Ha. apply forallb_forall. intros bd Hbd.
      apply bool_decide_eq_true_2, Hr. by apply list_elem_of_In.
Qed.

(** When the Cluster is gone the DeploymentCluster is deleted, but its
    metrics are not: the status has been reset before the lookup, so whatever
    name the cluster had, every series the pass removes is one with an
    empty cluster name. *)
Theorem gone_cluster_metrics_kept (ns name : string) (dc : DeploymentCluster) (t : list cevent)
    (r : maypanic (option gerror)) (e : gerror) :
  traces (reconcile_live uuid_sha1 ns name dc)
    (ev (GetCluster (dc_spec_namespace dc) (dc_cluster_id dc)) (Err e) :: t) r ->
  is_not_found e = true ->
  requested t (RemoveDC (initializeStatus dc)) /\
  forall project id display cluster cname state,
    requested t (UnsetDCMetric project id display cluster cname state) -> cname = "".
Proof.
  unfold reconcile_live. intros H Hnf. apply traces_vis_inv in H. cbn [pbind] in H. rewrite Hnf in H. split.
  - destruct H as (err & t' & -> & _). apply requested_cons. by left.
  - intros p i d c n s Hr.
    destruct (requested_traces _ _ _ _ _ (deleteDeploymentCluster_events _) H Hr)
      as [[=]|[(p' & i' & d' & c' & s' & Heq)|[(p' & i' & [=])|(p' & [=])]]].
    by injection Heq.
Qed.

(** The parent the metrics are published for. *)
Definition parent_of (dc : DeploymentCluster) (items : list Deployment) : option Deployment :=
  find_first (fun d => bool_decide (d_uid d = dc_deployment_id dc)) items.

Definition live_parent (dc : DeploymentCluster) (t : list cevent) : Prop :=
  forall answer, ev (ListDeploymentsByProject (dc_project dc)) answer ∈ t ->
    exists items d, answer = Ok items /\ parent_of dc items = Some d /\ not_deleting d = true.

Lemma publish_live dc t r :
  dc_project dc <> "" -> live_parent dc t ->
  traces (publish_metrics dc) t r ->
  exists display, forall s v, (s, v) ∈ dc_metric_values (s_state (dcs_status (dc_status dc))) ->
    requested t (SetDCMetric (dc_project dc) (dc_deployment_id dc) display (dc_cluster_id dc)
                   (dcs_name (dc_status dc)) s v).
Proof.
  intros Hp Hlive. unfold publish_metrics. rewrite bool_decide_false by done.
  intros (ans & t1 & -> & H). cbn [pbind] in H.
  destruct (Hlive ans ltac:(left)) as (items & d & -> & Hd & Hnd). unfold parent_of in Hd. rewrite Hd in H.
  rewrite Hnd in H. cbn [negb] in H. unfold updateStatusMetrics, getDisplayName in H.
  destruct H as (ans2 & t2 & -> & H). cbn [pbind] in H.
  destruct (Hlive ans2 ltac:(right; left)) as (items2 & d2 & -> & Hd2 & _). unfold parent_of in Hd2.
  rewrite Hd2 in H. cbn iota in H. exists (sp_display_name (d_spec d2)). intros s v Hsv.
  split_trace H t3 t4 u H1. rewrite !requested_cons, requested_app. do 2 right. left.
  clear H Hlive. revert t3 H1. induction (dc_metric_values _) as [|x l IH]; intros t3 H1.
  - by apply elem_of_nil in Hsv.
  - destruct H1 as (r1 & t5 & -> & H1). apply requested_cons.
    apply elem_of_cons in Hsv as [<-|Hsv]; [by left|right; by apply IH].
Qed.

Lemma live_parent_sub dc t t' : t' ⊆ t -> live_parent dc t -> live_parent dc t'.
Proof. intros Hs H answer Ha. apply H. by apply Hs. Qed.

(** A DeploymentCluster that is being deleted does not stay clean.  A pass
    over it first removes its metrics, then goes on as usual: if the status
    patch is accepted and the parent deployment is live, all of its series are
    published again before the pass returns. *)
Theorem deleting_dc_republished (ns name : string) (dc after : DeploymentCluster) (t : list cevent)
    (r : maypanic (option gerror)) :
  traces (Reconcile uuid_sha1 ns name) (ev (GetDC ns name) (Ok dc) :: t) r ->
  dc_deletion dc <> None ->
  ev (PatchDCStatus dc after) None ∈ t ->
  dc_project dc <> "" -> live_parent dc t ->
  exists display, forall s v, (s, v) ∈ dc_metric_values (s_state (dcs_status (dc_status after))) ->
    requested t (SetDCMetric (dc_project dc) (dc_deployment_id dc) display (dc_cluster_id dc)
                   (dcs_name (dc_status after)) s v).
Proof.
  intros H Hdel Hpatch Hp Hlive. unfold Reconcile in H. apply traces_vis_inv in H. cbn [pbind] in H.
  rewrite bool_decide_false in H by done.
  apply traces_bind in H as (t1 & t2 & u & -> & H1 & H2).
  assert (~ requested t1 (PatchDCStatus dc after)) as Hn.
  { intros Hr. discriminate (requested_traces _ _ _ _ _ (updateStatusMetrics_quiet dc true) H1 Hr). }
  destruct u as [[]|].
  2: { destruct H2 as [-> _]. rewrite app_nil_r in Hpatch. by destruct Hn; exists None. }
  apply elem_of_app in Hpatch as [Hpatch|Hpatch]; [by destruct Hn; exists None|].
  assert (requested t2 (PatchDCStatus dc after)) as Hreq by (by exists None).
  apply (reconcile_live_patch _ _ _ _ _ _ _ H2) in Hreq
    as (_ & cluster & items & now1 & now2 & err & t3 & -> & _ & Hafter & Hno & Hpub).
  assert (dc_project after = dc_project dc /\ dc_deployment_id after = dc_deployment_id dc /\
          dc_cluster_id after = dc_cluster_id dc) as (Hpr & Hid & Hcl).
  { rewrite Hafter. unfold written, offline. by destruct (bool_decide _). }
  assert (err = None) as ->.
  { clear Hlive Hpub Hafter H2. rewrite elem_of_app in Hpatch.
    destruct Hpatch as [Hpatch|Hpatch]; [|destruct (Hno dc after (ex_intro _ None Hpatch))].
    which_event Hpatch. exact (eq_sym Hpatch). }
  destruct (Hpub eq_refl) as (t4 & t5 & u & -> & H3).
  apply publish_live in H3 as (display & Hset); [|by rewrite Hpr|].
  - exists display. intros s v Hsv. specialize (Hset s v Hsv). rewrite Hpr, Hid, Hcl in Hset.
    rewrite !requested_app. auto.
  - assert (live_parent dc t4) as Hl by (eapply live_parent_sub; [|exact Hlive]; intros x Hx; rewrite !elem_of_app; auto).
    intros answer Ha. rewrite Hpr in Ha. destruct (Hl answer Ha) as (its & d & ? & Hd & ?).
    exists its, d. unfold parent_of in *. by rewrite Hid.
Qed.

(** *** Creation *)

Lemma first_owner_Some name bds bd dci :
  first_owner uuid_sha1 name bds = Returns (Some (bd, dci)) ->
  bd ∈ bds /\ deploymentClusterInfo uuid_sha1 bd = Returns (Ok dci) /\ ci_name dci = name.
Proof.
  induction bds as [|b bds IH]; simpl; [done|].
  destruct (deploymentClusterInfo uuid_sha1 b) as [[d|e]|] eqn:Hd; simpl; [| |done].
  - case_bool_decide as Hn.
    + intros [= -> ->]. split; [left|done].
    + intros H. destruct (IH H) as (? & ? & ?). split; [by right|done].
  - intros H. destruct (IH H) as (? & ? & ?). split; [by right|done].
Qed.

Lemma first_owner_None name bds bd :
  first_owner uuid_sha1 name bds = Returns None -> bd ∈ bds -> is_mine name bd = false.
Proof.
  induction bds as [|b bds IH]; simpl; [intros _ H; by apply elem_of_nil in H|].
  unfold is_mine, belongs. destruct (deploymentClusterInfo uuid_sha1 b) as [[d|e]|] eqn:Hd; simpl; [| |done].
  - case_bool_decide as Hn; [done|]. intros H [->|Hbd]%elem_of_cons; [|by apply IH].
    rewrite Hd. simpl. by rewrite bool_decide_false.
  - intros H [->|Hbd]%elem_of_cons; [by rewrite Hd|by apply IH].
Qed.

(** The event of a BundleDeployment and the creation it leads to agree.
    If a BundleDeployment asks for the DeploymentCluster [(ns, name)] and is
    listed in the namespace, the creating pass that reports no error has created exactly
    that object: its name and namespace are the ones asked for, its deployment
    and cluster are those of a listed BundleDeployment that belongs to it,
    its labels repeat them and carry the project. *)
Theorem create_matches_trigger (ns name : string) (bd : BundleDeployment) (t : list cevent) (items : list BundleDeployment) :
  triggerReconcileBD uuid_sha1 bd = Returns [(ns, name)] ->
  traces (createDeploymentCluster uuid_sha1 ns name) (ev (ListBDsIn ns ∅) (Ok items) :: t) (Returns None) ->
  bd ∈ items ->
  exists owner info project,
    owner ∈ items /\ deploymentClusterInfo uuid_sha1 owner = Returns (Ok info) /\ ci_name info = name /\
    gmlookup (bd_labels owner) AppOrchActiveProjectID = Some project /\
    let dc := set_dc_label AppOrchActiveProjectID project (newDeploymentCluster ns name info) in
    ev (CreateDC dc) None ∈ t /\
    dc_name dc = name /\ dc_namespace dc = ns /\
    dc_labels dc !! DeploymentID = Some (dc_deployment_id dc) /\
    dc_labels dc !! ClusterName = Some (dc_cluster_id dc) /\ dc_project dc = project.
Proof.
  intros Htrig H Hbd. unfold createDeploymentCluster in H. apply traces_vis_inv in H. cbn [pbind] in H.
  assert (is_mine name bd = true) as Hmine.
  { unfold triggerReconcileBD in Htrig. case_bool_decide; [done|]. unfold is_mine, belongs.
    destruct (deploymentClusterInfo uuid_sha1 bd) as [[d|e]|]; simpl in *; try done.
    injection Htrig as _ ->. by rewrite bool_decide_true. }
  destruct (first_owner uuid_sha1 name items) as [[[owner info]|]|] eqn:Hfo; [|
    by rewrite (first_owner_None name items bd Hfo Hbd) in Hmine|by destruct H as [_ [=]]].
  apply first_owner_Some in Hfo as (Hin & Hinfo & Hname).
  destruct (gmlookup (bd_labels owner) AppOrchActiveProjectID) as [project|] eqn:Hp; [|by destruct H as [_ [=]]].
  exists owner, info, project. cbv zeta. split_and!; try done.
  - apply traces_bind in H as (t1 & t2 & display & -> & _ & H).
    destruct H as (r1 & t3 & -> & r2 & t4 & -> & err & t5 & -> & [-> [= <-]]).
    apply elem_of_app. right. do 2 right. left.
Qed.

(** A DeploymentCluster without BundleDeployments does not survive a
    pass: when the cluster exists and the list is read, nothing of the list
    belongs to it exactly when the pass asks to delete it, and
    then its status is not patched. *)
Theorem empty_dc_deleted (ns name : string) (dc : DeploymentCluster) (t : list cevent)
    (cluster : Cluster) (items : list BundleDeployment) (r : option gerror) :
  traces (reconcile_live uuid_sha1 ns name dc)
    (ev (GetCluster (dc_spec_namespace dc) (dc_cluster_id dc)) (Ok cluster) ::
     ev (ListBDsIn ns (dc_bd_labels dc)) (Ok items) :: t) (Returns r) ->
  (mine name items = [] -> exists dc', requested t (RemoveDC dc') /\ dc_name dc' = dc_name dc /\
     dc_namespace dc' = dc_namespace dc /\ forall b a, ~ requested t (PatchDCStatus b a)) /\
  (mine name items <> [] -> (forall dc', ~ requested t (RemoveDC dc')) /\
     exists after, requested t (PatchDCStatus dc after)).
Proof.
  unfold reconcile_live. intros H. apply traces_vis_inv in H. cbn [pbind] in H.
  apply traces_vis_inv in H. cbn [pbind] in H.
  destruct (walk_bds _ _ _ _) as [st|] eqn:Hw; [|by destruct H as [_ [=]]].
  apply walk_bds_added in Hw.
  assert (sm_total (s_summary (dcs_status st)) = zlen (mine name items)) as Htot by (by rewrite Hw).
  rewrite Htot in H. split.
  - intros Hm. rewrite Hm in H. simpl in H.
    exists (set_dc_status (fun _ => st)
      (set_dc_status (with_dc_name (cl_display_name (cl_spec cluster))) (initializeStatus dc))).
    split; [|split; [done|split; [done|intros b a; exact (delete_no_patch _ _ _ b a H)]]].
    destruct H as (err & t' & -> & _). apply requested_cons. left. reflexivity.
  - intros Hm. destruct (Z.eqb_spec (zlen (mine name items)) 0) as [He|_].
    { by destruct Hm; apply zlen_nil_inv. }
    destruct H as (now1 & t3 & -> & now2 & t4 & -> & err & t5 & -> & H). cbn [pbind] in H. split.
    + intros dc' Hr. do 3 (apply requested_cons in Hr as [[=]|Hr]).
      destruct err as [e|]; [destruct H as [-> _]; by apply requested_nil in Hr|].
      apply traces_bind in H as (t6 & t7 & u & -> & H1 & H2). apply requested_app in Hr as [Hr|Hr].
      * discriminate (requested_traces _ _ _ _ _ (publish_metrics_quiet _) H1 Hr).
      * destruct u; destruct H2 as [-> _]; by apply requested_nil in Hr.
    + eexists. do 2 (apply requested_cons; right). apply requested_cons. left. reflexivity.
Qed.
End Facts.

(** ** Witnesses *)

(** A UUID library that accepts ids of at least eight bytes. *)
Definition sample_sha1 (id cl : string) : option string :=
  if slen id <? 8 then None else Some (id +:+ "+" +:+ cl).

Definition bd_labels_of (cl : string) : gomap :=
  Some (<[DeploymentID := "0123456789ab"]> (<[FleetClusterID := cl]>
    (<[FleetClusterNamespace := "project-1"]> {[AppOrchActiveProjectID := "project-1"]}))).

Definition running_bd (cl : string) : BundleDeployment :=
  mkBD "b-1" "cluster-a-ns" (bd_labels_of cl) None "s1" [mkGCond "Ready" "True" ""] true true "s1" "Ready".

Definition failing_bd (cl : string) : BundleDeployment :=
  mkBD "b-2" "cluster-a-ns" (bd_labels_of cl) None "s1" [mkGCond "Ready" "False" "no image"] false true "s1" "".

Definition dc_a : string := "dc-0123456789ab+cluster-a".

Definition tracked_dc : DeploymentCluster :=
  mkDC dc_a "cluster-a-ns" {[DeploymentID := "0123456789ab"; AppOrchActiveProjectID := "project-1"]} None
    "0123456789ab" "cluster-a" "project-1" (mkDCStatus [] "Edge A" (mkSt Running "" initial_summary) "" None []).

Definition dying_dc : DeploymentCluster :=
  mkDC dc_a "cluster-a-ns" (dc_labels tracked_dc) (Some 5) "0123456789ab" "cluster-a" "project-1" (dc_status tracked_dc).

Definition two_bds : list BundleDeployment := [running_bd "cluster-a"; running_bd "cluster-b"; failing_bd "cluster-a"].

Definition dc_world (c : res Cluster) (bds : list BundleDeployment) : cworld :=
  mkCWorld 10 (Ok dying_dc) c (Err (mkErr KNotFound "")) (Err (mkErr KNotFound "")) (Ok bds) (Ok [sample_deployment]).

Definition up_world : cworld := dc_world (Ok (sample_cluster Running)) two_bds.

Definition walked : DeploymentClusterStatus :=
  match walk_bds sample_sha1 dc_a two_bds (dc_status (initializeStatus tracked_dc)) with
  | Returns st => st
  | Panics => dc_status tracked_dc
  end.

Lemma dc_status_exact_witness :
  sm_total (s_summary (dcs_status walked)) = 2 /\
  dcs_apps walked = map app_of (mine sample_sha1 dc_a two_bds).
Proof.
  split; [vm_compute; reflexivity|].
  refine (proj1 (dc_status_exact sample_sha1 dc_a tracked_dc two_bds walked _)).
  vm_compute. reflexivity.
Defined.

Definition live_run : cprog (maypanic (option gerror)) :=
  reconcile_live sample_sha1 "cluster-a-ns" dc_a tracked_dc.

(** The status patched for the two BundleDeployments. *)
Definition patched_dc : DeploymentCluster :=
  written tracked_dc (sample_cluster Running)
    (added (mine sample_sha1 dc_a two_bds)
       (with_dc_name "Edge A" (dc_status (initializeStatus tracked_dc)))) 10 10.

Lemma live_run_patches : requested (clog up_world live_run) (PatchDCStatus tracked_dc patched_dc).
Proof. exists None. apply (nth_event 4). vm_compute. reflexivity. Qed.

Lemma dc_patch_exact_witness :
  is_status_condition_true (dcs_conditions (dc_status patched_dc)) "Ready" = false /\
  tracked_dc = tracked_dc /\
  exists cluster items,
    ev (GetCluster "project-1" "cluster-a") (Ok cluster) ∈ clog up_world live_run /\
    ev (ListBDsIn "cluster-a-ns" (dc_bd_labels tracked_dc)) (Ok items) ∈ clog up_world live_run /\
    let own := mine sample_sha1 dc_a items in
    let st := dc_status patched_dc in
    let reachable := bool_decide (cl_state (cl_status cluster) <> Unknown) in
    (is_status_condition_true (dcs_conditions st) "Ready" = true <-> s_state (dcs_status st) = Running) /\
    (s_state (dcs_status st) = Running <->
       reachable = true /\ own <> [] /\ forall bd, bd ∈ own -> GetState bd = Running) /\
    dcs_display st = itoa (sm_running (s_summary (dcs_status st))) +:+ "/" +:+ itoa (sm_total (s_summary (dcs_status st))) /\
    dcs_name st = cl_display_name (cl_spec cluster) /\
    (reachable = false -> s_state (dcs_status st) = Unknown /\ sm_total (s_summary (dcs_status st)) = 0).
Proof.
  split; [vm_compute; reflexivity|].
  apply (dc_patch_exact sample_sha1 "cluster-a-ns" dc_a tracked_dc patched_dc tracked_dc
    (clog up_world live_run) (cresult_of up_world live_run) (clog_traces up_world live_run)).
  - exact live_run_patches.
  - apply NoDup_nil_2.
Defined.

(** The Cluster is gone; the DeploymentCluster was known as "Edge A". *)
Definition gone_cluster_world : cworld := dc_world (Err (mkErr KNotFound "gone")) two_bds.

Definition gone_rest : list cevent := drop 1 (clog gone_cluster_world live_run).

Lemma gone_log : clog gone_cluster_world live_run =
  ev (GetCluster (dc_spec_namespace tracked_dc) (dc_cluster_id tracked_dc)) (Err (mkErr KNotFound "gone")) :: gone_rest.
Proof. vm_compute. reflexivity. Qed.

Lemma gone_cluster_metrics_kept_witness :
  dcs_name (dc_status tracked_dc) = "Edge A" /\
  requested gone_rest (UnsetDCMetric "project-1" "0123456789ab" "blog" "cluster-a" "" Running) /\
  requested gone_rest (RemoveDC (initializeStatus tracked_dc)) /\
  forall project id display cluster cname state,
    requested gone_rest (UnsetDCMetric project id display cluster cname state) -> cname = "".
Proof.
  split; [reflexivity|]. split; [exists tt; apply (nth_event 2); vm_compute; reflexivity|].
  apply (gone_cluster_metrics_kept sample_sha1 "cluster-a-ns" dc_a tracked_dc gone_rest
    (cresult_of gone_cluster_world live_run) (mkErr KNotFound "gone")).
  - rewrite <- gone_log. apply clog_traces.
  - reflexivity.
Defined.

Definition dying_run : cprog (maypanic (option gerror)) := Reconcile sample_sha1 "cluster-a-ns" dc_a.
Definition dying_rest : list cevent := drop 1 (clog up_world dying_run).

Definition patched_dying : DeploymentCluster :=
  written dying_dc (sample_cluster Running)
    (added (mine sample_sha1 dc_a two_bds)
       (with_dc_name "Edge A" (dc_status (initializeStatus dying_dc)))) 10 10.

(** The deployment is the parent of the DeploymentCluster. *)
Lemma clog_deployments {A : Type} (w : cworld) (p : cprog A) project answer :
  ev (ListDeploymentsByProject project) answer ∈ clog w p -> answer = cw_deployments w.
Proof.
  unfold clog. induction p as [a|e k IH]; simpl.
  - intros H. by apply elem_of_nil in H.
  - specialize (IH (canswer w e)). destruct (run_log cenv w (k (canswer w e))) as [[a w'] t]. simpl in *.
    intros [H|H]%elem_of_cons; [|by apply IH].
    pose proof (f_equal (@projT1 _ _) H) as He. simpl in He. subst e. by apply ev_inj in H.
Qed.

Lemma drop_log {A : Type} (w : cworld) (p : cprog A) (n : nat) x : x ∈ drop n (clog w p) -> x ∈ clog w p.
Proof. intros H. rewrite <- (take_drop n (clog w p)). apply elem_of_app. by right. Qed.

Lemma dying_log : clog up_world dying_run =
  ev (GetDC "cluster-a-ns" dc_a) (Ok dying_dc) :: dying_rest.
Proof. vm_compute. reflexivity. Qed.

Lemma deleting_dc_republished_witness :
  exists display, forall s v, (s, v) ∈ dc_metric_values Down ->
    requested dying_rest (SetDCMetric "project-1" "0123456789ab" display "cluster-a" "Edge A" s v).
Proof.
  apply (deleting_dc_republished sample_sha1 "cluster-a-ns" dc_a dying_dc patched_dying dying_rest
    (cresult_of up_world dying_run)).
  - rewrite <- dying_log. apply clog_traces.
  - discriminate.
  - apply (nth_event 8). vm_compute. reflexivity.
  - discriminate.
  - intros answer Ha. apply drop_log, clog_deployments in Ha as ->.
    exists [sample_deployment], sample_deployment. split_and!; reflexivity.
Defined.

Definition create_run : cprog (maypanic (option gerror)) :=
  createDeploymentCluster sample_sha1 "cluster-a-ns" dc_a.

Lemma create_log : clog up_world create_run =
  ev (ListBDsIn "cluster-a-ns" ∅) (Ok two_bds) :: drop 1 (clog up_world create_run).
Proof. vm_compute. reflexivity. Qed.

Lemma create_returns : cresult_of up_world create_run = Returns None.
Proof. vm_compute. reflexivity. Qed.

Lemma create_matches_trigger_witness :
  exists owner info project,
    owner ∈ two_bds /\ deploymentClusterInfo sample_sha1 owner = Returns (Ok info) /\ ci_name info = dc_a /\
    gmlookup (bd_labels owner) AppOrchActiveProjectID = Some project /\
    let dc := set_dc_label AppOrchActiveProjectID project (newDeploymentCluster "cluster-a-ns" dc_a info) in
    ev (CreateDC dc) None ∈ drop 1 (clog up_world create_run) /\
    dc_name dc = dc_a /\ dc_namespace dc = "cluster-a-ns" /\
    dc_labels dc !! DeploymentID = Some (dc_deployment_id dc) /\
    dc_labels dc !! ClusterName = Some (dc_cluster_id dc) /\ dc_project dc = project.
Proof.
  apply (create_matches_trigger sample_sha1 "cluster-a-ns" dc_a (failing_bd "cluster-a")
    (drop 1 (clog up_world create_run)) two_bds).
  - vm_compute. reflexivity.
  - rewrite <- create_log. exact (clog_result _ _ _ create_returns).
  - do 2 right. left.
Defined.

Definition only_other : cworld := dc_world (Ok (sample_cluster Running)) [running_bd "cluster-b"].

Lemma other_log : clog only_other live_run =
  ev (GetCluster (dc_spec_namespace tracked_dc) (dc_cluster_id tracked_dc)) (Ok (sample_cluster Running)) ::
  ev (ListBDsIn "cluster-a-ns" (dc_bd_labels tracked_dc)) (Ok [running_bd "cluster-b"]) ::
  drop 2 (clog only_other live_run).
Proof. vm_compute. reflexivity. Qed.

Lemma other_returns : cresult_of only_other live_run = Returns None.
Proof. vm_compute. reflexivity. Qed.

Lemma empty_dc_deleted_witness :
  exists dc', requested (drop 2 (clog only_other live_run)) (RemoveDC dc') /\ dc_name dc' = dc_a /\
    dc_namespace dc' = "cluster-a-ns" /\ forall b a, ~ requested (drop 2 (clog only_other live_run)) (PatchDCStatus b a).
Proof.
  refine (proj1 (empty_dc_deleted sample_sha1 "cluster-a-ns" dc_a tracked_dc
    (drop 2 (clog only_other live_run)) (sample_cluster Running) [running_bd "cluster-b"] None _) _).
  - rewrite <- other_log. exact (clog_result _ _ _ other_returns).
  - vm_compute. reflexivity.
Defined.
