(* ===== verification/ClusterCtl.v ===== *)
(** * [controllers/cluster] and [controllers/capi]: mirroring clusters

    The CAPI controller turns a provisioned CAPI Cluster into a Fleet Cluster,
    the cluster controller turns a Fleet Cluster into the service's own Cluster
    resource and judges from the agent's last check-in whether it is reachable. *)

From S2P Require Import Prelude Prog GoStr Types K8sLib ClusterTypes.

(** The zero [time.Time], in nanoseconds from the epoch. *)
Definition zero_time : Z := -62135596800000000000.

Definition CapiInfraName : string := "edge-orchestrator.intel.com/capiInfraName".

(** ** [ClusterStatus.SetStatus] *)

(** [fmt.Sprintf("%d", n)] over the counters. *)
Definition deepCopyBundleSummary (src : FleetBundleSummary) : BundleSummary :=
  mkBSum (itoa (fb_not_ready src)) (itoa (fb_wait_applied src)) (itoa (fb_err_applied src))
    (itoa (fb_out_of_sync src)) (itoa (fb_modified src)) (itoa (fb_ready src)) (itoa (fb_pending src))
    (itoa (fb_desired_ready src)).

Definition deepCopyResourceCounts (src : FleetResourceCounts) : ResourceCounts :=
  mkRCounts (itoa (fr_ready src)) (itoa (fr_desired_ready src)) (itoa (fr_wait_applied src))
    (itoa (fr_modified src)) (itoa (fr_orphaned src)) (itoa (fr_missing src)) (itoa (fr_unknown src))
    (itoa (fr_not_ready src)).

Definition or_nil (s : string) : string := if bool_decide (s = "") then "nil" else s.

(** The node fields are never copied. *)
Definition deepCopyClusterDisplay (ready_bundles state : string) : ClusterDisplay :=
  mkClDisplay (or_nil ready_bundles) (or_nil "") (or_nil "") (or_nil state).

Definition fleet_mirror (fcs : FleetClusterStatus) : FleetStatus :=
  mkFleetStatus (deepCopyBundleSummary (fc_summary fcs)) (deepCopyResourceCounts (fc_resources fcs))
    (mkAgent (ag_last_seen (fc_agent fcs)) (ag_namespace (fc_agent fcs)))
    (deepCopyClusterDisplay (fc_display_bundles fcs) (fc_display_state fcs)).

(** Every condition of the type is overwritten; one is appended if there is none. *)
Definition set_conditions (timestamp : Z) (cs : list Condition) (ctype cstatus message : string) :
    list Condition :=
  let reason := ctype +:+ ":" +:+ cstatus in
  let cs' := map (fun c => if bool_decide (c_type c = ctype)
                           then mkCond (c_type c) cstatus timestamp reason message else c) cs in
  if existsb (fun c => bool_decide (c_type c = ctype)) cs then cs'
  else cs' ++ [mkCond ctype cstatus timestamp reason message].

Section ClusterCtl.
Context (format_rfc3339 : Z -> string).

Definition SetStatus (timestamp : Z) (state : StateType) (message ctype cstatus : string) (lastGen : Z)
    (fcs : FleetClusterStatus) (fcGen : Z) (c : ClusterStatus) : ClusterStatus :=
  mkClStatus (set_conditions timestamp (cl_conditions c) ctype cstatus message)
    (state +:+ ":" +:+ ctype +:+ "(" +:+ cstatus +:+ ")") state message (format_rfc3339 timestamp)
    lastGen fcGen (fleet_mirror fcs).

(** ** The cluster controller *)

(** [Reconciler.fleetCheckinTime] *)
Context (fleetCheckinTime : Z).

Definition zero_cluster : Cluster :=
  mkCluster "" "" None None 0 None (mkClSpec "" "" "")
    (mkClStatus [] "" "" "" "" 0 0
      (mkFleetStatus (mkBSum "" "" "" "" "" "" "" "") (mkRCounts "" "" "" "" "" "" "" "")
        (mkAgent zero_time "") (mkClDisplay "" "" "" ""))).

Definition fresh_cluster (ns name : string) : Cluster :=
  mkCluster name ns None None 0 None (cl_spec zero_cluster) (cl_status zero_cluster).

(** Labels of the Fleet cluster, and the project under both keys. *)
Definition sync_labels (fc : FleetCluster) : gmap string string :=
  let labels := default ∅ (fc_labels fc) in
  match labels !! ClusterOrchKeyProjectID with
  | Some activeProjectID => <[AppOrchActiveProjectID := activeProjectID]> labels
  | None => labels
  end.

Definition synchronizeWithFleetCluster (c : Cluster) (fc : FleetCluster) : Cluster :=
  mkCluster (cl_name c) (cl_namespace c) (Some (sync_labels fc)) (cl_deletion c) (cl_generation c)
    (cl_owner c) (mkClSpec (fc_name fc) (gmget (fc_labels fc) ClusterName) (fc_kubeconfig_secret fc))
    (cl_status c).

Definition isClusterConnected (fc : FleetCluster) : cprog bool :=
  let! now := ccall CNow in
  Ret (negb (fleetCheckinTime <? now - ag_last_seen (fc_agent (fc_status fc)))).

Definition set_cluster_status (st : ClusterStatus) (c : Cluster) : Cluster :=
  mkCluster (cl_name c) (cl_namespace c) (cl_labels c) (cl_deletion c) (cl_generation c) (cl_owner c)
    (cl_spec c) st.

(** [client.IgnoreNotFound(err)] *)
Definition IgnoreNotFound (err : option gerror) : option gerror :=
  match err with Some e => if is_not_found e then None else Some e | None => None end.

Definition as_result (err : option gerror) : cresult := mkCResult 0 err.

(** The branch for a Cluster that does not exist. *)
Definition create_cluster (ns name : string) : cprog cresult :=
  let! got := ccall (GetFleetCluster ns name) in
  match got with
  | Err e => Ret (as_result (IgnoreNotFound (Some e)))
  | Ok _ =>
      let! err := ccall (CreateCluster (fresh_cluster ns name)) in
      Ret (as_result (match err with
                      | Some e => Some (errorf ("Failed to create Cluster " +:+ e_msg e))
                      | None => None
                      end))
  end.

(** The rest of [Reconcile], on the Cluster read or, when the read failed
    with something else than "not found", on the zero Cluster. *)
Definition sync_cluster (ns name : string) (c : Cluster) : cprog cresult :=
  let! err := ccall (ClusterPatchHelper c) in
  match err with
  | Some e => Ret (failed e)
  | None =>
      if negb (bool_decide (cl_deletion c = None)) then Ret done_ok
      else
        let! got := ccall (GetFleetCluster ns name) in
        match got with
        | Err e =>
            if is_not_found e then
              let! err := ccall (DeleteCluster c) in Ret (as_result (IgnoreNotFound err))
            else Ret (failed e)
        | Ok fc =>
            let! owned := ccall (OwnCluster fc c) in
            match owned with
            | Err e => Ret (failed e)
            | Ok c1 =>
                let lastSeen := ag_last_seen (fs_agent (cl_fleet (cl_status c1))) in
                let c2 := synchronizeWithFleetCluster c1 fc in
                let! connected := isClusterConnected fc in
                let state := if connected then Running else Unknown in
                let! now := ccall CNow in
                let c3 := set_cluster_status (SetStatus now state "Complete" ClusterConditionKubeconfig
                  ConditionTrue (cl_generation c2) (fc_status fc) (fc_generation fc) (cl_status c2)) c2 in
                let! err := ccall (PatchCluster c c3) in
                match err with
                | Some e => Ret (failed e)
                | None =>
                    if lastSeen <? ag_last_seen (fs_agent (cl_fleet (cl_status c3)))
                    then Ret (mkCResult fleetCheckinTime None) else Ret done_ok
                end
            end
        end
  end.

Definition Reconcile (ns name : string) : cprog cresult :=
  let! got := ccall (GetCluster ns name) in
  match got with
  | Err e => if is_not_found e then create_cluster ns name else sync_cluster ns name zero_cluster
  | Ok c => sync_cluster ns name c
  end.

(** The requests for an event of a Fleet cluster. *)
Definition triggerReconcile (fc : FleetCluster) : list (string * string) := [(fc_namespace fc, fc_name fc)].
End ClusterCtl.

(** ** The CAPI controller *)

Module Capi.

Definition requeue_seconds : Z := 30 * 1000000000.

(** The labels with the name of the CAPI cluster's infrastructure: writing to a
    nil map and reading through a nil reference panic. *)
Definition label_infrastructure (capi : CapiCluster) (labels : gomap) : maypanic gomap :=
  match ca_infrastructure capi, labels with
  | Some name, Some m => Returns (Some (<[CapiInfraName := name]> m))
  | _, _ => Panics
  end.

Definition with_labels (labels : gomap) (fc : FleetCluster) : FleetCluster :=
  mkFleetCluster (fc_name fc) (fc_namespace fc) labels (fc_annotations fc) (fc_generation fc) (fc_owner fc)
    (fc_kubeconfig_secret fc) (fc_status fc).

Definition with_metadata (labels annotations : gomap) (fc : FleetCluster) : FleetCluster :=
  mkFleetCluster (fc_name fc) (fc_namespace fc) labels annotations (fc_generation fc) (fc_owner fc)
    (fc_kubeconfig_secret fc) (fc_status fc).

Definition new_fleet_cluster (capi : CapiCluster) (secret : string) : FleetCluster :=
  mkFleetCluster (ca_name capi) (ca_namespace capi) (ca_labels capi) (ca_annotations capi) 0 None secret
    (mkFCStatus (mkFBSum 0 0 0 0 0 0 0 0) (mkFRCounts 0 0 0 0 0 0 0 0) (mkAgent zero_time "") "" "").

(** Creating the Fleet cluster. *)
Definition create_fleet (capi : CapiCluster) (secret : string) : cprog (maypanic cresult) :=
  let! owned := ccall (OwnFleetCluster capi (new_fleet_cluster capi secret)) in
  match owned with
  | Err e => Ret (Returns (failed e))
  | Ok fc =>
      match label_infrastructure capi (fc_labels fc) with
      | Panics => Ret Panics
      | Returns labels =>
          let! err := ccall (CreateFleetCluster (with_labels labels fc)) in
          Ret (Returns (match err with Some e => failed e | None => done_ok end))
      end
  end.

Definition reconcilePhaseProvisioned (capi : CapiCluster) : cprog (maypanic cresult) :=
  if negb (ca_control_plane_ready capi) || negb (ca_infrastructure_ready capi) then
    Ret (Returns (mkCResult requeue_seconds None))
  else
    let! secret := ccall (GetSecret (ca_namespace capi) (ca_name capi +:+ "-kubeconfig")) in
    match secret with
    | Err e => Ret (Returns (failed e))
    | Ok secret =>
        let! got := ccall (GetFleetCluster (ca_namespace capi) (ca_name capi)) in
        match got with
        | Err e =>
            if is_not_found e then create_fleet capi secret else Ret (Returns done_ok)
        | Ok fc =>
            match label_infrastructure capi (ca_labels capi) with
            | Panics => Ret Panics
            | Returns labels =>
                let! err := ccall (UpdateFleetCluster (with_metadata labels (ca_annotations capi) fc)) in
                Ret (Returns done_ok)
            end
        end
    end.

Definition ReconcileCapi (ns name : string) : cprog (maypanic cresult) :=
  let! got := ccall (GetCapiCluster ns name) in
  match got with
  | Err e => Ret (Returns (as_result (IgnoreNotFound (Some e))))
  | Ok capi =>
      if bool_decide (ca_phase capi = "Provisioned") then reconcilePhaseProvisioned capi
      else Ret (Returns done_ok)
  end.
End Capi.
