(* ===== verification/ClusterCtlFacts.v ===== *)
(** * Correctness of the cluster and CAPI controllers *)

From S2P Require Import Prelude Prog GoStr Types K8sLib ClusterTypes ClusterSamples ClusterCtl.

(** ** Conditions *)

Lemma set_conditions_others now cs t status msg c :
  c_type c <> t -> c ∈ set_conditions now cs t status msg <-> c ∈ cs.
Proof.
  intros Hne. unfold set_conditions.
  assert (forall l : list Condition, c ∈ map (fun c0 => if bool_decide (c_type c0 = t)
    then mkCond (c_type c0) status now (t +:+ ":" +:+ status) msg else c0) l <-> c ∈ l) as Hmap.
  { intros l. rewrite list_elem_of_fmap. split.
    - intros (x & Hx & Hin). case_bool_decide as Ht; [|by subst].
      destruct Hne. by rewrite Hx.
    - intros Hin. exists c. split; [|done]. by rewrite bool_decide_false. }
  destruct (existsb _ cs); [apply Hmap|]. rewrite elem_of_app, Hmap, list_elem_of_singleton.
  split; [|by left]. intros [H| ->]; [done|]. by destruct Hne.
Qed.

Lemma set_conditions_type now cs t status msg :
  (exists c, c ∈ set_conditions now cs t status msg /\ c_type c = t) /\
  forall c, c ∈ set_conditions now cs t status msg -> c_type c = t ->
    c_status c = status /\ c_time c = now /\ c_message c = msg.
Proof.
  unfold set_conditions. destruct (existsb _ cs) eqn:He.
  - split.
    + apply existsb_elem_of in He as (c & Hc & Ht). reflect_guards.
      eexists. split; [apply list_elem_of_fmap; exists c; split; [reflexivity|done]|].
      by rewrite bool_decide_true.
    + intros c (x & -> & Hx)%list_elem_of_fmap Ht. case_bool_decide as Hxt; [done|done].
  - split.
    + eexists. split; [apply elem_of_app; right; left|done].
    + intros c [Hc| ->%list_elem_of_singleton]%elem_of_app Ht; [|done].
      apply list_elem_of_fmap in Hc as (x & -> & Hx). case_bool_decide as Hxt; [done|done].
Qed.

(** ** The cluster controller *)

Section Facts.
Context (format_rfc3339 : Z -> string) (fleetCheckinTime : Z).

(** What a successful pass leaves: the Cluster mirrors the Fleet cluster. *)
Record mirrors (before after : Cluster) (fc : FleetCluster) (read now : Z) : Prop := {
  mir_state : cl_state (cl_status after) = Running <-> read - ag_last_seen (fc_agent (fc_status fc)) <= fleetCheckinTime;
  mir_unknown : cl_state (cl_status after) <> Running -> cl_state (cl_status after) = Unknown;
  mir_spec : cl_spec after = mkClSpec (fc_name fc) (gmget (fc_labels fc) ClusterName) (fc_kubeconfig_secret fc);
  mir_project : forall project, gmlookup (fc_labels fc) ClusterOrchKeyProjectID = Some project ->
    gmlookup (cl_labels after) AppOrchActiveProjectID = Some project;
  mir_labels : forall k, k <> AppOrchActiveProjectID -> gmlookup (cl_labels after) k = gmlookup (fc_labels fc) k;
  mir_generation : cl_fleet_gen (cl_status after) = fc_generation fc;
  mir_fleet : cl_fleet (cl_status after) = fleet_mirror (fc_status fc);
  mir_conditions : forall c, c_type c <> ClusterConditionKubeconfig ->
    c ∈ cl_conditions (cl_status after) <-> c ∈ cl_conditions (cl_status before);
  mir_kubeconfig : exists c, c ∈ cl_conditions (cl_status after) /\ c_type c = ClusterConditionKubeconfig /\
    c_status c = ConditionTrue /\ c_time c = now
}.

Lemma gmlookup_sync_labels fc k :
  gmlookup (Some (sync_labels fc)) k =
  match gmlookup (fc_labels fc) ClusterOrchKeyProjectID with
  | Some p => if decide (k = AppOrchActiveProjectID) then Some p else gmlookup (fc_labels fc) k
  | None => gmlookup (fc_labels fc) k
  end.
Proof.
  unfold sync_labels. destruct (fc_labels fc) as [m|]; simpl.
  - destruct (m !! ClusterOrchKeyProjectID) as [p|]; [|done].
    destruct (decide (k = AppOrchActiveProjectID)) as [->|Hne]; [apply lookup_insert_eq|by apply lookup_insert_ne].
  - rewrite lookup_empty. apply lookup_empty.
Qed.

Lemma mirrors_written (c : Cluster) (fc : FleetCluster) (read now : Z) (state : StateType) :
  state = (if negb (fleetCheckinTime <? read - ag_last_seen (fc_agent (fc_status fc))) then Running else Unknown) ->
  mirrors c (set_cluster_status (SetStatus format_rfc3339 now state "Complete" ClusterConditionKubeconfig ConditionTrue
      (cl_generation c) (fc_status fc) (fc_generation fc) (cl_status c)) (synchronizeWithFleetCluster c fc))
    fc read now.
Proof.
  intros ->. split; simpl; try done.
  - destruct (Z.ltb_spec fleetCheckinTime (read - ag_last_seen (fc_agent (fc_status fc)))); simpl; [|done].
    split; [done|lia].
  - by destruct (_ <? _).
  - intros p Hp. pose proof (gmlookup_sync_labels fc AppOrchActiveProjectID) as Hl. cbn [gmlookup] in Hl. by rewrite Hl, Hp, decide_True.
  - intros k Hk. pose proof (gmlookup_sync_labels fc k) as Hl. cbn [gmlookup] in Hl. rewrite Hl.
    destruct (gmlookup (fc_labels fc) ClusterOrchKeyProjectID); [by rewrite decide_False|done].
  - intros x Hx. by apply set_conditions_others.
  - destruct (set_conditions_type now (cl_conditions (cl_status c)) ClusterConditionKubeconfig ConditionTrue "Complete")
      as [(x & Hx & Ht) Hall].
    exists x. destruct (Hall x Hx Ht) as (? & ? & ?). done.
Qed.

(** [SetControllerReference] sets the owner and nothing else. *)
Definition owner_only (t : list cevent) : Prop :=
  forall fc c c', ev (OwnCluster fc c) (Ok c') ∈ t ->
    exists owner, c' = mkCluster (cl_name c) (cl_namespace c) (cl_labels c) (cl_deletion c) (cl_generation c)
      owner (cl_spec c) (cl_status c).

(** C39: A pass that patches the Cluster makes it mirror the Fleet cluster it has
    read: name, display name, kubeconfig secret, labels with the
    project under both keys, counters and generation; its kubeconfig condition
    is True and stamped, other conditions are kept; and it is Running exactly
    when the agent was last seen within the check-in time, Unknown otherwise.
    If the patch is accepted the next pass is scheduled after that time exactly
    when the agent has been seen since the last one, so that a silent agent is noticed. *)
Theorem cluster_mirrors_fleet (ns name : string) (c b after : Cluster) (t : list cevent) (r : cresult) :
  traces (sync_cluster format_rfc3339 fleetCheckinTime ns name c) t r ->
  requested t (PatchCluster b after) -> owner_only t ->
  b = c /\
  exists fc read now err,
    ev (GetFleetCluster ns name) (Ok fc) ∈ t /\ ev CNow read ∈ t /\ mirrors c after fc read now /\
    ev (PatchCluster c after) err ∈ t /\
    (err = None -> r = mkCResult (if ag_last_seen (fs_agent (cl_fleet (cl_status c))) <?
                                    ag_last_seen (fc_agent (fc_status fc)) then fleetCheckinTime else 0) None).
Proof.
  unfold sync_cluster. intros H Hreq Hown.
  destruct H as (e1 & t1 & -> & H). apply requested_cons in Hreq as [[=]|Hreq]. cbn [pbind] in H.
  destruct e1 as [e|]; [destruct H as [-> _]; by apply requested_nil in Hreq|].
  destruct (negb _); [destruct H as [-> _]; by apply requested_nil in Hreq|].
  destruct H as (got & t2 & -> & H). apply requested_cons in Hreq as [[=]|Hreq]. cbn [pbind] in H.
  destruct got as [fc|e].
  2: { destruct (is_not_found e); [|destruct H as [-> _]; by apply requested_nil in Hreq].
       destruct H as (? & ? & -> & [-> _]). apply requested_cons in Hreq as [[=]|Hreq]. by apply requested_nil in Hreq. }
  destruct H as (owned & t3 & -> & H). apply requested_cons in Hreq as [[=]|Hreq]. cbn [pbind] in H.
  destruct owned as [c1|e]; [|destruct H as [-> _]; by apply requested_nil in Hreq].
  destruct (Hown fc c c1 ltac:(do 2 right; left)) as (owner & ->).
  destruct H as (read & t4 & -> & now & t5 & -> & err & t6 & -> & H). cbn [pbind] in H.
  do 2 (apply requested_cons in Hreq as [[=]|Hreq]).
  apply requested_cons in Hreq as [Heq|Hreq].
  - cbn [projT1 ev] in Heq. injection Heq as <- <-. split; [done|]. exists fc, read, now, err.
    split; [right; left|]. split; [do 3 right; left|]. split.
    + destruct (mirrors_written c fc read now _ eq_refl). by split.
    + split; [do 5 right; left|]. intros ->.
      change (traces (if ag_last_seen (fs_agent (cl_fleet (cl_status c))) <? ag_last_seen (fc_agent (fc_status fc))
        then Ret (mkCResult fleetCheckinTime None) else Ret done_ok) t6 r) in H.
      destruct (ag_last_seen (fs_agent (cl_fleet (cl_status c))) <? ag_last_seen (fc_agent (fc_status fc)));
        by destruct H as [_ ->].
  - exfalso. destruct err; [destruct H as [-> _]; by apply requested_nil in Hreq|].
    cbn iota in H. match type of H with traces (if ?b then _ else _) _ _ => destruct b end;
      destruct H as [-> _]; by apply requested_nil in Hreq.
Qed.

(** An API error other than "not found" on reading the Cluster is
    forgotten: the pass goes on with an empty object, so that whatever it
    patches has neither name nor namespace, and when there is no Fleet cluster
    either it asks to delete that nameless object. *)
Theorem cluster_get_error_ignored (ns name : string) (e : gerror) (t : list cevent) (r : cresult) :
  traces (Reconcile format_rfc3339 fleetCheckinTime ns name) (ev (GetCluster ns name) (Err e) :: t) r ->
  is_not_found e = false -> owner_only t ->
  requested t (ClusterPatchHelper zero_cluster) /\
  (forall b after, requested t (PatchCluster b after) -> cl_name after = "" /\ cl_namespace after = "") /\
  (forall c, requested t (DeleteCluster c) -> c = zero_cluster).
Proof.
  unfold Reconcile. intros H Hnf Hown. apply traces_vis_inv in H. cbn [pbind] in H. rewrite Hnf in H.
  unfold sync_cluster in H.
  destruct H as (e1 & t1 & -> & H). cbn [pbind] in H.
  split; [apply requested_cons; by left|].
  destruct e1 as [e'|].
  { destruct H as [-> _]. split; intros * Hr; no_request Hr. }
  cbn [cl_deletion zero_cluster negb] in H. rewrite bool_decide_true in H by done. cbn [negb] in H.
  destruct H as (got & t2 & -> & H). cbn [pbind] in H. destruct got as [fc|e'].
  2: { destruct (is_not_found e'); [destruct H as (? & ? & -> & [-> _])|destruct H as [-> _]];
       (split; [intros b after Hr; no_request Hr|intros c Hr]); [|no_request Hr].
       do 2 (apply requested_cons in Hr as [[=]|Hr]).
       apply requested_cons in Hr as [Heq|Hr]; [by injection Heq|by apply requested_nil in Hr]. }
  destruct H as (owned & t3 & -> & H). cbn [pbind] in H. destruct owned as [c1|e'].
  2: { destruct H as [-> _]; split; intros * Hr; no_request Hr. }
  destruct (Hown fc zero_cluster c1 ltac:(do 2 right; left)) as (owner & ->).
  destruct H as (read & t4 & -> & now & t5 & -> & err & t6 & -> & H). cbn [pbind] in H.
  assert (t6 = []) as ->.
  { destruct err; [by destruct H|]. cbn iota in H.
    match type of H with traces (if ?b then _ else _) _ _ => destruct b end; by destruct H. }
  split.
  - intros b after Hr. do 5 (apply requested_cons in Hr as [[=]|Hr]).
    apply requested_cons in Hr as [Heq|Hr]; [|by apply requested_nil in Hr].
    cbn [projT1 ev] in Heq. by injection Heq as <- <-.
  - intros c Hr. no_request Hr.
Qed.
End Facts.

(** ** The CAPI controller *)

Import Capi.

Definition fleet_owner_only (t : list cevent) : Prop :=
  forall capi fc fc', ev (OwnFleetCluster capi fc) (Ok fc') ∈ t ->
    exists owner, fc' = mkFleetCluster (fc_name fc) (fc_namespace fc) (fc_labels fc) (fc_annotations fc)
      (fc_generation fc) owner (fc_kubeconfig_secret fc) (fc_status fc).

(** The Fleet cluster carries the metadata of the CAPI cluster and the name of
    its infrastructure. *)
Definition carries (capi : CapiCluster) (fc : FleetCluster) : Prop :=
  fc_annotations fc = ca_annotations capi /\
  gmlookup (fc_labels fc) CapiInfraName = ca_infrastructure capi /\
  forall k, k <> CapiInfraName -> gmlookup (fc_labels fc) k = gmlookup (ca_labels capi) k.

Definition fleet_write (e : ceff) : option FleetCluster :=
  match e with CreateFleetCluster fc | UpdateFleetCluster fc => Some fc | _ => None end.

Lemma label_infrastructure_spec capi labels labels' :
  label_infrastructure capi labels = Returns labels' ->
  gmlookup labels' CapiInfraName = ca_infrastructure capi /\
  forall k, k <> CapiInfraName -> gmlookup labels' k = gmlookup labels k.
Proof.
  unfold label_infrastructure. destruct (ca_infrastructure capi) as [n|]; [|done].
  destruct labels as [m|]; [|done]. intros [= <-]. simpl. split; [apply lookup_insert_eq|].
  intros k Hk. by apply lookup_insert_ne.
Qed.

(** The CAPI controller touches the Fleet cluster only for a CAPI cluster that is
    provisioned with control plane and infrastructure ready, and what it
    writes carries that cluster's labels, annotations and infrastructure name;
    an error of an update is dropped: the pass still reports success and
    asks for no other, so the Fleet cluster may stay out of date. *)
Theorem capi_mirrors (ns name : string) (capi : CapiCluster) (t : list cevent) (r : maypanic cresult) :
  traces (ReconcileCapi ns name) (ev (GetCapiCluster ns name) (Ok capi) :: t) r ->
  fleet_owner_only t ->
  (forall e fc, requested t e -> fleet_write e = Some fc ->
     ca_phase capi = "Provisioned" /\ ca_control_plane_ready capi = true /\
     ca_infrastructure_ready capi = true /\ carries capi fc) /\
  (forall fc err, ev (UpdateFleetCluster fc) err ∈ t -> r = Returns done_ok).
Proof.
  unfold ReconcileCapi. intros H Hown. apply traces_vis_inv in H. cbn [pbind] in H.
  case_bool_decide as Hph.
  2: { destruct H as [-> _]. split; [intros e fc Hr; by apply requested_nil in Hr|intros fc err Hr; by apply elem_of_nil in Hr]. }
  unfold reconcilePhaseProvisioned, create_fleet in H.
  destruct (ca_control_plane_ready capi); cbn [negb orb] in H.
  2: { destruct H as [-> _]. split; [intros e fc Hr; by apply requested_nil in Hr|intros fc err Hr; by apply elem_of_nil in Hr]. }
  destruct (ca_infrastructure_ready capi); cbn [negb] in H.
  2: { destruct H as [-> _]. split; [intros e fc Hr; by apply requested_nil in Hr|intros fc err Hr; by apply elem_of_nil in Hr]. }
  cunfold H; split; try (intros fc err Hr; which_event Hr); try done.
  all: intros req fc Hr Hf; repeat (apply requested_cons in Hr as [<-|Hr]; [try done|]); try by apply requested_nil in Hr.
  all: injection Hf as <-; split_and!; try done; unfold carries; simpl.
  all: match goal with Hl : label_infrastructure _ _ = _ |- _ => apply label_infrastructure_spec in Hl as [? Hl] end.
  all: try done.
  destruct (Hown capi (new_fleet_cluster capi a) a0 ltac:(do 2 right; left)) as (owner & ->). done.
Qed.

(** ** Witnesses *)

Definition checkin : Z := 900.
Definition fmt (t : Z) : string := itoa t.

(** The agent was last seen 100 before the clock. *)
Definition cluster_world (c : res Cluster) (seen : Z) : cworld :=
  mkCWorld 1000 (Err (mkErr KNotFound "")) c (Ok (sample_fleet_cluster seen)) (Ok sample_capi) (Ok []) (Ok []).

Lemma cenv_owner_only {A : Type} (w : cworld) (p : cprog A) : owner_only (clog w p).
Proof.
  unfold owner_only, clog. induction p as [a|e k IH]; intros fc c c'; simpl.
  - intros H. by apply elem_of_nil in H.
  - specialize (IH (canswer w e) fc c c'). destruct (run_log cenv w (k (canswer w e))) as [[a w'] t]. simpl in *.
    intros [H|H]%elem_of_cons; [|by apply IH].
    pose proof (f_equal (@projT1 _ _) H) as He. simpl in He. subst e. apply ev_inj in H.
    simpl in H. injection H as ->. exists (cl_owner c). by destruct c.
Qed.

Lemma cenv_fleet_owner_only {A : Type} (w : cworld) (p : cprog A) : fleet_owner_only (clog w p).
Proof.
  unfold fleet_owner_only, clog. induction p as [a|e k IH]; intros capi fc fc'; simpl.
  - intros H. by apply elem_of_nil in H.
  - specialize (IH (canswer w e) capi fc fc'). destruct (run_log cenv w (k (canswer w e))) as [[a w'] t]. simpl in *.
    intros [H|H]%elem_of_cons; [|by apply IH].
    pose proof (f_equal (@projT1 _ _) H) as He. simpl in He. subst e. apply ev_inj in H.
    simpl in H. injection H as ->. exists (fc_owner fc). by destruct fc.
Qed.

Definition seen_world : cworld := cluster_world (Ok (sample_cluster Unknown)) 900.

Definition cluster_run : cprog cresult := sync_cluster fmt checkin "project-1" "cluster-a" (sample_cluster Unknown).

Definition mirrored : Cluster :=
  set_cluster_status (SetStatus fmt 1000 Running "Complete" ClusterConditionKubeconfig ConditionTrue 3
    (sample_fleet_status 900) 7 (cl_status (sample_cluster Unknown)))
    (synchronizeWithFleetCluster (sample_cluster Unknown) (sample_fleet_cluster 900)).

Lemma cluster_run_patches : requested (clog seen_world cluster_run) (PatchCluster (sample_cluster Unknown) mirrored).
Proof. exists None. apply (nth_event 5). vm_compute. reflexivity. Qed.

Lemma cluster_mirrors_fleet_witness :
  cl_state (cl_status mirrored) = Running /\ cresult_of seen_world cluster_run = mkCResult 900 None /\
  exists fc read now err,
    ev (GetFleetCluster "project-1" "cluster-a") (Ok fc) ∈ clog seen_world cluster_run /\
    ev CNow read ∈ clog seen_world cluster_run /\ mirrors checkin (sample_cluster Unknown) mirrored fc read now /\
    ev (PatchCluster (sample_cluster Unknown) mirrored) err ∈ clog seen_world cluster_run /\
    (err = None -> cresult_of seen_world cluster_run =
       mkCResult (if ag_last_seen (fs_agent (cl_fleet (cl_status (sample_cluster Unknown)))) <?
                     ag_last_seen (fc_agent (fc_status fc)) then checkin else 0) None).
Proof.
  split; [reflexivity|]. split; [vm_compute; reflexivity|].
  apply (cluster_mirrors_fleet fmt checkin "project-1" "cluster-a" (sample_cluster Unknown) (sample_cluster Unknown)
    mirrored (clog seen_world cluster_run) (cresult_of seen_world cluster_run) (clog_traces _ _)).
  - exact cluster_run_patches.
  - apply cenv_owner_only.
Defined.

Definition api_down : gerror := errorf "connection refused".
Definition down_world : cworld := cluster_world (Err api_down) 900.
Definition down_run : cprog cresult := Reconcile fmt checkin "project-1" "cluster-a".

Lemma down_log : clog down_world down_run =
  ev (GetCluster "project-1" "cluster-a") (Err api_down) :: drop 1 (clog down_world down_run).
Proof. vm_compute. reflexivity. Qed.

Lemma cluster_get_error_ignored_witness :
  cr_err (cresult_of down_world down_run) = None /\
  requested (drop 1 (clog down_world down_run)) (ClusterPatchHelper zero_cluster).
Proof.
  split; [vm_compute; reflexivity|].
  refine (proj1 (cluster_get_error_ignored fmt checkin "project-1" "cluster-a" api_down
    (drop 1 (clog down_world down_run)) (cresult_of down_world down_run) _ eq_refl _)).
  - rewrite <- down_log. apply clog_traces.
  - intros fc c c' Hin. apply (cenv_owner_only down_world down_run fc).
    rewrite down_log. by right.
Defined.

Definition capi_run : cprog (maypanic cresult) := ReconcileCapi "project-1" "cluster-a".

Lemma capi_log : clog seen_world capi_run =
  ev (GetCapiCluster "project-1" "cluster-a") (Ok sample_capi) :: drop 1 (clog seen_world capi_run).
Proof. vm_compute. reflexivity. Qed.

Lemma capi_mirrors_witness :
  cresult_of seen_world capi_run = Returns done_ok /\
  forall e fc, requested (drop 1 (clog seen_world capi_run)) e -> fleet_write e = Some fc ->
     ca_phase sample_capi = "Provisioned" /\ ca_control_plane_ready sample_capi = true /\
     ca_infrastructure_ready sample_capi = true /\ carries sample_capi fc.
Proof.
  split; [vm_compute; reflexivity|].
  refine (proj1 (capi_mirrors "project-1" "cluster-a" sample_capi (drop 1 (clog seen_world capi_run))
    (cresult_of seen_world capi_run) _ _)).
  - rewrite <- capi_log. apply clog_traces.
  - intros capi fc fc' Hin. apply (cenv_fleet_owner_only seen_world capi_run capi).
    rewrite capi_log. by right.
Defined.
