(* ===== verification/PbStruct.v ===== *)
(** * [internal/northbound/utils.go]: trimming, masking and unmasking override values

    An override value is a [structpb.Struct], a tree of fields.  The fields of
    a struct are a Go map: they are kept here as a list with distinct keys
    whose order stands for the order in which the map happens to be ranged
    over. *)

From S2P Require Import Prelude GoStr.
From Stdlib Require Import Ascii.

(** [num] is the type of a JSON number, [float64]. *)
Inductive value (num : Type) : Type :=
  | VUnset                                    (* Kind == nil *)
  | VNull
  | VNumber (n : num)
  | VString (s : string)
  | VBool (b : bool)
  | VStruct (fields : list (string * value num))
  | VList (items : list (value num)).
Arguments VUnset {num}.
Arguments VNull {num}.
Arguments VNumber {num} n.
Arguments VString {num} s.
Arguments VBool {num} b.
Arguments VStruct {num} fields.
Arguments VList {num} items.

Definition MaskedValuePlaceholder : string := "********".
Definition maxDepth : Z := 20.

(** The slice without the element at [index], which is in range at its uses. *)
Definition removeIndex (s : list string) (index : nat) : list string :=
  take index s ++ drop (S index) s.

(** The number of [strconv.Atoi] when its error is ignored: 0 on text that is
    not a number, the nearest [int] on a number that does not fit. *)
Definition Atoi (s : string) : Z :=
  let clamp n := Z.max (-2^63) (Z.min n (2^63 - 1)) in
  let parse_abs l := match l with [] => None | _ => digits_value 0 l end in
  match to_list s with
  | c :: l => if bool_decide (c = "-"%char) then from_option (fun n => clamp (- n)) 0 (parse_abs l)
              else if bool_decide (c = "+"%char) then from_option clamp 0 (parse_abs l)
              else from_option clamp 0 (parse_abs (c :: l))
  | [] => 0
  end.

Section Values.
Context {num : Type}.
(** [float64(n)] *)
Context (num_of_int : Z -> num).

Abbreviation value := (value num).
Abbreviation fields := (list (string * value)).

(** ** Updating and masking one key *)

(** The walk [updatePbValue] and [maskPbValue] share: a loop over the fields
    that acts on the key [structKeys\[0\]] alone and goes down with the
    others.  The index panics as soon as there is a field and no key.  [act] is
    what is done to the string the path leads to, given the result so far. *)
Fixpoint walk_key {O : Type} (act : string -> O -> value * O) (v : value) (structKeys : list string)
    (out : O) (currentDepth : Z) : maypanic (value * O) :=
  match v with
  | VStruct fs =>
      if maxDepth <? currentDepth then Returns (v, out)
      else unless_panic
        ((fix loop (fs : fields) (out : O) : maypanic (fields * O) :=
          match fs with
          | [] => Returns ([], out)
          | (k, w) :: fs' =>
              match structKeys with
              | [] => Panics
              | key :: _ =>
                  unless_panic
                    (if negb (bool_decide (k = key)) then Returns (w, out)
                     else match w with
                          | VString s => Returns (act s out)
                          | VStruct _ => walk_key act w (removeIndex structKeys 0) out (currentDepth + 1)
                          | _ => Returns (w, out)
                          end)
                    (fun wo => unless_panic (loop fs' wo.2) (fun r => Returns ((k, wo.1) :: r.1, r.2)))
              end
          end) fs out)
        (fun r => Returns (VStruct r.1, r.2))
  | _ => Returns (v, out)
  end.

(** The string at the key becomes the number or boolean the template asks for. *)
Definition convert (inValType : string) (s : string) (out : Z * string) : value * (Z * string) :=
  if bool_decide (inValType = "number") then (VNumber (num_of_int (Atoi s)), (Atoi s, out.2))
  else if bool_decide (inValType = "boolean") then (VBool (bool_decide (s = "true")), (out.1, s))
  else (VString s, out).

Definition updatePbValue (s : value) (structKeys : list string) (inValInt : Z) (inValStr inValType : string)
    (currentDepth : Z) : maypanic (value * (Z * string)) :=
  walk_key (convert inValType) s structKeys (inValInt, inValStr) currentDepth.

Definition maskPbValue (s : value) (structKeys : list string) (inValStr : string) (currentDepth : Z) :
    maypanic (value * string) :=
  walk_key (fun s _ => (VString MaskedValuePlaceholder, s)) s structKeys inValStr currentDepth.

(** ** The keys of a struct *)

Definition cleanUpList (list1 list2 : list string) : list string :=
  List.filter (fun item1 => negb (existsb (fun item2 => bool_decide (item1 = item2)) list2)) list1.

(** The keys, the keys with empty values, and the struct without the latter.
    The nested call gets a copy of the empty keys found so far, and those it
    finds are used to clean its own result only: in the source the inner
    [emptyValKeys] shadows the outer one. *)
Fixpoint getAllPbStructKeys (v : value) (emptyValKeys : list string) (currentDepth : Z) :
    list string * list string * value :=
  match v with
  | VStruct fs =>
      if maxDepth <? currentDepth then ([], emptyValKeys, v)
      else
        let '(keys, empty, fs') :=
          (fix loop (fs : fields) (empty : list string) : list string * list string * fields :=
            match fs with
            | [] => ([], empty, [])
            | (k, w) :: fs' =>
                match w with
                | VString s =>
                    if bool_decide (s = "") then
                      let '(ks, e, r) := loop fs' (empty ++ [k]) in (k :: ks, e, r)
                    else let '(ks, e, r) := loop fs' empty in (k :: ks, e, (k, w) :: r)
                | VStruct _ =>
                    let '(nested, nestedEmpty, w') := getAllPbStructKeys w empty (currentDepth + 1) in
                    let nested := cleanUpList nested nestedEmpty in
                    let '(ks, e, r) := loop fs' empty in
                    (k :: map (fun nk => k +:+ "." +:+ nk) nested ++ ks, e, (k, w') :: r)
                | _ => let '(ks, e, r) := loop fs' empty in (k :: ks, e, (k, w) :: r)
                end
            end) fs emptyValKeys in
        (keys, empty, VStruct fs')
  | _ => ([], emptyValKeys, v)
  end.

(** ** Trimming *)

Fixpoint trimAllPbStructStrings (v : value) (currentDepth : Z) : value :=
  match v with
  | VStruct fs =>
      if maxDepth <? currentDepth then v
      else VStruct (map (fun kw : string * value =>
        (kw.1, match kw.2 with
               | VString s => VString (trim_space s)
               | VStruct _ => trimAllPbStructStrings kw.2 (currentDepth + 1)
               | w => w
               end)) fs)
  | _ => v
  end.

(** ** Unmasking *)

(** [previous.Fields\[fullKey\]], when it is a string. *)
Definition previous_string (previous : fields) (fullKey : string) : option string :=
  match find_first (fun kv => bool_decide (kv.1 = fullKey)) previous with
  | Some (_, VString s) => Some s
  | _ => None
  end.

Definition full_key (prefix k : string) : string :=
  if bool_decide (prefix = "") then k else prefix +:+ "." +:+ k.

Fixpoint UnmaskSecrets (current : value) (previous : fields) (prefix : string) : value :=
  match current with
  | VStruct fs =>
      VStruct (map (fun kw : string * value =>
        let fullKey := full_key prefix kw.1 in
        (kw.1, match kw.2 with
               | VString s =>
                   if bool_decide (s = MaskedValuePlaceholder) then
                     match previous_string previous fullKey with
                     | Some prev => VString prev
                     | None => VString s
                     end
                   else VString s
               | VStruct _ => UnmaskSecrets kw.2 previous fullKey
               | VList items =>
                   VList ((fix loop (items : list value) (i : Z) : list value :=
                     match items with
                     | [] => []
                     | item :: items' =>
                         (match item with
                          | VStruct _ => UnmaskSecrets item previous (fullKey +:+ "[" +:+ itoa i +:+ "]")
                          | _ => item
                          end) :: loop items' (i + 1)
                     end) items 0)
               | w => w
               end)) fs)
  | _ => current
  end.
End Values.
