(* ===== verification/PbStructFacts.v ===== *)
(** * Masking, unmasking and the keys of override values *)

From S2P Require Import Prelude GoStr Split PbStruct.
From Stdlib Require Import Ascii.

Section Facts.
Context {num : Type} (num_of_int : Z -> num).

Abbreviation value := (value num).
Abbreviation fields := (list (string * value)).

(** ** Induction on a value and its fields *)

Lemma value_ind' (P : value -> Prop) :
  P VUnset -> P VNull -> (forall n, P (VNumber n)) -> (forall s, P (VString s)) ->
  (forall b, P (VBool b)) ->
  (forall fs, Forall (fun kw : string * value => P kw.2) fs -> P (VStruct fs)) ->
  (forall items, Forall P items -> P (VList items)) ->
  forall v, P v.
Proof.
  intros Hu Hn Hnum Hs Hb Hstruct Hlist. fix IH 1. intros [| |n|s|b|fs|items]. 1-5: clear IH; auto.
  - apply Hstruct. induction fs as [|[k w] fs IHfs]; constructor; [apply IH|apply IHfs].
  - apply Hlist. induction items as [|w items IHi]; constructor; [apply IH|apply IHi].
Qed.

(** ** What values contain *)

(** The value at a path of keys. *)
Fixpoint lookup_path (v : value) (path : list string) : option value :=
  match path with
  | [] => Some v
  | key :: rest =>
      match v with
      | VStruct fs => match find_first (fun kw => bool_decide (kw.1 = key)) fs with
                      | Some kw => lookup_path kw.2 rest
                      | None => None
                      end
      | _ => None
      end
  end.

(** No string stands in the way of a path. *)
Fixpoint not_cut (v : value) (path : list string) : bool :=
  match path with
  | [] => true
  | key :: rest =>
      match v with
      | VStruct fs => match find_first (fun kw => bool_decide (kw.1 = key)) fs with
                      | Some kw => not_cut kw.2 rest
                      | None => true
                      end
      | VString _ => false
      | _ => true
      end
  end.

(** Every struct has distinct keys, as a Go map does. *)
Fixpoint distinct_keys (v : value) : bool :=
  match v with
  | VStruct fs => bool_decide (NoDup (map fst fs)) && forallb (fun kw => distinct_keys kw.2) fs
  | VList items => forallb distinct_keys items
  | _ => true
  end.

(** A placeholder where [UnmaskSecrets] looks for one: in a field of a struct
    that is nested in structs and lists directly. *)
Fixpoint no_placeholder (v : value) : bool :=
  match v with
  | VStruct fs => forallb (fun kw =>
      match kw.2 with
      | VString s => negb (bool_decide (s = MaskedValuePlaceholder))
      | _ => no_placeholder kw.2
      end) fs
  | VList items => forallb (fun w => match w with VStruct _ => no_placeholder w | _ => true end) items
  | _ => true
  end.

(** [UnmaskSecrets] on one field and on the items of a list. *)
Fixpoint unmask_items (previous : fields) (fullKey : string) (items : list value) (i : Z) : list value :=
  match items with
  | [] => []
  | item :: items' =>
      (match item with
       | VStruct _ => UnmaskSecrets item previous (fullKey +:+ "[" +:+ itoa i +:+ "]")
       | _ => item
       end) :: unmask_items previous fullKey items' (i + 1)
  end.

Definition unmask_value (previous : fields) (fullKey : string) (w : value) : value :=
  match w with
  | VString s =>
      if bool_decide (s = MaskedValuePlaceholder) then
        match previous_string previous fullKey with Some prev => VString prev | None => VString s end
      else VString s
  | VStruct _ => UnmaskSecrets w previous fullKey
  | VList items => VList (unmask_items previous fullKey items 0)
  | w => w
  end.

Lemma UnmaskSecrets_struct (previous : fields) (prefix : string) (fs : fields) :
  UnmaskSecrets (VStruct fs) previous prefix =
  VStruct (map (fun kw => (kw.1, unmask_value previous (full_key prefix kw.1) kw.2)) fs).
Proof.
  simpl. f_equal. apply map_ext. intros [k w]. simpl. f_equal. destruct w; try done.
  simpl. f_equal. generalize 0. induction items as [|w items IH]; intros i; [done|]. simpl. by rewrite IH.
Qed.

(** A field's value is free of placeholders. *)
Definition value_clean (w : value) : bool :=
  match w with
  | VString s => negb (bool_decide (s = MaskedValuePlaceholder))
  | _ => no_placeholder w
  end.

Lemma no_placeholder_struct (fs : fields) :
  no_placeholder (VStruct fs) = forallb (fun kw => value_clean kw.2) fs.
Proof. done. Qed.

(** ** Adding a secret to the previous values *)

Definition extends (previous previous' : fields) (name : string) : Prop :=
  forall k, k <> name -> previous_string previous' k = previous_string previous k.

(** A secret under a new name changes nothing where every placeholder is
    already filled in. *)
Lemma unmask_extend (previous previous' : fields) (name : string) :
  extends previous previous' name -> previous_string previous name = None ->
  forall (w : value) (key : string),
    value_clean (unmask_value previous key w) = true ->
    unmask_value previous' key w = unmask_value previous key w.
Proof.
  intros Hext Hnone. induction w as [| |n|s|b|fs IH|items IH] using value_ind'; intros key Hc; try done.
  - simpl in *. case_bool_decide; [|done]. destruct (decide (key = name)) as [->|Hk]; [|by rewrite Hext].
    rewrite Hnone in Hc |- *. simpl in Hc. rewrite bool_decide_true in Hc; done.
  - cbn [unmask_value] in *. rewrite !UnmaskSecrets_struct in *. f_equal. apply map_ext_Forall.
    rewrite Forall_forall in IH |- *. intros [k w] Hin. simpl. f_equal. apply (IH (k, w) Hin).
    simpl in Hc. rewrite forallb_forall in Hc.
    apply (Hc (k, unmask_value previous (full_key key k) w)). apply list_elem_of_In.
    rewrite list_elem_of_fmap. by exists (k, w).
  - cbn [unmask_value] in *. f_equal. revert Hc. generalize 0.
    induction IH as [|w items Hw HF IHi]; intros i Hc; [done|]. simpl in Hc |- *.
    apply andb_true_iff in Hc as [Hc1 Hc2]. f_equal; [|by apply IHi].
    destruct w as [| | | | |fs|]; try done. apply Hw. done.
Qed.

(** ** The walk along a path *)

(** The loop of [walk_key] over the fields. *)
Fixpoint walk_fields {O : Type} (act : string -> O -> value * O) (structKeys : list string)
    (currentDepth : Z) (fs : fields) (out : O) : maypanic (fields * O) :=
  match fs with
  | [] => Returns ([], out)
  | (k, w) :: fs' =>
      match structKeys with
      | [] => Panics
      | key :: rest =>
          unless_panic
            (if negb (bool_decide (k = key)) then Returns (w, out)
             else match w with
                  | VString s => Returns (act s out)
                  | VStruct _ => walk_key act w rest out (currentDepth + 1)
                  | _ => Returns (w, out)
                  end)
            (fun wo => unless_panic (walk_fields act structKeys currentDepth fs' wo.2)
                         (fun r => Returns ((k, wo.1) :: r.1, r.2)))
      end
  end.

Lemma walk_key_struct {O : Type} (act : string -> O -> value * O) fs structKeys out depth :
  walk_key act (VStruct fs) structKeys out depth =
  if maxDepth <? depth then Returns (VStruct fs, out)
  else unless_panic (walk_fields act structKeys depth fs out) (fun r => Returns (VStruct r.1, r.2)).
Proof.
  simpl. destruct (maxDepth <? depth); [done|]. f_equal. revert out.
  induction fs as [|[k w] fs IH]; intros out; [done|]. simpl. destruct structKeys as [|key rest]; [done|].
  rewrite ?drop_0. apply unless_panic_ext. intros wo. by rewrite IH.
Qed.

(** Fields that do not have the key are left alone. *)
Lemma walk_fields_absent {O : Type} (act : string -> O -> value * O) key rest depth fs out :
  key ∉ map fst fs -> walk_fields act (key :: rest) depth fs out = Returns (fs, out).
Proof.
  induction fs as [|[k w] fs IH]; simpl; intros Hn; [done|]. apply not_elem_of_cons in Hn as [Hk Hn].
  rewrite bool_decide_false by done. simpl. by rewrite IH.
Qed.

(** Distinct keys: the walk touches the one field that has the key. *)
Lemma walk_fields_present {O : Type} (act : string -> O -> value * O) key rest depth fs1 w fs2 out :
  key ∉ map fst fs1 -> key ∉ map fst fs2 ->
  walk_fields act (key :: rest) depth (fs1 ++ (key, w) :: fs2) out =
  unless_panic (match w with
                | VString s => Returns (act s out)
                | VStruct _ => walk_key act w rest out (depth + 1)
                | _ => Returns (w, out)
                end) (fun wo => Returns (fs1 ++ (key, wo.1) :: fs2, wo.2)).
Proof.
  intros H1 H2. induction fs1 as [|[k w'] fs1 IH]; simpl in *.
  - rewrite bool_decide_true by done. cbn [negb]. apply unless_panic_ext. intros wo.
    by rewrite walk_fields_absent.
  - apply not_elem_of_cons in H1 as [Hk H1]. rewrite bool_decide_false by done. simpl. rewrite IH by done.
    by rewrite unless_panic_assoc.
Qed.

(** A key is in the fields, once, or absent. *)
Lemma fields_split (key : string) (fs : fields) :
  NoDup (map fst fs) ->
  key ∉ map fst fs \/ exists fs1 w fs2, fs = fs1 ++ (key, w) :: fs2 /\ key ∉ map fst fs1 /\ key ∉ map fst fs2.
Proof.
  induction fs as [|[k w] fs IH]; simpl; intros Hnd; [left; apply not_elem_of_nil|].
  apply NoDup_cons in Hnd as [Hk Hnd]. destruct (decide (key = k)) as [->|Hne].
  { right. exists [], w, fs. split; [done|]. split; [apply not_elem_of_nil|done]. }
  destruct (IH Hnd) as [H|(fs1 & w' & fs2 & -> & H1 & H2)]; [left|right].
  - by apply not_elem_of_cons.
  - exists ((k, w) :: fs1), w', fs2. split; [done|]. split; [by apply not_elem_of_cons|done].
Qed.

(** ** Masking keeps what unmasking restores *)

(** The full key [UnmaskSecrets] computes along a path. *)
Fixpoint path_key (prefix : string) (path : list string) : string :=
  match path with [] => prefix | key :: rest => path_key (full_key prefix key) rest end.

Lemma unmask_struct_extend (previous previous' : fields) (name prefix : string) (v : value) :
  extends previous previous' name -> previous_string previous name = None ->
  no_placeholder (UnmaskSecrets v previous prefix) = true ->
  UnmaskSecrets v previous' prefix = UnmaskSecrets v previous prefix.
Proof.
  intros He Hn Hc. destruct v; try done.
  by apply (unmask_extend previous previous' name He Hn (VStruct fields) prefix).
Qed.

Lemma find_key_split (key : string) fs1 (w : value) fs2 :
  key ∉ map fst fs1 ->
  find_first (fun kw => bool_decide (kw.1 = key)) (fs1 ++ (key, w) :: fs2) = Some (key, w).
Proof.
  induction fs1 as [|[k w'] fs1 IH]; simpl; intros Hn; [by rewrite bool_decide_true|].
  apply not_elem_of_cons in Hn as [Hk Hn]. rewrite bool_decide_false by done. auto.
Qed.

(** Two structs that differ at one key unmask alike if that key's values do. *)
Lemma unmask_fields_eq (previous previous' : fields) name prefix fs1 key w w' fs2 :
  extends previous previous' name -> previous_string previous name = None ->
  no_placeholder (UnmaskSecrets (VStruct (fs1 ++ (key, w) :: fs2)) previous prefix) = true ->
  (value_clean (unmask_value previous (full_key prefix key) w) = true ->
   unmask_value previous' (full_key prefix key) w' = unmask_value previous (full_key prefix key) w) ->
  UnmaskSecrets (VStruct (fs1 ++ (key, w') :: fs2)) previous' prefix =
  UnmaskSecrets (VStruct (fs1 ++ (key, w) :: fs2)) previous prefix.
Proof.
  intros He Hn. rewrite !UnmaskSecrets_struct, no_placeholder_struct, !map_app, !map_cons, forallb_app.
  cbn [forallb fst snd]. rewrite !andb_true_iff. intros (H1 & Hw & H2) Heq. f_equal.
  assert (forall l, forallb (fun kw => value_clean kw.2)
            (map (fun kw => (kw.1, unmask_value previous (full_key prefix kw.1) kw.2)) l) = true ->
          map (fun kw => (kw.1, unmask_value previous' (full_key prefix kw.1) kw.2)) l =
          map (fun kw => (kw.1, unmask_value previous (full_key prefix kw.1) kw.2)) l) as Hl.
  { intros l Hl. rewrite forallb_forall in Hl. apply map_ext_in. intros [k x] Hx. f_equal.
    apply (unmask_extend previous previous' name He Hn), (Hl (k, _)), in_map_iff. by exists (k, x). }
  rewrite (Hl fs1 H1), (Hl fs2 H2), (Heq Hw). done.
Qed.

Lemma mask_step (name : string) (previous previous' : fields) (s : string) (s0 : string) :
  extends previous previous' name -> previous_string previous name = None ->
  previous_string previous' name = Some s ->
  forall (path : list string) (v v'' : value) (prefix : string) (depth : Z),
    path_key prefix path = name -> not_cut v path = true -> distinct_keys v = true ->
    no_placeholder (UnmaskSecrets v previous prefix) = true ->
    maskPbValue v path s0 depth = Returns (v'', s) ->
    UnmaskSecrets v'' previous' prefix = UnmaskSecrets v previous prefix.
Proof.
  intros He Hn Hs. unfold maskPbValue. induction path as [|key rest IH]; intros v v'' prefix depth Hkey Hl Hd Hc Hm.
  all: destruct v as [| | | | |fs|]; try (simpl in Hm; injection Hm as <- _; done).
  all: rewrite walk_key_struct in Hm.
  all: destruct (maxDepth <? depth); [injection Hm as <- _; by apply (unmask_struct_extend _ _ name)|].
  { destruct fs as [|[k w] fs]; simpl in Hm; [|done]. by injection Hm as <- _. }
  simpl in Hd. apply andb_true_iff in Hd as [Hnd Hd]. apply bool_decide_eq_true in Hnd.
  destruct (fields_split key fs Hnd) as [Habs|(fs1 & w & fs2 & -> & H1 & H2)].
  { rewrite walk_fields_absent in Hm by done. injection Hm as <- _. by apply (unmask_struct_extend _ _ name). }
  rewrite walk_fields_present in Hm by done. cbn [not_cut] in Hl. rewrite find_key_split in Hl by done.
  rewrite forallb_app in Hd. apply andb_true_iff in Hd as [_ Hd]. simpl in Hd. apply andb_true_iff in Hd as [Hd _].
  destruct w as [| | |sv| |fs'|]; cbn -[walk_key] in Hm, Hl;
    try (injection Hm as <- _; apply (unmask_fields_eq previous previous' name); [done..|];
         intros Hw; by apply (unmask_extend _ _ name He Hn)).
  - injection Hm as <- <-. apply (unmask_fields_eq previous previous' name); [done..|]. simpl. intros Hw.
    destruct rest as [|k rest]; [|done]. simpl in Hkey. rewrite Hkey, Hs.
    case_bool_decide as Hsv; [|done]. rewrite Hkey, Hn in Hw. simpl in Hw.
    by rewrite bool_decide_true in Hw.
  - rewrite unless_panic_assoc in Hm. apply unless_panic_Returns in Hm as ([w' s'] & Hm & Hr).
    injection Hr as <- ->. apply (unmask_fields_eq previous previous' name); [done..|].
    intros Hw. cbn [unmask_value] in Hw. pose proof (IH _ _ (full_key prefix key) _ Hkey Hl Hd Hw Hm) as HIH.
    assert (exists fs'', w' = VStruct fs'') as [fs'' ->].
    { rewrite walk_key_struct in Hm. case_match; [by simplify_eq; eauto|].
      apply unless_panic_Returns in Hm as (? & _ & ?). simplify_eq. eauto. }
    exact HIH.
Qed.

(** ** Names and paths *)

Lemma path_key_join (prefix : string) (path : list string) :
  path <> [] -> prefix <> "" -> path_key prefix path = prefix +:+ "." +:+ join path ".".
Proof.
  revert prefix. induction path as [|key rest IH]; intros prefix Hn Hp; [done|]. cbn [path_key].
  assert (full_key prefix key = prefix +:+ "." +:+ key) as -> by (unfold full_key; by rewrite bool_decide_false).
  destruct rest as [|k rest]; [done|]. rewrite IH; [|done|by destruct prefix].
  rewrite (join_cons key) by done. by rewrite !sapp_assoc.
Qed.

(** The full key of a template's path is its name, unless it starts with a dot. *)
Lemma path_key_split (name : string) :
  has_prefix name "." = false -> path_key "" (split name ".") = name.
Proof.
  intros Hp. rewrite <- (join_split "." name) at 2. rewrite <- (join_split "." name) in Hp.
  destruct (split name ".") as [|key rest] eqn:Hs; [by apply split_not_nil in Hs|]. cbn [path_key].
  change (full_key "" key) with key. destruct rest as [|k rest]; [done|].
  destruct (decide (key = "")) as [->|Hk].
  { rewrite join_cons, sapp_nil_l in Hp by done. apply not_true_iff_false in Hp. destruct Hp.
    apply has_prefix_spec. eauto. }
  rewrite path_key_join by done. by rewrite (join_cons key).
Qed.

(** Without dots a key is the first element of a path. *)
Definition dotless (s : string) : bool := negb (existsb (fun c => bool_decide (c = "."%char)) (to_list s)).

Lemma split_go_dotless (k s : string) (acc : list ascii) :
  dotless k = true -> split_go "." 0 acc (k +:+ "." +:+ s) = (of_list (rev acc) +:+ k) :: split s ".".
Proof.
  unfold dotless. revert acc. induction k as [|c k IH]; intros acc Hd.
  - simpl. rewrite sapp_nil_r. by destruct s.
  - rewrite sapp_cons. cbn [to_list existsb] in Hd. rewrite negb_orb in Hd. apply andb_true_iff in Hd as [Hc Hd].
    cbn [split_go has_prefix]. rewrite bool_decide_false by (intros <-; by rewrite bool_decide_true in Hc).
    cbn [andb]. rewrite IH by done. simpl. by rewrite of_list_app, sapp_assoc.
Qed.

Lemma split_dotless_cons (k s : string) : dotless k = true -> split (k +:+ "." +:+ s) "." = k :: split s ".".
Proof. apply split_go_dotless. Qed.

Lemma split_dotless (k : string) : dotless k = true -> split k "." = [k].
Proof.
  unfold split, dotless. replace [k] with [of_list (rev []) +:+ k] by done. generalize (@nil ascii).
  induction k as [|c k IH]; intros acc Hd; simpl; [by rewrite sapp_nil_r|].
  cbn [to_list existsb] in Hd. rewrite negb_orb in Hd. apply andb_true_iff in Hd as [Hc Hd].
  rewrite bool_decide_false by (intros <-; by rewrite bool_decide_true in Hc). cbn [andb].
  rewrite IH by done. simpl. by rewrite of_list_app, sapp_assoc.
Qed.

Lemma dotless_no_dot (k s : string) : dotless (k +:+ "." +:+ s) = false.
Proof.
  unfold dotless. rewrite !to_list_app, !existsb_app. simpl. by rewrite orb_true_r.
Qed.

(** ** The keys of a struct *)

(** The loop of [getAllPbStructKeys]. *)
Fixpoint keys_fields (currentDepth : Z) (fs : fields) (empty : list string) :
    list string * list string * fields :=
  match fs with
  | [] => ([], empty, [])
  | (k, w) :: fs' =>
      match w with
      | VString s =>
          if bool_decide (s = "") then
            let '(ks, e, r) := keys_fields currentDepth fs' (empty ++ [k]) in (k :: ks, e, r)
          else let '(ks, e, r) := keys_fields currentDepth fs' empty in (k :: ks, e, (k, w) :: r)
      | VStruct _ =>
          let '(nested, nestedEmpty, w') := getAllPbStructKeys w empty (currentDepth + 1) in
          let nested := cleanUpList nested nestedEmpty in
          let '(ks, e, r) := keys_fields currentDepth fs' empty in
          (k :: map (fun nk => k +:+ "." +:+ nk) nested ++ ks, e, (k, w') :: r)
      | _ => let '(ks, e, r) := keys_fields currentDepth fs' empty in (k :: ks, e, (k, w) :: r)
      end
  end.

Lemma getAllPbStructKeys_struct fs empty depth :
  getAllPbStructKeys (VStruct fs : value) empty depth =
  if maxDepth <? depth then ([], empty, VStruct fs)
  else let '(keys, e, fs') := keys_fields depth fs empty in (keys, e, VStruct fs').
Proof.
  simpl. destruct (maxDepth <? depth); [done|].
  match goal with |- (let '_ := ?f fs empty in _) = _ => assert (forall e, f fs e = keys_fields depth fs e) as -> end; [|done].
  induction fs as [|[k w] fs IH]; intros e; [done|].
  destruct w; simpl; try (by rewrite IH). by rewrite !IH.
Qed.

(** Keys without dots, as in any YAML values file of a Helm chart. *)
Fixpoint plain_keys (v : value) : bool :=
  match v with
  | VStruct fs => forallb (fun kw => dotless kw.1 && negb (bool_decide (kw.1 = "")) && plain_keys kw.2) fs
  | _ => true
  end.

(** The first key of a path's text. *)
Definition top (k : string) : string := default "" (head (split k ".")).

Lemma top_dotless k : dotless k = true -> top k = k.
Proof. intros Hd. unfold top. by rewrite split_dotless. Qed.

Lemma top_cons k nk : dotless k = true -> top (k +:+ "." +:+ nk) = k.
Proof. intros Hd. unfold top. by rewrite split_dotless_cons. Qed.

(** What the keys of a struct promise about the struct that remains. *)
Definition keys_ok (ks : list string) (v' : value) : Prop :=
  NoDup ks /\ (forall k, k ∈ ks -> has_prefix k "." = false /\ not_cut v' (split k ".") = true) /\
  distinct_keys v' = true.

Definition field_keys_ok (fs : fields) (ks : list string) (r : fields) : Prop :=
  NoDup ks /\
  (forall k, k ∈ ks -> top k ∈ map fst fs /\ has_prefix k "." = false /\
     (dotless k = true \/ exists k0 nk w', dotless k0 = true /\ k = k0 +:+ "." +:+ nk /\ (k0, w') ∈ r /\
        not_cut w' (split nk ".") = true)) /\
  (forall k, k ∈ map fst r -> k ∈ map fst fs) /\ NoDup (map fst r) /\ forallb (fun kw => distinct_keys kw.2) r = true.

Lemma find_key_elem (k : string) (w : value) (r : fields) :
  NoDup (map fst r) -> (k, w) ∈ r -> find_first (fun kw => bool_decide (kw.1 = k)) r = Some (k, w).
Proof.
  intros Hnd Hin. apply list_elem_of_split in Hin as (r1 & r2 & ->). apply find_key_split.
  rewrite map_app in Hnd. apply NoDup_app in Hnd as (_ & Hd & _). intros H. apply (Hd k H). left.
Qed.

Lemma field_keys_struct fs ks r :
  field_keys_ok fs ks r -> keys_ok ks (VStruct r).
Proof.
  intros (Hnd & Hk & _ & Hr & Hd). split; [done|]. split; [|simpl; by rewrite bool_decide_true, Hd].
  intros k Hin. destruct (Hk k Hin) as (_ & Hp & Hc). split; [done|].
  destruct Hc as [Hc|(k0 & nk & w' & Hc & -> & Hw & Hn)].
  - rewrite split_dotless by done. simpl. by case_match.
  - rewrite split_dotless_cons by done. cbn [not_cut]. by rewrite (find_key_elem k0 w').
Qed.

Lemma dotless_prefix k s : dotless k = true -> k <> "" -> has_prefix (k +:+ s) "." = false.
Proof.
  destruct k as [|c k]; [done|]. unfold dotless. intros Hd _. rewrite sapp_cons. cbn [has_prefix].
  cbn [to_list existsb] in Hd. rewrite negb_orb in Hd. apply andb_true_iff in Hd as [Hc _].
  by rewrite bool_decide_false by (intros <-; by rewrite bool_decide_true in Hc).
Qed.

Lemma field_keys_drop fs ks r k w :
  field_keys_ok fs ks r -> dotless k = true -> k <> "" -> k ∉ map fst fs ->
  field_keys_ok ((k, w) :: fs) (k :: ks) r.
Proof.
  intros (Hnd & Hk & Hr & Hrn & Hrd) Hd Hne Hfs. repeat split; try done.
  - apply NoDup_cons. split; [|done]. intros Hin. destruct (Hk k Hin) as (Ht & _).
    by rewrite top_dotless in Ht.
  - apply elem_of_cons in H as [->|H]; [|by right; apply Hk]. rewrite top_dotless by done. left.
  - apply elem_of_cons in H as [->|H]; [|by apply Hk]. rewrite <- (sapp_nil_r k). by apply dotless_prefix.
  - apply elem_of_cons in H as [->|H]; [by left|]. by apply Hk.
  - intros k' Hk'. right. by apply Hr.
Qed.

Lemma field_keys_cons fs ks r k w w' nested :
  field_keys_ok fs ks r -> dotless k = true -> k <> "" -> k ∉ map fst fs ->
  NoDup nested -> (forall nk, nk ∈ nested -> not_cut w' (split nk ".") = true) -> distinct_keys w' = true ->
  field_keys_ok ((k, w) :: fs) (k :: map (fun nk => k +:+ "." +:+ nk) nested ++ ks) ((k, w') :: r).
Proof.
  intros (Hnd & Hk & Hr & Hrn & Hrd) Hd Hne Hfs Hnn Hnest Hw'.
  assert (forall x, x ∈ map (fun nk => k +:+ "." +:+ nk) nested <-> exists nk, x = k +:+ "." +:+ nk /\ nk ∈ nested) as Hm
    by (intros x; apply list_elem_of_fmap).
  split; [|split; [|split; [|split]]].
  - apply NoDup_cons. split.
    + rewrite elem_of_app, Hm. intros [(nk & Heq & _)|Hin].
      * rewrite Heq in Hd. by rewrite dotless_no_dot in Hd.
      * destruct (Hk k Hin) as (Ht & _). by rewrite top_dotless in Ht.
    + apply NoDup_app. split; [|split; [|done]].
      * apply NoDup_fmap_2_strong; [|done]. intros x y _ _ Heq. apply (f_equal to_list) in Heq.
        rewrite !to_list_app in Heq. apply app_inv_head, app_inv_head in Heq. by apply to_list_inj.
      * intros x (nk & -> & _)%Hm Hin. destruct (Hk _ Hin) as (Ht & _). by rewrite top_cons in Ht.
  - intros x [->|[(nk & -> & Hin)%Hm|Hin]%elem_of_app]%elem_of_cons.
    + rewrite top_dotless by done. split; [left|]. split; [|by left].
      rewrite <- (sapp_nil_r k). by apply dotless_prefix.
    + rewrite top_cons by done. split; [left|]. split; [by apply dotless_prefix|]. right.
      exists k, nk, w'. repeat split; try done; [left|by apply Hnest].
    + destruct (Hk x Hin) as (Ht & Hp & Hc). split; [by right|]. split; [done|].
      destruct Hc as [Hc|(k0 & nk & w0 & H1 & H2 & H3 & H4)]; [by left|right].
      exists k0, nk, w0. repeat split; try done. by right.
  - intros x [->|Hx]%elem_of_cons; [left|right]. by apply Hr.
  - apply NoDup_cons. split; [|done]. intros Hx. by apply Hfs, Hr.
  - simpl. by rewrite Hw', Hrd.
Qed.

Lemma cleanUpList_sub l1 l2 x : x ∈ cleanUpList l1 l2 -> x ∈ l1.
Proof. unfold cleanUpList. rewrite !list_elem_of_In, filter_In. tauto. Qed.

Lemma cleanUpList_NoDup l1 l2 : NoDup l1 -> NoDup (cleanUpList l1 l2).
Proof. unfold cleanUpList. rewrite !NoDup_ListNoDup. apply List.NoDup_filter. Qed.

(** The keys found in a struct have no duplicates and none is cut short by a
    string in what is left of it. *)
Lemma keys_of_struct (v : value) :
  forall empty depth ks e v',
    plain_keys v = true -> distinct_keys v = true ->
    getAllPbStructKeys v empty depth = (ks, e, v') -> keys_ok ks v'.
Proof.
  assert (forall ks (v : value), ks = [] -> distinct_keys v = true -> keys_ok ks v) as Hnil.
  { intros ks w -> Hd. split; [apply NoDup_nil_2|]. split; [|done]. intros k Hk. by apply elem_of_nil in Hk. }
  induction v as [| |n|s|b|fs IH|items _] using value_ind'; intros empty depth ks e v' Hp Hd Hg.
  1-5,7: simpl in Hg; simplify_eq; by apply Hnil.
  rewrite getAllPbStructKeys_struct in Hg. case_match; [simplify_eq; by apply Hnil|].
  destruct (keys_fields depth fs empty) as [[ks1 e1] r] eqn:Hf. simplify_eq. apply (field_keys_struct fs).
  simpl in Hp, Hd. apply andb_true_iff in Hd as [Hnd Hd]. apply bool_decide_eq_true in Hnd. clear H Hnil.
  revert empty ks e r Hf. induction IH as [|[k w] fs Hw HF IHf]; intros empty ks e r Hf.
  { simpl in Hf. simplify_eq. repeat split; try done; try apply NoDup_nil_2;
      by match goal with H : _ ∈ [] |- _ => apply elem_of_nil in H end. }
  simpl in Hp, Hd, Hnd. apply andb_true_iff in Hp as [Hpk Hp], Hd as [Hdk Hd].
  apply andb_true_iff in Hpk as [[Hdot Hne]%andb_true_iff Hpk].
  apply negb_true_iff, bool_decide_eq_false in Hne. apply NoDup_cons in Hnd as [Hkn Hnd].
  specialize (IHf Hp Hnd Hd). simpl in Hw.
  assert (forall e0 ks' e' r', keys_fields depth fs e0 = (ks', e', r') ->
            field_keys_ok ((k, w) :: fs) (k :: ks') ((k, w) :: r')) as Hleaf.
  { intros e0 ks' e' r' H'. apply (field_keys_cons fs ks' r' k w w []); try done; [by eapply IHf|apply NoDup_nil_2|].
    intros nk Hn. by apply elem_of_nil in Hn. }
  destruct w as [| |n|s|b|fw|items]; cbn [keys_fields] in Hf.
  1-3,5,7: destruct (keys_fields depth fs empty) as [[ks2 e2] r2] eqn:Hf2; simplify_eq; by eapply Hleaf.
  - case_bool_decide.
    + destruct (keys_fields depth fs (empty ++ [k])) as [[ks2 e2] r2] eqn:Hf2. simplify_eq.
      apply field_keys_drop; try done. by eapply IHf.
    + destruct (keys_fields depth fs empty) as [[ks2 e2] r2] eqn:Hf2. simplify_eq. by eapply Hleaf.
  - destruct (getAllPbStructKeys (VStruct fw : value) empty (depth + 1)) as [[nested ne] w'] eqn:Hg.
    destruct (keys_fields depth fs empty) as [[ks2 e2] r2] eqn:Hf2. simplify_eq.
    destruct (Hw _ _ _ _ _ Hpk Hdk Hg) as (Hn1 & Hn2 & Hn3).
    apply field_keys_cons; try done; [by eapply IHf|by apply cleanUpList_NoDup|].
    intros nk Hin. by apply Hn2, (cleanUpList_sub _ ne).
Qed.

(** ** Masking keeps the shape of a value *)

Definition same_shape (v v' : value) : Prop :=
  distinct_keys v' = distinct_keys v /\ forall p, not_cut v' p = not_cut v p.

Lemma same_shape_refl v : same_shape v v.
Proof. done. Qed.

Lemma same_shape_fields fs fs' :
  Forall2 (fun kw kw' => kw'.1 = kw.1 /\ same_shape kw.2 kw'.2) fs fs' ->
  same_shape (VStruct fs) (VStruct fs').
Proof.
  intros HF.
  assert (map fst fs' = map fst fs) as Hm by (induction HF as [|? ? ? ? [? _] _ IH]; simpl; congruence).
  split.
  - simpl. rewrite Hm. f_equal.
    clear Hm. induction HF as [|? ? ? ? [_ [Hd _]] _ IH]; simpl; [done|]. by rewrite Hd, IH.
  - intros [|key rest]; [done|]. cbn [not_cut]. clear Hm.
    induction HF as [|[k w] [k' w'] fs fs' [Hk [_ Hw]] _ IH]; simpl in *; [done|]. subst k'.
    case_bool_decide; [apply Hw|apply IH].
Qed.

Lemma mask_shape (v : value) :
  forall path s0 depth v' s, maskPbValue v path s0 depth = Returns (v', s) -> same_shape v v'.
Proof.
  unfold maskPbValue.
  induction v as [| |n|s1|b|fs IH|items _] using value_ind'; intros path s0 depth v' s Hm.
  1-5,7: simpl in Hm; simplify_eq; apply same_shape_refl.
  rewrite walk_key_struct in Hm. case_match; [simplify_eq; apply same_shape_refl|].
  apply unless_panic_Returns in Hm as ([r o] & Hm & Hr). simpl in Hr. simplify_eq. apply same_shape_fields.
  clear H. revert s0 r Hm. induction IH as [|[k w] fs Hw HF IHf]; intros s0 r Hm; simpl in Hm.
  { simplify_eq. constructor. }
  destruct path as [|key rest]; [done|]. apply unless_panic_Returns in Hm as ([w' s1] & Hw' & Hm).
  apply unless_panic_Returns in Hm as ([r' s2] & Hm & Hr). simpl in Hm, Hr. simplify_eq.
  constructor; [|by eapply IHf]. split; [done|]. simpl in Hw |- *.
  case_bool_decide; simpl in Hw'; [|simplify_eq; apply same_shape_refl].
  destruct w as [| | |sv| |fw|]; try (simplify_eq; apply same_shape_refl).
  - simplify_eq. by split; [|intros []].
  - by eapply Hw.
Qed.

(** Without placeholders there is nothing to unmask. *)
Lemma unmask_clean (previous : fields) (w : value) :
  forall key, value_clean w = true -> unmask_value previous key w = w.
Proof.
  induction w as [| |n|s|b|fs IH|items IH] using value_ind'; intros key Hc; try done.
  - simpl in *. by case_bool_decide.
  - cbn [unmask_value]. rewrite UnmaskSecrets_struct. f_equal. cbn [value_clean] in Hc.
    rewrite no_placeholder_struct in Hc.
    revert Hc. induction IH as [|[k w] fs Hw HF IHf]; [done|]. simpl. intros [Hc1 Hc2]%andb_true_iff.
    f_equal; [by rewrite Hw|by apply IHf].
  - cbn [unmask_value]. f_equal. revert Hc. simpl. generalize 0.
    induction IH as [|w items Hw HF IHi]; intros i Hc; [done|]. simpl in Hc |- *.
    apply andb_true_iff in Hc as [Hc1 Hc2]. f_equal; [|by apply IHi].
    destruct w as [| | | | |fs|]; try done. by apply Hw.
Qed.

Lemma UnmaskSecrets_clean (previous : fields) (v : value) (prefix : string) :
  no_placeholder v = true -> UnmaskSecrets v previous prefix = v.
Proof. intros Hc. destruct v; try done. by apply (unmask_clean previous (VStruct fields)). Qed.

(** ** A template that names a struct *)

(** A struct with fields at the end of a path. *)
Definition struct_at (path : list string) (v : value) : Prop :=
  exists f fs, lookup_path v path = Some (VStruct (f :: fs)).

(** How a field may change in the walk. *)
Definition walked {O : Type} (act : string -> O -> value * O) (kw kw' : string * value) : Prop :=
  kw'.1 = kw.1 /\
  (kw'.2 = kw.2 \/ (exists s, kw.2 = VString s) \/
   exists path out depth o, walk_key act kw.2 path out depth = Returns (kw'.2, o)).

Lemma walk_fields_walked {O : Type} (act : string -> O -> value * O) path depth fs out r o :
  walk_fields act path depth fs out = Returns (r, o) -> Forall2 (walked act) fs r.
Proof.
  revert out r. induction fs as [|[k w] fs IH]; intros out r Hw; simpl in Hw; [by simplify_eq|].
  destruct path as [|key rest]; [done|]. apply unless_panic_Returns in Hw as ([w' o1] & Hw & Hr).
  apply unless_panic_Returns in Hr as ([r' o2] & Hr & He). simpl in Hr, He. simplify_eq.
  constructor; [|by eapply IH]. split; [done|]. simpl.
  case_bool_decide; simpl in Hw; [|left; congruence].
  destruct w; try (left; congruence); [right; left; eauto|right; right; eauto 10].
Qed.

Lemma walk_struct_at {O : Type} (act : string -> O -> value * O) (p : list string) :
  forall v path out depth v' o,
    walk_key act v path out depth = Returns (v', o) -> struct_at p v -> struct_at p v'.
Proof.
  induction p as [|key p IH]; intros v path out depth v' o Hw (f & fs & Hl); destruct v as [| | | | |vs|]; try done.
  all: rewrite walk_key_struct in Hw; case_match; [simplify_eq; by exists f, fs|].
  all: apply unless_panic_Returns in Hw as ([r o'] & Hw & He); simpl in He; simplify_eq.
  all: apply walk_fields_walked in Hw.
  - simpl in Hl. simplify_eq. apply Forall2_cons_inv_l in Hw as (f' & fs' & _ & _ & ->). by exists f', fs'.
  - cbn [lookup_path] in Hl. unfold struct_at. cbn [lookup_path].
    induction Hw as [|[k w] [k' w'] vs r [Hk Hw] _ IHw]; simpl in *; [done|]. subst k'.
    case_bool_decide; [|by apply IHw]. simpl in *.
    destruct Hw as [->|[[s ->]|(path' & out' & d' & o1 & Hw)]].
    + by exists f, fs.
    + by destruct p.
    + eapply IH; [exact Hw|by exists f, fs].
Qed.

Lemma depth_ok {A : Type} (l : list A) (depth : Z) : depth + zlen l <= maxDepth -> (maxDepth <? depth) = false.
Proof. intros H. apply Z.ltb_ge. pose proof (zlen_nonneg l). lia. Qed.

(** The walk indexes an empty list of keys there. *)
Lemma walk_struct_panics {O : Type} (act : string -> O -> value * O) (path : list string) :
  forall v out depth,
    struct_at path v -> depth + zlen path <= maxDepth -> walk_key act v path out depth = Panics.
Proof.
  induction path as [|key rest IH]; intros v out depth (f & fs & Hl) Hlen; destruct v as [| | | | |vs|]; try done.
  all: rewrite walk_key_struct, (depth_ok _ _ Hlen).
  - simpl in Hl. simplify_eq. by destruct f.
  - cbn [lookup_path] in Hl. destruct (find_first _ vs) as [[k w]|] eqn:Hf; [|done].
    apply find_first_split in Hf as (fs1 & fs2 & -> & H1 & Hk). apply bool_decide_eq_true in Hk. simpl in Hk, Hl. subst k.
    assert (forall o, walk_key act w rest o (depth + 1) = Panics) as Hp.
    { intros o. apply IH; [by exists f, fs|]. rewrite zlen_cons in Hlen. lia. }
    assert (exists fw, w = VStruct fw) as [fw ->] by (destruct w, rest; naive_solver).
    replace (walk_fields act (key :: rest) depth (fs1 ++ (key, VStruct fw) :: fs2) out) with (@Panics (fields * O)); [done|].
    revert out. induction fs1 as [|[k w] fs1 IHf]; intros out; cbn [walk_fields app].
    + rewrite bool_decide_true by done. cbn [negb]. by rewrite Hp.
    + assert (bool_decide (k = key) = false) as -> by (apply (H1 (k, w)); left). cbn [negb unless_panic snd].
      rewrite <- IHf; [done|]. intros y Hy. apply H1. by right.
Qed.
End Facts.
