(* ===== verification/Nbi.v ===== *)
(** * The northbound service's own data

    [catalogclient.HelmApp] and the [Deployment] that the northbound handlers
    fill in from a request (internal/northbound/northbound.go), which is not
    the custom resource of the same name in [Types].

    Go maps that the code shares between objects and then writes to, the label
    maps of targets, live in a store and are referred to by a [mapref]. *)

From S2P Require Import Prelude GoStr Types PbStruct.

(** ** A store of label maps *)

Abbreviation store := (list (gmap string string)).

(** A [map\[string\]string] value: nil, or the address of a map. *)
Definition mapref : Type := option nat.

Definition mread (st : store) (r : mapref) : gmap string string :=
  match r with Some i => default ∅ (st !! i) | None => ∅ end.

Definition mmake (st : store) (m : gmap string string) : store * mapref :=
  (st ++ [m], Some (length st)).

(** [m\[k\] = v]: panics on nil. *)
Definition mwrite (st : store) (r : mapref) (k v : string) : maypanic store :=
  match r with
  | Some i => Returns (alter <[k := v]> i st)
  | None => Panics
  end.

Module catalogclient.

Record ParameterTemplate : Type := mkTemplate {
  pt_name : string;
  pt_display_name : string;
  pt_type : string;
  pt_mandatory : bool;
  pt_secret : bool
}.

Record RequiredDeploymentPackage : Type := mkRequired {
  rq_name : string;
  rq_version : string;
  rq_profile : string
}.

Record Credential : Type := mkCredential {
  cr_username : string;
  cr_password : string;
  cr_ca_certs : string
}.

(** [HelmApp]; the password and user name of [DockerCredential] are in
    [h_docker], whose certificates are not used. *)
Record HelmApp : Type := mkHelmApp {
  h_name : string;
  h_repo : string;
  h_image_registry : string;
  h_chart : string;
  h_version : string;
  h_profile : string;
  h_values : string;
  h_depends_on : list string;
  h_redeploy : bool;
  h_namespace : string;
  h_helm : Credential;
  h_docker : Credential;
  h_ignore : list IgnoreResource;
  h_required : list RequiredDeploymentPackage;
  h_templates : list ParameterTemplate
}.

Definition GetDeploymentPackageID (name version profile : string) : string :=
  name +:+ "/" +:+ version +:+ "/" +:+ profile.

Definition GetID (r : RequiredDeploymentPackage) : string :=
  GetDeploymentPackageID (rq_name r) (rq_version r) (rq_profile r).

End catalogclient.

(** ** The northbound [Deployment] *)

(** [deploymentpb.TargetClusters] *)
Record TargetClusters : Type := mkTC {
  tc_app : string;
  tc_labels : mapref;
  tc_cluster_id : string
}.

Section Nbi.
Context {num : Type}.

(** [deploymentpb.OverrideValues]; a nil [Values] is [None]. *)
Record OverrideValues : Type := mkOverride {
  ov_app : string;
  ov_namespace : string;
  ov_values : option (value num)
}.

(** [northbound.Deployment].  [ServiceExports] keeps the application names;
    the children are passed separately where they are used. *)
Record Deployment : Type := mkNDeployment {
  n_name : string;
  n_app_name : string;
  n_display_name : string;
  n_app_version : string;
  n_profile : string;
  n_deploy_id : string;
  n_type : string;
  n_project : string;
  n_value_secrets : gmap string string;
  n_profile_secrets : gmap string string;
  n_repo_secrets : gmap string string;
  n_image_secrets : gmap string string;
  n_namespace : string;
  n_apps : list catalogclient.HelmApp;
  n_overrides : list OverrideValues;
  n_masked : list OverrideValues;
  n_targets : list TargetClusters;
  n_all_target : option TargetClusters;
  n_forbids : bool;
  n_required : gmap string DeploymentPackageRef;
  n_active_project : string;
  n_exports : list string;
  n_network : string;
  n_namespaces : list NamespaceRes;
  n_template_secrets : gmap string string
}.

(** [d.TargetClusters = ts] *)
Definition set_targets (ts : list TargetClusters) (d : Deployment) : Deployment :=
  mkNDeployment (n_name d) (n_app_name d) (n_display_name d) (n_app_version d) (n_profile d)
    (n_deploy_id d) (n_type d) (n_project d) (n_value_secrets d) (n_profile_secrets d)
    (n_repo_secrets d) (n_image_secrets d) (n_namespace d) (n_apps d) (n_overrides d) (n_masked d)
    ts (n_all_target d) (n_forbids d) (n_required d) (n_active_project d) (n_exports d)
    (n_network d) (n_namespaces d) (n_template_secrets d).

(** [d.NetworkName = x] *)
Definition set_network (x : string) (d : Deployment) : Deployment :=
  mkNDeployment (n_name d) (n_app_name d) (n_display_name d) (n_app_version d) (n_profile d)
    (n_deploy_id d) (n_type d) (n_project d) (n_value_secrets d) (n_profile_secrets d)
    (n_repo_secrets d) (n_image_secrets d) (n_namespace d) (n_apps d) (n_overrides d) (n_masked d)
    (n_targets d) (n_all_target d) (n_forbids d) (n_required d) (n_active_project d) (n_exports d)
    x (n_namespaces d) (n_template_secrets d).

(** [d.OverrideValues], [d.OverrideValuesMasked] and [d.ParameterTemplateSecrets] *)
Definition set_overrides (plain masked : list OverrideValues) (secrets : gmap string string)
    (d : Deployment) : Deployment :=
  mkNDeployment (n_name d) (n_app_name d) (n_display_name d) (n_app_version d) (n_profile d)
    (n_deploy_id d) (n_type d) (n_project d) (n_value_secrets d) (n_profile_secrets d)
    (n_repo_secrets d) (n_image_secrets d) (n_namespace d) (n_apps d) plain masked
    (n_targets d) (n_all_target d) (n_forbids d) (n_required d) (n_active_project d) (n_exports d)
    (n_network d) (n_namespaces d) secrets.
End Nbi.
Arguments OverrideValues num : clear implicits.
Arguments Deployment num : clear implicits.
