(* ===== verification/Templates.v ===== *)
(** * [checkParameterTemplate]: mandatory and secret override values

    The application's parameter templates are checked against the override
    values of a request: values are converted to the template's type, missing
    mandatory values are reported, and secret ones are masked and collected. *)

From S2P Require Import Prelude GoStr Types PbStruct Nbi.
Import catalogclient.

Section Templates.
Context {num : Type} (num_of_int : Z -> num).
(** [json.Marshal] of a map *)
Context (marshal : gmap string string -> res string).

Abbreviation OverrideValues := (OverrideValues num).
Abbreviation Deployment := (Nbi.Deployment num).

(** One pass over the override values of an application, changing the values
    in place; a nil struct is dereferenced. *)
Fixpoint each_override {O : Type} (act : value num -> O -> maypanic (value num * O)) (app : string)
    (ovs : list OverrideValues) (out : O) : maypanic (list OverrideValues * O) :=
  match ovs with
  | [] => Returns ([], out)
  | ov :: ovs' =>
      if bool_decide (ov_app ov = app) then
        match ov_values ov with
        | None => Panics
        | Some v => unless_panic (act v out) (fun vo =>
            unless_panic (each_override act app ovs' vo.2) (fun r =>
              Returns (mkOverride (ov_app ov) (ov_namespace ov) (Some vo.1) :: r.1, r.2)))
        end
      else unless_panic (each_override act app ovs' out) (fun r => Returns (ov :: r.1, r.2))
  end.

(** The local variables of the two loops. *)
Record progress : Type := mkProgress {
  t_plain : list OverrideValues;              (* d.OverrideValues *)
  t_masked : list OverrideValues;             (* d.OverrideValuesMasked *)
  t_secrets : gmap string string;             (* appSecretVals *)
  t_added : bool;                             (* addedToNotFoundApp *)
  t_not_found : list string                   (* notFoundApp *)
}.

(** One template, and the keys the request gave for the application. *)
Definition check_template (app : string) (keys : list string) (t : progress) (val : ParameterTemplate) :
    maypanic progress :=
  let path := split (pt_name val) "." in
  let given := List.filter (fun k => bool_decide (k = pt_name val)) keys in
  unless_panic
    (mfold (fun plain _ =>
       unless_panic (each_override (fun v _ => unless_panic (updatePbValue num_of_int v path 0 "" (pt_type val) 0)
                                               (fun r => Returns (r.1, tt))) app plain tt)
         (fun r => Returns r.1)) (t_plain t) given)
    (fun plain =>
  let missing := pt_mandatory val && bool_decide (given = []) && negb (t_added t) in
  let added := t_added t || missing in
  let not_found := if missing then t_not_found t ++ [app] else t_not_found t in
  if pt_secret val then
    unless_panic
      (mfold (fun ms _ =>
         unless_panic (each_override (fun v (sv : string * gmap string string) =>
             unless_panic (maskPbValue v path sv.1 0) (fun r =>
               Returns (r.1, (r.2, <[pt_name val := r.2]> sv.2)))) app ms.1 ("", ms.2))
           (fun r => Returns (r.1, r.2.2))) (t_masked t, t_secrets t) given)
      (fun ms => Returns (mkProgress plain ms.1 ms.2 added not_found))
  else Returns (mkProgress plain (t_masked t) (t_secrets t) added not_found)).

(** One application: [inr] once [json.Marshal] has failed. *)
Definition check_app (allOverrideKeys : gmap string (list string))
    (s : progress * gmap string string * option gerror) (app : HelmApp) :
    maypanic (progress * gmap string string * option gerror) :=
  match s with
  | (_, _, Some _) => Returns s
  | (t, secrets, None) =>
      let keys := default [] (allOverrideKeys !! h_name app) in
      unless_panic
        (mfold (check_template (h_name app) keys)
           (mkProgress (t_plain t) (t_masked t) ∅ false (t_not_found t)) (h_templates app))
        (fun t' =>
           if bool_decide (t_secrets t' = ∅) then Returns (t', secrets, None)
           else match marshal (t_secrets t') with
                | Err e => Returns (t', secrets, Some (mkErr KInvalid ("Error: " +:+ e_msg e)))
                | Ok js => Returns (t', <[h_name app := js]> secrets, None)
                end)
  end.

(** The error that names the applications with missing values: several are
    listed last first. *)
Definition missing_values (notFoundApp : list string) : option gerror :=
  match notFoundApp with
  | [] => None
  | [app] => Some (mkErr KInvalid ("application " +:+ app +:+ " is missing mandatory override profile values"))
  | _ =>
      let notFoundAppStr := trim_suffix (foldl (fun acc v => v +:+ ", " +:+ acc) "" notFoundApp) ", " in
      Some (mkErr KInvalid ("applications " +:+ notFoundAppStr +:+
                            " are missing mandatory override profile values"))
  end.

(** The originals become [OverrideValuesMasked], copies of them [OverrideValues]. *)
Definition checkParameterTemplate (d : Deployment) (allOverrideKeys : gmap string (list string)) :
    maypanic (Deployment * option gerror) :=
  let original := n_overrides d in
  unless_panic
    (mfold (check_app allOverrideKeys) (mkProgress original original ∅ false [], ∅, None) (n_apps d))
    (fun '(t, secrets, err) =>
       Returns (set_overrides (t_plain t) (t_masked t) secrets d,
                match err with Some e => Some e | None => missing_values (t_not_found t) end)).

End Templates.
