(* ===== verification/TemplatesFacts.v ===== *)
(** * [checkParameterTemplate]: what is masked can be unmasked, what is missing
      is reported, and where it panics *)

From S2P Require Import Prelude GoStr Types PbStruct PbStructFacts Nbi Templates.
Import catalogclient.

Section Facts.
Context {num : Type} (num_of_int : Z -> num).
Context (marshal : gmap string string -> res string).

Abbreviation OverrideValues := (OverrideValues num).
Abbreviation Deployment := (Nbi.Deployment num).

(** The stored secrets of an application, read back as a struct. *)
Definition secret_fields (m : gmap string string) : list (string * value num) :=
  map (fun kv => (kv.1, VString kv.2)) (map_to_list m).

Lemma previous_string_secrets (m : gmap string string) (k : string) :
  previous_string (secret_fields m) k = m !! k.
Proof.
  unfold previous_string, secret_fields.
  assert (forall l : list (string * string),
    find_first (fun kv : string * value num => bool_decide (kv.1 = k)) (map (fun kv => (kv.1, VString kv.2)) l) =
    option_map (fun kv => (kv.1, VString kv.2)) (find_first (fun kv => bool_decide (kv.1 = k)) l)) as ->.
  { induction l as [|[a b] l IH]; [done|]. simpl. by case_bool_decide. }
  destruct (find_first _ (map_to_list m)) as [[a b]|] eqn:Hf; simpl.
  - apply find_first_Some in Hf as [Hin Ha]. apply elem_of_map_to_list in Hin.
    apply bool_decide_eq_true in Ha. simpl in Ha. by subst a.
  - symmetry. apply not_elem_of_dom. intros [b Hb]%elem_of_dom. rewrite find_first_None in Hf.
    apply elem_of_map_to_list in Hb. apply Hf in Hb. by rewrite bool_decide_true in Hb.
Qed.

Lemma secrets_extend (m : gmap string string) (name s : string) :
  extends (secret_fields m) (secret_fields (<[name := s]> m)) name.
Proof. intros k Hk. rewrite !previous_string_secrets. by rewrite lookup_insert_ne. Qed.

(** ** One pass over the overrides of an application *)

Lemma each_override_absent {O : Type} (act : value num -> O -> maypanic (value num * O)) app ovs out :
  app ∉ map ov_app ovs -> each_override act app ovs out = Returns (ovs, out).
Proof.
  induction ovs as [|ov ovs IH]; simpl; intros Hn; [done|]. apply not_elem_of_cons in Hn as [Ha Hn].
  rewrite bool_decide_false by done. by rewrite IH.
Qed.

Lemma each_override_present {O : Type} (act : value num -> O -> maypanic (value num * O)) l1 ov l2 out :
  ov_app ov ∉ map ov_app l1 -> ov_app ov ∉ map ov_app l2 ->
  each_override act (ov_app ov) (l1 ++ ov :: l2) out =
  match ov_values ov with
  | None => Panics
  | Some v => unless_panic (act v out) (fun vo =>
      Returns (l1 ++ mkOverride (ov_app ov) (ov_namespace ov) (Some vo.1) :: l2, vo.2))
  end.
Proof.
  intros H1 H2. induction l1 as [|o l1 IH]; simpl in *.
  - rewrite bool_decide_true by done. destruct (ov_values ov); [|done]. apply unless_panic_ext. intros vo.
    by rewrite each_override_absent.
  - apply not_elem_of_cons in H1 as [Ho H1]. rewrite bool_decide_false by done. rewrite IH by done.
    destruct (ov_values ov); [|done]. rewrite unless_panic_assoc. by apply unless_panic_ext.
Qed.

Lemma overrides_split (app : string) (ovs : list OverrideValues) :
  NoDup (map ov_app ovs) ->
  app ∉ map ov_app ovs \/ exists l1 ov l2, ovs = l1 ++ ov :: l2 /\ ov_app ov = app /\
                            app ∉ map ov_app l1 /\ app ∉ map ov_app l2.
Proof.
  induction ovs as [|o ovs IH]; simpl; intros Hnd; [left; apply not_elem_of_nil|].
  apply NoDup_cons in Hnd as [Ho Hnd]. destruct (decide (app = ov_app o)) as [->|Hne].
  { right. exists [], o, ovs. repeat split; try done. apply not_elem_of_nil. }
  destruct (IH Hnd) as [H|(l1 & ov & l2 & -> & Ha & H1 & H2)]; [left; by apply not_elem_of_cons|right].
  exists (o :: l1), ov, l2. repeat split; try done. by apply not_elem_of_cons.
Qed.

(** A key is given once or not at all. *)
Lemma given_once (name : string) (keys : list string) :
  NoDup keys ->
  List.filter (fun k => bool_decide (k = name)) keys = if bool_decide (name ∈ keys) then [name] else [].
Proof.
  induction keys as [|k keys IH]; simpl; intros Hnd; [done|]. apply NoDup_cons in Hnd as [Hk Hnd].
  rewrite (IH Hnd). destruct (decide (k = name)) as [->|Hne].
  - rewrite (bool_decide_true (name = name)), (bool_decide_false (name ∈ keys)), bool_decide_true by (done || left).
    done.
  - rewrite (bool_decide_false (k = name)) by done.
    by rewrite (bool_decide_ext (name ∈ k :: keys) (name ∈ keys)) by (rewrite elem_of_cons; naive_solver).
Qed.

(** ** Masking the secrets of one application *)

(** The masked value unmasks to the original, given the secrets collected. *)
Definition masked_inv (v v' : value num) (m : gmap string string) : Prop :=
  UnmaskSecrets v' (secret_fields m) "" = v /\ same_shape v v'.

Lemma masked_inv_step v v' m name v'' s :
  masked_inv v v' m -> m !! name = None -> no_placeholder v = true -> distinct_keys v = true ->
  has_prefix name "." = false -> not_cut v (split name ".") = true ->
  maskPbValue v' (split name ".") "" 0 = Returns (v'', s) ->
  masked_inv v v'' (<[name := s]> m).
Proof.
  intros [Hu [Hd Hc]] Hn Hp Hdk Hpre Hcut Hm. split.
  - rewrite <- Hu. rewrite <- Hu in Hp.
    apply (mask_step name (secret_fields m) (secret_fields (<[name := s]> m)) s "") with (split name ".") 0.
    + apply secrets_extend.
    + by rewrite previous_string_secrets.
    + rewrite previous_string_secrets. by rewrite lookup_insert_eq.
    + by apply path_key_split.
    + by rewrite Hc.
    + by rewrite Hd.
    + done.
    + done.
  - apply mask_shape in Hm as [Hd' Hc']. split; [by rewrite Hd'|]. intros p. by rewrite Hc'.
Qed.

(** The overrides as the template loop of one application changes them. *)
Definition loop_inv (app : string) (ms0 ms : list OverrideValues) (m : gmap string string) : Prop :=
  (app ∉ map ov_app ms0 /\ ms = ms0 /\ m = ∅) \/
  exists l1 ov l2, ms0 = l1 ++ ov :: l2 /\ ov_app ov = app /\ app ∉ map ov_app l1 /\ app ∉ map ov_app l2 /\
    match ov_values ov with
    | None => ms = ms0 /\ m = ∅
    | Some v => exists v', ms = l1 ++ mkOverride app (ov_namespace ov) (Some v') :: l2 /\ masked_inv v v' m
    end.

(** What the request promises of the override values of an application. *)
Definition values_ok (keys : list string) (v : value num) : Prop :=
  keys_ok keys v /\ no_placeholder v = true.

Lemma masked_inv_refl v : no_placeholder v = true -> masked_inv v v ∅.
Proof. intros Hp. split; [by apply UnmaskSecrets_clean|apply same_shape_refl]. Qed.

(** What the request promises of an application's override values. *)
Definition app_ok (app : string) (keys : list string) (ovs : list OverrideValues) : Prop :=
  NoDup keys /\ forall ov v, ov ∈ ovs -> ov_app ov = app -> ov_values ov = Some v -> values_ok keys v.

Lemma loop_inv_init app ms0 keys :
  NoDup (map ov_app ms0) -> app_ok app keys ms0 -> loop_inv app ms0 ms0 ∅.
Proof.
  intros Hnd [_ Hok]. destruct (overrides_split app ms0 Hnd) as [Ha|(l1 & ov & l2 & Hms & Ha & H1 & H2)];
    [by left|right]. exists l1, ov, l2. repeat split; try done. destruct (ov_values ov) as [v|] eqn:Hv; [|done].
  exists v. split; [rewrite Hms; f_equal; f_equal; destruct ov; simpl in *; by subst|].
  apply masked_inv_refl. apply (Hok ov); [|done..]. rewrite Hms. apply elem_of_app. right. left.
Qed.

(** One secret template. *)
Lemma loop_inv_mask app ms0 ms m keys name ms' sm :
  app_ok app keys ms0 -> name ∈ keys -> m !! name = None -> loop_inv app ms0 ms m ->
  each_override (fun v (sv : string * gmap string string) =>
    unless_panic (maskPbValue v (split name ".") sv.1 0) (fun r =>
      Returns (r.1, (r.2, <[name := r.2]> sv.2)))) app ms ("", m) = Returns (ms', sm) ->
  loop_inv app ms0 ms' sm.2 /\ (forall k, is_Some (sm.2 !! k) -> is_Some (m !! k) \/ k = name).
Proof.
  intros [Hkeys Hok] Hin Hn [(Ha & -> & ->)|(l1 & ov & l2 & -> & Ha & H1 & H2 & Hv)] He.
  { rewrite each_override_absent in He by done. simplify_eq. split; [by left|eauto]. }
  destruct (ov_values ov) as [v|] eqn:Hov.
  - destruct Hv as (v' & -> & Hinv).
    destruct (Hok ov v) as [(Hnd & Hk & Hd) Hp]; [apply elem_of_app; right; left|done..|].
    destruct (Hk name Hin) as [Hpre Hcut].
    pose proof (each_override_present (fun v (sv : string * gmap string string) =>
      unless_panic (maskPbValue v (split name ".") sv.1 0) (fun r =>
        Returns (r.1, (r.2, <[name := r.2]> sv.2)))) l1 (mkOverride app (ov_namespace ov) (Some v')) l2 ("", m)) as Hpr.
    cbn [ov_app ov_values ov_namespace fst snd] in Hpr. rewrite Hpr in He by done.
    rewrite unless_panic_assoc in He. apply unless_panic_Returns in He as ([v'' s] & Hm & He).
    simpl in He. simplify_eq. split.
    + right. exists l1, ov, l2. rewrite Hov. repeat split; try done. exists v''. split; [done|].
      by apply (masked_inv_step v v' m name v'' s).
    + intros k. simpl. destruct (decide (k = name)) as [->|Hne]; [by right|]. rewrite lookup_insert_ne by done. by left.
  - destruct Hv as [-> ->]. rewrite <- Ha in He. rewrite each_override_present in He by (rewrite Ha; done).
    by rewrite Hov in He.
Qed.

Lemma check_template_inv app ms0 keys t val t' :
  app_ok app keys ms0 -> t_secrets t !! pt_name val = None -> loop_inv app ms0 (t_masked t) (t_secrets t) ->
  check_template num_of_int app keys t val = Returns t' ->
  loop_inv app ms0 (t_masked t') (t_secrets t') /\
  (forall k, is_Some (t_secrets t' !! k) -> is_Some (t_secrets t !! k) \/ k = pt_name val).
Proof.
  intros Hok Hn Hinv Hc. unfold check_template in Hc. apply unless_panic_Returns in Hc as (plain & _ & Hc).
  destruct (pt_secret val); [|simplify_eq; eauto].
  apply unless_panic_Returns in Hc as (ms & Hm & Hc). simplify_eq. cbn [t_masked t_secrets].
  rewrite given_once in Hm by apply Hok. case_bool_decide as Hin; simpl in Hm; [|simplify_eq; eauto].
  apply unless_panic_Returns in Hm as (ms1 & Hm & Hr). simplify_eq.
  apply unless_panic_Returns in Hm as ([ms2 [s2 m2]] & Hm & Hr). simpl in Hr. simplify_eq. simpl.
  by apply (loop_inv_mask app ms0 (t_masked t) (t_secrets t) keys (pt_name val) ms2 (s2, m2)).
Qed.

Lemma templates_inv app ms0 keys vals t t' :
  app_ok app keys ms0 -> NoDup (map pt_name vals) ->
  (forall val, val ∈ vals -> t_secrets t !! pt_name val = None) ->
  loop_inv app ms0 (t_masked t) (t_secrets t) ->
  mfold (check_template num_of_int app keys) t vals = Returns t' ->
  loop_inv app ms0 (t_masked t') (t_secrets t').
Proof.
  revert t. induction vals as [|val vals IH]; intros t Hok Hnd Hn Hinv Hf; simpl in *; [by simplify_eq|].
  apply unless_panic_Returns in Hf as (t1 & Ht1 & Hf). apply NoDup_cons in Hnd as [Hv Hnd].
  destruct (check_template_inv app ms0 keys t val t1 Hok (Hn val ltac:(left)) Hinv Ht1) as [H1 H2].
  apply (IH t1); try done. intros val' Hin. destruct (t_secrets t1 !! pt_name val') as [x|] eqn:Hx; [|done].
  destruct (H2 (pt_name val')) as [[y Hy]|Heq]; [by eauto| |].
  - rewrite (Hn val') in Hy; [done|by right].
  - exfalso. apply Hv. rewrite <- Heq. apply list_elem_of_fmap. eauto.
Qed.

(** ** All applications *)

(** The masked override [ov'] and the secrets stored for its application give
    the override [ov] back. *)
Definition restored (secrets : gmap string string) (ov ov' : OverrideValues) : Prop :=
  ov_app ov' = ov_app ov /\ ov_namespace ov' = ov_namespace ov /\
  exists m : gmap string string,
    match ov_values ov, ov_values ov' with
    | Some v, Some v' => UnmaskSecrets v' (secret_fields m) "" = v
    | None, None => True
    | _, _ => False
    end /\
    (if bool_decide (m = ∅) then secrets !! ov_app ov = None
     else exists js, marshal m = Ok js /\ secrets !! ov_app ov = Some js).

Definition apps_inv (seen : list string) (ovs0 ms : list OverrideValues) (secrets : gmap string string) : Prop :=
  Forall2 (fun ov ov' => ov_app ov' = ov_app ov /\
             if bool_decide (ov_app ov ∈ seen) then restored secrets ov ov' else ov' = ov) ovs0 ms /\
  forall a, a ∉ seen -> secrets !! a = None.

(** The secrets after an application. *)
Definition stored (app : string) (m secrets secrets' : gmap string string) : Prop :=
  if bool_decide (m = ∅) then secrets' = secrets
  else exists js, marshal m = Ok js /\ secrets' = <[app := js]> secrets.

Lemma stored_other app m secrets secrets' a :
  stored app m secrets secrets' -> a <> app -> secrets' !! a = secrets !! a.
Proof.
  unfold stored. case_bool_decide; [by intros ->|]. intros (js & _ & ->) Ha. by rewrite lookup_insert_ne.
Qed.

Lemma stored_same app m secrets secrets' :
  stored app m secrets secrets' -> secrets !! app = None ->
  if bool_decide (m = ∅) then secrets' !! app = None
  else exists js, marshal m = Ok js /\ secrets' !! app = Some js.
Proof.
  unfold stored. case_bool_decide; [by intros ->|]. intros (js & Hm & ->) _. exists js.
  by rewrite lookup_insert_eq.
Qed.

(** Overrides of other applications are not affected by a further one. *)
Lemma other_overrides app m seen secrets secrets' (l l' : list OverrideValues) :
  stored app m secrets secrets' -> app ∉ map ov_app l ->
  Forall2 (fun ov ov' => ov_app ov' = ov_app ov /\
             if bool_decide (ov_app ov ∈ seen) then restored secrets ov ov' else ov' = ov) l l' ->
  Forall2 (fun ov ov' => ov_app ov' = ov_app ov /\
             if bool_decide (ov_app ov ∈ app :: seen) then restored secrets' ov ov' else ov' = ov) l l'.
Proof.
  intros Hs Hn HF. induction HF as [|ov ov' l l' [Ha Hov] HF IH]; constructor.
  - apply not_elem_of_cons in Hn as [Hne Hn]. split; [done|].
    rewrite (bool_decide_ext (ov_app ov ∈ app :: seen) (ov_app ov ∈ seen)) by (rewrite elem_of_cons; naive_solver).
    case_bool_decide; [|done]. unfold restored. by rewrite (stored_other app m secrets).
  - apply IH. by apply not_elem_of_cons in Hn as [_ Hn].
Qed.

Lemma apps_inv_map seen ovs0 ms secrets :
  apps_inv seen ovs0 ms secrets -> map ov_app ms = map ov_app ovs0.
Proof. intros [HF _]. induction HF as [|? ? ? ? [Ha _] _ IH]; simpl; congruence. Qed.

Lemma apps_inv_step app seen ovs0 ms ms' m secrets secrets' :
  apps_inv seen ovs0 ms secrets -> app ∉ seen -> loop_inv app ms ms' m -> stored app m secrets secrets' ->
  apps_inv (app :: seen) ovs0 ms' secrets'.
Proof.
  intros Hinv Hns Hl Hs. pose proof (apps_inv_map _ _ _ _ Hinv) as Hmap. destruct Hinv as [HF Hnone].
  split; [|intros a Ha; apply not_elem_of_cons in Ha as [H1 H2]; rewrite (stored_other app m secrets); auto].
  destruct Hl as [(Ha & -> & ->)|(l1 & ov & l2 & -> & Ha & H1 & H2 & Hv)].
  - rewrite Hmap in Ha. by apply (other_overrides app ∅ seen secrets).
  - apply Forall2_app_inv_r in HF as (k1 & k2' & HF1 & HF2 & ->).
    apply Forall2_cons_inv_r in HF2 as (o & k2 & [Hao Ho] & HF2 & ->).
    rewrite map_app in Hmap. simpl in Hmap. rewrite map_app in Hmap. simpl in Hmap.
    apply app_inj_1 in Hmap as [Hm1 [= _ Hm2]]; [|by rewrite !length_map, (Forall2_length _ _ _ HF1)].
    rewrite bool_decide_false in Ho by (rewrite <- Hao, Ha; done). subst o.
    pose proof (stored_same app m secrets secrets' Hs (Hnone app Hns)) as Hst.
    assert (exists ov', ms' = l1 ++ ov' :: l2 /\ ov_app ov' = ov_app ov /\ restored secrets' ov ov') as (ov' & -> & Ha' & Hr).
    { unfold restored. destruct (ov_values ov) as [v|] eqn:Hov.
      - destruct Hv as (v' & -> & [Hu _]). exists (mkOverride app (ov_namespace ov) (Some v')).
        split; [done|]. split; [by rewrite Ha|]. rewrite Ha. split; [done|]. split; [done|]. exists m. by simpl.
      - destruct Hv as [-> ->]. exists ov. repeat split; try done. exists ∅. rewrite Hov, Ha. by split. }
    apply Forall2_app; [by apply (other_overrides app m seen secrets); [..|rewrite <- Hm1|]|].
    constructor; [|by apply (other_overrides app m seen secrets); [..|rewrite <- Hm2|]].
    split; [done|]. rewrite bool_decide_true; [done|]. rewrite Ha. left.
Qed.

(** A request whose secrets are kept: one entry of override values per
    application, one application per name and one template per name, the keys
    found in the values, whose maps have distinct keys without dots, and no
    placeholder left in them.  The code does not check this. *)
Record request_ok (d : Deployment) (allOverrideKeys : gmap string (list string)) : Prop := {
  one_override : NoDup (map ov_app (n_overrides d));
  one_app : NoDup (map h_name (n_apps d));
  one_template : forall app, app ∈ n_apps d -> NoDup (map pt_name (h_templates app));
  keys_found : forall ov v, ov ∈ n_overrides d -> ov_values ov = Some v ->
    no_placeholder v = true /\
    exists raw empty, plain_keys raw = true /\ distinct_keys raw = true /\
      getAllPbStructKeys raw [] 0 = (default [] (allOverrideKeys !! ov_app ov), empty, v);
  keys_only : forall app, is_Some (allOverrideKeys !! app) ->
    exists ov v, ov ∈ n_overrides d /\ ov_app ov = app /\ ov_values ov = Some v
}.

Lemma request_app_ok d allOverrideKeys app seen ms secrets :
  request_ok d allOverrideKeys -> app ∉ seen -> apps_inv seen (n_overrides d) ms secrets ->
  app_ok app (default [] (allOverrideKeys !! app)) ms /\ NoDup (map ov_app ms).
Proof.
  intros Hreq Hns Hinv. rewrite (apps_inv_map _ _ _ _ Hinv). split; [|apply Hreq].
  assert (forall ov v, ov ∈ n_overrides d -> ov_app ov = app -> ov_values ov = Some v ->
            values_ok (default [] (allOverrideKeys !! app)) v) as Hv.
  { intros ov v Hin Ha Hov. destruct (keys_found _ _ Hreq ov v Hin Hov) as (Hp & raw & e & Hpl & Hd & Hg).
    rewrite Ha in Hg. split; [by eapply keys_of_struct|done]. }
  split.
  - destruct (allOverrideKeys !! app) as [ks|] eqn:Hks; [|apply NoDup_nil_2].
    destruct (keys_only _ _ Hreq app) as (ov & v & Hin & Ha & Hov); [by rewrite Hks|].
    by apply (Hv ov v).
  - intros ov v Hin Ha Hov. destruct Hinv as [HF _].
    destruct (proj1 (list_elem_of_lookup _ _) Hin) as [i Hi].
    destruct (Forall2_lookup_r _ _ _ _ _ HF Hi) as (o & Ho & Hao & Hoo).
    rewrite bool_decide_false in Hoo by (rewrite <- Hao, Ha; done). subst o.
    apply (Hv ov v); [|done..]. by apply (list_elem_of_lookup_2 _ i).
Qed.

Lemma check_apps_error allOverrideKeys apps t secrets e s :
  mfold (check_app num_of_int marshal allOverrideKeys) (t, secrets, Some e) apps = Returns s -> s.2 = Some e.
Proof. induction apps as [|app apps IH]; simpl; intros H; [by simplify_eq|auto]. Qed.

Lemma check_apps_inv d allOverrideKeys apps seen t secrets t' secrets' :
  request_ok d allOverrideKeys ->
  apps_inv seen (n_overrides d) (t_masked t) secrets ->
  NoDup (map h_name apps) -> (forall app, app ∈ apps -> h_name app ∉ seen /\ NoDup (map pt_name (h_templates app))) ->
  mfold (check_app num_of_int marshal allOverrideKeys) (t, secrets, None) apps = Returns (t', secrets', None) ->
  apps_inv (rev (map h_name apps) ++ seen) (n_overrides d) (t_masked t') secrets'.
Proof.
  intros Hreq. revert seen t secrets. induction apps as [|app apps IH]; intros seen t secrets Hinv Hnd Happs Hf.
  { simpl in Hf. by simplify_eq. }
  simpl in Hf, Hnd. apply NoDup_cons in Hnd as [Ha Hnd].
  rewrite unless_panic_assoc in Hf. apply unless_panic_Returns in Hf as (t1 & Ht & Hf).
  destruct (Happs app ltac:(left)) as [Hns Hpt].
  destruct (request_app_ok d allOverrideKeys (h_name app) seen (t_masked t) secrets Hreq Hns Hinv) as [Hok Hms].
  assert (loop_inv (h_name app) (t_masked t) (t_masked t1) (t_secrets t1)) as Hloop.
  { eapply templates_inv; [exact Hok|exact Hpt| | |exact Ht]; [intros; apply lookup_empty|].
    by apply (loop_inv_init _ _ (default [] (allOverrideKeys !! h_name app))). }
  assert (exists secrets1, stored (h_name app) (t_secrets t1) secrets secrets1 /\
    mfold (check_app num_of_int marshal allOverrideKeys) (t1, secrets1, None) apps = Returns (t', secrets', None))
    as (secrets1 & Hst & Hf1).
  { unfold stored. case_bool_decide; simpl in Hf; [eauto|].
    destruct (marshal (t_secrets t1)) as [js|e]; simpl in Hf; [by eauto 10|]. by apply check_apps_error in Hf. }
  cbn [map rev]. rewrite <- app_assoc. apply (IH _ t1 secrets1); [|done| |done].
  - by apply (apps_inv_step _ _ _ (t_masked t) _ (t_secrets t1) secrets).
  - intros app' Hin. destruct (Happs app' ltac:(by right)) as [H1 H2]. split; [|done].
    apply not_elem_of_cons. split; [|done]. intros Heq. apply Ha. rewrite <- Heq. apply list_elem_of_fmap. eauto.
Qed.

(** C5: masking loses nothing, for a request in which names are unique: every
    application has at most one entry of override values, no two applications of
    the package have the same name, no two templates of an application have
    the same name, the keys of the values have no dots and are distinct in each
    map, no value is the placeholder itself, and the keys are those that
    [getAllPbStructKeys] finds.  (None of this is checked by the code; with two
    entries for one application the request is accepted and the first one's secret
    is lost, [two_entries_lose_secrets].)  When [checkParameterTemplate] accepts such a request, the masked
    copy of every application's override values, together with the secrets
    stored for the application, gives the values back under [UnmaskSecrets],
    which is what an update does with the copy a client sends in again; the
    overrides of applications not in the package are left alone. *)
Theorem secrets_restored (d d' : Deployment) (allOverrideKeys : gmap string (list string))
  (H : request_ok d allOverrideKeys)
  (Hc : checkParameterTemplate num_of_int marshal d allOverrideKeys = Returns (d', None)) :
  Forall2 (fun ov ov' => if bool_decide (ov_app ov ∈ map h_name (n_apps d))
                         then restored (n_template_secrets d') ov ov' else ov' = ov)
          (n_overrides d) (n_masked d').
Proof.
  unfold checkParameterTemplate in Hc. apply unless_panic_Returns in Hc as ([[t secrets] err] & Hf & Hc).
  simplify_eq. destruct err as [e|]; [done|].
  destruct (check_apps_inv d allOverrideKeys (n_apps d) []
              (mkProgress (n_overrides d) (n_overrides d) ∅ false []) ∅ t secrets H) as [HF _]; try done.
  - split; [|done]. cbn [t_masked]. generalize (n_overrides d). intros l.
    induction l as [|ov l IH]; constructor; [|done]. by rewrite bool_decide_false by apply not_elem_of_nil.
  - apply H.
  - intros app Hin. split; [apply not_elem_of_nil|by apply H].
  - cbn [n_masked n_template_secrets set_overrides]. eapply Forall2_impl; [exact HF|]. cbn. intros ov ov' [_ Ho].
    rewrite (bool_decide_ext _ (ov_app ov ∈ rev (map h_name (n_apps d)) ++ []));
      [done|]. rewrite app_nil_r, !list_elem_of_In. apply in_rev.
Qed.

(** An entry of override values that gives the one key [k]. *)
Definition entry_of (app k s : string) : OverrideValues := mkOverride app "" (Some (VStruct [(k, VString s)])).

Lemma check_template_twice (app display k s1 s2 : string) (mandatory : bool) :
  dotless k = true ->
  check_template num_of_int app [k] (mkProgress [entry_of app k s1; entry_of app k s2] [entry_of app k s1; entry_of app k s2] ∅ false [])
    (mkTemplate k display "string" mandatory true) =
  Returns (mkProgress [entry_of app k s1; entry_of app k s2]
             [entry_of app k MaskedValuePlaceholder; entry_of app k MaskedValuePlaceholder] {[k := s2]} false []).
Proof.
  intros Hk. unfold check_template. cbn [pt_name pt_type pt_mandatory pt_secret]. rewrite (split_dotless k Hk).
  cbn. repeat (rewrite bool_decide_true by done; cbn). rewrite insert_insert_eq. by destruct mandatory.
Qed.

(** Two entries of one application, which both give the secret [k]: the request
    is accepted, both are masked, and only the second's value is
    stored, so that nothing of the first's is left. *)
Lemma two_entries_lose_secrets (d : Deployment) (app : HelmApp) (display k s1 s2 js : string) (mandatory : bool)
  (Hk : dotless k = true)
  (Hover : n_overrides d = [entry_of (h_name app) k s1; entry_of (h_name app) k s2])
  (Happs : n_apps d = [app]) (Htempl : h_templates app = [mkTemplate k display "string" mandatory true])
  (Hjs : marshal {[k := s2]} = Ok js) :
  exists d', checkParameterTemplate num_of_int marshal d {[h_name app := [k]]} = Returns (d', None) /\
    n_masked d' = [entry_of (h_name app) k MaskedValuePlaceholder; entry_of (h_name app) k MaskedValuePlaceholder] /\
    n_template_secrets d' = {[h_name app := js]}.
Proof.
  unfold checkParameterTemplate. rewrite Hover, Happs. eexists. cbn. rewrite Htempl, lookup_singleton_eq. cbn.
  rewrite check_template_twice by done. cbn. rewrite bool_decide_false by apply insert_non_empty. rewrite Hjs. by split_and!.
Qed.

(** ** A template that names a struct *)

(** An override of the application has a struct with fields at the path. *)
Definition has_struct (app : string) (path : list string) (ovs : list OverrideValues) : Prop :=
  exists ov v, ov ∈ ovs /\ ov_app ov = app /\ ov_values ov = Some v /\ struct_at path v.

Lemma each_override_panics {O : Type} (act : value num -> O -> maypanic (value num * O)) app path ovs out :
  (forall v out, struct_at path v -> act v out = Panics) ->
  has_struct app path ovs -> each_override act app ovs out = Panics.
Proof.
  intros Ha (ov & v & Hin & Happ & Hv & Hs). revert out. induction ovs as [|o ovs IH]; [by apply elem_of_nil in Hin|].
  intros out. simpl. apply elem_of_cons in Hin as [<-|Hin].
  - rewrite bool_decide_true by done. rewrite Hv. by rewrite Ha.
  - case_bool_decide; [|by rewrite IH]. destruct (ov_values o); [|done].
    destruct (act _ _) as [[w s]|]; simpl; [by rewrite IH|done].
Qed.

Lemma each_override_has_struct {O : Type} (act : value num -> O -> maypanic (value num * O)) app app' path ovs out ovs' o :
  (forall v out v' o, act v out = Returns (v', o) -> struct_at path v -> struct_at path v') ->
  each_override act app ovs out = Returns (ovs', o) -> has_struct app' path ovs -> has_struct app' path ovs'.
Proof.
  intros Ha He (ov & v & Hin & Happ & Hv & Hs). revert out ovs' He. induction ovs as [|o1 ovs IH]; [by apply elem_of_nil in Hin|].
  intros out ovs' He. simpl in He. apply elem_of_cons in Hin as [<-|Hin].
  - case_bool_decide.
    + rewrite Hv in He. apply unless_panic_Returns in He as ([v' s] & Hact & He).
      apply unless_panic_Returns in He as ([r s'] & _ & He). simpl in He. simplify_eq.
      eexists _, v'. split; [left|]. split; [done|]. split; [done|]. by eapply Ha.
    + apply unless_panic_Returns in He as ([r s'] & _ & He). simpl in He. simplify_eq.
      exists ov, v. split; [left|done].
  - assert (forall r, has_struct app' path r -> forall x, has_struct app' path (x :: r)) as Hcons.
    { intros r (ov1 & v1 & Hin1 & H1) x. exists ov1, v1. split; [by right|done]. }
    case_bool_decide.
    + destruct (ov_values o1); [|done]. apply unless_panic_Returns in He as ([v' s] & Hact & He).
      apply unless_panic_Returns in He as ([r s'] & Hr & He). simpl in He. simplify_eq. by eapply Hcons, IH.
    + apply unless_panic_Returns in He as ([r s'] & Hr & He). simpl in He. simplify_eq. by eapply Hcons, IH.
Qed.

Lemma check_template_has_struct app keys app' path t val t' :
  check_template num_of_int app keys t val = Returns t' ->
  has_struct app' path (t_plain t) -> has_struct app' path (t_plain t').
Proof.
  intros Hc Hp. unfold check_template in Hc. apply unless_panic_Returns in Hc as (plain & Hm & Hc).
  assert (has_struct app' path plain) as Hpl.
  { revert Hm. apply mfold_invariant; [|done]. intros k s s' _ Hs He.
    apply unless_panic_Returns in He as ([r []] & He & Hr). simplify_eq. simpl.
    eapply each_override_has_struct; [|exact He|exact Hs]. intros v out v' o Hact Hst. simpl in Hact.
    apply unless_panic_Returns in Hact as ([w wo] & Hw & Hact). simplify_eq. by eapply walk_struct_at. }
  destruct (pt_secret val); [|by simplify_eq].
  apply unless_panic_Returns in Hc as (ms & _ & Hc). by simplify_eq.
Qed.

Lemma check_template_panics app keys t val :
  pt_name val ∈ keys -> zlen (split (pt_name val) ".") <= maxDepth ->
  has_struct app (split (pt_name val) ".") (t_plain t) ->
  check_template num_of_int app keys t val = Panics.
Proof.
  intros Hin Hlen Hp. unfold check_template.
  destruct (List.filter (fun k => bool_decide (k = pt_name val)) keys) as [|k given] eqn:Hg.
  { apply list_elem_of_In in Hin. assert (In (pt_name val) (List.filter (fun k => bool_decide (k = pt_name val)) keys)) as H
      by (apply filter_In; by rewrite bool_decide_true). by rewrite Hg in H. }
  cbn [mfold]. rewrite (each_override_panics _ app (split (pt_name val) ".")); [done| |done].
  intros v [] Hs. unfold updatePbValue. by rewrite walk_struct_panics.
Qed.

(** An override value that is itself a tree, where the package's template
    asks for a text, crashes the request: [structKeys\[0\]] is read when no
    keys are left.  Any client can cause it with a template named [a] and the
    override [a: {b: x}]. *)
Theorem template_of_struct_panics (d : Deployment) (allOverrideKeys : gmap string (list string))
  (app : HelmApp) (val : ParameterTemplate)
  (Happ : app ∈ n_apps d) (Hval : val ∈ h_templates app)
  (Hkey : pt_name val ∈ default [] (allOverrideKeys !! h_name app))
  (Hdepth : zlen (split (pt_name val) ".") <= maxDepth)
  (Hstruct : has_struct (h_name app) (split (pt_name val) ".") (n_overrides d))
  (Hmarshal : forall m, exists js, marshal m = Ok js) :
  checkParameterTemplate num_of_int marshal d allOverrideKeys = Panics.
Proof.
  unfold checkParameterTemplate.
  rewrite (mfold_panics (fun s => has_struct (h_name app) (split (pt_name val) ".") (t_plain s.1.1) /\ s.2 = None)
             _ _ _ app); [done| |done| |done].
  - intros a [[t secrets] e] s' _ [Hs He] Hc. simpl in Hs, He. subst e. simpl in Hc.
    apply unless_panic_Returns in Hc as (t' & Ht & Hc). destruct (Hmarshal (t_secrets t')) as [js Hjs].
    assert (has_struct (h_name app) (split (pt_name val) ".") (t_plain t')) as Ht'.
    { eapply (mfold_invariant (fun t => has_struct _ _ (t_plain t))); [| |exact Ht]; [|exact Hs].
      intros x t1 t2 _ H1 H2. by eapply check_template_has_struct. }
    case_bool_decide; [by simplify_eq|]. rewrite Hjs in Hc. by simplify_eq.
  - intros [[t secrets] e] [Hs He]. simpl in Hs, He. subst e. simpl.
    rewrite (mfold_panics (fun t => has_struct (h_name app) (split (pt_name val) ".") (t_plain t)) _ _ _ val);
      [done| |done| |done].
    + intros x t1 t2 _ H1 H2. by eapply check_template_has_struct.
    + intros t1 H1. by apply check_template_panics.
Qed.

(** ** Mandatory values *)

(** A mandatory template of the application whose name was not given. *)
Definition lacks_value (allOverrideKeys : gmap string (list string)) (app : HelmApp) : bool :=
  existsb (fun val => pt_mandatory val &&
                      negb (bool_decide (pt_name val ∈ default [] (allOverrideKeys !! h_name app))))
          (h_templates app).

Lemma given_nil (name : string) (keys : list string) :
  bool_decide (List.filter (fun k => bool_decide (k = name)) keys = []) = negb (bool_decide (name ∈ keys)).
Proof.
  induction keys as [|k keys IH]; simpl.
  { done. }
  destruct (decide (k = name)) as [->|Hne].
  - rewrite (bool_decide_true (name = name)), (bool_decide_true (name ∈ name :: keys)) by (done || left). done.
  - rewrite (bool_decide_false (k = name)) by done. rewrite IH. f_equal. apply bool_decide_ext.
    rewrite elem_of_cons. naive_solver.
Qed.

Lemma check_template_not_found app keys t val t' :
  check_template num_of_int app keys t val = Returns t' ->
  let missing := pt_mandatory val && negb (bool_decide (pt_name val ∈ keys)) in
  t_added t' = t_added t || missing /\
  t_not_found t' = if missing && negb (t_added t) then t_not_found t ++ [app] else t_not_found t.
Proof.
  intros Hc. unfold check_template in Hc. rewrite given_nil in Hc.
  apply unless_panic_Returns in Hc as (plain & _ & Hc).
  assert (forall b c : bool, b || b && negb c = b) as Habs by by intros [] [].
  destruct (pt_secret val); [apply unless_panic_Returns in Hc as (ms & _ & Hc)|]; simplify_eq; cbn.
  all: split; [|done]; by destruct (t_added t), (pt_mandatory val), (bool_decide (pt_name val ∈ keys)).
Qed.

Lemma templates_not_found app keys vals t t' :
  mfold (check_template num_of_int app keys) t vals = Returns t' ->
  t_not_found t' =
    if existsb (fun val => pt_mandatory val && negb (bool_decide (pt_name val ∈ keys))) vals && negb (t_added t)
    then t_not_found t ++ [app] else t_not_found t.
Proof.
  revert t. induction vals as [|val vals IH]; intros t Hf; simpl in *; [by simplify_eq|].
  apply unless_panic_Returns in Hf as (t1 & Ht & Hf). apply check_template_not_found in Ht as [Ha Hn].
  rewrite (IH _ Hf), Ha, Hn. clear.
  destruct (pt_mandatory val && _), (existsb _ vals), (t_added t); done.
Qed.

Lemma check_apps_not_found allOverrideKeys apps t secrets t' secrets' :
  mfold (check_app num_of_int marshal allOverrideKeys) (t, secrets, None) apps = Returns (t', secrets', None) ->
  t_not_found t' = t_not_found t ++ map h_name (List.filter (lacks_value allOverrideKeys) apps).
Proof.
  revert t secrets. induction apps as [|app apps IH]; intros t secrets Hf; simpl in Hf.
  { simplify_eq. by rewrite app_nil_r. }
  rewrite unless_panic_assoc in Hf. apply unless_panic_Returns in Hf as (t1 & Ht & Hf).
  apply templates_not_found in Ht. cbn [t_added t_not_found negb] in Ht. rewrite andb_true_r in Ht.
  assert (exists secrets1, mfold (check_app num_of_int marshal allOverrideKeys) (t1, secrets1, None) apps =
            Returns (t', secrets', None)) as (secrets1 & Hf1).
  { case_bool_decide; simpl in Hf; [eauto|].
    destruct (marshal (t_secrets t1)) as [js|e]; simpl in Hf; [by eauto|]. by apply check_apps_error in Hf. }
  rewrite (IH _ _ Hf1), Ht. cbn [List.filter]. unfold lacks_value at 2.
  destruct (existsb _ (h_templates app)); [|done]. cbn [map]. by rewrite <- app_assoc.
Qed.

(** A request is refused exactly when an application of the package has a
    mandatory template whose name is not among the keys given for it; the
    error names those applications (each once, in the package's order, which
    the message of several reverses). *)
Theorem mandatory_exact (d d' : Deployment) (allOverrideKeys : gmap string (list string)) (err : option gerror)
  (Hmarshal : forall m, exists js, marshal m = Ok js)
  (Hc : checkParameterTemplate num_of_int marshal d allOverrideKeys = Returns (d', err)) :
  err = missing_values (map h_name (List.filter (lacks_value allOverrideKeys) (n_apps d))).
Proof.
  unfold checkParameterTemplate in Hc. apply unless_panic_Returns in Hc as ([[t secrets] e] & Hf & Hc).
  simplify_eq. assert (e = None) as ->.
  { enough (snd (t, secrets, e) = None) by done.
    eapply (mfold_invariant (fun s => s.2 = None)); [| |exact Hf]; [|done].
    intros app [[t1 s1] e1] s' _ He Hs. simpl in He. subst e1. simpl in Hs.
    apply unless_panic_Returns in Hs as (t2 & _ & Hs). destruct (Hmarshal (t_secrets t2)) as [js Hjs].
    case_bool_decide; [by simplify_eq|]. rewrite Hjs in Hs. by simplify_eq. }
  by rewrite (check_apps_not_found _ _ _ _ _ _ Hf).
Qed.

(** The two orders in which a range may visit [{a: {k: s}, k: ""}]. *)
Definition nested_first (a k s : string) : value num := VStruct [(a, VStruct [(k, VString s)]); (k, VString "")].
Definition empty_first (a k s : string) : value num := VStruct [(k, VString ""); (a, VStruct [(k, VString s)])].

(** Whether the nested value [a.k] counts as given depends on the order in
    which Go happens to range over a map: if a sibling of [a] is called [k]
    and empty, [a.k] is found when [a] comes first and overlooked when the
    empty [k] does, since the empty keys found so far are taken out of the
    nested keys by their last name.  The empty [k] itself counts as given
    either way, and the struct that is left is the same. *)
Theorem nested_value_overlooked (a k s : string)
  (Ha : dotless a = true) (Hk : dotless k = true) (Hne : a <> k) (Hs : s <> "") :
  exists keys1 keys2 e1 e2 v,
    getAllPbStructKeys (nested_first a k s) [] 0 = (keys1, e1, v) /\
    getAllPbStructKeys (empty_first a k s) [] 0 = (keys2, e2, v) /\
    (a +:+ "." +:+ k) ∈ keys1 /\ (a +:+ "." +:+ k) ∉ keys2 /\ k ∈ keys1 /\ k ∈ keys2.
Proof.
  assert (bool_decide (s = "") = false) as Hs' by by apply bool_decide_false.
  assert (bool_decide (k = k) = true) as Hkk by by apply bool_decide_true.
  exists [a; a +:+ "." +:+ k; k], [k; a], [k], [k], (VStruct [(a, VStruct [(k, VString s)])]).
  split; [by cbn; rewrite Hs'|]. split; [cbn; rewrite Hs'; cbn; rewrite bool_decide_true by done; change (maxDepth <? 0 + 1) with false; cbn; by rewrite Hkk|].
  split; [right; left|]. split; [|split; [right; right; left|left]].
  intros [H|[H|H]%elem_of_cons]%elem_of_cons; [| |by apply elem_of_nil in H].
  - rewrite <- H in Hk. by rewrite dotless_no_dot in Hk.
  - rewrite <- H in Ha. by rewrite dotless_no_dot in Ha.
Qed.
End Facts.

(** ** A concrete request *)

Module Sample.

Definition marshal (m : gmap string string) : res string :=
  Ok (join (map (fun kv => kv.1 +:+ ":" +:+ kv.2) (map_to_list m)) ",").

Definition template (name type : string) (mandatory secret : bool) : ParameterTemplate :=
  mkTemplate name "" type mandatory secret.

Definition no_credential : Credential := mkCredential "" "" "".

Definition app (name : string) (templates : list ParameterTemplate) : HelmApp :=
  mkHelmApp name "" "" "" "" "" "" [] false "" no_credential no_credential [] [] templates.

Definition raw : value Z :=
  VStruct [("db", VStruct [("password", VString "s3cret"); ("host", VString "h"); ("port", VString "5432")]);
           ("token", VString "t0ken"); ("note", VString "")].

Definition keys : list string := (getAllPbStructKeys raw [] 0).1.1.
Definition given : value Z := (getAllPbStructKeys raw [] 0).2.

Definition deployment (apps : list HelmApp) (v : value Z) : Nbi.Deployment Z :=
  mkNDeployment "d" "pkg" "d" "1.0" "default" "" "auto-scaling" "" ∅ ∅ ∅ ∅ "p1" apps
    [mkOverride "web" "" (Some v)] [] [] None false ∅ "p1" [] "" [] ∅.

Definition templates : list ParameterTemplate :=
  [template "db.password" "string" true true; template "db.port" "number" true false;
   template "token" "string" false true].

Definition request : Nbi.Deployment Z := deployment [app "web" templates] given.

Lemma request_is_ok : request_ok request {["web" := keys]}.
Proof.
  split.
  - apply NoDup_singleton.
  - apply NoDup_singleton.
  - intros a Ha. apply list_elem_of_singleton in Ha. subst a. apply (bool_decide_unpack _). by vm_compute.
  - intros ov v ->%list_elem_of_singleton Hv. simplify_eq/=. split; [by vm_compute|].
    exists raw, ["note"]. split; [by vm_compute|]. split; [by vm_compute|]. by vm_compute.
  - intros a [ks [<- _]%lookup_singleton_Some]. exists (mkOverride "web" "" (Some given)), given. by split; [left|].
Qed.

Definition outcome : maypanic (Nbi.Deployment Z * option gerror) :=
  checkParameterTemplate id marshal request {["web" := keys]}.

End Sample.

Lemma secrets_restored_witness :
  request_ok Sample.request {["web" := Sample.keys]} /\
  exists d', Sample.outcome = Returns (d', None) /\
    Forall2 (fun ov ov' => if bool_decide (ov_app ov ∈ map h_name (n_apps Sample.request))
                           then restored Sample.marshal (n_template_secrets d') ov ov' else ov' = ov)
            (n_overrides Sample.request) (n_masked d') /\
    n_masked d' = [mkOverride "web" "" (Some (VStruct
      [("db", VStruct [("password", VString "********"); ("host", VString "h"); ("port", VString "5432")]);
       ("token", VString "********")]))].
Proof.
  split; [exact Sample.request_is_ok|]. eexists. split; [vm_compute; reflexivity|].
  split; [|vm_compute; reflexivity].
  apply (secrets_restored id Sample.marshal Sample.request _ {["web" := Sample.keys]}).
  - exact Sample.request_is_ok.
  - vm_compute. reflexivity.
Defined.

Lemma template_of_struct_panics_witness :
  checkParameterTemplate id Sample.marshal
    (Sample.deployment [Sample.app "web" [Sample.template "db" "string" false false]] Sample.given)
    {["web" := Sample.keys]} = Panics.
Proof.
  apply (template_of_struct_panics id Sample.marshal _ _
           (Sample.app "web" [Sample.template "db" "string" false false]) (Sample.template "db" "string" false false)).
  - left.
  - left.
  - left.
  - vm_compute. discriminate.
  - exists (mkOverride "web" "" (Some Sample.given)), Sample.given. split; [left|]. split; [reflexivity|].
    split; [reflexivity|]. eexists _, _. vm_compute. reflexivity.
  - intros m. eexists. reflexivity.
Defined.

Lemma mandatory_exact_witness :
  exists d' err,
    checkParameterTemplate id Sample.marshal
      (Sample.deployment [Sample.app "web" [Sample.template "db.user" "" true false];
                          Sample.app "api" [Sample.template "key" "" true false]] Sample.given)
      {["web" := Sample.keys]} = Returns (d', err) /\
    err = missing_values ["web"; "api"].
Proof.
  eexists _, _. split; [vm_compute; reflexivity|].
  refine (mandatory_exact id Sample.marshal
    (Sample.deployment [Sample.app "web" [Sample.template "db.user" "" true false];
                        Sample.app "api" [Sample.template "key" "" true false]] Sample.given) _
    {["web" := Sample.keys]} _ _ _).
  - intros m. eexists. reflexivity.
  - vm_compute. reflexivity.
Defined.

Lemma nested_value_overlooked_witness :
  exists keys1 keys2 e1 e2 v,
    getAllPbStructKeys (nested_first "db" "user" "root" : value Z) [] 0 = (keys1, e1, v) /\
    getAllPbStructKeys (empty_first "db" "user" "root" : value Z) [] 0 = (keys2, e2, v) /\
    "db.user" ∈ keys1 /\ "db.user" ∉ keys2 /\ "user" ∈ keys1 /\ "user" ∈ keys2.
Proof. apply (nested_value_overlooked "db" "user" "root"); [reflexivity..|discriminate|discriminate]. Defined.
