(* ===== verification/Targets.v ===== *)
(** * [internal/northbound/utils.go]: from a request to the Deployment resource

    [createDeploymentCr] with the targets of every application, and
    [mergeAllAppTargetClusters], which spreads one target over all of them.
    The label maps of targets are in a [store]: the code puts a request's own
    maps into the resource and goes on writing to them. *)

From S2P Require Import Prelude GoStr Types Utils Pb PbStruct Nbi.
Import catalogclient.

Definition deploymentType (s : string) : DeploymentType :=
  if bool_decide (s = AutoScaling) then AutoScaling
  else if bool_decide (s = Targeted) then Targeted
  else AutoScaling.

Definition deploymentState (s : string) : State :=
  if bool_decide (s = "True") || bool_decide (s = "Running") then State_RUNNING
  else if bool_decide (s = "False") || bool_decide (s = "Down") then State_DOWN
  else if bool_decide (s = "InternalError") then State_INTERNAL_ERROR
  else if bool_decide (s = "Deploying") then State_DEPLOYING
  else if bool_decide (s = "Updating") then State_UPDATING
  else if bool_decide (s = "Terminating") then State_TERMINATING
  else if bool_decide (s = "Error") then State_ERROR
  else if bool_decide (s = "NoTargetClusters") then State_NO_TARGET_CLUSTERS
  else if bool_decide (s = "Unknown") then State_UNKNOWN
  else State_DEPLOYING.

Section Targets.
Context {MR : MapRange} {num : Type}.

Abbreviation Deployment := (Nbi.Deployment num).

(** The loop ends at the first difference. *)
Definition labelsMatch (labels1 labels2 : gmap string string) : bool :=
  bool_decide (size labels1 = size labels2) &&
  forallb (fun kv : string * string => bool_decide (labels2 !! kv.1 = Some kv.2)) (map_range labels1).

(** The index of the first hit. *)
Fixpoint find_index {A : Type} (p : A -> bool) (l : list A) : option nat :=
  match l with
  | [] => None
  | x :: l' => if p x then Some O else option_map S (find_index p l')
  end.

(** ** The targets of one application *)

(** [for key, value := range m { r\[key\] = value }] *)
Definition merge_labels (st : store) (r : mapref) (m : gmap string string) : maypanic store :=
  mfold (fun st (kv : string * string) => mwrite st r kv.1 kv.2) st (map_range m).

(** A targeted deployment: targets are told apart by cluster name, and a
    second entry for a cluster is merged into the first. *)
Definition add_targeted (st : store) (targetsList : list mapref) (target : TargetClusters) :
    maypanic (store * list mapref) :=
  unless_panic (mwrite st (tc_labels target) ClusterName (tc_cluster_id target)) (fun st =>
  let labels := mread st (tc_labels target) in
  let targetClusterName := mget labels ClusterName in
  match find_index (fun existing => bool_decide (mget (mread st existing) ClusterName = targetClusterName) &&
                                    negb (bool_decide (targetClusterName = ""))) targetsList with
  | Some i => unless_panic (merge_labels st (default None (targetsList !! i)) labels)
                (fun st => Returns (st, targetsList))
  | None => Returns (st, targetsList ++ [tc_labels target])
  end).

(** The key-value pairs of all targets, without the project. *)
Definition existingKeyValues (targets : list (gmap string string)) : gmap string (gset string) :=
  foldl (fun acc existingTarget =>
    foldl (fun (acc : gmap string (gset string)) (kv : string * string) =>
      if bool_decide (kv.1 = FleetProjectID) then acc
      else <[kv.1 := {[kv.2]} ∪ default ∅ (acc !! kv.1)]> acc) acc (map_range existingTarget)) ∅ targets.

(** The pairs of [labels] that are new, the project always among them, and
    whether there are any. *)
Definition newKeyValues (existing : gmap string (gset string)) (labels : gmap string string) :
    gmap string string * bool :=
  foldl (fun (acc : gmap string string * bool) (kv : string * string) =>
    if bool_decide (kv.1 = FleetProjectID) then (<[kv.1 := kv.2]> acc.1, acc.2)
    else match existing !! kv.1 with
         | None => (<[kv.1 := kv.2]> acc.1, true)
         | Some values => if negb (bool_decide (kv.2 ∈ values)) then (<[kv.1 := kv.2]> acc.1, true) else acc
         end) (∅, false) (map_range labels).

(** An auto-scaling deployment: label sets already there are skipped; an
    update adds only the pairs that are new, as a target of their own. *)
Definition add_auto_scaling (scenario : string) (st : store) (targetsList : list mapref) (target : TargetClusters) :
    store * list mapref :=
  let labels := mread st (tc_labels target) in
  let targets := map (mread st) targetsList in
  if existsb (fun existing => labelsMatch existing labels) targets then (st, targetsList)
  else
    let new := newKeyValues (existingKeyValues targets) labels in
    if bool_decide (scenario = "update") && negb (bool_decide (targetsList = [])) && new.2 then
      let '(st, r) := mmake st new.1 in (st, targetsList ++ [r])
    else (st, targetsList ++ [tc_labels target]).

(** The targets an update of an auto-scaling deployment starts from: those of
    the first application of that name in the existing resource.  (The code
    copies their references; they are not written to.) *)
Definition existing_targets (d : Deployment) (scenario : string) (existingDeployment : option Types.Deployment)
    (app : string) : list (gmap string string) :=
  match existingDeployment with
  | Some e =>
      if bool_decide (scenario = "update") && bool_decide (n_type d = AutoScaling) then
        match find_first (fun a => bool_decide (app_name a = app)) (sp_apps (d_spec e)) with
        | Some a => app_targets a
        | None => []
        end
      else []
  | None => []
  end.

(** [targetsList] for the application [app]. *)
Definition app_targets_of (d : Deployment) (scenario : string) (existingDeployment : option Types.Deployment)
    (app : string) (st : store) : maypanic (store * list mapref) :=
  let start := foldl (fun (s : store * list mapref) m =>
                 let '(st, r) := mmake s.1 m in (st, s.2 ++ [r])) (st, [])
                 (existing_targets d scenario existingDeployment app) in
  mfold (fun (s : store * list mapref) target =>
    if bool_decide (app = tc_app target) then
      if bool_decide (n_type d = Targeted) then add_targeted s.1 s.2 target
      else Returns (add_auto_scaling scenario s.1 s.2 target)
    else Returns s) start (n_targets d).

(** ** The applications *)

(** [targetNamespace]: the first override for the application that matters
    ends the search, whether or not it names a namespace. *)
Definition target_namespace (d : Deployment) (app : HelmApp) : string :=
  let ns := match find_first (fun override => bool_decide (h_name app = ov_app override)) (n_overrides d) with
            | Some override => if bool_decide (ov_namespace override = "") then h_namespace app
                               else ov_namespace override
            | None => h_namespace app
            end in
  if bool_decide (ns = "") then n_name d else ns.

(** [requiredDPMap]: the required packages by their own id; the last of the
    range wins. *)
Definition requiredDPMap (d : Deployment) : gmap string DeploymentPackageRef :=
  foldl (fun acc (kv : string * DeploymentPackageRef) =>
    <[GetDeploymentPackageID (dp_name kv.2) (dp_version kv.2) (dp_profile kv.2) := kv.2]> acc)
    ∅ (map_range (n_required d)).

(** A package that is not in the map is a nil pointer. *)
Definition dependent_packages (d : Deployment) (app : HelmApp) : maypanic (gmap string DeploymentPackageRef) :=
  mfold (fun (acc : gmap string DeploymentPackageRef) appReqDP =>
    match requiredDPMap d !! GetID appReqDP with
    | None => Panics
    | Some ref => Returns (<[GetID appReqDP :=
        mkDPRef (rq_name appReqDP) (rq_version appReqDP) (rq_profile appReqDP) (dp_forbids ref) []]> acc)
    end) ∅ (h_required app).

(** An application of the resource, but for its targets. *)
Definition application (getenv : string -> string) (d : Deployment) (app : HelmApp)
    (packages : gmap string DeploymentPackageRef) (targets : list (gmap string string)) : Application :=
  let repoSecretName :=
    if negb (bool_decide (h_repo app = "")) && bool_decide (h_repo app = getenv "RS_PROXY_REPO")
    then getenv "RS_PROXY_REPO_SECRET" else mget (n_repo_secrets d) (h_name app) in
  mkApp (h_name app) (n_app_version d) (target_namespace d app) ∅ targets
    (mget (n_profile_secrets d) (h_name app)) (mget (n_value_secrets d) (h_name app))
    (h_depends_on app) (h_redeploy app)
    (map (fun ign => mkIgnore (ig_name ign) (ig_kind ign) (ig_namespace ign)) (h_ignore app))
    (mkHelm (h_chart app) (h_version app) (h_repo app) repoSecretName (h_image_registry app)
       (mget (n_image_secrets d) (h_name app)))
    packages (existsb (fun serviceExport => bool_decide (h_name app = serviceExport)) (n_exports d)).

(** The loop over the applications: their targets stay references until the
    end, since a later iteration may still write to them. *)
Definition applicationsList (d : Deployment) (scenario : string) (existingDeployment : option Types.Deployment)
    (st : store) : maypanic (store * list (HelmApp * gmap string DeploymentPackageRef * list mapref)) :=
  mfold (fun (s : store * list (HelmApp * gmap string DeploymentPackageRef * list mapref)) app =>
    unless_panic (app_targets_of d scenario existingDeployment (h_name app) s.1) (fun t =>
    unless_panic (dependent_packages d app) (fun packages =>
      Returns (t.1, s.2 ++ [(app, packages, t.2)])))) (st, []) (n_apps d).

(** ** The resource *)

Definition cr_labels (d : Deployment) : gmap string string :=
  <[AppOrchActiveProjectID := n_active_project d]>
  (list_to_map [("app.kubernetes.io/name", "deployment"); ("app.kubernetes.io/instance", n_name d);
                ("app.kubernetes.io/part-of", "app-deployment-manager");
                ("app.kubernetes.io/managed-by", "kustomize");
                ("app.kubernetes.io/created-by", "app-deployment-manager")]).

Definition empty_status : DeploymentStatus :=
  mkStatus [] "" "" "" (mkSummary 0 0 0 0) false "" 0 ∅.

(** An update keeps the network of the existing resource when the request has none. *)
Definition keep_network (d : Deployment) (scenario : string) (existingDeployment : option Types.Deployment) :
    Deployment :=
  match existingDeployment with
  | Some e => if bool_decide (scenario = "update") && bool_decide (n_network d = "") &&
                 negb (bool_decide (net_name (sp_network (d_spec e)) = ""))
              then set_network (net_name (sp_network (d_spec e))) d else d
  | None => d
  end.

Definition cr_of (d : Deployment) (resourceVersion : string) (apps : list Application) : Types.Deployment :=
  mkDeployment (n_name d) (n_namespace d) "" (cr_labels d) 0 resourceVersion 0 None []
    (mkSpec (n_display_name d) (n_project d)
       (mkDPRef (n_app_name d) (n_app_version d) (n_profile d) (n_forbids d) (n_namespaces d))
       apps (deploymentType (n_type d)) ∅
       (mkNet (n_network d) "Network" "network.edge-orchestrator.intel/v1"))
    empty_status.

(** The resource, the request as it is afterwards, and the store. *)
Definition createDeploymentCr (getenv : string -> string) (d : Deployment) (scenario resourceVersion : string)
    (existingDeployment : option Types.Deployment) (st : store) :
    maypanic (res Types.Deployment * Deployment * store) :=
  let d := keep_network d scenario existingDeployment in
  unless_panic (applicationsList d scenario existingDeployment st) (fun r =>
  let apps := map (fun '(app, packages, targets) => application getenv d app packages (map (mread r.1) targets)) r.2 in
  if bool_decide (scenario = "create") then Returns (Ok (cr_of d "" apps), d, r.1)
  else if bool_decide (scenario = "update") then Returns (Ok (cr_of d resourceVersion apps), d, r.1)
  else Returns (Err (mkErr KInvalid ("cannot " +:+ scenario +:+ " deployment")), d, r.1)).

(** ** One target for all applications *)

(** [target] is [d.AllAppTargetClusters], which is not nil where this is called. *)
Definition mergeAllAppTargetClusters (d : Deployment) (target : TargetClusters) (st : store) :
    maypanic (Deployment * store) :=
  match n_targets d with
  | [] =>
      let entry app :=
        if bool_decide (n_type d = Targeted) then mkTC (h_name app) None (tc_cluster_id target)
        else if bool_decide (n_type d = AutoScaling) then mkTC (h_name app) (tc_labels target) ""
        else mkTC (h_name app) None "" in
      Returns (set_targets (map entry (n_apps d)) d, st)
  | _ =>
      unless_panic
        (mfold (fun st app =>
           mfold (fun st tc =>
             if bool_decide (tc_app tc = h_name app) && bool_decide (n_type d = AutoScaling) then
               mfold (fun st (kv : string * string) =>
                 if mhas (mread st (tc_labels tc)) kv.1 then Returns st
                 else mwrite st (tc_labels tc) kv.1 kv.2) st (map_range (mread st (tc_labels target)))
             else Returns st) st (n_targets d)) st (n_apps d))
        (fun st => Returns (d, st))
  end.

End Targets.

(** ** The clusters of a deployment, as a client sees them *)

Definition pb_summary (s : Summary) : PbSummary :=
  mkPbSummary (ToInt32Clamped (sm_total s)) (ToInt32Clamped (sm_running s)) (ToInt32Clamped (sm_down s))
    (ToInt32Clamped (sm_unknown s)) (sm_type s).

Definition pb_status (s : Status) : PbStatus :=
  mkPbStatus (deploymentState (s_state s)) (s_message s) (pb_summary (s_summary s)).

Definition createDeploymentClusterCr (dc : DeploymentCluster) : PbCluster :=
  mkPbCluster (dcs_name (dc_status dc)) (dc_cluster_id dc) (pb_status (dcs_status (dc_status dc)))
    (map (fun app => mkPbApp (a_id app) (a_name app) (pb_status (a_status app))) (dcs_apps (dc_status dc))).
