(* ===== verification/TargetsFacts.v ===== *)
(** * Targets: what a request adds, keeps and loses *)

From S2P Require Import Prelude GoStr Types PbStruct Nbi Targets.
Import catalogclient.

Section Facts.
Context {MR : MapRange} {ML : MapRangeLaws MR} {num : Type}.

Abbreviation Deployment := (Nbi.Deployment num).

(** ** Ranging over label maps *)

Lemma map_range_NoDup (m : gmap string string) : NoDup (map_range m).*1.
Proof. rewrite map_range_perm. apply NoDup_fst_map_to_list. Qed.

Lemma labelsMatch_eq (l1 l2 : gmap string string) : labelsMatch l1 l2 = true <-> l1 = l2.
Proof.
  unfold labelsMatch. rewrite andb_true_iff, bool_decide_eq_true, forallb_forall. split.
  - intros [Hs Hf]. apply map_subseteq_size_eq; [|lia]. apply map_subseteq_spec. intros k v Hk.
    specialize (Hf (k, v)). rewrite bool_decide_eq_true in Hf. apply Hf, list_elem_of_In, elem_of_map_range. done.
  - intros ->. split; [done|]. intros [k v] Hin%list_elem_of_In%elem_of_map_range. by apply bool_decide_eq_true.
Qed.

(** ** The pairs that are new *)

Lemma existingKeyValues_spec (targets : list (gmap string string)) (k v : string) :
  v ∈ default ∅ (existingKeyValues targets !! k) <->
  k <> FleetProjectID /\ exists m, m ∈ targets /\ m !! k = Some v.
Proof.
  unfold existingKeyValues.
  assert (forall (l : list (string * string)) (acc : gmap string (gset string)),
    v ∈ default ∅ (foldl (fun (acc : gmap string (gset string)) (kv : string * string) =>
      if bool_decide (kv.1 = FleetProjectID) then acc
      else <[kv.1 := {[kv.2]} ∪ default ∅ (acc !! kv.1)]> acc) acc l !! k) <->
    v ∈ default ∅ (acc !! k) \/ (k <> FleetProjectID /\ (k, v) ∈ l)) as Hin.
  { induction l as [|[a b] l IH]; intros acc; simpl.
    { rewrite elem_of_nil. naive_solver. }
    rewrite IH, elem_of_cons. case_bool_decide as Ha; simpl in Ha; [naive_solver|].
    destruct (decide (a = k)) as [->|Hk].
    - rewrite lookup_insert_eq. simpl. rewrite elem_of_union, elem_of_singleton. naive_solver.
    - rewrite lookup_insert_ne by done. naive_solver. }
  assert (forall (l : list (gmap string string)) (acc : gmap string (gset string)),
    v ∈ default ∅ (foldl (fun acc existingTarget =>
      foldl (fun (acc : gmap string (gset string)) (kv : string * string) =>
        if bool_decide (kv.1 = FleetProjectID) then acc
        else <[kv.1 := {[kv.2]} ∪ default ∅ (acc !! kv.1)]> acc) acc (map_range existingTarget)) acc l !! k) <->
    v ∈ default ∅ (acc !! k) \/ (k <> FleetProjectID /\ exists m, m ∈ l /\ m !! k = Some v)) as Hout.
  { induction l as [|m l IH]; intros acc; simpl.
    { split; [auto|]. intros [H|(_ & m & Hm & _)]; [done|by apply elem_of_nil in Hm]. }
    rewrite IH, Hin, elem_of_map_range. split.
    - intros [[H|[H1 H2]]|(H1 & x & Hx & H2)]; [by left|right; split; [done|]..].
      + exists m. split; [left|done].
      + exists x. split; [by right|done].
    - intros [H|(H1 & x & [->|Hx]%elem_of_cons & H2)]; [auto|auto|]. right. eauto. }
  rewrite Hout, lookup_empty. simpl. split; [|auto]. intros [H|H]; [|done]. by apply elem_of_empty in H.
Qed.

(** A pair of the request that no existing target has. *)
Definition is_new (targets : list (gmap string string)) (k v : string) : bool :=
  negb (bool_decide (k = FleetProjectID)) && negb (existsb (fun m : gmap string string => bool_decide (m !! k = Some v)) targets).

Lemma is_new_existing (targets : list (gmap string string)) (k v : string) :
  k <> FleetProjectID ->
  is_new targets k v = match existingKeyValues targets !! k with
                       | None => true
                       | Some values => negb (bool_decide (v ∈ values))
                       end.
Proof.
  intros Hk. unfold is_new. rewrite bool_decide_false by done. simpl.
  pose proof (existingKeyValues_spec targets k v) as Hs.
  assert (existsb (fun m : gmap string string => bool_decide (m !! k = Some v)) targets = true <->
          v ∈ default ∅ (existingKeyValues targets !! k)) as He.
  { rewrite existsb_elem_of, Hs. setoid_rewrite bool_decide_eq_true. naive_solver. }
  destruct (existingKeyValues targets !! k) as [values|]; simpl in He.
  - f_equal. apply eq_true_iff_eq. by rewrite He, bool_decide_eq_true.
  - apply negb_true_iff, not_true_iff_false. rewrite He. apply not_elem_of_empty.
Qed.

(** The step of [newKeyValues], by [is_new]. *)
Definition new_pair (targets : list (gmap string string)) (acc : gmap string string * bool) (kv : string * string) :
    gmap string string * bool :=
  (if bool_decide (kv.1 = FleetProjectID) || is_new targets kv.1 kv.2 then <[kv.1 := kv.2]> acc.1 else acc.1,
   acc.2 || is_new targets kv.1 kv.2).

Lemma newKeyValues_fold (targets : list (gmap string string)) (labels : gmap string string) :
  newKeyValues (existingKeyValues targets) labels = foldl (new_pair targets) (∅, false) (map_range labels).
Proof.
  unfold newKeyValues. generalize (∅ : gmap string string, false). generalize (map_range labels).
  intros l. induction l as [|[a b] l IH]; intros acc; [done|]. cbn [foldl]. rewrite IH. f_equal.
  unfold new_pair. cbn [fst snd]. case_bool_decide as Hp.
  - simpl. f_equal. unfold is_new. rewrite bool_decide_true by done. by destruct acc.2.
  - rewrite (is_new_existing targets a b Hp). simpl.
    destruct (existingKeyValues targets !! a); simpl; [|by destruct acc.2].
    case_bool_decide; simpl; [by destruct acc as [? []]|by destruct acc.2].
Qed.

Lemma new_pairs_spec (targets : list (gmap string string)) (l : list (string * string)) (acc : gmap string string * bool) :
  NoDup l.*1 -> (forall k, k ∈ l.*1 -> acc.1 !! k = None) ->
  let new := foldl (new_pair targets) acc l in
  (forall k v, new.1 !! k = Some v <->
     acc.1 !! k = Some v \/ (k, v) ∈ l /\ (k = FleetProjectID \/ is_new targets k v = true)) /\
  (new.2 = true <-> acc.2 = true \/ exists k v, (k, v) ∈ l /\ is_new targets k v = true).
Proof.
  revert acc. induction l as [|[a b] l IH]; intros acc Hn Hacc; cbn [foldl].
  { split; intros; setoid_rewrite elem_of_nil; naive_solver. }
  cbn [fmap list_fmap fst] in Hn, Hacc. apply NoDup_cons in Hn as [Ha Hn].
  assert (acc.1 !! a = None) as Hna by (apply Hacc; left).
  destruct (IH (new_pair targets acc (a, b)) Hn) as [H1 H2]; unfold new_pair in *; cbn [fst snd] in *.
  { intros k Hk. case_match; [|apply Hacc; by right]. rewrite lookup_insert_ne by (intros ->; done). apply Hacc. by right. }
  split.
  - intros k v. rewrite H1, elem_of_cons, pair_equal_spec. clear H1 H2 IH.
    destruct (bool_decide (a = FleetProjectID) || is_new targets a b) eqn:Hc.
    + rewrite orb_true_iff, bool_decide_eq_true in Hc. destruct (decide (k = a)) as [->|Hk].
      * rewrite lookup_insert_eq, Hna. split; [|by intros [?|[[[_ ->]|?] ?]]; auto].
        intros [[= <-]|[? ?]]; right; auto.
      * rewrite lookup_insert_ne by done. split; [intros [?|[? ?]]; auto|].
        intros [?|[[[? _]|?] ?]]; auto; done.
    + apply orb_false_iff in Hc as [Hc1 Hc2]. apply bool_decide_eq_false in Hc1.
      split; [intros [?|[? ?]]; auto|]. intros [?|[[[-> ->]|?] [?|?]]]; auto; congruence.
  - rewrite H2, orb_true_iff. split.
    + intros [[?|?]|(k & v & ? & ?)]; [auto|right..]; [exists a, b; split; [left|done]|].
      exists k, v. split; [by right|done].
    + intros [?|(k & v & [Heq|?]%elem_of_cons & ?)]; [auto|simplify_eq; auto|]. right. eauto.
Qed.

Lemma newKeyValues_spec (targets : list (gmap string string)) (labels : gmap string string) :
  let new := newKeyValues (existingKeyValues targets) labels in
  (forall k v, new.1 !! k = Some v <-> labels !! k = Some v /\ (k = FleetProjectID \/ is_new targets k v = true)) /\
  (new.2 = true <-> exists k v, labels !! k = Some v /\ is_new targets k v = true).
Proof.
  rewrite newKeyValues_fold.
  destruct (new_pairs_spec targets (map_range labels) (∅, false) (map_range_NoDup labels)) as [H1 H2];
    [intros; apply lookup_empty|]. split.
  - intros k v. rewrite H1. cbn [fst]. rewrite lookup_empty, elem_of_map_range. naive_solver.
  - rewrite H2. cbn [snd]. setoid_rewrite elem_of_map_range. naive_solver.
Qed.

(** ** The store only grows under an auto-scaling request *)

Definition valid_ref (st : store) (r : mapref) : Prop :=
  match r with Some i => (i < length st)%nat | None => True end.

Lemma mread_app (st ext : store) (r : mapref) : valid_ref st r -> mread (st ++ ext) r = mread st r.
Proof. destruct r as [i|]; [|done]. simpl. intros Hi. by rewrite lookup_app_l. Qed.

Lemma valid_ref_app (st ext : store) (r : mapref) : valid_ref st r -> valid_ref (st ++ ext) r.
Proof. destruct r as [i|]; [|done]. simpl. rewrite length_app. lia. Qed.

Lemma reads_app (st ext : store) (l : list mapref) :
  Forall (valid_ref st) l -> map (mread (st ++ ext)) l = map (mread st) l.
Proof. induction 1 as [|r l Hr _ IH]; [done|]. simpl. by rewrite mread_app, IH. Qed.

Lemma valid_refs_app (st ext : store) (l : list mapref) :
  Forall (valid_ref st) l -> Forall (valid_ref (st ++ ext)) l.
Proof. intros H. eapply Forall_impl; [exact H|]. intros r. apply valid_ref_app. Qed.

(** A target added for the label set of a request: a part of it that carries
    its project. *)
Definition part_of (labels m : gmap string string) : Prop :=
  m ⊆ labels /\ m !! FleetProjectID = labels !! FleetProjectID.

(** Every pair of the label set but the project is in one of the targets. *)
Definition covered (labels : gmap string string) (targets : list (gmap string string)) : Prop :=
  forall k v, labels !! k = Some v -> k <> FleetProjectID -> exists m, m ∈ targets /\ m !! k = Some v.

Lemma covered_app labels targets added : covered labels targets -> covered labels (targets ++ added).
Proof. intros H k v Hk Hp. destruct (H k v Hk Hp) as (m & Hm & Hv). exists m. split; [|done]. apply elem_of_app. by left. Qed.

Lemma covered_last labels targets : covered labels (targets ++ [labels]).
Proof. intros k v Hk _. exists labels. split; [|done]. apply elem_of_app. right. left. Qed.

(** What the new pairs leave out is in an existing target. *)
Lemma new_pairs_part_of targets labels :
  let new := (newKeyValues (existingKeyValues targets) labels).1 in
  part_of labels new /\ covered labels (targets ++ [new]).
Proof.
  destruct (newKeyValues_spec targets labels) as [H1 _]. cbn zeta. split; [split|].
  - apply map_subseteq_spec. intros k v Hk. by apply H1 in Hk as [? _].
  - destruct (labels !! FleetProjectID) as [v|] eqn:Hv.
    + apply H1. auto.
    + apply eq_None_not_Some. intros [v Hk]. apply H1 in Hk as [? _]. congruence.
  - intros k v Hk Hp. destruct (is_new targets k v) eqn:Hn.
    + exists (newKeyValues (existingKeyValues targets) labels).1. split; [apply elem_of_app; right; left|].
      apply H1. auto.
    + unfold is_new in Hn. rewrite bool_decide_false in Hn by done. apply negb_false_iff, existsb_elem_of in Hn as (m & Hm & Hv).
      apply bool_decide_eq_true in Hv. exists m. split; [|done]. apply elem_of_app. by left.
Qed.

Lemma add_auto_scaling_spec scenario (st : store) (l : list mapref) (target : TargetClusters) :
  Forall (valid_ref st) l -> valid_ref st (tc_labels target) ->
  exists ext l' added,
    add_auto_scaling scenario st l target = (st ++ ext, l') /\ Forall (valid_ref (st ++ ext)) l' /\
    map (mread (st ++ ext)) l' = map (mread st) l ++ added /\
    Forall (part_of (mread st (tc_labels target))) added /\
    covered (mread st (tc_labels target)) (map (mread (st ++ ext)) l').
Proof.
  intros Hl Ht. unfold add_auto_scaling. destruct (existsb _ _) eqn:He.
  { exists [], l, []. rewrite !app_nil_r. repeat split; try done.
    apply existsb_elem_of in He as (m & Hm & He). apply labelsMatch_eq in He as ->. intros k v Hk _. eauto. }
  case_match.
  - eexists [_], _, [_]. split; [reflexivity|]. rewrite map_app, (reads_app _ _ _ Hl). split.
    { apply Forall_app. split; [by apply valid_refs_app|]. constructor; [|done]. simpl. rewrite length_app. simpl. lia. }
    assert (forall m, map (mread (st ++ [m])) [Some (length st)] = [m]) as ->.
    { intros m. simpl. by rewrite list_lookup_middle. }
    destruct (new_pairs_part_of (map (mread st) l) (mread st (tc_labels target))) as [H1 H2].
    split; [done|]. split; [by constructor|done].
  - exists [], (l ++ [tc_labels target]), [mread st (tc_labels target)]. rewrite !app_nil_r, map_app.
    split; [done|]. split; [apply Forall_app; by repeat constructor|]. split; [done|].
    split; [constructor; [by split|done]|]. apply covered_last.
Qed.

Lemma start_spec (st : store) (l0 : list mapref) (existing : list (gmap string string)) :
  Forall (valid_ref st) l0 ->
  exists ext l,
    foldl (fun (s : store * list mapref) m => let '(st, r) := mmake s.1 m in (st, s.2 ++ [r])) (st, l0) existing =
      (st ++ ext, l) /\
    Forall (valid_ref (st ++ ext)) l /\ map (mread (st ++ ext)) l = map (mread st) l0 ++ existing.
Proof.
  revert st l0. induction existing as [|m existing IH]; intros st l0 Hl; cbn [foldl].
  { exists [], l0. by rewrite !app_nil_r. }
  destruct (IH (st ++ [m]) (l0 ++ [Some (length st)])) as (ext & l & Hf & Hv & Hm).
  { apply Forall_app. split; [by apply valid_refs_app|]. constructor; [|done]. simpl. rewrite length_app. simpl. lia. }
  exists (m :: ext), l. replace (st ++ m :: ext) with ((st ++ [m]) ++ ext) by by rewrite <- app_assoc. split; [exact Hf|]. split; [done|].
  rewrite Hm, map_app, reads_app by done. simpl. rewrite list_lookup_middle by done. by rewrite <- app_assoc.
Qed.

(** What the loop over the targets of a request does to the list of one
    application. *)
Lemma targets_loop d scenario app (st0 : store) (targets : list TargetClusters) :
  n_type (num := num) d <> Targeted ->
  Forall (fun t => valid_ref st0 (tc_labels t)) targets ->
  forall (ext : store) (l : list mapref), Forall (valid_ref (st0 ++ ext)) l ->
  exists ext' l' added,
    mfold (fun (s : store * list mapref) target =>
      if bool_decide (app = tc_app target) then
        if bool_decide (n_type d = Targeted) then add_targeted s.1 s.2 target
        else Returns (add_auto_scaling scenario s.1 s.2 target)
      else Returns s) (st0 ++ ext, l) targets = Returns (st0 ++ ext', l') /\
    map (mread (st0 ++ ext')) l' = map (mread (st0 ++ ext)) l ++ added /\
    (forall m, m ∈ added -> exists t, t ∈ targets /\ tc_app t = app /\ part_of (mread st0 (tc_labels t)) m) /\
    (forall t, t ∈ targets -> tc_app t = app ->
       covered (mread st0 (tc_labels t)) (map (mread (st0 ++ ext')) l')).
Proof.
  intros Hty Hv. rewrite (bool_decide_false (n_type d = Targeted)) by done. induction Hv as [|t targets Ht Hv IH]; intros ext l Hl; cbn [mfold].
  { exists ext, l, []. rewrite app_nil_r. repeat split; try done; intros x Hx; by apply elem_of_nil in Hx. }
  cbn [fst snd]. destruct (decide (app = tc_app t)) as [->|Happ].
  - rewrite bool_decide_true by done.
    destruct (add_auto_scaling_spec scenario (st0 ++ ext) l t Hl (valid_ref_app _ _ _ Ht))
      as (e1 & l1 & a1 & -> & Hl1 & Hm1 & Hp1 & Hc1).
    rewrite mread_app in Hp1, Hc1 by done. rewrite <- app_assoc in *. cbn [unless_panic].
    destruct (IH (ext ++ e1) l1 Hl1) as (e2 & l2 & a2 & -> & Hm2 & Hp2 & Hc2).
    exists e2, l2, (a1 ++ a2). split; [done|]. rewrite Hm2, Hm1, app_assoc. split; [done|]. split.
    + intros m [Hm|Hm]%elem_of_app.
      * rewrite Forall_forall in Hp1. exists t. split; [left|auto].
      * destruct (Hp2 m Hm) as (t' & Ht' & H'). exists t'. split; [by right|done].
    + intros t' [->|Ht']%elem_of_cons Ha.
      * apply covered_app. by rewrite <- Hm1.
      * rewrite <- Hm1, <- Hm2. auto.
  - rewrite bool_decide_false by done. cbn [unless_panic].
    destruct (IH ext l Hl) as (e2 & l2 & a2 & -> & Hm2 & Hp2 & Hc2).
    exists e2, l2, a2. split; [done|]. split; [done|]. split.
    + intros m Hm. destruct (Hp2 m Hm) as (t' & Ht' & H'). exists t'. split; [by right|done].
    + intros t' [->|Ht']%elem_of_cons Ha; [by destruct Happ|auto].
Qed.

(** C25: an auto-scaling request loses no target and invents none.  The list of
    an application keeps the targets it starts from, first and in order; every target
    added is a part of a label set of the request that carries its project;
    and every label pair of the request ends up in some target. *)
Theorem auto_scaling_targets (d : Deployment) (scenario : string) (e : option Types.Deployment) (app : string) (st : store)
  (Htype : n_type d <> Targeted)
  (Hrefs : Forall (fun t => valid_ref st (tc_labels t)) (n_targets d)) :
  exists st' l added,
    app_targets_of d scenario e app st = Returns (st', l) /\
    map (mread st') l = existing_targets d scenario e app ++ added /\
    (forall m, m ∈ added ->
       exists t, t ∈ n_targets d /\ tc_app t = app /\ part_of (mread st (tc_labels t)) m) /\
    (forall t, t ∈ n_targets d -> tc_app t = app -> covered (mread st (tc_labels t)) (map (mread st') l)).
Proof.
  unfold app_targets_of. destruct (start_spec st [] (existing_targets d scenario e app)) as (ext & l & -> & Hl & Hm); [done|].
  destruct (targets_loop d scenario app st (n_targets d) Htype Hrefs ext l Hl) as (ext' & l' & added & -> & Hm' & H).
  exists (st ++ ext'), l', added. rewrite Hm' at 1. by rewrite Hm.
Qed.

(** An update whose label pairs are all deployed, in several targets, still
    adds the label set as one more target. *)
Theorem deployed_pairs_added_again (st : store) (l : list mapref) (target : TargetClusters)
  (Hnew : forall m, m ∈ map (mread st) l -> m <> mread st (tc_labels target))
  (Hold : covered (mread st (tc_labels target)) (map (mread st) l)) :
  add_auto_scaling "update" st l target = (st, l ++ [tc_labels target]).
Proof.
  unfold add_auto_scaling.
  assert (existsb (fun existing => labelsMatch existing (mread st (tc_labels target))) (map (mread st) l) = false) as ->.
  { apply existsb_false_elem_of. intros m Hm. apply not_true_iff_false. intros He%labelsMatch_eq. by apply (Hnew m). }
  assert ((newKeyValues (existingKeyValues (map (mread st) l)) (mread st (tc_labels target))).2 = false) as ->; [|by rewrite andb_false_r].
  apply not_true_iff_false. destruct (newKeyValues_spec (map (mread st) l) (mread st (tc_labels target))) as [_ ->].
  intros (k & v & Hk & Hn). unfold is_new in Hn. apply andb_true_iff in Hn as [Hp Hn].
  apply negb_true_iff, bool_decide_eq_false in Hp. apply negb_true_iff in Hn.
  rewrite existsb_false_elem_of in Hn. destruct (Hold k v Hk Hp) as (m & Hm & Hv).
  specialize (Hn m Hm). by rewrite bool_decide_true in Hn.
Qed.

(** ** One target for all applications *)

(** A targeted request that names its cluster in [allAppTargetClusters] alone
    crashes: the entries made for the applications have a nil label map, and
    [createDeploymentCr] writes the cluster name into it. *)
Theorem targeted_for_all_panics (getenv : string -> string) (d d' : Deployment) (target : TargetClusters) (st st' : store)
  (scenario rv : string) (e : option Types.Deployment)
  (Htype : n_type d = Targeted) (Hnone : n_targets d = []) (Happs : n_apps d <> [])
  (Hmerge : mergeAllAppTargetClusters d target st = Returns (d', st')) :
  createDeploymentCr getenv d' scenario rv e st' = Panics.
Proof.
  unfold mergeAllAppTargetClusters in Hmerge. rewrite Hnone, Htype in Hmerge. simplify_eq.
  unfold createDeploymentCr.
  assert (forall d0 : Deployment, exists n, keep_network d0 scenario e = set_network n d0) as Hkeep.
  { intros d0. assert (d0 = set_network (n_network d0) d0) as Hd0 by by destruct d0. unfold keep_network.
    destruct e as [e|]; [case_match|]; eauto. }
  destruct (Hkeep (set_targets (map (fun app => mkTC (h_name app) None (tc_cluster_id target)) (n_apps d)) d)) as [n ->].
  destruct (n_apps d) as [|app apps] eqn:Ha; [done|].
  assert (app_targets_of (set_network n (set_targets (map (fun app => mkTC (h_name app) None (tc_cluster_id target))
            (app :: apps)) d)) scenario e (h_name app) st' = Panics) as Hp.
  { unfold app_targets_of. cbn [n_targets set_network set_targets n_type map mfold tc_app].
    rewrite !bool_decide_true by done. by destruct (foldl _ _ _). }
  unfold applicationsList. cbn [n_apps set_network set_targets]. rewrite Ha. cbn [mfold fst]. by rewrite Hp.
Qed.

(** The applications that have no entry of their own get none either, though
    the request asks for all applications. *)
Theorem merge_adds_no_entry (d d' : Deployment) (target : TargetClusters) (st st' : store)
  (Hsome : n_targets d <> [])
  (Hmerge : mergeAllAppTargetClusters d target st = Returns (d', st')) :
  d' = d.
Proof.
  unfold mergeAllAppTargetClusters in Hmerge. destruct (n_targets d) as [|t ts]; [done|].
  apply unless_panic_Returns in Hmerge as (s & _ & Hs). by simplify_eq.
Qed.
End Facts.

(** ** Concrete requests *)

Module Sample.

Definition no_credential : Credential := mkCredential "" "" "".
Definition app (name : string) : HelmApp :=
  mkHelmApp name "" "" "" "" "" "" [] false "" no_credential no_credential [] [] [].

Definition request (type : string) (targets : list TargetClusters) : Nbi.Deployment Z :=
  mkNDeployment "d" "pkg" "d" "1.0" "default" "" type "" ∅ ∅ ∅ ∅ "p1" [app "web"] [] [] targets None
    false ∅ "p1" [] "" [] ∅.

(** The resource has the targets [{env: a}] and [{env: b}]. *)
Definition existing : Types.Deployment :=
  cr_of (request AutoScaling []) "1"
    [application (fun _ => "") (request AutoScaling []) (app "web") ∅
       [{[FleetProjectID := "p1"; "env" := "a"]}; {[FleetProjectID := "p1"; "tier" := "b"]}]].

(** The request asks for [{env: a, tier: c}], whose first pair is deployed. *)
Definition labels : gmap string string := {[FleetProjectID := "p1"; "env" := "a"; "tier" := "c"]}.
Definition update : Nbi.Deployment Z := request AutoScaling [mkTC "web" (Some O) ""].

End Sample.

Lemma auto_scaling_targets_witness :
  n_type Sample.update <> Targeted /\
  exists st' l added,
    app_targets_of Sample.update "update" (Some Sample.existing) "web" [Sample.labels] = Returns (st', l) /\
    map (mread st') l = existing_targets Sample.update "update" (Some Sample.existing) "web" ++ added /\
    (forall m, m ∈ added -> exists t, t ∈ n_targets Sample.update /\ tc_app t = "web" /\
       part_of (mread [Sample.labels] (tc_labels t)) m) /\
    (forall t, t ∈ n_targets Sample.update -> tc_app t = "web" ->
       covered (mread [Sample.labels] (tc_labels t)) (map (mread st') l)).
Proof.
  split; [discriminate|].
  apply (auto_scaling_targets Sample.update "update" (Some Sample.existing) "web" [Sample.labels]).
  - discriminate.
  - constructor; [vm_compute; lia|constructor].
Defined.

Lemma targeted_for_all_panics_witness :
  exists d' st',
    mergeAllAppTargetClusters (Sample.request Targeted []) (mkTC "" (Some O) "cluster-1") [∅] = Returns (d', st') /\
    createDeploymentCr (fun _ => "") d' "create" "" None st' = Panics.
Proof.
  eexists _, _. split; [vm_compute; reflexivity|].
  eapply (targeted_for_all_panics (fun _ => "") (Sample.request Targeted []) _ (mkTC "" (Some O) "cluster-1") [∅]).
  - reflexivity.
  - reflexivity.
  - discriminate.
  - vm_compute. reflexivity.
Defined.
