(* ===== verification/NbEff.v ===== *)
(** * What the northbound service asks of the outside

    Catalog messages, the calls that leave the repository, the context of a
    request, and the two checks every handler starts with
    (internal/northbound/authorization.go). *)

From S2P Require Import Prelude Prog GoMonad GoStr Types ClusterTypes PbStruct Nbi.

(** ** Catalog messages: the fields the code reads *)

Record CatTemplate : Type := mkCatTemplate {
  ct_name : string;
  ct_display : string;
  ct_type : string;
  ct_default : string;
  ct_mandatory : bool;
  ct_secret : bool
}.

(** [catalog.Profile] *)
Record CatProfile : Type := mkCatProfile {
  cpr_name : string;
  cpr_values : string;
  cpr_templates : list CatTemplate;
  cpr_requirements : list catalogclient.RequiredDeploymentPackage
}.

(** [catalog.Application] *)
Record CatApp : Type := mkCatApp {
  cap_name : string;
  cap_chart : string;
  cap_chart_version : string;
  cap_helm_registry : string;
  cap_image_registry : string;
  cap_profiles : list CatProfile;
  cap_ignored : list IgnoreResource
}.

(** [catalog.Registry] *)
Record CatRegistry : Type := mkCatRegistry {
  crg_url : string;
  crg_user : string;
  crg_token : string;
  crg_cacerts : string
}.

(** [catalog.DeploymentPackage]; the repeated fields the code goes over hold no nil
    pointers (protobuf's parser never leaves one). *)
Record CatPackage : Type := mkCatPackage {
  cpk_name : string;
  cpk_version : string;
  cpk_namespaces : list NamespaceRes;
  cpk_default_namespaces : gmap string string;
  cpk_dependencies : list (string * string);                  (* name, requires *)
  cpk_default_profile : string;
  cpk_profiles : list (string * gmap string string);          (* name, profile of each application *)
  cpk_apps : list (string * string);                          (* name, version *)
  cpk_forbids : bool;
  cpk_is_deployed : bool;
  cpk_artifacts : list (string * string);                     (* name, purpose *)
  cpk_extensions : list string
}.

#[export] Instance CatPackage_eq_dec : EqDecision CatPackage.
Proof. solve_decision. Defined.

(** [catalog.Artifact] *)
Record CatArtifact : Type := mkCatArtifact { car_name : string; car_contents : string }.

(** ** Secrets *)

(** [metav1.OwnerReference], without the API group, which is constant. *)
Record OwnerReference : Type := mkOwner { or_name : string; or_kind : string; or_uid : string }.

(** [v1.Secret]: the data as text; [sec_basic] is [SecretTypeBasicAuth] rather
    than [SecretTypeOpaque]. *)
Record Secret : Type := mkSecret {
  sec_name : string;
  sec_data : gmap string string;
  sec_owners : list OwnerReference;
  sec_basic : bool
}.

#[export] Instance OwnerReference_eq_dec : EqDecision OwnerReference.
Proof. solve_decision. Defined.
#[export] Instance Secret_eq_dec : EqDecision Secret.
Proof. solve_decision. Defined.

(** [v1.Namespace] *)
Record NamespaceObj : Type := mkNamespaceObj { nso_name : string; nso_labels : gomap }.

#[export] Instance NamespaceObj_eq_dec : EqDecision NamespaceObj.
Proof. solve_decision. Defined.

(** [rbacv1.RoleBinding] of the service account [default] of a namespace. *)
Record RoleBinding : Type := mkRoleBinding {
  rb_name : string;
  rb_namespace : string;
  rb_subject_namespace : string;
  rb_role : string
}.

#[export] Instance RoleBinding_eq_dec : EqDecision RoleBinding.
Proof. solve_decision. Defined.

(** Fleet's [Bundle]: the namespaces of its spec. *)
Record Bundle : Type := mkBundle { bun_target_namespace : string; bun_default_namespace : string }.

(** ** Requests *)

(** What OPA answers: a boolean, an object, something else, or a reply that is
    not a 200 (the client then leaves [JSON200] nil). *)
Inductive opa_answer : Type := OpaBool (b : bool) | OpaObject | OpaOther | OpaNot200.

Inductive neff : Type :=
  | NValidate (request : string)                       (* protoValidator.Validate(in) *)
  | NOpaInput (request : string)                       (* json.Marshal of the OPA input *)
  | NOpa (package rule : string)
  | NToken                                             (* GetM2MToken *)
  | NTokenLogout (token : string)
  | NGenerateName (prefix : string)
  (** the custom resources *)
  | NListDeployments (ns : string) (labels : gmap string string)
  | NGetDeployment (ns name : string)
  | NCreateDeployment (ns : string) (d : Types.Deployment)
  | NUpdateDeployment (ns name : string) (d : Types.Deployment)
  | NDeleteDeployment (ns name : string)
  | NListDCs (labels : gmap string string)
  | NGetCluster (ns name : string)
  | NListClusters (ns : string) (labels : gmap string string)
  | NGetBundle (ns name : string)                      (* fleetBundleClient *)
  (** namespaces, role bindings, secrets *)
  | NGetNamespace (name : string)
  | NCreateNamespace (name : string)
  | NUpdateNamespace (n : NamespaceObj)
  | NCreateRoleBinding (rb : RoleBinding)
  | NGetSecret (ns name : string)
  | NCreateSecret (ns : string) (s : Secret)
  | NUpdateSecret (ns : string) (s : Secret)
  | NDeleteSecret (ns name : string)
  (** vault *)
  | NVaultClient                                       (* GetVaultClient *)
  | NVaultValue (path key : string)                    (* GetSecretValueString *)
  | NVaultLogout                                       (* vaultManager.Logout *)
  (** the catalog *)
  | NCatPackage (name version : string)
  | NCatApp (name version : string)
  | NCatRegistry (name : string)
  | NCatUpdate (name version : string) (p : CatPackage)
  | NCatArtifacts.

#[export] Instance neff_eq_dec : EqDecision neff.
Proof. solve_decision. Defined.

(** The answers.  A reply of the catalog may lack the message it is about. *)
Definition nresp (e : neff) : Type :=
  match e with
  | NValidate _ | NOpaInput _ => option gerror
  | NOpa _ _ => res opa_answer
  | NToken => res string
  | NTokenLogout _ => option gerror
  | NGenerateName _ => string
  | NListDeployments _ _ => res (list Types.Deployment)
  | NGetDeployment _ _ => res Types.Deployment
  | NCreateDeployment _ _ | NUpdateDeployment _ _ _ => res Types.Deployment
  | NDeleteDeployment _ _ => option gerror
  | NListDCs _ => res (list DeploymentCluster)
  | NGetCluster _ _ => res Cluster
  | NListClusters _ _ => res (list Cluster)
  | NGetBundle _ _ => res Bundle
  | NGetNamespace _ => res NamespaceObj
  | NCreateNamespace _ | NUpdateNamespace _ | NCreateRoleBinding _ => option gerror
  | NGetSecret _ _ => res Secret
  | NCreateSecret _ _ | NUpdateSecret _ _ | NDeleteSecret _ _ => option gerror
  | NVaultClient => option gerror
  | NVaultValue _ _ => res string
  | NVaultLogout => option gerror
  | NCatPackage _ _ => res (option CatPackage)
  | NCatApp _ _ => res (option CatApp)
  | NCatRegistry _ => res (option CatRegistry)
  | NCatUpdate _ _ _ => option gerror
  | NCatArtifacts => res (list CatArtifact)
  end.

Abbreviation nprog := (prog neff nresp).
Abbreviation nevent := (event neff nresp).
Abbreviation nhandler := (handler neff nresp).

(** The requests that change the cluster or the catalog. *)
Definition changes_state (e : neff) : bool :=
  match e with
  | NCreateDeployment _ _ | NUpdateDeployment _ _ _ | NDeleteDeployment _ _ | NCreateNamespace _
  | NUpdateNamespace _ | NCreateRoleBinding _ | NCreateSecret _ _ | NUpdateSecret _ _
  | NDeleteSecret _ _ | NCatUpdate _ _ _ => true
  | _ => false
  end.

(** ** The functions of the service *)

Abbreviation np := (gp neff nresp).

Abbreviation ncall e := (call (E:=neff) (R:=nresp) e).

(** ** The context of a request and the checks *)

(** [has_opa] is [s.opaClient != nil]. *)
Record DeploymentSvc : Type := mkSvc { has_opa : bool }.

Definition GetActiveProjectID (s : DeploymentSvc) (ctx : context) : res string :=
  if negb (has_opa s) then Ok ""
  else match ctx with
       | None => Err (mkErr KInvalid "unable to extract metadata from ctx")
       | Some md =>
           match default [] (md !! "activeprojectid") with
           | [] => Err (mkErr KInvalid "activeprojectid is not set")
           | [id] => Ok id
           | _ => Err (mkErr KInvalid "multiple ActiveProjectIDs are set - it should be one")
           end
       end.

(** The text before and after the last dot of the name of a request's type. *)
Definition rule_of (requestType : string) : string * string :=
  let parts := split requestType "." in
  (join (removelast parts) ".", List.last parts "").

(** [requestType] is the name of the Go type of the request, without the star,
    such as [deploymentv1.CreateDeploymentRequest].  A reply that is not a 200
    is dereferenced all the same. *)
Definition AuthCheckAllowed (s : DeploymentSvc) (ctx : context) (requestType : string) : np unit :=
  if negb (has_opa s) then ok tt
  else match ctx with
  | None => fail (mkErr KInvalid "unable to extract metadata from ctx")
  | Some _ =>
      do! _ := map_err (fun e => mkErr KInvalid ("cannot marshal object to JSON " +:+ e_msg e))
                 (ecall (ncall (NOpaInput requestType))) in
      let (requestPackage, requestName) := rule_of requestType in
      do! resp := map_err (fun e => mkErr KInvalid ("OPA rule " +:+ requestName +:+ " OPA Post error " +:+ e_msg e))
                    (rcall (ncall (NOpa requestPackage requestName))) in
      match resp with
      | OpaNot200 => panic
      | OpaBool true => ok tt
      | OpaBool false => fail (mkErr KForbidden "access denied (3)")
      | OpaObject => fail (mkErr KForbidden "access denied (2)")
      | OpaOther => fail (mkErr KForbidden "access denied (1)")
      end
  end.

(** [getCtxWithToken], [AddToOutgoingContext] (pkg/utils/utils.go): the token and
    the project go into the outgoing metadata, which only the catalog reads. *)
Definition AddToOutgoingContext : np unit :=
  do! token := rcall (ncall NToken) in
  if bool_decide (token = "") then fail (errorf "token is empty")
  else ecall (ncall (NTokenLogout token)).

(** Nothing is assumed of the answers. *)
Definition any_answer (e : neff) (_ : nresp e) : Prop := True.

Lemma any_answers (t : list nevent) : Forall (fun x : nevent => any_answer (projT1 x) (projT2 x)) t.
Proof. apply Forall_forall. done. Qed.
