(* ===== verification/Env.v ===== *)
(** * [pkg/utils/env_vars.go]: the configuration in the environment

    What is set where, the defaults, and the numbers read from text. *)

From S2P Require Import Prelude GoStr.

Definition defaultGitPollingInterval : Z := 15.

(** [time.Second], in nanoseconds *)
Definition second : Z := 1000000000.

Section Env.
(** [os.LookupEnv] *)
Context (lookupenv : string -> option string).
(** The error of [strconv]'s function for a text: its wording is not modelled. *)
Context (num_error : string -> string -> gerror).

(** [os.Getenv] *)
Definition getenv (k : string) : string := default EmptyString (lookupenv k).

(** The two shapes most of the functions have. *)
Definition env_or (k dflt : string) : string := default dflt (lookupenv k).

Definition env_required (k msg : string) : res string :=
  match lookupenv k with Some v => Ok v | None => Err (mkErr KNotFound msg) end.

(** Seconds; text that is not a number counts as the default.  The duration, in
    nanoseconds, wraps around. *)
Definition GetFleetGitPollingInterval : res Z :=
  match lookupenv "FLEET_GIT_POLLING_INTERVAL" with
  | None => Err (mkErr KNotFound "FLEET_GIT_POLLING_INTERVAL env var not set")
  | Some pollingIntervalStr =>
      let pollingIntervalInt := default defaultGitPollingInterval (parse_int64 pollingIntervalStr) in
      Ok (wrap64 (pollingIntervalInt * second))
  end.

Definition IsOPAEnabled : bool := bool_decide (getenv "OPA_ENABLED" = "true").

Definition GetStatusRefreshInterval : Z := default 0 (parse_int64 (getenv "STATUS_REFRESH_INTERVAL")).

(** Megabytes; each of the two products wraps around. *)
Definition GetMessageSizeLimit : res Z :=
  match lookupenv "MSG_SIZE_LIMIT" with
  | None => Err (mkErr KNotFound "MSG_SIZE_LIMIT env var not set")
  | Some msgSizeLimitStr =>
      match parse_int64 msgSizeLimitStr with
      | None => Err (num_error "ParseInt" msgSizeLimitStr)
      | Some msgSizeLimit =>
          let msgSizeLimitBytes := wrap64 (wrap64 (msgSizeLimit * 1024) * 1024) in
          if msgSizeLimitBytes <? 0 then Err (mkErr KInvalid "MSG_SIZE_LIMIT causes overflow")
          else Ok msgSizeLimitBytes
      end
  end.

Definition GetServiceAccount : string := env_or "SERVICE_ACCOUNT" "orch-svc".
Definition GetSecretServiceMount : string := env_or "SECRET_SERVICE_MOUNT" "secret".
Definition GetSecretServiceGitServicePath : string := env_or "SECRET_GIT_SERVICE_PATH" "ma_git_service".
Definition GetSecretServiceGitServiceKVKeyUsername : string := env_or "SECRET_GIT_SERVICE_USERNAME_KVKEY" "username".
Definition GetSecretServiceGitServiceKVKeyPassword : string := env_or "SECRET_GIT_SERVICE_PASSWORD_KVKEY" "password".
Definition GetSecretServiceAWSServicePath : string := env_or "SECRET_AWS_SERVICE_PATH" "ma_aws_service".
Definition GetSecretServiceAWSServiceKVKeyRegion : string := env_or "SECRET_AWS_SERVICE_REGION_KVKEY" "region".
Definition GetSecretServiceAWSServiceKVKeyAccessKey : string := env_or "SECRET_AWS_SERVICE_ACCESSKEY_KVKEY" "accessKeyID".
Definition GetSecretServiceAWSServiceKVKeySecretAccessKey : string := env_or "SECRET_AWS_SERVICE_SECRET_ACCESSKEY_KVKEY" "secretAccessKey".
Definition GetSecretServiceAWSServiceKVKeySSHKey : string := env_or "SECRET_AWS_SERVICE_SECRET_SSHKEY_KVKEY" "sshKeyID".
Definition GetSecretServiceHarborServicePath : string := env_or "SECRET_HARBOR_SERVICE_PATH" "ma_harbor_service".
Definition GetSecretServiceHarborServiceKVKeyUsername : string := env_or "SECRET_HARBOR_SERVICE_USERNAME_KVKEY" "username".
Definition GetSecretServiceHarborServiceKVKeyPassword : string := env_or "SECRET_HARBOR_SERVICE_PASSWORD_KVKEY" "password".
Definition GetSecretServiceHarborServiceKVKeyCert : string := env_or "SECRET_HARBOR_SERVICE_CERT_KVKEY" "cacerts".

Definition IsSecretServiceEnabled : res bool :=
  match lookupenv "SECRET_SERVICE_ENABLED" with
  | None => Err (mkErr KNotFound "SECRET_SERVICE_ENABLED environment var is not set")
  | Some flag => Ok (negb (bool_decide (flag = "false")))
  end.

Definition GetGitUser : res string :=
  env_required "GIT_USER" "secret service is disabled but GIT_USER env var not set".
Definition GetGitPassword : res string :=
  env_required "GIT_PASSWORD" "secret service is disabled but GIT_PASSWORD env var not set".
Definition GetGitServer : res string :=
  env_required "GIT_SERVER" "GIT_SERVER env var not set".
Definition GetGitProvider : res string :=
  env_required "GIT_PROVIDER" "GIT_PROVIDER env var not set".
Definition GetGitProxy : string := env_or "GIT_PROXY" EmptyString.
Definition GetGitRegion : res string :=
  env_required "GIT_REGION" "secret service is disabled but GIT_REGION env var not set".
Definition GetGitAccessKey : res string :=
  env_required "GIT_ACCESSKEY" "secret service is disabled but GIT_ACCESSKEY env var not set".
Definition GetGitSecretAccessKey : res string :=
  env_required "GIT_SECRET_ACCESSKEY" "GIT_SECRET_ACCESSKEY env var not set".
Definition GetAwsSSHKey : res string :=
  env_required "GIT_AWSSSHKEY" "GIT_AWSSSHKEY env var not set".
Definition GetSecretServiceEndpoint : string := env_or "SECRET_SERVICE_ENDPOINT" "http://vault.orch-platform.svc.cluster.local:8200".
Definition GetCAPIEnabled : res string :=
  env_required "CAPI_ENABLED" "CAPI_ENABLED env var not set".

(** The value, and a message when it is the default. *)
Definition GetIntegerFromEnv (envvar : string) (defaultvalue : Z) : Z * string :=
  match lookupenv envvar with
  | Some intStr =>
      match parse_int64 intStr with
      | None => (defaultvalue, "parsing " +:+ envvar +:+ " failed - " +:+ e_msg (num_error "Atoi" intStr) +:+
                               " - using default of " +:+ itoa defaultvalue)
      | Some intval => (intval, "")
      end
  | None => (defaultvalue, "failed to get " +:+ envvar +:+ " from env - using default of " +:+ itoa defaultvalue)
  end.

Definition GetKeycloakServiceEndpoint : string := env_or "KEYCLOAK_SERVICE_ENDPOINT" EmptyString.

Definition DeleteCRDResources : bool :=
  match lookupenv "DELETE_CRD_RESOURCES" with
  | None => true
  | Some flag => if bool_decide (flag = "") then true else negb (bool_decide (flag = "false"))
  end.

End Env.

(** ** Facts about the configuration

    The limit on the size of messages is a number of bytes that fits 64 bits;
    the check for overflow catches the small overflows only. *)

Section Facts.
Context (lookupenv : string -> option string) (num_error : string -> string -> gerror).

Lemma wrap64_range (n : Z) : -2^63 <= wrap64 n < 2^63.
Proof. unfold wrap64. pose proof (Z.mod_pos_bound (n + 2^63) (2^64) ltac:(lia)). lia. Qed.

(** Numbers that wrap to the same value differ by a multiple of 2^64. *)
Lemma wrap64_shift (n k : Z) : wrap64 (n + k * 2^64) = wrap64 n.
Proof.
  unfold wrap64. replace (n + k * 2^64 + 2^63) with (n + 2^63 + k * 2^64) by lia.
  by rewrite Z.mod_add.
Qed.

Lemma wrap64_mul (n m : Z) : wrap64 (wrap64 n * m) = wrap64 (n * m).
Proof.
  unfold wrap64 at 2.
  pose proof (Z.div_mod (n + 2^63) (2^64) ltac:(lia)) as Hd.
  set (q := (n + 2^63) / 2^64) in *.
  replace ((n + 2^63) `mod` 2^64 - 2^63) with (n + - q * 2^64) by lia.
  replace ((n + - q * 2^64) * m) with (n * m + (- q * m) * 2^64) by lia.
  apply wrap64_shift.
Qed.

(** The limit on message sizes, in megabytes, is returned in bytes, never
    negative, exactly when its product fits 63 bits and it is not negative.
    A number of megabytes that is too large is refused only if the product
    happens to come out negative: one that is larger by 2^44 has the same result. *)
Theorem message_size_limit (s : string) (mb : Z) :
  lookupenv "MSG_SIZE_LIMIT" = Some s -> parse_int64 s = Some mb ->
  (0 <= mb < 2^43 -> GetMessageSizeLimit lookupenv num_error = Ok (mb * 2^20)) /\
  (-2^43 <= mb < 0 -> is_ok (GetMessageSizeLimit lookupenv num_error) = false) /\
  (forall bytes, GetMessageSizeLimit lookupenv num_error = Ok bytes -> 0 <= bytes < 2^63) /\
  (forall v k : Z, 0 <= v < 2^43 -> mb = v + k * 2^44 -> GetMessageSizeLimit lookupenv num_error = Ok (v * 2^20)).
Proof.
  intros Hs Hmb. unfold GetMessageSizeLimit. rewrite Hs, Hmb. cbv zeta. rewrite wrap64_mul.
  replace (mb * 1024 * 1024) with (mb * 2^20) by lia.
  split_and!.
  - intros H. rewrite wrap64_small by lia. rewrite (proj2 (Z.ltb_ge _ _)) by lia. done.
  - intros H. rewrite wrap64_small by lia. rewrite (proj2 (Z.ltb_lt _ _)) by lia. done.
  - intros bytes. pose proof (wrap64_range (mb * 2^20)). destruct (Z.ltb_spec (wrap64 (mb * 2^20)) 0); [done|].
    intros [= <-]. lia.
  - intros v k Hv ->. replace ((v + k * 2^44) * 2^20) with (v * 2^20 + k * 2^64) by lia.
    rewrite wrap64_shift, wrap64_small by lia. rewrite (proj2 (Z.ltb_ge _ _)) by lia. done.
Qed.

End Facts.

(** Sixteen million terabytes and one megabyte pass for one megabyte. *)
Lemma message_size_limit_witness :
  GetMessageSizeLimit (fun _ => Some "17592186044417") (fun _ _ => errorf "number") = Ok 1048576.
Proof.
  apply (message_size_limit (fun _ => Some "17592186044417") (fun _ _ => errorf "number") "17592186044417" 17592186044417
           eq_refl ltac:(vm_compute; reflexivity)) with (v := 1) (k := 1); lia.
Defined.
