(* ===== verification/Dependency.v ===== *)
(** * [internal/northbound/app_dependency.go]: the graph of dependent deployments

    Which deployments a deletion takes along, how children are recorded in a
    resource, and how the targets of a parent are added to a child that is
    shared. *)

From S2P Require Import Prelude Prog GoStr Types PbStruct Nbi GoMonad NbEff.

(** Field assignments of the resource's spec. *)
Definition set_spec (f : DeploymentSpec -> DeploymentSpec) (d : Types.Deployment) : Types.Deployment :=
  mkDeployment (d_name d) (d_namespace d) (d_uid d) (d_labels d) (d_generation d)
    (d_resource_version d) (d_creation d) (d_deletion d) (d_finalizers d) (f (d_spec d)) (d_status d).

Definition with_children (x : gmap string DependentDeploymentRef) (s : DeploymentSpec) : DeploymentSpec :=
  mkSpec (sp_display_name s) (sp_project s) (sp_pkg s) (sp_apps s) (sp_type s) x (sp_network s).

Definition with_apps (x : list Application) (s : DeploymentSpec) : DeploymentSpec :=
  mkSpec (sp_display_name s) (sp_project s) (sp_pkg s) x (sp_type s) (sp_children s) (sp_network s).

Definition with_type (x : DeploymentType) (s : DeploymentSpec) : DeploymentSpec :=
  mkSpec (sp_display_name s) (sp_project s) (sp_pkg s) (sp_apps s) x (sp_children s) (sp_network s).

(** [app.Targets = x] *)
Definition with_targets (x : list (gmap string string)) (a : Application) : Application :=
  mkApp (app_name a) (app_version a) (app_namespace a) (app_namespace_labels a) x
    (app_profile_secret a) (app_value_secret a) (app_depends_on a) (app_redeploy a) (app_ignore a)
    (app_helm a) (app_dep_packages a) (app_service_export a).

Section Dependency.
Context {MR : MapRange}.

(** ** Which deployments go with a root *)

(** Resources by name; a target that does not exist is a nil pointer. *)
Abbreviation deployments := (gmap string Types.Deployment).
Abbreviation targets := (gmap string (option Types.Deployment)).

(** [room] is [maxDepth + 1 - currentDepth], the number of levels that are
    still allowed, so that [currentDepth > maxDepth] is [room = 0]. *)
Fixpoint collect_targets (room : nat) (rootName : string) (targetList : targets) (allDeployments : deployments) :
    res targets :=
  match room with
  | O => Err (errorf "maximum recursion depth reached")
  | S room' =>
      let targetList := <[rootName := allDeployments !! rootName]> targetList in
      match allDeployments !! rootName with
      | None => Ok targetList
      | Some d =>
          rfold (fun targetList (kv : string * DependentDeploymentRef) =>
                   collect_targets room' kv.1 targetList allDeployments)
            targetList (map_range (sp_children (d_spec d)))
      end
  end.

Definition getTargetDeploymentsForDeleteDeployment (rootName : string) (targetList : targets)
    (allDeployments : deployments) (currentDepth : Z) : res targets :=
  collect_targets (Z.to_nat (maxDepth + 1 - currentDepth)) rootName targetList allDeployments.

(** The loop ends at the first parent outside the list; a nil target met
    before is dereferenced. *)
Fixpoint validate_loop (l : list (string * option Types.Deployment)) (targetList : targets) : maypanic bool :=
  match l with
  | [] => Returns true
  | (_, None) :: _ => Panics
  | (_, Some v) :: l' =>
      if forallb (fun kp : string * DependentDeploymentRef => bool_decide (is_Some (targetList !! kp.1)))
           (map_range (st_parents (d_status v)))
      then validate_loop l' targetList
      else Returns false
  end.

Definition validateTargetDeployments (targetList : targets) : maypanic bool :=
  validate_loop (map_range targetList) targetList.

(** ** Children of a new deployment *)

Section Nbi.
Context {num : Type}.
Abbreviation Deployment := (Nbi.Deployment num).

(** A deployment being built with its [ChildDeploymentList].  Of a child only
    the package and profile are read, which do not change any more. *)
Record Built : Type := mkBuilt { b_d : Deployment; b_children : gmap string Deployment }.

(** The key and the deployment of the first hit of the range. *)
Definition getDeploymentWithDeploymentPackage (dpID : string) (depls : gmap string Built) : option (string * Built) :=
  find_first (fun kv : string * Built =>
    let v := b_d kv.2 in
    bool_decide (dpID = catalogclient.GetDeploymentPackageID (n_app_name v) (n_app_version v) (n_profile v)))
    (map_range depls).

Definition addRelationshipToDeploymentCR (d : Built) (deploymentCR : Types.Deployment) : Types.Deployment :=
  set_spec (fun s => with_children
    (foldl (fun (acc : gmap string DependentDeploymentRef) (kv : string * Deployment) =>
       <[kv.1 := mkDepRef (mkDPRef (n_app_name kv.2) (n_app_version kv.2) (n_profile kv.2) false []) kv.1]> acc)
       (sp_children s) (map_range (b_children d))) s) deploymentCR.
End Nbi.

Definition getDeploymentCRWithDeploymentPackage (namespace dpID : string) (labels : gmap string string) :
    np (list Types.Deployment) :=
  do! deployments := map_err K8sToTypedError (rcall (ncall (NListDeployments namespace labels))) in
  ok (List.filter (fun d : Types.Deployment =>
        let r := sp_pkg (d_spec d) in
        bool_decide (catalogclient.GetDeploymentPackageID (dp_name r) (dp_version r) (dp_profile r) = dpID))
      deployments).

(** ** Targets for a child that exists *)

(** An empty list and a nil one, which [DeepEqual] tells apart, do not occur:
    [input] is compared only where it has an entry. *)
Definition containTargetCluster (list : list (gmap string string)) (input : gmap string string) : bool :=
  existsb (fun e => bool_decide (e = input)) list.

(** The map of the request itself, if it has one. *)
Definition getTargetClusterMap (st : store) (input : TargetClusters) : maypanic (store * mapref) :=
  let '(st, result) := match tc_labels input with
                       | None => mmake st ∅
                       | Some _ => (st, tc_labels input)
                       end in
  if bool_decide (tc_cluster_id input = "") then Returns (st, result)
  else unless_panic (mwrite st result ClusterName (tc_cluster_id input)) (fun st => Returns (st, result)).

(** The targets of an application, put into the store. *)
Definition load_targets (st : store) (ts : list (gmap string string)) : store * list mapref :=
  foldl (fun (s : store * list mapref) m => let '(st, r) := mmake s.1 m in (st, s.2 ++ [r])) (st, []) ts.

Definition load_apps (st : store) (apps : list Application) : store * list (Application * list mapref) :=
  foldl (fun (s : store * list (Application * list mapref)) app =>
    let '(st, rs) := load_targets s.1 (app_targets app) in (st, s.2 ++ [(app, rs)])) (st, []) apps.

(** One target for one application. *)
Definition add_target (activeProjectID : string) (tc : TargetClusters) (st : store)
    (app : Application * list mapref) : maypanic (store * (Application * list mapref)) :=
  unless_panic (getTargetClusterMap st tc) (fun '(st, tcForApp) =>
  if bool_decide (tc_app tc = app_name app.1) then
    unless_panic (getTargetClusterMap st tc) (fun '(st, again) =>
    if negb (containTargetCluster (map (mread st) app.2) (mread st again)) &&
       negb (bool_decide (mread st tcForApp = ∅))
    then unless_panic (mwrite st tcForApp ClusterOrchKeyProjectID activeProjectID) (fun st =>
           Returns (st, (app.1, app.2 ++ [tcForApp])))
    else Returns (st, app))
  else Returns (st, app)).

Definition addTargetClusterEntry (newTargetClusters : list TargetClusters) (deploymentCR : Types.Deployment)
    (activeProjectID : string) (st : store) : maypanic (Types.Deployment * store) :=
  let '(st, apps) := load_apps st (sp_apps (d_spec deploymentCR)) in
  unless_panic
    (mfold (fun (s : store * list (Application * list mapref)) tc =>
       mfold (fun (s' : store * list (Application * list mapref)) app =>
         unless_panic (add_target activeProjectID tc s'.1 app) (fun r => Returns (r.1, s'.2 ++ [r.2])))
         (s.1, []) s.2) (st, apps) newTargetClusters)
    (fun '(st, apps) =>
       Returns (set_spec (with_apps (map (fun '(app, rs) => with_targets (map (mread st) rs) app) apps)) deploymentCR, st)).

End Dependency.
Arguments Built num : clear implicits.
