(* ===== verification/DependencyFacts.v ===== *)
(** * Facts about the dependency graph

    A deletion takes along exactly what can be reached from its root through
    children, and refuses graphs that are too deep, cycles among them. *)

From S2P Require Import Prelude Prog GoStr Types PbStruct Nbi GoMonad NbEff Dependency.

(** ** Reachability *)

(** [child all n c]: the resource [n] exists and has the child [c]. *)
Definition child (all : gmap string Types.Deployment) (n c : string) : Prop :=
  exists d, all !! n = Some d /\ is_Some (sp_children (d_spec d) !! c).

(** [chain all k n m]: [k] steps lead from [n] to [m]. *)
Inductive chain (all : gmap string Types.Deployment) : nat -> string -> string -> Prop :=
  | chain_here n : chain all 0 n n
  | chain_step k n c m : child all n c -> chain all k c m -> chain all (S k) n m.

Definition reachable (all : gmap string Types.Deployment) (n m : string) : Prop := exists k, chain all k n m.

Section Facts.
Context {MR : MapRange} {ML : MapRangeLaws MR}.

Lemma chain_split (all : gmap string Types.Deployment) (j k : nat) (n m : string) :
  chain all (j + k) n m -> exists x, chain all j n x /\ chain all k x m.
Proof.
  revert n. induction j as [|j IH]; simpl; intros n H; [by exists n; split; [constructor|]|].
  inversion H as [|? ? c ? Hc H']; subst. destruct (IH c H') as (x & H1 & H2).
  exists x. split; [by econstructor|done].
Qed.

Lemma chain_app (all : gmap string Types.Deployment) (j k : nat) (n x m : string) :
  chain all j n x -> chain all k x m -> chain all (j + k) n m.
Proof. induction 1 as [|j n c x Hc _ IH]; simpl; [done|]. intros H. econstructor; eauto. Qed.

(** From a cycle there are chains of every length. *)
Lemma chain_cycle (all : gmap string Types.Deployment) (k : nat) (n : string) :
  chain all (S k) n n -> forall j, exists m, chain all j n m.
Proof.
  intros Hc. assert (Hmul : forall i, chain all (i * S k) n n).
  { induction i as [|i IH]; simpl; [constructor|]. by apply (chain_app all (S k) (i * S k) n n n). }
  intros j. destruct (chain_split all j (j * k) n n) as (x & H & _); [|eauto].
  replace (j + j * k)%nat with (j * S k)%nat by lia. apply Hmul.
Qed.

Lemma elem_of_children (d : Types.Deployment) (c : string) :
  (exists r, (c, r) ∈ map_range (sp_children (d_spec d))) <-> is_Some (sp_children (d_spec d) !! c).
Proof. setoid_rewrite elem_of_map_range. done. Qed.

(** ** Errors: exactly the chains that are too long *)

Lemma collect_errs (room : nat) (all : gmap string Types.Deployment) (root : string)
    (tl : gmap string (option Types.Deployment)) :
  is_ok (collect_targets room root tl all) = false <-> exists m, chain all room root m.
Proof.
  revert root tl. induction room as [|room IH]; intros root tl; simpl.
  - split; [intros _; exists root; constructor|done].
  - destruct (all !! root) as [d|] eqn:E; simpl.
    + rewrite (rfold_errs (fun kv => exists m, chain all room kv.1 m)) by (intros; apply IH). split.
      * intros ([c r] & Hc & m & Hm). exists m. apply (chain_step all room root c m); [|done]. exists d.
        split; [done|]. apply elem_of_children. by exists r.
      * intros (m & Hm). inversion Hm as [|? ? c ? (d' & Hd & Hc) Hch]; subst.
        assert (d' = d) as -> by congruence. apply elem_of_children in Hc as (r & Hr).
        exists (c, r). split; [done|]. by exists m.
    + split; [done|]. intros (m & Hm). inversion Hm as [|? ? c ? (d' & Hd & Hc) Hch]; subst. congruence.
Qed.

(** ** The list: exactly what is reachable *)

(** Every entry is what the name stands for. *)
Definition names_of (all : gmap string Types.Deployment) (tl : gmap string (option Types.Deployment)) : Prop :=
  forall n v, tl !! n = Some v -> v = all !! n.

Lemma collect_adds (room : nat) (all : gmap string Types.Deployment) (root : string)
    (tl tl' : gmap string (option Types.Deployment)) :
  collect_targets room root tl all = Ok tl' -> names_of all tl ->
  names_of all tl' /\ dom tl ⊆ dom tl' /\ root ∈ dom tl' /\
  (forall n, n ∈ dom tl' -> n ∈ dom tl \/ reachable all root n).
Proof.
  revert root tl tl'. induction room as [|room IH]; intros root tl tl' H Htl; simpl in H; [done|].
  assert (Hins : names_of all (<[root := all !! root]> tl)).
  { intros n v. rewrite lookup_insert_Some. naive_solver. }
  destruct (all !! root) as [d|] eqn:E.
  - revert H. apply (rfold_invariant (fun tl' => names_of all tl' /\ dom tl ⊆ dom tl' /\ root ∈ dom tl' /\
      (forall n, n ∈ dom tl' -> n ∈ dom tl \/ reachable all root n))).
    + intros s [c r] s' Hc (Hn & Hsub & Hroot & Hreach) Hs. simpl in Hs.
      destruct (IH _ _ _ Hs Hn) as (Hn' & Hsub' & _ & Hreach').
      split_and!; [done|set_solver|set_solver|]. intros n Hin.
      destruct (Hreach' n Hin) as [H'|(k & Hk)]; [by apply Hreach|].
      right. exists (S k). apply (chain_step all k root c n); [|done]. exists d. split; [done|].
      apply elem_of_children. by exists r.
    + rewrite <- E in Hins |- *. split_and!; [by rewrite E in Hins |- *|set_solver|set_solver|].
      intros n Hin. rewrite dom_insert in Hin. apply elem_of_union in Hin as [->%elem_of_singleton|Hin]; [|by left].
      right. exists 0%nat. constructor.
  - simplify_eq. split_and!; [done|set_solver|set_solver|].
    intros n Hin. rewrite dom_insert in Hin. apply elem_of_union in Hin as [->%elem_of_singleton|Hin]; [|by left].
    right. exists 0%nat. constructor.
Qed.

Lemma collect_reaches (room : nat) (all : gmap string Types.Deployment) (root : string)
    (tl tl' : gmap string (option Types.Deployment)) (k : nat) (n : string) :
  collect_targets room root tl all = Ok tl' -> names_of all tl -> chain all k root n -> n ∈ dom tl'.
Proof.
  revert root tl tl' k. induction room as [|room IH]; intros root tl tl' k H Htl Hch; [done|].
  destruct (collect_adds (S room) all root tl tl' H Htl) as (_ & _ & Hroot & _).
  inversion Hch as [|k' ? c ? (d & Hd & Hc) Hch']; subst; [done|].
  simpl in H. rewrite Hd in H.
  apply elem_of_children in Hc as (r & Hr). apply list_elem_of_split in Hr as (l1 & l2 & Hl).
  rewrite Hl in H. clear Hl Hroot.
  assert (Hins : names_of all (<[root := Some d]> tl)).
  { intros x v. rewrite lookup_insert_Some. naive_solver. }
  revert H Hins. generalize (<[root := Some d]> tl). clear Htl Hch Hd tl.
  induction l1 as [|[c1 r1] l1 IHl]; simpl; intros s H Hs.
  - destruct (collect_targets room c s all) as [s1|] eqn:E; simpl in H; [|done].
    assert (Hin : n ∈ dom s1) by (by apply (IH c s s1 k')).
    revert H. apply (rfold_invariant (fun tl' => names_of all tl' /\ n ∈ dom tl')).
    + intros s2 [c2 r2] s2' _ (Hs2 & Hin2) Hc2. simpl in Hc2.
      destruct (collect_adds _ _ _ _ _ Hc2 Hs2) as (? & ? & _). split; [done|set_solver].
    + split; [|done]. by destruct (collect_adds _ _ _ _ _ E Hs) as (? & _).
  - destruct (collect_targets room c1 s all) as [s1|] eqn:E; simpl in H; [|done].
    apply (IHl s1 H). by destruct (collect_adds _ _ _ _ _ E Hs) as (? & _).
Qed.

(** ** From the first call *)

Lemma getTarget_errs (all : gmap string Types.Deployment) (root : string) :
  is_ok (getTargetDeploymentsForDeleteDeployment root ∅ all 0) = false <-> exists m, chain all 21 root m.
Proof. apply collect_errs. Qed.

Lemma getTarget_Ok (all : gmap string Types.Deployment) (root : string) (tl : gmap string (option Types.Deployment)) :
  getTargetDeploymentsForDeleteDeployment root ∅ all 0 = Ok tl ->
  forall n v, tl !! n = Some v <-> reachable all root n /\ v = all !! n.
Proof.
  intros H n v. assert (H0 : names_of all ∅) by (intros ? ? ?; simplify_map_eq).
  destruct (collect_adds _ _ _ _ _ H H0) as (Hn & _ & _ & Hr). split.
  - intros Hv. split; [|by apply Hn]. destruct (Hr n) as [Hbad|]; [|by rewrite dom_empty_L in Hbad|done].
    by apply elem_of_dom_2 in Hv.
  - intros ((k & Hk) & ->). pose proof (collect_reaches _ _ _ _ _ k n H H0 Hk) as Hin.
    apply elem_of_dom in Hin as [v Hv]. by rewrite Hv, (Hn n v Hv).
Qed.

(** C29: The traversal of a deletion ends for every graph of deployments, cyclic
    ones included.  It fails exactly when a chain of 21 children leads away from
    the root, which is so for every graph with a cycle in reach; otherwise its
    result is the set of what can be reached from the root, each name
    with the resource it stands for, or a nil pointer where there is none. *)
Theorem deletion_traversal (all : gmap string Types.Deployment) (root : string) :
  match getTargetDeploymentsForDeleteDeployment root ∅ all 0 with
  | Ok tl => (forall m, ~ chain all 21 root m) /\ forall n v, tl !! n = Some v <-> reachable all root n /\ v = all !! n
  | Err _ => exists m, chain all 21 root m
  end /\
  (forall k n, reachable all root n -> chain all (S k) n n ->
     is_ok (getTargetDeploymentsForDeleteDeployment root ∅ all 0) = false).
Proof.
  pose proof (getTarget_errs all root) as He. split.
  - destruct (getTargetDeploymentsForDeleteDeployment root ∅ all 0) as [tl|e] eqn:E; [|by apply He].
    split; [|by apply getTarget_Ok]. intros m Hm. destruct He as [_ He]. by discriminate He; exists m.
  - intros k n [j Hj] Hc. apply He. destruct (chain_cycle all k n Hc 21) as [m Hm].
    destruct (chain_split all 21 j root m) as (x & Hx & _); [|by exists x].
    rewrite Nat.add_comm. by eapply chain_app.
Qed.

(** ** Validation *)

(** No parent of a target is outside the list. *)
Definition parents_inside (tl : gmap string (option Types.Deployment)) (d : Types.Deployment) : Prop :=
  forall p, is_Some (st_parents (d_status d) !! p) -> is_Some (tl !! p).

Lemma parents_inside_check (tl : gmap string (option Types.Deployment)) (d : Types.Deployment) :
  forallb (fun kp : string * DependentDeploymentRef => bool_decide (is_Some (tl !! kp.1)))
    (map_range (st_parents (d_status d))) = true <-> parents_inside tl d.
Proof.
  rewrite forallb_forall. split.
  - intros H p [r Hr]. apply elem_of_map_range, list_elem_of_In, H in Hr. by apply bool_decide_eq_true in Hr.
  - intros H [p r] Hp. apply list_elem_of_In, elem_of_map_range in Hp. apply bool_decide_eq_true, H. eauto.
Qed.

Lemma validate_loop_true (l : list (string * option Types.Deployment)) (tl : gmap string (option Types.Deployment)) :
  validate_loop l tl = Returns true <-> forall n v, (n, v) ∈ l -> exists d, v = Some d /\ parents_inside tl d.
Proof.
  induction l as [|[n [d|]] l IH]; simpl.
  - split; [intros _ n v H; by apply elem_of_nil in H|done].
  - destruct (forallb _ _) eqn:E.
    + apply parents_inside_check in E. rewrite IH. setoid_rewrite elem_of_cons. naive_solver.
    + split; [done|]. intros H. destruct (H n (Some d)) as (d' & ? & Hp); [left|]. simplify_eq.
      apply parents_inside_check in Hp. congruence.
  - split; [done|]. intros H. destruct (H n None) as (d' & ? & _); [left|done].
Qed.

Lemma validate_true (tl : gmap string (option Types.Deployment)) :
  validateTargetDeployments tl = Returns true <->
  forall n v, tl !! n = Some v -> exists d, v = Some d /\ parents_inside tl d.
Proof.
  unfold validateTargetDeployments. rewrite validate_loop_true.
  setoid_rewrite elem_of_map_range. done.
Qed.

(** A child that does not exist is a nil pointer, which the validation
    dereferences, unless it has found a parent outside the list before. *)
Lemma validate_nil (tl : gmap string (option Types.Deployment)) (n : string) :
  tl !! n = Some None -> (forall m d, tl !! m = Some (Some d) -> parents_inside tl d) ->
  validateTargetDeployments tl = Panics.
Proof.
  intros Hn Hp. unfold validateTargetDeployments.
  assert (Hin : (n, None) ∈ map_range tl) by by apply elem_of_map_range.
  assert (Hall : forall m d, (m, Some d) ∈ map_range tl -> parents_inside tl d).
  { intros m d Hm. apply (Hp m). by apply elem_of_map_range. }
  revert Hin Hall. clear Hn. generalize (map_range tl). induction l as [|[m [d|]] l IH]; intros Hin Hall; simpl; [by apply elem_of_nil in Hin| |done].
  apply elem_of_cons in Hin as [?|Hin]; [done|].
  rewrite (proj2 (parents_inside_check tl d)) by (apply (Hall m); left).
  apply IH; [done|]. intros m' d' Hm'. apply (Hall m'). by right.
Qed.
End Facts.

(** Two deployments that are each other's child. *)
Definition sample_node (name child : string) : Types.Deployment :=
  mkDeployment name "" "" ∅ 0 "" 0 None []
    (mkSpec "" "" (mkDPRef "" "" "" false []) [] "" {[child := mkDepRef (mkDPRef "" "" "" false []) child]} (mkNet "" "" ""))
    (mkStatus [] "" "" "" (mkSummary 0 0 0 0) false "" 0 ∅).
Definition sample_cycle : gmap string Types.Deployment := <["a" := sample_node "a" "b"]> {["b" := sample_node "b" "a"]}.

Lemma deletion_traversal_witness :
  is_ok (getTargetDeploymentsForDeleteDeployment "a" ∅ sample_cycle 0) = false.
Proof.
  apply (proj2 (deletion_traversal sample_cycle "a") 1%nat "a").
  - exists 0%nat. constructor.
  - apply (chain_step _ _ _ "b"); [exists (sample_node "a" "b"); split; [reflexivity|by eexists]|].
    apply (chain_step _ _ _ "a"); [exists (sample_node "b" "a"); split; [reflexivity|by eexists]|constructor].
Defined.
