(* ===== verification/Catalog.v ===== *)
(** * [internal/catalogclient]: from a deployment package to its Helm applications

    The catalog itself is outside; its messages and calls are in [NbEff]. *)

From S2P Require Import Prelude Prog GoStr Types PbStruct Nbi GoMonad NbEff.
Import catalogclient.

Section Catalog.
Context (getenv : string -> string).

(** [imageregistry] may be nil, [helmregistry] may not. *)
Definition newHelmApp (app : CatApp) (helmregistry : CatRegistry) (imageregistry : option CatRegistry)
    (values profile : string) : HelmApp :=
  mkHelmApp (cap_name app) (crg_url helmregistry)
    (match imageregistry with Some r => crg_url r | None => "" end)
    (cap_chart app) (cap_chart_version app) profile values []
    (bool_decide (getenv "REDEPLOY_AFTER_UPDATE" = "true")) ""
    (mkCredential (crg_user helmregistry) (crg_token helmregistry) (crg_cacerts helmregistry))
    (match imageregistry with Some r => mkCredential (crg_user r) (crg_token r) "" | None => mkCredential "" "" "" end)
    (map (fun ign => mkIgnore (ig_name ign) (ig_kind ign) (ig_namespace ign)) (cap_ignored app))
    [] [].

Definition getAppValues (app : CatApp) (profmap : gmap string string) : string * bool :=
  match profmap !! cap_name app with
  | Some profile =>
      match find_first (fun p => bool_decide (cpr_name p = profile)) (cap_profiles app) with
      | Some p => (cpr_values p, true)
      | None => ("", false)
      end
  | None => ("", false)
  end.

Definition getProfileMap (cps : list (string * gmap string string)) (name : string) : gmap string string :=
  match find_first (fun cp : string * gmap string string => bool_decide (cp.1 = name)) cps with
  | Some cp => cp.2
  | None => ∅
  end.

(** A reply without the message: a nil pointer about to be dereferenced. *)
Definition deref {A : Type} (o : option A) : np A :=
  match o with Some a => ok a | None => panic end.

(** ** One application *)

(** Field assignments of [HelmApp]. *)
Definition with_names (dependsOn : list string) (namespace : string) (ha : HelmApp) : HelmApp :=
  mkHelmApp (h_name ha) (h_repo ha) (h_image_registry ha) (h_chart ha) (h_version ha) (h_profile ha)
    (h_values ha) dependsOn (h_redeploy ha) namespace (h_helm ha) (h_docker ha) (h_ignore ha)
    (h_required ha) (h_templates ha).

Definition add_template (pt : ParameterTemplate) (ha : HelmApp) : HelmApp :=
  mkHelmApp (h_name ha) (h_repo ha) (h_image_registry ha) (h_chart ha) (h_version ha) (h_profile ha)
    (h_values ha) (h_depends_on ha) (h_redeploy ha) (h_namespace ha) (h_helm ha) (h_docker ha) (h_ignore ha)
    (h_required ha) (h_templates ha ++ [pt]).

Definition add_required (rq : RequiredDeploymentPackage) (ha : HelmApp) : HelmApp :=
  mkHelmApp (h_name ha) (h_repo ha) (h_image_registry ha) (h_chart ha) (h_version ha) (h_profile ha)
    (h_values ha) (h_depends_on ha) (h_redeploy ha) (h_namespace ha) (h_helm ha) (h_docker ha) (h_ignore ha)
    (h_required ha ++ [rq]) (h_templates ha).

(** A template that must be given has no default. *)
Definition lookup_template (appName : string) (ha : HelmApp) (pt : CatTemplate) : np HelmApp :=
  let displayName := if bool_decide (ct_display pt = "") then ct_name pt else ct_display pt in
  if ct_mandatory pt && negb (bool_decide (ct_default pt = "")) then
    fail (errorf ("application " +:+ appName +:+ ": mandatory parameter template " +:+ displayName +:+
                  " should have no default value"))
  else if ct_secret pt && negb (bool_decide (ct_default pt = "")) then
    fail (errorf ("application " +:+ appName +:+ ": secret parameter template " +:+ displayName +:+
                  " should have no default value"))
  else ok (add_template (mkTemplate (ct_name pt) displayName (ct_type pt) (ct_mandatory pt) (ct_secret pt)) ha).

(** A required package, with its default profile where none is named. *)
Definition lookup_required (ha : HelmApp) (dr : RequiredDeploymentPackage) : np HelmApp :=
  do! response := rcall (ncall (NCatPackage (rq_name dr) (rq_version dr))) in
  do! depProfileName :=
    (if bool_decide (rq_profile dr = "") then
       do! p := deref response in
       if negb (bool_decide (cpk_default_profile p = "")) then ok (cpk_default_profile p)
       else fail (errorf "profile name and default profile name for dependent deployment package are empty")
     else ok (rq_profile dr)) in
  ok (add_required (mkRequired (rq_name dr) (rq_version dr) depProfileName) ha).

Definition lookup_profile (appName : string) (profile : string) (ha : HelmApp) (appProfile : CatProfile) : np HelmApp :=
  if bool_decide (cpr_name appProfile = profile) then
    do! ha := nfold (lookup_template appName) ha (cpr_templates appProfile) in
    nfold lookup_required ha (cpr_requirements appProfile)
  else ok ha.

(** [deps\[name\]]: what the package says the application depends on. *)
Definition deps_of (dp : CatPackage) (name : string) : list string :=
  map snd (List.filter (fun dep : string * string => bool_decide (dep.1 = name)) (cpk_dependencies dp)).

(** One application reference of the package, its profile by [cp]. *)
Definition lookup_app (dp : CatPackage) (cp : gmap string string) (appRef : string * string) : np HelmApp :=
  do! appresp := rcall (ncall (NCatApp appRef.1 appRef.2)) in
  do! app := deref appresp in
  do! helmregistry := rcall (ncall (NCatRegistry (cap_helm_registry app))) in
  do! imageregistry :=
    (if negb (bool_decide (cap_image_registry app = "")) then rcall (ncall (NCatRegistry (cap_image_registry app)))
     else ok None) in
  let values := (getAppValues app cp).1 in
  do! helmregistry := deref helmregistry in
  let ha := newHelmApp app helmregistry imageregistry values (mget cp (cap_name app)) in
  let ha := with_names (deps_of dp (cap_name app)) (mget (cpk_default_namespaces dp) appRef.1) ha in
  nfold (lookup_profile appRef.1 (mget cp (cap_name app))) ha (cap_profiles app).

(** ** Lookups *)

(** The package, its applications and the name of the profile. *)
Definition CatalogLookupDPAndHelmApps (dpName dpVersion profileName : string) :
    np (CatPackage * list HelmApp * string) :=
  do! response := map_err (fun e => errorf ("err: " +:+ e_msg e)) (rcall (ncall (NCatPackage dpName dpVersion))) in
  do! dp := deref response in
  let profileName := if bool_decide (profileName = "") && negb (bool_decide (cpk_default_profile dp = ""))
                     then cpk_default_profile dp else profileName in
  let cp := getProfileMap (cpk_profiles dp) profileName in
  if negb (bool_decide (profileName = "")) && bool_decide (cp = ∅) then
    fail (errorf ("deployment Profile " +:+ profileName +:+ " not found"))
  else
    do! helmapps := nfold (fun a appRef => do! ha := lookup_app dp cp appRef in ok (a ++ [ha])) [] (cpk_apps dp) in
    ok (dp, helmapps, profileName).

Definition CatalogLookupAPIExtensions (dpName dpVersion : string) : np (list string) :=
  do! response := rcall (ncall (NCatPackage dpName dpVersion)) in
  ok match response with Some dp => cpk_extensions dp | None => [] end.

Definition CatalogLookupDeploymentPackage (dpName dpVersion : string) : np (option CatPackage) :=
  rcall (ncall (NCatPackage dpName dpVersion)).

(** [strings.EqualFold] with a text of plain letters. *)
Definition is_grafana (purpose : string) : bool := bool_decide (to_lower purpose = "grafana").

Definition CatalogLookupGrafanaArtifacts (dpName dpVersion : string) : np (list CatArtifact) :=
  do! response := rcall (ncall (NCatPackage dpName dpVersion)) in
  let artifactRefs := match response with Some dp => cpk_artifacts dp | None => [] end in
  do! artifacts := rcall (ncall NCatArtifacts) in
  ok (concat (map (fun ar : string * string =>
        if is_grafana ar.2 then List.filter (fun a => bool_decide (ar.1 = car_name a)) artifacts else []) artifactRefs)).

Definition set_is_deployed (b : bool) (p : CatPackage) : CatPackage :=
  mkCatPackage (cpk_name p) (cpk_version p) (cpk_namespaces p) (cpk_default_namespaces p) (cpk_dependencies p)
    (cpk_default_profile p) (cpk_profiles p) (cpk_apps p) (cpk_forbids p) b (cpk_artifacts p) (cpk_extensions p).

Definition UpdateIsDeployed (dpName dpVersion : string) (isDeployed : bool) : np unit :=
  do! response := rcall (ncall (NCatPackage dpName dpVersion)) in
  do! dp := deref response in
  if negb (eqb (cpk_is_deployed dp) isDeployed) then
    ecall (ncall (NCatUpdate dpName dpVersion (set_is_deployed isDeployed dp)))
  else ok tt.

End Catalog.
