(* ===== verification/Secrets.v ===== *)
(** * Namespaces, role bindings and the secrets of a deployment

    The Kubernetes helpers of pkg/utils/utils.go, and the functions of
    internal/northbound/utils.go that create, own and delete the secrets. *)

From S2P Require Import Prelude Prog GoStr Types PbStruct Nbi GoMonad NbEff Env Targets.
Import catalogclient.

Definition newline : string := String (Ascii.ascii_of_nat 10) EmptyString.

(** ** [pkg/utils] *)

Definition CreateNamespace (namespaceName : string) : np unit :=
  do! got := catch (rcall (ncall (NGetNamespace namespaceName))) in
  match got with
  | Err e =>
      if is_not_found e then map_err K8sToTypedError (ecall (ncall (NCreateNamespace namespaceName)))
      else fail (K8sToTypedError e)
  | Ok _ => ok tt
  end.

Definition UpdateNsLabels (namespaceName : string) : np unit :=
  do! namespace := map_err K8sToTypedError (rcall (ncall (NGetNamespace namespaceName))) in
  map_err K8sToTypedError (ecall (ncall (NUpdateNamespace
    (mkNamespaceObj (nso_name namespace) (Some (<[FleetRsProxy := "true"]> (default ∅ (nso_labels namespace)))))))).

Definition CreateRoleBinding (saNamespace name remoteNamespace : string) : np unit :=
  do! got := catch (ecall (ncall (NCreateRoleBinding
    (mkRoleBinding (name +:+ "-" +:+ saNamespace) remoteNamespace saNamespace name)))) in
  match got with
  | Err e => if bool_decide (e_kind e = KAlreadyExists) then ok tt else fail (K8sToTypedError e)
  | Ok _ => ok tt
  end.

Definition CreateSecret (namespace secretName : string) (data : gmap string string) (basicAuth : bool) : np unit :=
  ecall (ncall (NCreateSecret namespace (mkSecret secretName data [] basicAuth))).

Definition DeleteSecret (namespace secretName : string) : np unit :=
  map_err K8sToTypedError (ecall (ncall (NDeleteSecret namespace secretName))).

Definition GetSecretValue (namespace secretName : string) : np Secret :=
  rcall (ncall (NGetSecret namespace secretName)).

(** ** The proxy of the registry *)

Definition configureRsProxy (nsName rbName remoteNsName : string) : np unit :=
  do! _ := UpdateNsLabels nsName in
  do! _ := CreateRoleBinding nsName rbName remoteNsName in
  CreateRoleBinding "fleet-default" rbName remoteNsName.

Section Secrets.
Context {MR : MapRange} {num : Type}.
Context (lookupenv : string -> option string).
(** [json.Marshal] of the values of an override, which may be nil, and
    [yaml.JSONToYAML] *)
Context (marshal : option (value num) -> res string) (json_to_yaml : string -> res string).

Abbreviation Deployment := (Nbi.Deployment num).
Abbreviation getenv := (Env.getenv lookupenv).

(** ** Names *)

Definition profile_secret (d : Deployment) (app : HelmApp) : string :=
  n_name d +:+ "-" +:+ h_name app +:+ "-" +:+ to_lower (h_version app) +:+ "-profile".
Definition overrides_secret (d : Deployment) (app : HelmApp) : string :=
  n_name d +:+ "-" +:+ h_name app +:+ "-" +:+ to_lower (h_version app) +:+ "-overrides".
Definition helmrepo_secret (d : Deployment) (app : HelmApp) : string :=
  n_name d +:+ "-" +:+ h_name app +:+ "-" +:+ to_lower (h_version app) +:+ "-helmrepo".
Definition imagerepo_secret (d : Deployment) (app : HelmApp) : string :=
  n_name d +:+ "-" +:+ h_name app +:+ "-" +:+ to_lower (h_version app) +:+ "-imagerepo".
Definition masked_secret (d : Deployment) (app : HelmApp) : string :=
  n_name d +:+ "-" +:+ h_name app +:+ "-" +:+ to_lower (h_version app) +:+ "-overrides-masked".
Definition template_secret (d : Deployment) (app : HelmApp) : string :=
  n_name d +:+ "-" +:+ h_name app +:+ "-" +:+ n_profile d +:+ "-secret".

(** [d.XSecretName\[app.Name\] = name] *)
Definition set_secret_names (profile value repo image : gmap string string) (d : Deployment) : Deployment :=
  mkNDeployment (n_name d) (n_app_name d) (n_display_name d) (n_app_version d) (n_profile d)
    (n_deploy_id d) (n_type d) (n_project d) value profile repo image (n_namespace d) (n_apps d)
    (n_overrides d) (n_masked d) (n_targets d) (n_all_target d) (n_forbids d) (n_required d)
    (n_active_project d) (n_exports d) (n_network d) (n_namespaces d) (n_template_secrets d).

Definition name_profile (app name : string) (d : Deployment) : Deployment :=
  set_secret_names (<[app := name]> (n_profile_secrets d)) (n_value_secrets d) (n_repo_secrets d) (n_image_secrets d) d.
Definition name_value (app name : string) (d : Deployment) : Deployment :=
  set_secret_names (n_profile_secrets d) (<[app := name]> (n_value_secrets d)) (n_repo_secrets d) (n_image_secrets d) d.
Definition name_repo (app name : string) (d : Deployment) : Deployment :=
  set_secret_names (n_profile_secrets d) (n_value_secrets d) (<[app := name]> (n_repo_secrets d)) (n_image_secrets d) d.
Definition name_image (app name : string) (d : Deployment) : Deployment :=
  set_secret_names (n_profile_secrets d) (n_value_secrets d) (n_repo_secrets d) (<[app := name]> (n_image_secrets d)) d.

(** ** Creating *)

(** The overrides by application, as JSON.  The variable is declared outside
    the loop, so values that cannot be marshalled leave the previous ones. *)
Definition json_overrides (ovs : list (OverrideValues num)) : gmap string string * string :=
  foldl (fun (s : gmap string string * string) value =>
    let contents := match marshal (ov_values value) with Ok js => js | Err _ => s.2 end in
    (<[ov_app value := contents]> s.1, contents)) (∅, "") ovs.

Definition yaml_of (overrides : string) : string :=
  match json_to_yaml overrides with
  | Ok val => val
  | Err _ => "# WARNING: Values are not valid JSON, could not convert to YAML" +:+ newline +:+ overrides +:+ newline
  end.

Definition one_value (v : string) : gmap string string := {["values" := v]}.

(** One application; [contentsMasked], too, lives across the iterations. *)
Definition create_profile_secret (d : Deployment) (app : HelmApp) : np Deployment :=
  let d := name_profile (h_name app) (profile_secret d app) d in
  do! _ := CreateSecret (n_namespace d) (profile_secret d app) (one_value (h_values app)) false in
  ok d.

Definition create_overrides_secret (overrideValues : gmap string string) (d : Deployment) (app : HelmApp) : np Deployment :=
  let contents := match overrideValues !! h_name app with Some overrides => yaml_of overrides | None => "" end in
  if negb (bool_decide (contents = "")) then
    let d := name_value (h_name app) (overrides_secret d app) d in
    do! _ := CreateSecret (n_namespace d) (overrides_secret d app) (one_value contents) false in
    ok d
  else ok d.

Definition create_repo_secret (d : Deployment) (app : HelmApp) : np Deployment :=
  let c := h_helm app in
  if negb (bool_decide (h_repo app = "")) &&
     (negb (bool_decide (cr_ca_certs c = "")) ||
      (negb (bool_decide (cr_password c = "")) && negb (bool_decide (cr_username c = "")))) then
    let d := name_repo (h_name app) (helmrepo_secret d app) d in
    do! _ := CreateSecret (n_namespace d) (helmrepo_secret d app)
      (<["cacerts" := cr_ca_certs c]> (<["password" := cr_password c]> (<["username" := cr_username c]> ∅))) false in
    ok d
  else ok d.

Definition create_image_secret (d : Deployment) (app : HelmApp) : np Deployment :=
  let c := h_docker app in
  if negb (bool_decide (h_image_registry app = "")) &&
     (negb (bool_decide (cr_password c = "")) && negb (bool_decide (cr_username c = ""))) then
    let d := name_image (h_name app) (imagerepo_secret d app) d in
    do! _ := CreateSecret (n_namespace d) (imagerepo_secret d app)
      (<["password" := cr_password c]> (<["username" := cr_username c]> ∅)) false in
    ok d
  else ok d.

(** The secret values of parameter templates, and the overrides with them masked. *)
Definition create_template_secrets (overrideValuesMasked : gmap string string) (d : Deployment) (app : HelmApp)
    (contentsMasked : string) : np string :=
  if negb (bool_decide (mget (n_template_secrets d) (h_name app) = "")) then
    do! _ := CreateSecret (n_namespace d) (template_secret d app)
               (one_value (mget (n_template_secrets d) (h_name app))) false in
    let contentsMasked := match overrideValuesMasked !! h_name app with
                          | Some overrides => yaml_of overrides
                          | None => contentsMasked
                          end in
    if negb (bool_decide (contentsMasked = "")) then
      do! _ := CreateSecret (n_namespace d) (masked_secret d app) (one_value contentsMasked) false in
      ok contentsMasked
    else ok contentsMasked
  else ok contentsMasked.

Definition create_app_secrets (overrideValues overrideValuesMasked : gmap string string)
    (s : Deployment * string * bool) (app : HelmApp) : np (Deployment * string * bool) :=
  let '(d, contentsMasked, rsRepoUpdated) := s in
  do! d := create_profile_secret d app in
  do! d := create_overrides_secret overrideValues d app in
  do! d := create_repo_secret d app in
  do! d := create_image_secret d app in
  do! contentsMasked := create_template_secrets overrideValuesMasked d app contentsMasked in
  if negb (bool_decide (h_repo app = "")) && bool_decide (h_repo app = getenv "RS_PROXY_REPO") && negb rsRepoUpdated then
    do! _ := configureRsProxy (n_namespace d) (getenv "RS_PROXY_REPO_SECRET") (getenv "RS_PROXY_REMOTE_NS") in
    ok (d, contentsMasked, true)
  else ok (d, contentsMasked, rsRepoUpdated).

Definition createSecrets (d : Deployment) : np Deployment :=
  let overrideValues := (json_overrides (n_overrides d)).1 in
  let (overrideValuesMasked, contentsMasked) := json_overrides (n_masked d) in
  let d := set_secret_names ∅ ∅ ∅ ∅ d in
  do! r := nfold (create_app_secrets overrideValues overrideValuesMasked) (d, contentsMasked, false) (n_apps d) in
  ok r.1.1.

(** ** Owning *)

Definition updateOwnerRefSecret (ownerReferenceList : list OwnerReference) (secretName namespace : string) : np unit :=
  do! secret := map_err K8sToTypedError (rcall (ncall (NGetSecret namespace secretName))) in
  map_err K8sToTypedError (ecall (ncall (NUpdateSecret namespace
    (mkSecret (sec_name secret) (sec_data secret) ownerReferenceList (sec_basic secret))))).

Definition ownerReferenceList (d : Deployment) (kindType : string) : list OwnerReference :=
  [mkOwner (n_name d) kindType (n_deploy_id d)].

(** A secret that is named. *)
Definition own_named (owners : list OwnerReference) (secretName namespace : string) : np unit :=
  if negb (bool_decide (secretName = "")) then updateOwnerRefSecret owners secretName namespace else ok tt.

Definition own_app_secrets (d : Deployment) (app : HelmApp) : np unit :=
  let owners := ownerReferenceList d "Deployment" in
  let ns := n_namespace d in
  let secret_values := negb (bool_decide (mget (n_template_secrets d) (h_name app) = "")) in
  do! _ := updateOwnerRefSecret owners (mget (n_profile_secrets d) (h_name app)) ns in
  let valueSecret := mget (n_value_secrets d) (h_name app) in
  do! _ := (if negb (bool_decide (valueSecret = "")) then
              do! _ := updateOwnerRefSecret owners valueSecret ns in
              if secret_values then
                do! r := catch (updateOwnerRefSecret owners (valueSecret +:+ "-masked") ns) in
                match r with
                | Err e => if is_not_found e then ok tt else fail e
                | Ok _ => ok tt
                end
              else ok tt
            else ok tt) in
  do! _ := own_named owners (mget (n_repo_secrets d) (h_name app)) ns in
  do! _ := own_named owners (mget (n_image_secrets d) (h_name app)) ns in
  if secret_values then updateOwnerRefSecret owners (template_secret d app) ns else ok tt.

Definition updateOwnerRefSecrets (d : Deployment) : np unit :=
  nfold (fun _ app => own_app_secrets d app) tt (n_apps d).

(** ** Deleting *)

(** A secret that is gone is no error. *)
Definition delete_secret_quiet (namespace secretName : string) : np unit :=
  do! r := catch (DeleteSecret namespace secretName) in
  match r with
  | Err e => if is_not_found e then ok tt else fail e
  | Ok _ => ok tt
  end.

Definition cr_template_secret (deployment : Types.Deployment) (app : Application) : string :=
  d_name deployment +:+ "-" +:+ app_name app +:+ "-" +:+ dp_profile (sp_pkg (d_spec deployment)) +:+ "-secret".

Definition delete_app_secrets (deployment : Types.Deployment) (app : Application) : np unit :=
  let namespace := d_namespace deployment in
  do! _ := delete_secret_quiet namespace (app_profile_secret app) in
  do! _ := (if negb (bool_decide (app_value_secret app = "")) then
              do! _ := delete_secret_quiet namespace (app_value_secret app) in
              delete_secret_quiet namespace (app_value_secret app +:+ "-masked")
            else ok tt) in
  let secretName := ha_repo_secret (app_helm app) in
  do! _ := (if negb (bool_decide (secretName = "")) && negb (bool_decide (secretName = getenv "RS_PROXY_REPO_SECRET"))
            then delete_secret_quiet namespace secretName else ok tt) in
  let secretName := ha_image_secret (app_helm app) in
  do! _ := (if negb (bool_decide (secretName = "")) then delete_secret_quiet namespace secretName else ok tt) in
  delete_secret_quiet namespace (cr_template_secret deployment app).

Definition deleteSecrets (deployment : Types.Deployment) : np unit :=
  nfold (fun _ app => delete_app_secrets deployment app) tt (sp_apps (d_spec deployment)).

(** ** The credentials of the Git remote *)

(** The deferred [Logout] runs on every way out; its error is logged. *)
Definition with_vault {A : Type} (p : np A) : np A :=
  do! _ := ecall (ncall NVaultClient) in
  do! r := catch p in
  let! _ := ncall NVaultLogout in
  done r.

Definition createGitClientSecret (d : Deployment) : np unit :=
  let secretName := FleetGitSecretName in
  do! got := catch (GetSecretValue (n_namespace d) secretName) in
  match got with
  | Ok _ => ok tt
  | Err e =>
      if negb (is_not_found e) then fail e
      else
        do! secretServiceEnabled := done (IsSecretServiceEnabled lookupenv) in
        if negb secretServiceEnabled then ok tt
        else with_vault (
          do! user := rcall (ncall (NVaultValue (GetSecretServiceGitServicePath lookupenv)
                                      (GetSecretServiceGitServiceKVKeyUsername lookupenv))) in
          do! password := rcall (ncall (NVaultValue (GetSecretServiceGitServicePath lookupenv)
                                          (GetSecretServiceGitServiceKVKeyPassword lookupenv))) in
          CreateSecret (n_namespace d) secretName (<["password" := password]> (<["username" := user]> ∅)) true)
  end.

End Secrets.

(** ** Looking a deployment up by its UID *)

(** [v1beta1.Deployment{}] *)
Definition zero_deployment : Types.Deployment :=
  mkDeployment "" "" "" ∅ 0 "" 0 None []
    (mkSpec "" "" (mkDPRef "" "" "" false []) [] "" ∅ (mkNet "" "" "")) empty_status.

(** The zero deployment when there is none of that UID. *)
Definition matchUIDDeployment (UID namespace : string) (labels : gmap string string) : np Types.Deployment :=
  do! deployments := map_err K8sToTypedError (rcall (ncall (NListDeployments namespace labels))) in
  ok (default zero_deployment (find_first (fun val => bool_decide (d_uid val = UID)) deployments)).
