(* ===== verification/InitDeployment.v ===== *)
(** * [initDeployment]: from a request to the deployments to create or update

    Validation of the request, the catalog lookup, unmasking, and the
    dependent deployments, each of which is built by the same function.  The
    label maps of targets are shared between the request, the deployment and
    its dependents, so they live in a [store]. *)

From Stdlib Require Import Ascii.
From S2P Require Import Prelude Prog GoStr Types PbStruct Nbi GoMonad NbEff Env Templates Targets Catalog Secrets Dependency.
Import catalogclient.

(** ** Names of namespaces *)

Definition is_lower_alnum (c : Ascii.ascii) : bool :=
  let n := Ascii.nat_of_ascii c in (Nat.leb 97 n && Nat.leb n 122) || is_digit c.

(** [^\[a-z0-9\]\[a-z0-9-\]{0,38}\[a-z0-9\]{0,1}$] *)
Definition nsNameRegex (s : string) : bool :=
  match to_list s with
  | [] => false
  | c :: rest =>
      is_lower_alnum c && forallb (fun c => is_lower_alnum c || bool_decide (c = "-"%char)) rest &&
      ((zlen rest <=? 38) || ((zlen rest =? 39) && match last rest with Some c => is_lower_alnum c | None => false end))
  end.

(** A text in double quotes. *)
Definition quoted (s : string) : string :=
  let q := String (ascii_of_nat 34) EmptyString in q +:+ s +:+ q.

Definition check_namespace (ns : NamespaceRes) : option gerror :=
  let invalid why := Some (mkErr KInvalid ("namespace name " +:+ quoted (ns_name ns) +:+ " is invalid. " +:+ why)) in
  if bool_decide (ns_name ns = "") then Some (mkErr KInvalid "missing namespace name")
  else if bool_decide (ns_name ns = "default") then invalid ("Namespace name cannot be " +:+ quoted "default")
  else if bool_decide (head (split (ns_name ns) "-") = Some "kind")
  then invalid ("Prefix " +:+ quoted "kube-" +:+ ", is reserved for Kubernetes system namespaces")
  else if negb (nsNameRegex (ns_name ns)) then invalid "Use names that conforms with RFC 1123 label"
  else None.

Section Init.
Context {MR : MapRange} {num : Type} (num_of_int : Z -> num).
Context (lookupenv : string -> option string).
(** [json.Marshal] of a map; [yaml.YAMLToJSON]; [json.Unmarshal] into a
    [*structpb.Struct], which may leave a value behind with an error. *)
Context (marshal_map : gmap string string -> res string).
Context (yaml_to_json : string -> res string).
Context (unmarshal_struct : string -> option (list (string * value num)) * option gerror).
(** [errors.Status(err).Err()] *)
Context (Status_Err : gerror -> gerror).

Abbreviation Deployment := (Nbi.Deployment num).
Abbreviation Built := (Dependency.Built num).

(** The fields of [deploymentpb.Deployment] that are read from a request. *)
Record Request : Type := mkRequest {
  in_app_name : string;
  in_app_version : string;
  in_profile : string;
  in_display_name : string;
  in_deploy_id : string;
  in_type : string;
  in_network : string;
  in_exports : list string;
  in_overrides : list (OverrideValues num);
  in_targets : list TargetClusters;
  in_all_target : option TargetClusters
}.

(** The dependents built so far and the label maps. *)
Record world : Type := mkWorld { w_deps : gmap string Built; w_store : store }.

Definition set_store (st : store) (w : world) : world := mkWorld (w_deps w) st.

(** ** Validation of targets and overrides *)

(** The labels of a target get the project; those of a targeted deployment
    start from a new map. *)
Definition label_target (typ activeProjectID : string) (st : store) (val : TargetClusters) :
    maypanic (store * TargetClusters) :=
  let '(st, val) := if bool_decide (typ = Targeted)
                    then let '(st, r) := mmake st ∅ in (st, mkTC (tc_app val) r (tc_cluster_id val))
                    else (st, val) in
  unless_panic (mwrite st (tc_labels val) ClusterOrchKeyProjectID activeProjectID) (fun st => Returns (st, val)).

(** The conditions on a target; [what] names the field in the messages. *)
Definition check_target (what typ : string) (val : TargetClusters) : option gerror :=
  let no_labels := bool_decide (tc_labels val = None) in
  let no_id := bool_decide (tc_cluster_id val = "") in
  if no_labels && no_id then Some (mkErr KInvalid ("missing " +:+ what +:+ ".labels or " +:+ what +:+ ".clusterId in request"))
  else if bool_decide (typ = AutoScaling) && no_labels
  then Some (mkErr KInvalid ("deployment type is auto-scaling but missing " +:+ what +:+ ".labels"))
  else if bool_decide (typ = Targeted) && no_id
  then Some (mkErr KInvalid ("deployment type is targeted but missing " +:+ what +:+ ".clusterId"))
  else None.

Definition check_targets (typ activeProjectID : string) (targets : list TargetClusters) (st : store) :
    np (store * list TargetClusters) :=
  nfold (fun (s : store * list TargetClusters) val =>
    if bool_decide (tc_app val = "") then fail (mkErr KInvalid "missing targetClusters.appName in request")
    else match check_target "targetClusters" typ val with
         | Some e => fail e
         | None => do! r := of_maypanic (label_target typ activeProjectID s.1 val) in ok (r.1, s.2 ++ [r.2])
         end) (st, []) targets.

Definition check_all_target (typ activeProjectID : string) (target : option TargetClusters) (st : store) :
    np (store * option TargetClusters) :=
  match target with
  | None => ok (st, None)
  | Some val =>
      match check_target "allAppTargetClusters" typ val with
      | Some e => fail e
      | None => do! r := of_maypanic (label_target typ activeProjectID st val) in ok (r.1, Some r.2)
      end
  end.

Definition formatAppNameValidationError (index : Z) : string :=
  "validation error:" +:+ newline +:+ " - deployment.override_values[" +:+ itoa index +:+
  "].app_name: value length must be at least 1 characters [string.min_len]" +:+ newline +:+
  " - deployment.override_values[" +:+ itoa index +:+
  "].app_name: value does not match regex pattern `^[a-z0-9][a-z0-9-]{0,38}[a-z0-9]{0,1}$` [string.pattern]".

(** The overrides, trimmed and without their empty values, and the keys given
    for each application. *)
Definition check_overrides (ovs : list (OverrideValues num)) : np (list (OverrideValues num) * gmap string (list string)) :=
  nfold (fun (s : list (OverrideValues num) * gmap string (list string)) val =>
    if bool_decide (ov_app val = "") then fail (mkErr KInvalid (formatAppNameValidationError (zlen s.1)))
    else match ov_values val with
         | None =>
             if bool_decide (ov_namespace val = "")
             then fail (mkErr KInvalid "missing overrideValues.targetNamespace or overrideValues.values in request")
             else ok (s.1 ++ [val], s.2)
         | Some v =>
             let v := trimAllPbStructStrings v 0 in
             let '(keys, _, v) := getAllPbStructKeys v [] 0 in
             ok (s.1 ++ [mkOverride (ov_app val) (ov_namespace val) (Some v)], <[ov_app val := keys]> s.2)
         end) ([], ∅) ovs.

(** ** Unmasking, for an update *)

Definition unmask_overrides (app : string) (previous : list (string * value num)) (ovs : list (OverrideValues num)) :
    list (OverrideValues num) :=
  map (fun oVal =>
    match ov_values oVal with
    | Some v => if bool_decide (ov_app oVal = app)
                then mkOverride (ov_app oVal) (ov_namespace oVal) (Some (UnmaskSecrets v previous ""))
                else oVal
    | None => oVal
    end) ovs.

Definition unmask_app (name namespace profile : string) (ovs : list (OverrideValues num)) (app : HelmApp) :
    np (list (OverrideValues num)) :=
  let secretName := name +:+ "-" +:+ h_name app +:+ "-" +:+ profile +:+ "-secret" in
  do! got := catch (GetSecretValue namespace secretName) in
  match got with
  | Err _ => ok ovs
  | Ok secretValue =>
      match yaml_to_json (mget (sec_data secretValue) "values") with
      | Err _ => ok ovs
      | Ok val =>
          match unmarshal_struct val with
          | (_, Some _) => ok ovs
          | (None, None) => ok ovs
          | (Some previous, None) => ok (unmask_overrides (h_name app) previous ovs)
          end
      end
  end.

(** The name and namespace of the deployment of that UID, empty if it is not
    found; a failure to look it up is logged. *)
Definition find_updated (deployID activeProjectID : string) : np (string * string) :=
  if bool_decide (deployID = "") then ok ("", activeProjectID)
  else
    do! got := catch (matchUIDDeployment deployID activeProjectID ∅) in
    match got with
    | Ok deployment =>
        if bool_decide (d_name deployment = "") then ok ("", activeProjectID)
        else ok (d_name deployment,
                 if bool_decide (d_namespace deployment = "") then activeProjectID else d_namespace deployment)
    | Err _ => ok ("", activeProjectID)
    end.

(** ** Dependents *)

(** Field assignments of the northbound deployment. *)
Definition set_core (name display profile deploy_id namespace : string) (d : Deployment) : Deployment :=
  mkNDeployment name (n_app_name d) display (n_app_version d) profile
    deploy_id (n_type d) (n_project d) (n_value_secrets d) (n_profile_secrets d)
    (n_repo_secrets d) (n_image_secrets d) namespace (n_apps d) (n_overrides d) (n_masked d)
    (n_targets d) (n_all_target d) (n_forbids d) (n_required d) (n_active_project d) (n_exports d)
    (n_network d) (n_namespaces d) (n_template_secrets d).

Definition set_name_id (name deploy_id : string) (d : Deployment) : Deployment :=
  set_core name (n_display_name d) (n_profile d) deploy_id (n_namespace d) d.

Definition set_required (required : gmap string DeploymentPackageRef) (d : Deployment) : Deployment :=
  mkNDeployment (n_name d) (n_app_name d) (n_display_name d) (n_app_version d) (n_profile d)
    (n_deploy_id d) (n_type d) (n_project d) (n_value_secrets d) (n_profile_secrets d)
    (n_repo_secrets d) (n_image_secrets d) (n_namespace d) (n_apps d) (n_overrides d) (n_masked d)
    (n_targets d) (n_all_target d) (n_forbids d) required (n_active_project d) (n_exports d)
    (n_network d) (n_namespaces d) (n_template_secrets d).

(** Every application of the dependent gets the first target of the request,
    by reference; a request without targets has none. *)
Definition dep_targets (targets : list TargetClusters) (depHelmApps : list HelmApp) : maypanic (list TargetClusters) :=
  mfold (fun acc depApp =>
    match targets with
    | t :: _ => Returns (acc ++ [mkTC (h_name depApp) (tc_labels t) (tc_cluster_id t)])
    | [] => Panics
    end) [] depHelmApps.

Definition project_labels (activeProjectID : string) : gmap string string := {[AppOrchActiveProjectID := activeProjectID]}.

(** The dependent of a new object: the one resource that exists already, if
    the package forbids several. *)
Definition adopt_existing (namespace activeProjectID dpID : string) (forbids : bool) (dep : Deployment) : np Deployment :=
  if forbids then
    do! depDeplCRs := getDeploymentCRWithDeploymentPackage namespace dpID (project_labels activeProjectID) in
    match depDeplCRs with
    | [] => ok dep
    | [cr] => ok (set_name_id (d_name cr) (d_uid cr) dep)
    | _ => fail (mkErr KAlreadyExists ("confused the target Deployment: the deployment package forbids multiple " +:+
             "deployment package but there are multiple deployments for the deployment package"))
    end
  else ok dep.

(** One required package.  [build] is the recursive call of [initDeployment]. *)
Definition add_dependent (build : Request -> world -> np (Built * world)) (typ : string) (targets : list TargetClusters)
    (activeProjectID namespace : string)
    (s : gmap string DeploymentPackageRef * gmap string Deployment * world) (dep : RequiredDeploymentPackage) :
    np (gmap string DeploymentPackageRef * gmap string Deployment * world) :=
  let '(required, children, w) := s in
  do! (depDP, depHelmApps, _) := CatalogLookupDPAndHelmApps (Env.getenv lookupenv) (rq_name dep) (rq_version dep) (rq_profile dep) in
  let forbids := cpk_forbids depDP in
  let dpID := GetID dep in
  let required := <[dpID := mkDPRef (rq_name dep) (rq_version dep) (rq_profile dep) forbids []]> required in
  do! depTargetClusters := of_maypanic (dep_targets targets depHelmApps) in
  match getDeploymentWithDeploymentPackage dpID (w_deps w), forbids with
  | Some (_, known), true => ok (required, <[n_name (b_d known) := b_d known]> children, w)
  | _, _ =>
      do! (b, w) := map_err (fun e => mkErr KConflict ("failed to create child deployment: " +:+ e_msg e))
        (build (mkRequest (rq_name dep) (rq_version dep) (rq_profile dep) "" "" typ "" [] [] depTargetClusters None) w) in
      let key := n_name (b_d b) in
      do! depDeployment := adopt_existing namespace activeProjectID dpID forbids (b_d b) in
      ok (required, <[n_name depDeployment := depDeployment]> children,
          mkWorld (<[key := mkBuilt depDeployment (b_children b)]> (w_deps w)) (w_store w))
  end.

Definition addDepAndRelationships (build : Request -> world -> np (Built * world)) (d : Deployment) (typ : string)
    (targets : list TargetClusters) (activeProjectID : string) (w : world) : np (Built * world) :=
  do! r := nfold (fun s app =>
             nfold (add_dependent build typ targets activeProjectID (n_namespace d)) s (h_required app))
             (∅, ∅, w) (n_apps d) in
  let '(required, children, w) := r in
  ok (mkBuilt (set_required required d) children, w).

(** ** The whole *)

Definition is_create (scenario : string) : bool := bool_decide (scenario = "create").

(** A new name, the namespace, the display name. *)
Definition name_new (activeProjectID display : string) : np (string * string) :=
  let! name := ncall (NGenerateName "deployment-") in
  do! _ := CreateNamespace activeProjectID in
  if negb (bool_decide (display = "")) then
    if negb (bool_decide (display = trim_space display))
    then fail (mkErr KInvalid "display-name cannot contain leading or trailing spaces")
    else ok (name, display)
  else ok (name, name).

(** The deployment with what the request, the catalog and the templates give. *)
Definition first_deployment (inp : Request) (typ activeProjectID : string) (apps : list HelmApp) (name deployID namespace : string)
    (overrides : list (OverrideValues num)) (targets : list TargetClusters) (all_target : option TargetClusters)
    (forbids : bool) (namespaces : list NamespaceRes) : Deployment :=
  mkNDeployment name (in_app_name inp) "" (in_app_version inp) (in_profile inp) deployID typ
    "app.edge-orchestrator.intel.com" ∅ ∅ ∅ ∅ namespace apps overrides [] targets all_target forbids ∅
    activeProjectID (in_exports inp) (in_network inp) namespaces ∅.

(** The part after the catalog lookup, up to the dependents. *)
Definition complete (scenario : string) (inp : Request) (typ activeProjectID : string) (dp : CatPackage) (helmApps : list HelmApp)
    (defaultProfileName : string) (overrides : list (OverrideValues num)) (keys : gmap string (list string))
    (targets : list TargetClusters) (all_target : option TargetClusters) (st : store) : np (Deployment * store) :=
  do! _ := nfold (fun _ ns => match check_namespace ns with Some e => fail e | None => ok tt end) tt (cpk_namespaces dp) in
  do! (name, deployID, namespace, overrides) :=
    (if bool_decide (scenario = "update") then
       do! (name, namespace) := find_updated (in_deploy_id inp) activeProjectID in
       do! overrides := nfold (unmask_app name namespace (in_profile inp)) overrides helmApps in
       ok (name, in_deploy_id inp, namespace, overrides)
     else ok ("", "", "", overrides)) in
  let d := first_deployment inp typ activeProjectID helmApps name deployID namespace overrides targets all_target
             (cpk_forbids dp) (cpk_namespaces dp) in
  do! (d, err) := of_maypanic (checkParameterTemplate num_of_int marshal_map d keys) in
  do! _ := done match err with Some e => Err e | None => Ok tt end in
  let profile := if bool_decide (n_profile d = "") then defaultProfileName else n_profile d in
  do! (name, display) :=
    (if is_create scenario then name_new activeProjectID (in_display_name inp)
     else ok (n_name d, if bool_decide (scenario = "update") then in_display_name inp else n_display_name d)) in
  let d := set_core name display profile (n_deploy_id d) activeProjectID d in
  match all_target with
  | Some target => of_maypanic (mergeAllAppTargetClusters d target st)
  | None => ok (d, st)
  end.

(** [room] is how many more calls the stack has room for.  [in.TargetClusters]
    stays the list of the request when the targets are merged. *)
Fixpoint initDeployment (room : nat) (scenario : string) (inp : Request) (w : world) (activeProjectID : string) : np (Built * world) :=
  match room with
  | O => Ret OutOfStack
  | S room' =>
      let typ := deploymentType (in_type inp) in
      if bool_decide (in_targets inp = []) && bool_decide (in_all_target inp = None)
      then fail (mkErr KInvalid "missing targetClusters in request")
      else
        do! (st, targets) := check_targets typ activeProjectID (in_targets inp) (w_store w) in
        do! (st, all_target) := check_all_target typ activeProjectID (in_all_target inp) st in
        do! (overrides, keys) := check_overrides (in_overrides inp) in
        do! (dp, helmApps, defaultProfileName) :=
          map_err (fun e => mkErr KNotFound (e_msg e))
            (CatalogLookupDPAndHelmApps (Env.getenv lookupenv) (in_app_name inp) (in_app_version inp) (in_profile inp)) in
        do! (d, st) := complete scenario inp typ activeProjectID dp helmApps defaultProfileName overrides keys targets all_target st in
        map_err Status_Err
          (addDepAndRelationships (fun r w => initDeployment room' "create" r w activeProjectID) d (in_type inp) targets
             activeProjectID (set_store st w))
  end.
End Init.
Arguments Request num : clear implicits.
Arguments world num : clear implicits.
