(* ===== verification/Queries.v ===== *)
(** * The northbound handlers that read

    Every handler validates its request, asks whether the caller may make it,
    and works in the namespace of the caller's active project
    (internal/northbound/northbound.go and cluster.go). *)

From S2P Require Import Prelude Prog GoStr Types Utils Pb ClusterTypes DataSelect PbStruct Nbi GoMonad NbEff Targets Secrets InitDeployment.

(** ** What every handler starts with *)

Section Queries.
Context {MR : MapRange} {num : Type}.
(** [errors.Status(err).Err()] *)
Context (Status_Err : gerror -> gerror).
Context (yaml_to_json : string -> res string).
Context (unmarshal_struct : string -> option (list (string * value num)) * option gerror).
Context (parse_rfc3339 : string -> option Z) {G : GoRegexp} {S : GoSort}.
Context (s : DeploymentSvc) (ctx : context).

Definition incomplete {A : Type} (msg : string) : np A := fail (Status_Err (mkErr KInvalid msg)).

Definition validate (request : string) : np unit :=
  map_err (fun e => Status_Err (mkErr KInvalid (e_msg e))) (ecall (ncall (NValidate request))).

(** [what] is the start of the error message. *)
Definition authorize (request what : string) : np unit :=
  map_err (fun e => Status_Err (mkErr KForbidden (what +:+ ": " +:+ e_msg e))) (AuthCheckAllowed s ctx request).

Definition active_project : np string :=
  map_err (fun e => Status_Err (mkErr KUnavailable ("failed to get tenant project ID " +:+ e_msg e)))
    (done (GetActiveProjectID s ctx)).

Definition checks (request what : string) : np string :=
  do! _ := validate request in
  do! _ := authorize request what in
  active_project.

(** The errors of calls to the cluster, as the handlers return them. *)
Definition k8s {A : Type} (p : np A) : np A := map_err (fun e => Status_Err (K8sToTypedError e)) p.
Definition typed {A : Type} (p : np A) : np A := map_err Status_Err p.

Definition ListDeployments_ (ns : string) (labels : gmap string string) : np (list Types.Deployment) :=
  rcall (ncall (NListDeployments ns labels)).
Definition ListDeploymentClusters_ (labels : gmap string string) : np (list DeploymentCluster) :=
  rcall (ncall (NListDCs labels)).

(** ** [createDeploymentObject] *)

(** [deploymentpb.Deployment] as it is returned; the fields selections read are
    in [m_base]. *)
Record Target : Type := mkTgt { tg_app : string; tg_cluster_id : string; tg_labels : gmap string string }.

Record DeploymentMsg : Type := mkMsg {
  m_base : PbDeployment;
  m_profile : string;
  m_type : string;
  m_create_time : Z;
  m_overrides : list (OverrideValues num);
  m_targets : list Target;
  m_apps : list PbApp
}.

#[export] Instance DeploymentMsg_item : DataItem DeploymentMsg := { GetField d name := GetField (m_base d) name }.

(** Label sets separated by commas; a text without [=] is passed over. *)
Definition checkFilter (checkFilters : list string) (labelCheck : gmap string string) : bool :=
  existsb (fun labelSet =>
    existsb (fun v =>
      match split v "=" with
      | k :: x :: _ => bool_decide (labelCheck !! k = Some x)
      | _ => false
      end) (split labelSet ",")) checkFilters.

(** The DeploymentClusters of the deployment that name a cluster. *)
Definition own_dcs (deployment : Types.Deployment) (dcs : list DeploymentCluster) : list DeploymentCluster :=
  List.filter (fun dc => bool_decide (mget (dc_labels dc) DeploymentID = d_uid deployment) &&
                         negb (bool_decide (dc_cluster_id dc = ""))) dcs.

Definition appClusterMap (deployment : Types.Deployment) (dcs : list DeploymentCluster) : gmap string (list string) :=
  foldl (fun acc dc =>
    foldl (fun (acc : gmap string (list string)) app =>
      <[a_name app := default [] (acc !! a_name app) ++ [dc_cluster_id dc]]> acc) acc (dcs_apps (dc_status dc)))
    ∅ (own_dcs deployment dcs).

(** The labels of the clusters, as far as they can be read. *)
Definition clusterLabelsMap (deployment : Types.Deployment) (dcs : list DeploymentCluster) :
    np (gmap string (gmap string string)) :=
  nfold (fun (acc : gmap string (gmap string string)) dc =>
    do! got := catch (rcall (ncall (NGetCluster (d_namespace deployment) (dc_cluster_id dc)))) in
    match got with
    | Ok cluster => match cl_labels cluster with
                    | Some labels => ok (<[dc_cluster_id dc := labels]> acc)
                    | None => ok acc
                    end
    | Err _ => ok acc
    end) ∅ (own_dcs deployment dcs).

(** All pairs but the project are among the labels of the cluster; an absent
    label reads as the empty text. *)
Definition selector_matches (actualClusterLabels selector : gmap string string) : bool :=
  forallb (fun kv : string * string =>
    bool_decide (kv.1 = FleetProjectID) || bool_decide (mget actualClusterLabels kv.1 = kv.2)) (map_range selector).

(** The selector shown for a cluster: the first that matches, else the first. *)
Definition shown_selector (labels : gmap string (gmap string string)) (labelCheckList : list (gmap string string))
    (clusterID : string) : gmap string string :=
  let matched := match labels !! clusterID with
                 | Some actual => find_first (selector_matches actual) labelCheckList
                 | None => None
                 end in
  default (default ∅ (head labelCheckList)) matched.

Definition app_targets_msg (typ : string) (clusters : gmap string (list string))
    (labels : gmap string (gmap string string)) (app : Application) : list Target :=
  let labelCheckList := app_targets app in
  concat (map (fun l : gmap string string =>
    match l !! ClusterName with
    | Some cluster => [mkTgt (app_name app) cluster l]
    | None =>
        if bool_decide (typ = AutoScaling) then
          match default [] (clusters !! app_name app) with
          | [] => [mkTgt (app_name app) "" (default ∅ (head labelCheckList))]
          | clusterIDs => map (fun clusterID =>
              mkTgt (app_name app) clusterID (shown_selector labels labelCheckList clusterID)) clusterIDs
          end
        else []
    end) labelCheckList).

(** The override values of an application: the masked ones, or the plain ones
    when there are none masked. *)
Definition read_overrides (ns : string) (acc : list (OverrideValues num)) (app : Application) : np (list (OverrideValues num)) :=
  if bool_decide (app_value_secret app = "") then ok acc
  else
    do! got := catch (GetSecretValue ns (app_value_secret app +:+ "-masked")) in
    do! got := match got with
               | Err e => if is_not_found e then catch (GetSecretValue ns (app_value_secret app)) else ok got
               | Ok _ => ok got
               end in
    match got with
    | Err _ => ok acc
    | Ok secretValue =>
        match yaml_to_json (mget (sec_data secretValue) "values") with
        | Err _ => ok acc
        | Ok val => ok (acc ++ [mkOverride (app_name app) (app_namespace app)
                                  (option_map VStruct (unmarshal_struct val).1)])
        end
    end.

Definition cluster_summary (d : Types.Deployment) : PbSummary :=
  let sm := st_summary (d_status d) in
  mkPbSummary (ToInt32Clamped (cs_total sm)) (ToInt32Clamped (cs_running sm)) (ToInt32Clamped (cs_down sm))
    (ToInt32Clamped (cs_unknown sm)) ClusterCounts.

(** [dcs] is [c.deploymentClusters], which may be nil.  The result is absent
    when the deployment does not match the filters. *)
Definition createDeploymentObject (d : Types.Deployment) (dcs : option (list DeploymentCluster))
    (checkFilters : list string) : np (option DeploymentMsg) :=
  let apps := sp_apps (d_spec d) in
  if negb (bool_decide (checkFilters = [])) &&
     negb (existsb (fun app => existsb (checkFilter checkFilters) (app_targets app)) apps)
  then ok None
  else
    let typ := sp_type (d_spec d) in
    let auto := if bool_decide (typ = AutoScaling) then default [] dcs else [] in
    do! labels := clusterLabelsMap d auto in
    do! overrides := nfold (read_overrides (d_namespace d)) [] apps in
    let ref := sp_pkg (d_spec d) in
    ok (Some (mkMsg
      (mkPbDeployment (d_name d) (sp_display_name (d_spec d)) (dp_name ref) (dp_version ref) (d_uid d)
         (mkPbStatus (deploymentState (st_state (d_status d))) (st_message (d_status d)) (cluster_summary d)))
      (dp_profile ref) typ (d_creation d / 1000000000) overrides
      (concat (map (app_targets_msg typ (appClusterMap d auto) labels) apps))
      (concat (map (fun dc => pbc_apps (createDeploymentClusterCr dc)) (default [] dcs))))).

(** One object for every deployment that matches. *)
Definition queryFilter (deployments : list Types.Deployment) (dcs : list DeploymentCluster) (labelSet : list string) :
    np (list DeploymentMsg) :=
  nfold (fun acc d =>
    do! o := createDeploymentObject d (Some dcs) labelSet in
    ok (match o with Some m => acc ++ [m] | None => acc end)) [] deployments.

(** ** [GetDeploymentsStatus] *)

Record Counts : Type := mkCounts {
  k_total : Z; k_running : Z; k_down : Z; k_deploying : Z; k_updating : Z; k_terminating : Z;
  k_unknown : Z; k_error : Z
}.

Definition wrap32 (n : Z) : Z := (n + 2^31) `mod` 2^32 - 2^31.

(** [x += y] on [int32], and back to zero when the sum is negative. *)
Definition add32 (x y : Z) : Z := let n := wrap32 (x + y) in if n <? 0 then 0 else n.

Definition count (c : Counts) (st : PbStatus) : Counts :=
  let sm := pbst_summary st in
  let total := add32 (k_total c) (pbs_total sm) in
  match pbst_state st with
  | State_ERROR => mkCounts total (k_running c) (k_down c) (k_deploying c) (k_updating c) (k_terminating c) (k_unknown c)
                     (add32 (k_error c) (pbs_total sm))
  | State_TERMINATING => mkCounts total (k_running c) (k_down c) (k_deploying c) (k_updating c)
                     (add32 (k_terminating c) (pbs_total sm)) (k_unknown c) (k_error c)
  | state =>
      let running := add32 (k_running c) (pbs_running sm) in
      match state with
      | State_DEPLOYING => mkCounts total running (k_down c) (add32 (k_deploying c) (pbs_down sm)) (k_updating c)
                             (k_terminating c) (k_unknown c) (k_error c)
      | State_UPDATING => mkCounts total running (k_down c) (k_deploying c) (add32 (k_updating c) (pbs_down sm))
                             (k_terminating c) (k_unknown c) (k_error c)
      | State_UNKNOWN => mkCounts total running (k_down c) (k_deploying c) (k_updating c) (k_terminating c)
                             (add32 (k_unknown c) (pbs_unknown sm)) (k_error c)
      | _ => mkCounts total running (add32 (k_down c) (pbs_down sm)) (k_deploying c) (k_updating c)
               (k_terminating c) (k_unknown c) (k_error c)
      end
  end.

Definition count_all (deployList : list DeploymentMsg) : Counts :=
  foldl (fun c m => count c (pbd_status (m_base m))) (mkCounts 0 0 0 0 0 0 0 0) deployList.

Definition GetDeploymentsStatus (labels : list string) : np Counts :=
  do! project := checks "deploymentv1.GetDeploymentsStatusRequest" "cannot get status of deployments" in
  do! deployments := k8s (ListDeployments_ project (project_labels project)) in
  do! deploymentClusters := k8s (ListDeploymentClusters_ (project_labels project)) in
  let valid := List.filter (fun dc =>
                 existsb (fun d => bool_decide (d_uid d = mget (dc_labels dc) DeploymentID)) deployments) deploymentClusters in
  do! deployList := queryFilter deployments valid labels in
  ok (count_all deployList).

(** ** Deployments *)

(** The label selector of the DeploymentClusters of a deployment. *)
Definition deployment_labels (project uid : string) : gmap string string :=
  <[AppOrchActiveProjectID := project]> {[DeploymentID := uid]}.

Definition not_found {A : Type} (msg : string) : np A := fail (Status_Err (mkErr KNotFound msg)).

Definition GetDeployment (deplId : string) : np (option DeploymentMsg) :=
  if bool_decide (deplId = "") then incomplete "incomplete request"
  else
    do! project := checks "deploymentv1.GetDeploymentRequest" "cannot get deployment" in
    do! deployment := typed (matchUIDDeployment deplId project (project_labels project)) in
    if bool_decide (d_name deployment = "") then not_found ("deployment id " +:+ deplId +:+ " not found")
    else
      do! deploymentClusters := k8s (ListDeploymentClusters_ (deployment_labels project deplId)) in
      let valid := List.filter (fun dc => bool_decide (mget (dc_labels dc) DeploymentID = deplId)) deploymentClusters in
      createDeploymentObject deployment (Some valid) [].

(** A nil slice where the selection panics. *)
Definition select_or_panic {A : Type} (r : res (option A)) (wrap : gerror -> gerror) : np A :=
  match r with
  | Ok (Some l) => ok l
  | Ok None => panic
  | Err e => fail (wrap e)
  end.

Definition ListDeployments (req : ListRequest) (labels : list string) : np (list DeploymentMsg * Z) :=
  do! project := checks "deploymentv1.ListDeploymentsRequest" "cannot list deployments" in
  do! deployments := k8s (ListDeployments_ project (project_labels project)) in
  do! deployList := queryFilter deployments [] labels in
  do! selectedDeployments := select_or_panic (select_items parse_rfc3339 req deployList) Status_Err in
  ok (selectedDeployments, ToInt32Clamped (zlen deployList)).

(** [deploymentpb.DeploymentInstancesCluster] *)
Record InstancesCluster : Type := mkInstances {
  ic_uid : string;
  ic_name : string;
  ic_display : string;
  ic_status : PbStatus;
  ic_apps : list PbApp
}.

Definition createDeploymentInstanceCluster (dc : DeploymentCluster) (uid name display : string) : InstancesCluster :=
  mkInstances uid name display (pb_status (dcs_status (dc_status dc)))
    (map (fun app => mkPbApp (a_id app) (a_name app) (pb_status (a_status app))) (dcs_apps (dc_status dc))).

Definition ListDeploymentsPerCluster (clusterId : string) : np (list InstancesCluster * Z) :=
  do! _ := validate "deploymentv1.ListDeploymentsPerClusterRequest" in
  do! _ := authorize "deploymentv1.ListDeploymentsPerClusterRequest" "cannot list deployments" in
  if bool_decide (clusterId = "") then incomplete "incomplete request - cluster ID is missing"
  else
    do! project := active_project in
    do! deployments := map_err (fun e => Status_Err (mkErr KUnavailable ("failed to get deployment list " +:+ e_msg e)))
                         (ListDeployments_ project (project_labels project)) in
    let deploymentMap := foldl (fun (acc : gmap string Types.Deployment) d => <[d_uid d := d]> acc) ∅ deployments in
    do! deploymentClusters := k8s (ListDeploymentClusters_ (<[ClusterName := clusterId]> (project_labels project))) in
    let deploymentList := omap (fun dc =>
      if bool_decide (dc_deployment_id dc = "") || bool_decide (dc_cluster_id dc = "") then None
      else match deploymentMap !! dc_deployment_id dc with
           | None => None
           | Some d => Some (createDeploymentInstanceCluster dc (dc_deployment_id dc) (d_name d) (sp_display_name (d_spec d)))
           end) deploymentClusters in
    ok (deploymentList, ToInt32Clamped (zlen deploymentList)).

Definition GetAppNamespace (appId : string) : np string :=
  do! _ := validate "deploymentv1.GetAppNamespaceRequest" in
  do! clusterNameSpace := active_project in
  do! bundle := k8s (rcall (ncall (NGetBundle clusterNameSpace appId))) in
  ok (if negb (bool_decide (bun_target_namespace bundle = "")) then bun_target_namespace bundle
      else bun_default_namespace bundle).

Definition ListDeploymentClusters (deplId : string) (req : ListRequest) : np (list PbCluster * Z) :=
  if bool_decide (deplId = "") then incomplete "incomplete request"
  else
    do! project := checks "deploymentv1.ListDeploymentClustersRequest" "cannot get deployment clusters" in
    do! deployment := typed (matchUIDDeployment deplId project (project_labels project)) in
    if bool_decide (d_name deployment = "") then not_found ("deployment id " +:+ deplId +:+ " not found")
    else
      do! deploymentClusters := k8s (ListDeploymentClusters_ (deployment_labels project deplId)) in
      let clusterList := map createDeploymentClusterCr deploymentClusters in
      do! selectedClusters := select_or_panic (selectClustersPerDeployment parse_rfc3339 req clusterList)
        (fun e => Status_Err (mkErr KInvalid ("cannot list clusters for given deployment: " +:+ deplId +:+ ", " +:+ e_msg e))) in
      ok (selectedClusters, ToInt32Clamped (zlen clusterList)).

(** ** Clusters ([cluster.go]) *)

Definition GetKubeConfig (clusterId : string) : np string :=
  if bool_decide (clusterId = "") then incomplete "incomplete request"
  else
    do! _ := validate "deploymentv1.GetKubeConfigRequest" in
    do! _ := map_err (fun _ => Status_Err (mkErr KForbidden "cannot get kubeConfig info"))
               (AuthCheckAllowed s ctx "deploymentv1.GetKubeConfigRequest") in
    do! namespace := active_project in
    do! cluster := k8s (rcall (ncall (NGetCluster namespace clusterId))) in
    do! kubeConfigValue := typed (GetSecretValue namespace (cl_kubeconfig_secret (cl_spec cluster))) in
    ok (mget (sec_data kubeConfigValue) "value").

(** [deploymentpb.ClusterInfo], without its creation time *)
Record ClusterInfoMsg : Type := mkClusterInfoMsg { ci_base : PbClusterInfo; ci_labels : gomap }.

#[export] Instance ClusterInfoMsg_item : DataItem ClusterInfoMsg := { GetField c name := GetField (ci_base c) name }.

Definition ListClusters (req : ListRequest) : np (list ClusterInfoMsg * Z) :=
  do! project := checks "deploymentv1.ListClustersRequest" "cannot list clusters" in
  do! clusters := k8s (rcall (ncall (NListClusters project (project_labels project)))) in
  let clusterInfoList := map (fun c =>
    mkClusterInfoMsg (mkPbClusterInfo (cl_display_name (cl_spec c)) (cl_name c)) (cl_labels c)) clusters in
  do! selectedClusters := select_or_panic (select_items parse_rfc3339 req clusterInfoList) Status_Err in
  ok (selectedClusters, ToInt32Clamped (zlen clusterInfoList)).

(** Another DeploymentCluster of the same cluster added to the answer; the sum
    of two [int32] is taken as an [int]. *)
Definition add_cluster (r tmp : PbCluster) : PbCluster :=
  let a := pbst_summary (pbc_status r) in
  let b := pbst_summary (pbc_status tmp) in
  let state := if negb (bool_decide (pbst_state (pbc_status tmp) = State_RUNNING)) then pbst_state (pbc_status tmp)
               else pbst_state (pbc_status r) in
  mkPbCluster (pbc_name r) (pbc_id r)
    (mkPbStatus state (pbst_message (pbc_status r))
       (mkPbSummary (ToInt32Clamped (pbs_total b + pbs_total a)) (ToInt32Clamped (pbs_running b + pbs_running a))
          (ToInt32Clamped (pbs_down b + pbs_down a)) (ToInt32Clamped (pbs_unknown b + pbs_unknown a)) (pbs_type a)))
    (pbc_apps r ++ pbc_apps tmp).

Definition GetCluster (clusterID : string) : np PbCluster :=
  if bool_decide (clusterID = "") then incomplete "incomplete request"
  else
    do! project := checks "deploymentv1.GetClusterRequest" "cannot get cluster" in
    do! clusters := k8s (ListDeploymentClusters_ (<[AppOrchActiveProjectID := project]> {[ClusterName := clusterID]})) in
    match map createDeploymentClusterCr clusters with
    | [] => not_found ("cluster id " +:+ clusterID +:+ " not found")
    | c :: cs => ok (foldl add_cluster c cs)
    end.

End Queries.
