(* ===== verification/Handlers.v ===== *)
(** * The northbound handlers that write

    [CreateDeployment], [UpdateDeployment] and [DeleteDeployment]
    (internal/northbound/northbound.go).  Each holds [s.apiMutex] from its first
    line to its return, so that of these three one runs at a time. *)

From S2P Require Import Prelude Prog GoStr Types Pb PbStruct Nbi GoMonad NbEff Env Targets Catalog Secrets Dependency InitDeployment Queries.

Section Handlers.
Context {MR : MapRange} {num : Type} (num_of_int : Z -> num).
Context (lookupenv : string -> option string).
Context (marshal_map : gmap string string -> res string).
Context (marshal : option (value num) -> res string) (json_to_yaml yaml_to_json : string -> res string).
Context (unmarshal_struct : string -> option (list (string * value num)) * option gerror).
Context (Status_Err : gerror -> gerror).
Context (s : DeploymentSvc) (ctx : context).
(** How many nested calls of [initDeployment] the stack has room for. *)
Context (room : nat).

Abbreviation Deployment := (Nbi.Deployment num).
Abbreviation Built := (Dependency.Built num).
Abbreviation getenv := (Env.getenv lookupenv).

Abbreviation typed := (Queries.typed Status_Err).
Abbreviation k8s := (Queries.k8s Status_Err).
Abbreviation checks := (Queries.checks Status_Err s ctx).

(** ** Targets of the children *)

(** The slices of [parentTargets] and of the child are compared by
    [reflect.DeepEqual]; [local] says that the parent was built by this
    service, whose empty slices are not nil, rather than decoded. *)
Definition same_targets (local : bool) (childTargets parentTargets : list (gmap string string)) : bool :=
  bool_decide (childTargets = parentTargets) && negb (local && bool_decide (parentTargets = [])).

(** The applications of a child, and whether any has changed. *)
Definition auto_scaling_child (local : bool) (parent : Types.Deployment) (apps : list Application) :
    list Application * bool :=
  match sp_apps (d_spec parent) with
  | [] => (apps, false)
  | first :: _ =>
      let parentTargets := app_targets first in
      (map (with_targets parentTargets) apps,
       existsb (fun app => negb (same_targets local (app_targets app) parentTargets)) apps)
  end.

(** One target per cluster name, the first. *)
Definition unique_targets (targets : list (gmap string string)) : list (gmap string string) :=
  (foldl (fun (acc : list (gmap string string) * gset string) target =>
     let clusterName := mget target ClusterName in
     if bool_decide (clusterName ∈ acc.2) then acc else (acc.1 ++ [target], {[clusterName]} ∪ acc.2))
     ([], ∅) targets).1.

Definition targeted_child_app (uniqueTargets : list (gmap string string)) (app : Application) : Application * bool :=
  let r := foldl (fun (acc : list (gmap string string) * bool) newTarget =>
             if existsb (fun existing => bool_decide (mget existing ClusterName = mget newTarget ClusterName)) acc.1
             then acc else (acc.1 ++ [newTarget], true)) (app_targets app, false) uniqueTargets in
  (with_targets r.1 app, r.2).

(** A child that cannot be read or updated is logged and passed over. *)
Definition update_child (namespace childName : string) (change : Types.Deployment -> Types.Deployment * bool) : np unit :=
  do! got := catch (rcall (ncall (NGetDeployment namespace childName))) in
  match got with
  | Err _ => ok tt
  | Ok childDeployment =>
      let '(childDeployment, updated) := change childDeployment in
      if (updated : bool) then
        do! _ := catch (rcall (ncall (NUpdateDeployment namespace childName childDeployment))) in ok tt
      else ok tt
  end.

Definition propagateTargetsToChildDeployments (local : bool) (parent : Types.Deployment) : np unit :=
  let change :=
    if bool_decide (sp_type (d_spec parent) = AutoScaling) then
      fun child : Types.Deployment =>
        let '(apps, updated) := auto_scaling_child local parent (sp_apps (d_spec child)) in
        (set_spec (fun sp => with_type AutoScaling (with_apps apps sp)) child, updated)
    else
      let uniqueTargets := unique_targets (concat (map app_targets (sp_apps (d_spec parent)))) in
      fun child : Types.Deployment =>
        let r := map (targeted_child_app uniqueTargets) (sp_apps (d_spec child)) in
        (set_spec (with_apps (map fst r)) child, existsb snd r) in
  nfold (fun _ (kv : string * DependentDeploymentRef) => update_child (d_namespace parent) kv.1 change) tt
    (map_range (sp_children (d_spec parent))).

(** ** [CreateDeployment] *)

Definition set_deploy_id (uid : string) (d : Deployment) : Deployment := set_name_id (n_name d) uid d.

(** [createDeploymentCr] as a part of a handler. *)
Definition make_cr (d : Deployment) (scenario resourceVersion : string) (existing : option Types.Deployment) (st : store) :
    np (Types.Deployment * Deployment * store) :=
  do! (r, d, st) := of_maypanic (createDeploymentCr getenv d scenario resourceVersion existing st) in
  do! cr := typed (done r) in
  ok (cr, d, st).

(** The secrets, the resource, and its secrets' owner. *)
Definition create_new (namespace : string) (b : Built) (st : store) : np (Types.Deployment * Types.Deployment * Built * store) :=
  do! d := typed (createSecrets lookupenv marshal json_to_yaml (b_d b)) in
  do! (cr, d, st) := make_cr d "create" "" None st in
  let createInstance := addRelationshipToDeploymentCR (mkBuilt d (b_children b)) cr in
  do! deploymentCR := k8s (rcall (ncall (NCreateDeployment namespace createInstance))) in
  let d := set_deploy_id (d_uid deploymentCR) d in
  do! _ := typed (updateOwnerRefSecrets d) in
  ok (createInstance, deploymentCR, mkBuilt d (b_children b), st).

(** A dependent that exists already gets the children and the targets. *)
Definition update_existing (namespace activeProjectID : string) (b : Built) (st : store) : np store :=
  do! cr := k8s (rcall (ncall (NGetDeployment namespace (n_name (b_d b))))) in
  let cr := addRelationshipToDeploymentCR b cr in
  do! (cr, st) := of_maypanic (addTargetClusterEntry (n_targets (b_d b)) cr activeProjectID st) in
  do! _ := k8s (rcall (ncall (NUpdateDeployment namespace (d_name cr) cr))) in
  ok st.

Definition create_dependent (namespace activeProjectID : string) (st : store) (kv : string * Built) : np store :=
  if negb (bool_decide (n_deploy_id (b_d kv.2) = "")) then update_existing namespace activeProjectID kv.2 st
  else do! r := create_new namespace kv.2 st in ok r.2.

Definition CreateDeployment (deployment : option (Request num)) (st : store) : np string :=
  match deployment with
  | None => incomplete Status_Err "incomplete request"
  | Some inp =>
      do! project := checks "deploymentv1.CreateDeploymentRequest" "cannot create deployment" in
      do! _ := typed AddToOutgoingContext in
      do! (b, w) := typed (initDeployment num_of_int lookupenv marshal_map yaml_to_json unmarshal_struct Status_Err
                             room "create" inp (mkWorld ∅ st) project) in
      let d := b_d b in
      do! _ := typed (createGitClientSecret lookupenv d) in
      do! st := nfold (create_dependent (n_namespace d) project) (w_store w) (map_range (w_deps w)) in
      do! deplCRs := typed (getDeploymentCRWithDeploymentPackage (n_namespace d)
                       (catalogclient.GetDeploymentPackageID (n_app_name d) (n_app_version d) (n_profile d))
                       (project_labels project)) in
      match find_first (fun cr => bool_decide (n_display_name d = sp_display_name (d_spec cr))) deplCRs with
      | Some cr => fail (Status_Err (mkErr KAlreadyExists
                     ("Duplicate deployment exists with same name " +:+ n_display_name d +:+ ", deployID: " +:+ d_uid cr)))
      | None =>
          do! (createInstance, deploymentCR, b, _) := create_new (n_namespace d) b st in
          do! _ := (if bool_decide (sp_children (d_spec createInstance) = ∅) then ok tt
                    else propagateTargetsToChildDeployments false deploymentCR) in
          ok (n_deploy_id (b_d b))
      end
  end.

(** ** [DeleteDeployment] *)

(** [deploymentpb.DeleteType] *)
Inductive DeleteType : Type := PARENT_ONLY | ALL.

Definition DeleteType_String (t : DeleteType) : string := match t with PARENT_ONLY => "PARENT_ONLY" | ALL => "ALL" end.

Definition deploymentMap (deployments : list Types.Deployment) : gmap string Types.Deployment :=
  foldl (fun (acc : gmap string Types.Deployment) d => <[d_name d := d]> acc) ∅ deployments.

(** The root with everything below it. *)
Definition delete_graph (namespace project name : string) (deleteType : DeleteType) : np unit :=
  do! allDeployments := k8s (ListDeployments_ namespace (project_labels project)) in
  do! targetList := map_err (fun e => Status_Err (mkErr KNotFound
      ("failed to get target deployment CRs to delete deployment " +:+ name +:+ " (deleteType: " +:+
       DeleteType_String deleteType +:+ "): err " +:+ e_msg e)))
    (done (getTargetDeploymentsForDeleteDeployment name ∅ (deploymentMap allDeployments) 0)) in
  do! valid := of_maypanic (validateTargetDeployments targetList) in
  if negb valid then
    not_found Status_Err ("validation failed to delete deployment " +:+ name +:+ " (deleteType: " +:+
      DeleteType_String deleteType +:+
      ") - one of target deployment CRs has a parent deployment CR outside of dependency graph")
  else
    nfold (fun _ (kv : string * option Types.Deployment) =>
      k8s (ecall (ncall (NDeleteDeployment namespace kv.1)))) tt (map_range targetList).

Definition DeleteDeployment (deplId : string) (deleteType : DeleteType) : np unit :=
  if bool_decide (deplId = "") then incomplete Status_Err "incomplete request"
  else
    do! project := checks "deploymentv1.DeleteDeploymentRequest" "cannot delete deployment" in
    do! deployment := typed (matchUIDDeployment deplId project (project_labels project)) in
    let name := d_name deployment in
    if bool_decide (name = "") then
      not_found Status_Err ("deployment " +:+ deplId +:+ " not found while deleting deployment")
    else if negb (bool_decide (st_parents (d_status deployment) = ∅)) then
      fail (Status_Err (mkErr KAborted ("cannot delete deployment " +:+ name +:+ " - " +:+
        itoa (Z.of_nat (size (st_parents (d_status deployment)))) +:+ " parent deployment(s) is running")))
    else
      match deleteType with
      | PARENT_ONLY =>
          do! _ := k8s (ecall (ncall (NDeleteDeployment project name))) in
          do! _ := catch (deleteSecrets lookupenv deployment) in
          ok tt
      | ALL => delete_graph project project name deleteType
      end.

(** ** [UpdateDeployment] *)

Definition version_profile (version profile : string) : string := version +:+ "/" +:+ profile.

Definition childDeplMap (deployment : Types.Deployment) : gmap string string :=
  foldl (fun (acc : gmap string string) (kv : string * DependentDeploymentRef) =>
    let r := ddr_pkg kv.2 in <[dp_name r := version_profile (dp_version r) (dp_profile r)]> acc)
    ∅ (map_range (sp_children (d_spec deployment))).

Definition newDepDeplMap (d : Deployment) : gmap string string :=
  foldl (fun (acc : gmap string string) (kv : string * DeploymentPackageRef) =>
    <[dp_name kv.2 := version_profile (dp_version kv.2) (dp_profile kv.2)]> acc) ∅ (map_range (n_required d)).

(** [print_map] is [fmt]'s [%v] of a map. *)
Context (print_map : gmap string string -> string).

Definition set_id_request (deplId : string) (inp : Request num) : Request num :=
  mkRequest (in_app_name inp) (in_app_version inp) (in_profile inp) (in_display_name inp) deplId (in_type inp)
    (in_network inp) (in_exports inp) (in_overrides inp) (in_targets inp) (in_all_target inp).

(** The new secrets and the new spec, once the update is allowed. *)
Definition replace (d : Deployment) (deployment : Types.Deployment) (st : store) : np (Types.Deployment * Deployment) :=
  do! _ := typed (deleteSecrets lookupenv deployment) in
  do! d := typed (createSecrets lookupenv marshal json_to_yaml d) in
  do! (cr, d, st) := make_cr d "update" (d_resource_version deployment) (Some deployment) st in
  let updateInstance := set_spec (with_children (sp_children (d_spec deployment))) cr in
  do! updated := k8s (rcall (ncall (NUpdateDeployment (n_namespace d) (n_name d) updateInstance))) in
  do! _ := (if bool_decide (sp_children (d_spec updateInstance) = ∅) then ok tt
            else propagateTargetsToChildDeployments true updateInstance) in
  ok (updated, d).

Definition UpdateDeployment (deplId : string) (deployment : option (Request num)) (st : store) :
    np (option (DeploymentMsg (num := num))) :=
  match deployment with
  | None => incomplete Status_Err "incomplete request"
  | Some inp =>
      if bool_decide (deplId = "") then incomplete Status_Err "incomplete request"
      else
        do! project := checks "deploymentv1.UpdateDeploymentRequest" "cannot update deployment" in
        do! _ := typed AddToOutgoingContext in
        do! (b, w) := typed (initDeployment num_of_int lookupenv marshal_map yaml_to_json unmarshal_struct Status_Err
                               room "update" (set_id_request deplId inp) (mkWorld ∅ st) project) in
        let d := b_d b in
        do! deployment := typed (matchUIDDeployment deplId (n_namespace d) (project_labels project)) in
        if bool_decide (d_name deployment = "") then
          not_found Status_Err ("deployment " +:+ deplId +:+ " not found while updating deployment")
        else if bool_decide (d_resource_version deployment = "") then
          not_found Status_Err "resourceVersion not found while updating deployment"
        else
          let display := if bool_decide (n_display_name d = "") then sp_display_name (d_spec deployment) else n_display_name d in
          let d := set_core (d_name deployment) display (n_profile d) deplId (n_namespace d) d in
          if negb (bool_decide (st_parents (d_status deployment) = ∅)) then
            fail (Status_Err (mkErr KAborted ("cannot update deployment " +:+ n_name d +:+ " - " +:+
              itoa (Z.of_nat (size (st_parents (d_status deployment)))) +:+ " parent deployment(s) is running")))
          else if negb (bool_decide (childDeplMap deployment = newDepDeplMap d)) then
            fail (Status_Err (mkErr KAborted ("cannot update deployment " +:+ n_name d +:+
              " - current deployment package for child and new deployment package are not matched: current - " +:+
              print_map (childDeplMap deployment) +:+ ", new - " +:+ print_map (newDepDeplMap d))))
          else
            do! (updated, d) := replace d deployment (w_store w) in
            do! _ := typed (updateOwnerRefSecrets d) in
            createDeploymentObject yaml_to_json unmarshal_struct updated None []
  end.

End Handlers.
