(* ===== verification/Service.v ===== *)
(** * The northbound service as a whole

    One constructor for every method of the two gRPC services that
    [DeploymentSvc.Register] (internal/northbound/register.go) registers, and
    the method that serves it. *)

From S2P Require Import Prelude Prog GoStr Types Pb ClusterTypes DataSelect PbStruct Nbi GoMonad NbEff Env InitDeployment Queries Handlers.

Section Service.
Context {MR : MapRange} {num : Type} (num_of_int : Z -> num) (lookupenv : string -> option string).
Context (marshal_map : gmap string string -> res string) (marshal : option (value num) -> res string).
Context (json_to_yaml yaml_to_json : string -> res string).
Context (unmarshal_struct : string -> option (list (string * value num)) * option gerror) (Status_Err : gerror -> gerror).
Context (parse_rfc3339 : string -> option Z) {G : GoRegexp} {S : GoSort}.
Context (s : DeploymentSvc) (room : nat) (print_map : gmap string string -> string).

(** The label maps of the requests that carry a deployment are in a store. *)
Inductive rpc : Type :=
  | RpcCreateDeployment (deployment : option (Request num)) (st : store)
  | RpcUpdateDeployment (deplId : string) (deployment : option (Request num)) (st : store)
  | RpcDeleteDeployment (deplId : string) (deleteType : DeleteType)
  | RpcGetDeployment (deplId : string)
  | RpcListDeployments (req : ListRequest) (labels : list string)
  | RpcGetDeploymentsStatus (labels : list string)
  | RpcListDeploymentsPerCluster (clusterId : string)
  | RpcListDeploymentClusters (deplId : string) (req : ListRequest)
  | RpcGetAppNamespace (appId : string)
  | RpcGetKubeConfig (clusterId : string)
  | RpcListClusters (req : ListRequest)
  | RpcGetCluster (clusterId : string).

(** The name of a method's request type. *)
Definition request_name (r : rpc) : string :=
  match r with
  | RpcCreateDeployment _ _ => "CreateDeploymentRequest"
  | RpcUpdateDeployment _ _ _ => "UpdateDeploymentRequest"
  | RpcDeleteDeployment _ _ => "DeleteDeploymentRequest"
  | RpcGetDeployment _ => "GetDeploymentRequest"
  | RpcListDeployments _ _ => "ListDeploymentsRequest"
  | RpcGetDeploymentsStatus _ => "GetDeploymentsStatusRequest"
  | RpcListDeploymentsPerCluster _ => "ListDeploymentsPerClusterRequest"
  | RpcListDeploymentClusters _ _ => "ListDeploymentClustersRequest"
  | RpcGetAppNamespace _ => "GetAppNamespaceRequest"
  | RpcGetKubeConfig _ => "GetKubeConfigRequest"
  | RpcListClusters _ => "ListClustersRequest"
  | RpcGetCluster _ => "GetClusterRequest"
  end.

Inductive reply : Type :=
  | ReDeploymentId (id : string)
  | ReEmpty
  | ReDeployment (d : option (DeploymentMsg (num := num)))
  | ReDeployments (l : list (DeploymentMsg (num := num))) (total : Z)
  | ReCounts (c : Counts)
  | ReInstances (l : list InstancesCluster) (total : Z)
  | ReClusters (l : list PbCluster) (total : Z)
  | ReText (x : string)
  | ReClusterInfos (l : list ClusterInfoMsg) (total : Z)
  | ReCluster (c : PbCluster).

Definition reply_of {A : Type} (f : A -> reply) (p : np A) : np reply := do! a := p in ok (f a).

Definition serve (ctx : context) (r : rpc) : np reply :=
  match r with
  | RpcCreateDeployment d st => reply_of ReDeploymentId
      (CreateDeployment num_of_int lookupenv marshal_map marshal json_to_yaml yaml_to_json unmarshal_struct Status_Err s ctx room d st)
  | RpcUpdateDeployment id d st => reply_of ReDeployment
      (UpdateDeployment num_of_int lookupenv marshal_map marshal json_to_yaml yaml_to_json unmarshal_struct Status_Err s ctx room
         print_map id d st)
  | RpcDeleteDeployment id ty => reply_of (fun _ => ReEmpty) (DeleteDeployment lookupenv Status_Err s ctx id ty)
  | RpcGetDeployment id => reply_of ReDeployment (GetDeployment Status_Err yaml_to_json unmarshal_struct s ctx id)
  | RpcListDeployments req labels => reply_of (fun r => ReDeployments r.1 r.2)
      (ListDeployments Status_Err yaml_to_json unmarshal_struct parse_rfc3339 s ctx req labels)
  | RpcGetDeploymentsStatus labels => reply_of ReCounts
      (GetDeploymentsStatus Status_Err yaml_to_json unmarshal_struct s ctx labels)
  | RpcListDeploymentsPerCluster c => reply_of (fun r => ReInstances r.1 r.2) (ListDeploymentsPerCluster Status_Err s ctx c)
  | RpcListDeploymentClusters id req => reply_of (fun r => ReClusters r.1 r.2)
      (ListDeploymentClusters Status_Err parse_rfc3339 s ctx id req)
  | RpcGetAppNamespace a => reply_of ReText (GetAppNamespace Status_Err s ctx a)
  | RpcGetKubeConfig c => reply_of ReText (GetKubeConfig Status_Err s ctx c)
  | RpcListClusters req => reply_of (fun r => ReClusterInfos r.1 r.2) (ListClusters Status_Err parse_rfc3339 s ctx req)
  | RpcGetCluster c => reply_of ReCluster (GetCluster Status_Err s ctx c)
  end.
End Service.
Arguments rpc num : clear implicits.
