(* ===== verification/NbSamples.v ===== *)
(** * Concrete requests, and an environment to run the northbound service in

    A project with a deployment and its child, a catalog of two packages of
    which one requires the other, and answers that accept every write. *)

From S2P Require Import Prelude Prog GoStr Types ClusterTypes DataSelectFacts PbStruct Nbi GoMonad NbEff Env Targets.
From S2P Require Import Secrets Dependency InitDeployment Queries Handlers Service.
Import catalogclient.

(** ** The cluster and the catalog *)

Record nb_world : Type := mkNbWorld {
  nw_deployments : list Types.Deployment;
  nw_packages : list CatPackage;
  nw_apps : list CatApp;
  nw_next : nat                  (* the number in the next generated name *)
}.

Definition in_namespace (ns : string) (d : Types.Deployment) : Types.Deployment :=
  mkDeployment (d_name d) ns (d_uid d) (d_labels d) (d_generation d) (d_resource_version d) (d_creation d)
    (d_deletion d) (d_finalizers d) (d_spec d) (d_status d).

(** A resource as it is after its creation. *)
Definition created (ns : string) (d : Types.Deployment) : Types.Deployment :=
  mkDeployment (d_name d) ns ("uid-" +:+ d_name d) (d_labels d) (d_generation d) (d_resource_version d) (d_creation d)
    (d_deletion d) (d_finalizers d) (d_spec d) (d_status d).

Definition found {A : Type} (o : option A) : res A :=
  match o with Some a => Ok a | None => Err (mkErr KNotFound "not found") end.

Definition nb_answer (w : nb_world) (e : neff) : nresp e :=
  match e return nresp e with
  | NValidate _ | NOpaInput _ => None
  | NOpa _ _ => Ok (OpaBool true)
  | NToken => Ok "token"
  | NTokenLogout _ => None
  | NGenerateName prefix => prefix +:+ itoa (Z.of_nat (nw_next w))
  | NListDeployments ns _ => Ok (List.filter (fun d => bool_decide (d_namespace d = ns)) (nw_deployments w))
  | NGetDeployment ns n =>
      found (option_map (in_namespace ns) (find_first (fun d => bool_decide (d_name d = n)) (nw_deployments w)))
  | NCreateDeployment ns d => Ok (created ns d)
  | NUpdateDeployment ns _ d => Ok (in_namespace ns d)
  | NDeleteDeployment _ _ => None
  | NListDCs _ => Ok []
  | NGetCluster _ _ => Err (mkErr KNotFound "not found")
  | NListClusters _ _ => Ok []
  | NGetBundle _ _ => Err (mkErr KNotFound "not found")
  | NGetNamespace n => Ok (mkNamespaceObj n None)
  | NCreateNamespace _ | NUpdateNamespace _ | NCreateRoleBinding _ => None
  | NGetSecret _ n => Ok (mkSecret n ∅ [] false)
  | NCreateSecret _ _ | NUpdateSecret _ _ | NDeleteSecret _ _ => None
  | NVaultClient => None
  | NVaultValue _ _ => Ok "value"
  | NVaultLogout => None
  | NCatPackage n v => Ok (find_first (fun p => bool_decide (cpk_name p = n /\ cpk_version p = v)) (nw_packages w))
  | NCatApp n _ => Ok (find_first (fun a => bool_decide (cap_name a = n)) (nw_apps w))
  | NCatRegistry _ => Ok (Some (mkCatRegistry "oci://registry" "user" "secret" ""))
  | NCatUpdate _ _ _ => None
  | NCatArtifacts => Ok []
  end.

Definition nb_env : nhandler nb_world := fun e w =>
  (nb_answer w e,
   match e with
   | NGenerateName _ => mkNbWorld (nw_deployments w) (nw_packages w) (nw_apps w) (S (nw_next w))
   | _ => w
   end).

Definition nb_log {A : Type} (w : nb_world) (p : np A) : list nevent := (run_log nb_env w p).2.
Definition nb_result {A : Type} (w : nb_world) (p : np A) : outcome A := (run nb_env w p).1.

Lemma nb_traces {A : Type} (w : nb_world) (p : np A) (o : outcome A) :
  nb_result w p = o -> traces p (nb_log w p) o.
Proof. intros <-. unfold nb_log, nb_result. rewrite <- run_log_run. apply run_log_traces. Qed.

(** What is true of the answers of every such cluster is true of a log. *)
Lemma nb_answers {A : Type} (P : forall e, nresp e -> Prop) (w : nb_world) (p : np A) :
  (forall n e, P e (nb_answer (mkNbWorld (nw_deployments w) (nw_packages w) (nw_apps w) n) e)) ->
  Forall (fun x : nevent => P (projT1 x) (projT2 x)) (nb_log w p).
Proof.
  intros H. unfold nb_log. assert (Hp : forall (p : nprog (outcome A)) n,
    Forall (fun x : nevent => P (projT1 x) (projT2 x))
      (run_log nb_env (mkNbWorld (nw_deployments w) (nw_packages w) (nw_apps w) n) p).2); [|destruct w; apply Hp].
  induction p0 as [a|e k IH]; intros n; simpl; [constructor|].
  set (a := nb_answer _ e). assert (Ha : P e a) by apply H.
  assert (exists n', (nb_env e (mkNbWorld (nw_deployments w) (nw_packages w) (nw_apps w) n)).2 =
    mkNbWorld (nw_deployments w) (nw_packages w) (nw_apps w) n') as [n' Hn'] by (destruct e; eexists; reflexivity).
  simpl in Hn'. rewrite Hn'. specialize (IH a n'). destruct (run_log nb_env _ (k a)) as [[? ?] t]. by constructor.
Qed.

(** The deployments listed are some of those of the cluster, in that namespace. *)
Lemma nb_listed (P : Types.Deployment -> Prop) (ns : string) (ds : list Types.Deployment) :
  (forall d, d ∈ ds -> d_namespace d = ns -> P d) ->
  Forall P (List.filter (fun d => bool_decide (d_namespace d = ns)) ds).
Proof.
  intros H. apply Forall_forall. intros d Hd%list_elem_of_In. apply filter_In in Hd as [Hin Hns].
  apply bool_decide_eq_true in Hns. apply H; [by apply list_elem_of_In|done].
Qed.

(** Whether a log has a request. *)
Definition logged (e : neff) (t : list nevent) : bool := existsb (fun x : nevent => bool_decide (projT1 x = e)) t.

Lemma logged_requested (e : neff) (t : list nevent) : logged e t = true -> requested t e.
Proof.
  intros ([e' r] & Hin%list_elem_of_In & He%bool_decide_eq_true)%existsb_exists. simpl in He. subst e'. by exists r.
Qed.

(** ** A catalog: [blog] requires [database] *)

Definition one_profile (requires : list RequiredDeploymentPackage) : list CatProfile :=
  [mkCatProfile "small" "replicas: 1" [] requires].

Definition sample_cat_app (name : string) (requires : list RequiredDeploymentPackage) : CatApp :=
  mkCatApp name "chart" "1.0" "registry" "" (one_profile requires) [].

Definition sample_package (name app : string) : CatPackage :=
  mkCatPackage name "1.0" [mkNs "apps" ∅ ∅] {[app := "apps"]} [] "default" [("default", {[app := "small"]})]
    [(app, "1.0")] false false [] [].

Definition sample_catalog : list CatPackage := [sample_package "blog" "web"; sample_package "database" "sql"].
Definition sample_cat_apps : list CatApp :=
  [sample_cat_app "web" [mkRequired "database" "1.0" ""]; sample_cat_app "sql" []].

(** ** A deployment and its child *)

Definition sample_nb_app (name project : string) : Application :=
  mkApp name "1.0" "apps" ∅ [{[ClusterOrchKeyProjectID := project; "env" := "test"]}]
    ("parent-" +:+ name +:+ "-1.0-profile") "" [] false [] (mkHelm "chart" "1.0" "" "" "" "") ∅ false.

Definition sample_ref (package : string) : DeploymentPackageRef := mkDPRef package "1.0" "default" false [].

Definition sample_resource (name uid app package : string) (children parents : gmap string DependentDeploymentRef) :
    Types.Deployment :=
  mkDeployment name "p1" uid {[AppOrchActiveProjectID := "p1"]} 1 "7" 0 None []
    (mkSpec name "p" (sample_ref package) [sample_nb_app app "p1"] AutoScaling children (mkNet "" "" ""))
    (mkStatus [] "" "" Running (mkSummary 1 1 0 0) false "" 0 parents).

Definition sample_parent : Types.Deployment :=
  sample_resource "parent" "uid-1" "web" "blog" {["child" := mkDepRef (sample_ref "database") "child"]} ∅.
Definition sample_child : Types.Deployment :=
  sample_resource "child" "uid-2" "sql" "database" ∅ {["parent" := mkDepRef (sample_ref "blog") "parent"]}.

Definition nb_sample : nb_world := mkNbWorld [sample_parent; sample_child] sample_catalog sample_cat_apps 1.

(** ** Requests of the project [p1] *)

Definition sample_svc : DeploymentSvc := mkSvc true.
Definition sample_ctx : context := Some {["activeprojectid" := ["p1"]]}.

(** The label map of the target is the first of the store. *)
Definition sample_request (display : string) : Request Z :=
  mkRequest "blog" "1.0" "" display "" AutoScaling "" [] [] [mkTC "web" (Some O) ""] None.
Definition sample_store : store := [{["env" := "test"]}].

(** The service with parameters that keep text as it is. *)
Definition sample_serve (s : DeploymentSvc) : rpc Z -> np (reply (num := Z)) :=
  serve (fun z => z) (fun _ => None) (fun _ => Ok "{}") (fun _ => Ok "{}") Ok Ok (fun _ => (None, None)) (fun e => e)
    (fun _ => None) s 3 (fun _ => "") sample_ctx.

(** ** A deployment with secrets of three kinds *)

Definition sample_credential : Credential := mkCredential "user" "secret" "".
Definition sample_helm_app : HelmApp :=
  mkHelmApp "web" "oci://registry" "docker://registry" "chart" "1.0" "small" "replicas: 1" [] false "apps"
    sample_credential sample_credential [] [] [].
Definition sample_built : Nbi.Deployment Z :=
  mkNDeployment "parent" "blog" "blog" "1.0" "default" "uid-1" AutoScaling "p" ∅ ∅ ∅ ∅ "p1" [sample_helm_app]
    [mkOverride "web" "" (Some (VStruct []))] [] [mkTC "web" (Some O) ""] None false ∅ "p1" [] "" [] ∅.

Definition sample_create : np (Nbi.Deployment Z) := createSecrets (fun _ => None) (fun _ => Ok "{}") Ok sample_built.
Definition sample_named : Nbi.Deployment Z :=
  match nb_result nb_sample sample_create with Done (Ok d) => d | _ => sample_built end.
Definition sample_cr : maypanic (res Types.Deployment * Nbi.Deployment Z * store) :=
  createDeploymentCr (getenv (fun _ => None)) sample_named "create" "" None sample_store.

(** ** Runs of the handlers *)

Definition sample_delete : np unit := DeleteDeployment (fun _ => None) (fun e => e) sample_svc sample_ctx "uid-1" ALL.
Definition sample_update : np (option (DeploymentMsg (num := Z))) :=
  UpdateDeployment (fun z => z) (fun _ => None) (fun _ => Ok "{}") (fun _ => Ok "{}") Ok Ok (fun _ => (None, None)) (fun e => e)
    sample_svc sample_ctx 3 (fun _ => "") "uid-1" (Some (sample_request "new")) sample_store.
Definition sample_create_rpc : rpc Z := RpcCreateDeployment (Some (sample_request "new")) sample_store.
