(* ===== verification/SecretsFacts.v ===== *)
(** * Facts about the secrets of a deployment

    Every secret a deployment creates is one that deleting its secrets deletes. *)

From S2P Require Import Prelude Prog GoStr Types PbStruct Nbi GoMonad NbEff Env Targets Secrets InitDeployment Service NbSamples.
Import catalogclient.

(** ** Traces that returned a value *)

(** A sequence that returned a value got one from its first part. *)
Lemma traces_nbind_ok {A B : Type} (p : np A) (f : A -> np B) (t : list nevent) (b : B) :
  traces (nbind p f) t (Done (Ok b)) ->
  exists t1 t2 a, t = t1 ++ t2 /\ traces p t1 (Done (Ok a)) /\ traces (f a) t2 (Done (Ok b)).
Proof. intros [H|(o' & _ & _ & H)]%traces_nbind; [done|]. by destruct (H b). Qed.

Lemma traces_map_err_ok {A : Type} (g : gerror -> gerror) (p : np A) (t : list nevent) (a : A) :
  traces (map_err g p) t (Done (Ok a)) -> traces p t (Done (Ok a)).
Proof.
  intros H. unfold map_err in H. apply traces_bind in H as (t1 & t2 & o & -> & H & [-> Ho]).
  rewrite app_nil_r. by destruct o as [[b|e]| |]; simplify_eq.
Qed.

Lemma traces_rcall_ok {A : Type} (p : nprog (res A)) (t : list nevent) (a : A) :
  traces (rcall p) t (Done (Ok a)) -> traces p t (Ok a).
Proof.
  intros H. unfold rcall in H. apply traces_bind in H as (t1 & t2 & r & -> & H & [-> Ho]).
  rewrite app_nil_r. by simplify_eq.
Qed.

Lemma traces_ecall_ok (p : nprog (option gerror)) (t : list nevent) (a : unit) :
  traces (ecall p) t (Done (Ok a)) -> traces p t None.
Proof.
  intros H. unfold ecall in H. apply traces_bind in H as (t1 & t2 & r & -> & H & [-> Ho]).
  rewrite app_nil_r. by destruct r; simplify_eq.
Qed.

Lemma traces_call (e : neff) (t : list nevent) (r : nresp e) : traces (ncall e) t r -> t = [ev e r].
Proof. intros (r' & t' & -> & [-> ->]). done. Qed.

(** Membership in a trace that is written out. *)
Ltac in_trace := repeat (rewrite ?elem_of_app, ?elem_of_cons, ?list_elem_of_singleton); tauto.

(** Take the first step of a program that returned a value. *)
Ltac ok_step H t1 a H1 :=
  let t2 := fresh "t" in
  apply traces_nbind_ok in H as (t1 & t2 & a & -> & H1 & H).

(** Some part of the trace has the request. *)
Lemma requested_l (t1 t2 : list nevent) (e : neff) : requested t1 e -> requested (t1 ++ t2) e.
Proof. rewrite requested_app. by left. Qed.
Lemma requested_r (t1 t2 : list nevent) (e : neff) : requested t2 e -> requested (t1 ++ t2) e.
Proof. rewrite requested_app. by right. Qed.
Lemma requested_here (e : neff) (r : nresp e) : requested [ev e r] e.
Proof. exists r. left. Qed.

(** A loop that returned ran its body for every element. *)
Lemma traces_nfold_ok {A : Type} (f : A -> np unit) (l : list A) (t : list nevent) (x : A) :
  traces (nfold (fun _ x => f x) tt l) t (Done (Ok tt)) -> x ∈ l ->
  exists t1 t2 t3, t = t1 ++ t2 ++ t3 /\ traces (f x) t2 (Done (Ok tt)).
Proof.
  revert t. induction l as [|y l IH]; intros t H Hx; [by apply elem_of_nil in Hx|].
  cbn [nfold] in H. ok_step H t1 u H1. destruct u. apply elem_of_cons in Hx as [->|Hx].
  - exists [], t1, t0. done.
  - destruct (IH _ H Hx) as (u1 & u2 & u3 & -> & Hu). exists (t1 ++ u1), u2, u3. by rewrite <- app_assoc.
Qed.

Section Facts.
Context {MR : MapRange} {ML : MapRangeLaws MR} {num : Type} (lookupenv : string -> option string).
Context (marshal : option (value num) -> res string) (json_to_yaml : string -> res string).
Abbreviation Deployment := (Nbi.Deployment num).
Abbreviation getenv := (Env.getenv lookupenv).

(** ** What is created *)

(** The conditions under which the optional secrets of an application are made. *)
Definition override_contents (d : Deployment) (app : HelmApp) : string :=
  match (json_overrides marshal (n_overrides d)).1 !! h_name app with
  | Some overrides => yaml_of json_to_yaml overrides
  | None => ""
  end.

Definition has_repo (app : HelmApp) : bool :=
  let c := h_helm app in
  negb (bool_decide (h_repo app = "")) &&
  (negb (bool_decide (cr_ca_certs c = "")) || (negb (bool_decide (cr_password c = "")) && negb (bool_decide (cr_username c = "")))).

Definition has_image (app : HelmApp) : bool :=
  let c := h_docker app in
  negb (bool_decide (h_image_registry app = "")) && (negb (bool_decide (cr_password c = "")) && negb (bool_decide (cr_username c = ""))).

(** The secrets of an application. *)
Definition wanted (d : Deployment) (app : HelmApp) (n : string) : Prop :=
  n = profile_secret d app \/
  (override_contents d app <> "" /\ n = overrides_secret d app) \/
  (has_repo app = true /\ n = helmrepo_secret d app) \/
  (has_image app = true /\ n = imagerepo_secret d app) \/
  (mget (n_template_secrets d) (h_name app) <> "" /\ (n = template_secret d app \/ n = masked_secret d app)).

(** The same deployment but for the names of its secrets. *)
Definition same_but_names (d d' : Deployment) : Prop :=
  d' = set_secret_names (n_profile_secrets d') (n_value_secrets d') (n_repo_secrets d') (n_image_secrets d') d.

(** The names recorded for an application. *)
Definition named (d d' : Deployment) (app : HelmApp) : Prop :=
  n_profile_secrets d' !! h_name app = Some (profile_secret d app) /\
  (override_contents d app <> "" -> n_value_secrets d' !! h_name app = Some (overrides_secret d app)) /\
  (has_repo app = true -> n_repo_secrets d' !! h_name app = Some (helmrepo_secret d app)) /\
  (has_image app = true -> n_image_secrets d' !! h_name app = Some (imagerepo_secret d app)).

Definition creates (d : Deployment) (e : neff) : Prop :=
  match e with
  | NCreateSecret ns s => ns = n_namespace d /\ exists app, app ∈ n_apps d /\ wanted d app (sec_name s)
  | _ => True
  end.

Lemma nwp_CreateSecret (d : Deployment) (app : HelmApp) (ns n : string) (data : gmap string string) (b : bool) :
  ns = n_namespace d -> app ∈ n_apps d -> wanted d app n ->
  nwp any_answer (creates d) (fun _ => True) (CreateSecret ns n data b).
Proof. intros -> Happ Hn. unfold CreateSecret. nwp_go. split; [done|]. by exists app. Qed.

Lemma nwp_configureRsProxy (d : Deployment) (ns rb remote : string) :
  nwp any_answer (creates d) (fun _ => True) (configureRsProxy ns rb remote).
Proof. unfold configureRsProxy, UpdateNsLabels, CreateRoleBinding. nwp_go. Qed.

(** A map in which the entry of an application may have been set. *)
Definition set_if (c : Prop) (k v : string) (m m' : gmap string string) : Prop :=
  (m' = m \/ m' = <[k := v]> m) /\ (c -> m' !! k = Some v).

Lemma set_if_keeps (c : Prop) (k v k' v' : string) (m m' : gmap string string) :
  set_if c k v m m' -> (k' = k -> v' = v) -> m !! k' = Some v' -> m' !! k' = Some v'.
Proof.
  intros [[->| ->] _] Hv Hm; [done|]. destruct (decide (k' = k)) as [->|Hne].
  - rewrite lookup_insert_eq. f_equal. symmetry. by apply Hv.
  - by rewrite lookup_insert_ne.
Qed.

Lemma set_if_insert (k v : string) (m : gmap string string) : set_if True k v m (<[k := v]> m).
Proof. split; [by right|]. intros _. apply lookup_insert_eq. Qed.

(** Two applications whose secrets have the same names, if they have the same name at all. *)
Definition agree (app other : HelmApp) : Prop :=
  h_name other = h_name app -> to_lower (h_version other) = to_lower (h_version app).

Lemma agree_names (d : Deployment) (app other : HelmApp) :
  agree app other -> h_name other = h_name app ->
  profile_secret d other = profile_secret d app /\ overrides_secret d other = overrides_secret d app /\
  helmrepo_secret d other = helmrepo_secret d app /\ imagerepo_secret d other = imagerepo_secret d app.
Proof.
  intros Ha He. specialize (Ha He). unfold profile_secret, overrides_secret, helmrepo_secret, imagerepo_secret.
  by rewrite He, Ha.
Qed.

Section App.
Context (d : Deployment) (app : HelmApp) (Happ : app ∈ n_apps d).
Abbreviation D P V R I := (set_secret_names P V R I d).
Abbreviation makes Q p := (nwp any_answer (creates d) Q p).

Lemma makes_secret (n : string) (data : gmap string string) :
  wanted d app n -> makes (fun _ => True) (CreateSecret (n_namespace d) n data false).
Proof. intros Hn. by apply (nwp_CreateSecret d app). Qed.

Lemma makes_profile P V R I :
  makes (fun d1 => d1 = D (<[h_name app := profile_secret d app]> P) V R I) (create_profile_secret (D P V R I) app).
Proof. unfold create_profile_secret. apply nwp_seq; [apply makes_secret; by left|]. intros _. by apply nwp_ok. Qed.

Lemma makes_overrides P V R I :
  makes (fun d1 => exists V', d1 = D P V' R I /\ set_if (override_contents d app <> "") (h_name app) (overrides_secret d app) V V')
    (create_overrides_secret json_to_yaml (json_overrides marshal (n_overrides d)).1 (D P V R I) app).
Proof.
  unfold create_overrides_secret. fold (override_contents d app). case_bool_decide as Hc; cbn [negb].
  - apply nwp_ok. exists V. split; [done|]. split; [by left|done].
  - apply nwp_seq; [apply makes_secret; unfold wanted; tauto|]. intros _. apply nwp_ok. eexists. split; [done|].
    split; [by right|]. intros _. apply lookup_insert_eq.
Qed.

Lemma makes_repo P V R I :
  makes (fun d1 => exists R', d1 = D P V R' I /\ set_if (has_repo app = true) (h_name app) (helmrepo_secret d app) R R')
    (create_repo_secret (D P V R I) app).
Proof.
  unfold create_repo_secret. fold (has_repo app). destruct (has_repo app) eqn:Hc.
  - apply nwp_seq; [apply makes_secret; unfold wanted; tauto|]. intros _. apply nwp_ok. eexists. split; [done|].
    split; [by right|]. intros _. apply lookup_insert_eq.
  - apply nwp_ok. exists R. split; [done|]. split; [by left|done].
Qed.

Lemma makes_image P V R I :
  makes (fun d1 => exists I', d1 = D P V R I' /\ set_if (has_image app = true) (h_name app) (imagerepo_secret d app) I I')
    (create_image_secret (D P V R I) app).
Proof.
  unfold create_image_secret. fold (has_image app). destruct (has_image app) eqn:Hc.
  - apply nwp_seq; [apply makes_secret; unfold wanted; tauto|]. intros _. apply nwp_ok. eexists. split; [done|].
    split; [by right|]. intros _. apply lookup_insert_eq.
  - apply nwp_ok. exists I. split; [done|]. split; [by left|done].
Qed.

Lemma makes_template P V R I om cm :
  makes (fun _ => True) (create_template_secrets json_to_yaml om (D P V R I) app cm).
Proof.
  unfold create_template_secrets. cbn [n_template_secrets set_secret_names]. case_bool_decide as Hc; cbn [negb]; [by apply nwp_ok|].
  apply nwp_seq; [apply makes_secret; unfold wanted; tauto|]. intros _. cbv zeta.
  destruct (negb _); [|by apply nwp_ok].
  apply nwp_seq; [apply makes_secret; unfold wanted; tauto|]. intros _. by apply nwp_ok.
Qed.

Lemma same_but_names_D P V R I : same_but_names d (D P V R I).
Proof. done. Qed.

(** One application: its names are recorded, those of the others are kept. *)
Lemma makes_app (om : gmap string string) (st : Deployment * string * bool) :
  same_but_names d st.1.1 ->
  makes (fun st' => same_but_names d st'.1.1 /\ named d st'.1.1 app /\
       forall other, agree app other -> named d st.1.1 other -> named d st'.1.1 other)
    (create_app_secrets lookupenv json_to_yaml (json_overrides marshal (n_overrides d)).1 om st app).
Proof.
  destruct st as [[d0 cm] rs]. simpl. intros Hd0. unfold same_but_names in Hd0. rewrite Hd0. clear Hd0.
  generalize (n_profile_secrets d0) (n_value_secrets d0) (n_repo_secrets d0) (n_image_secrets d0). clear d0.
  intros P V R I. unfold create_app_secrets.
  eapply nwp_bind; [apply makes_profile|]. intros d1 ->.
  eapply nwp_bind; [apply makes_overrides|]. intros d2 (V' & -> & HV).
  eapply nwp_bind; [apply makes_repo|]. intros d3 (R' & -> & HR).
  eapply nwp_bind; [apply makes_image|]. intros d4 (I' & -> & HI).
  apply nwp_seq; [apply makes_template|]. intros cm'.
  assert (Hend : forall c b, let st' := (D (<[h_name app := profile_secret d app]> P) V' R' I', c : string, b : bool) in
    same_but_names d st'.1.1 /\ named d st'.1.1 app /\
    forall other, agree app other -> named d (D P V R I) other -> named d st'.1.1 other).
  { intros c b st'. subst st'. split; [done|]. cbn. split.
    - split_and!; [apply lookup_insert_eq|apply HV|apply HR|apply HI].
    - intros other Hag (Np & Nv & Nr & Ni). unfold named in *. cbn in *. split_and!.
      + eapply set_if_keeps; [apply set_if_insert| |exact Np]. intros He. by apply agree_names.
      + intros Hc. eapply set_if_keeps; [exact HV| |by apply Nv]. intros He. by apply agree_names.
      + intros Hc. eapply set_if_keeps; [exact HR| |by apply Nr]. intros He. by apply agree_names.
      + intros Hc. eapply set_if_keeps; [exact HI| |by apply Ni]. intros He. by apply agree_names. }
  destruct (_ && _); [|by apply nwp_ok; apply Hend].
  apply nwp_seq; [apply nwp_configureRsProxy|]. intros _. apply nwp_ok, Hend.
Qed.
End App.

(** The only version of an application in its deployment. *)
Definition one_version (d : Deployment) (app : HelmApp) : Prop := forall app', app' ∈ n_apps d -> agree app' app.

Definition names_kept (d d' : Deployment) (app : HelmApp) : Prop := one_version d app -> named d d' app.

(** All applications. *)
Lemma makes_all (d d' : Deployment) (t : list nevent) :
  traces (createSecrets lookupenv marshal json_to_yaml d) t (Done (Ok d')) ->
  Forall (fun x : nevent => creates d (projT1 x)) t /\ same_but_names d d' /\ Forall (names_kept d d') (n_apps d).
Proof.
  intros Ht.
  assert (H : nwp any_answer (creates d) (fun d' => same_but_names d d' /\ Forall (names_kept d d') (n_apps d))
    (createSecrets lookupenv marshal json_to_yaml d)).
  { unfold createSecrets. destruct (json_overrides marshal (n_masked d)) as [om cm].
    change (n_apps (set_secret_names ∅ ∅ ∅ ∅ d)) with (n_apps d).
    assert (Hloop : forall l done_ st, n_apps d = done_ ++ l -> same_but_names d st.1.1 -> Forall (names_kept d st.1.1) done_ ->
      nwp any_answer (creates d) (fun st' => same_but_names d st'.1.1 /\ Forall (names_kept d st'.1.1) (n_apps d))
        (nfold (create_app_secrets lookupenv json_to_yaml (json_overrides marshal (n_overrides d)).1 om) st l)).
    { induction l as [|app l IH]; intros done_ st Hl Hst Hdone; cbn [nfold].
      - rewrite app_nil_r in Hl. subst done_. by apply nwp_ok.
      - eapply nwp_bind; [apply (makes_app d app); [rewrite Hl; set_solver|exact Hst]|].
        intros st' (Hst' & Happ & Hkeep). apply (IH (done_ ++ [app])); [by rewrite <- app_assoc|done|].
        apply Forall_app. split; [|constructor; [by intros _|constructor]]. apply Forall_forall. intros other Ho Hone.
        rewrite Forall_forall in Hdone. apply Hkeep; [|by apply Hdone]. apply Hone. rewrite Hl. set_solver. }
    eapply nwp_bind; [apply (Hloop (n_apps d) []); [done|done|constructor]|]. intros st' Hst'. by apply nwp_ok. }
  destruct (nwp_traces _ _ _ _ _ _ H Ht (any_answers t)) as [HP [HQ1 HQ2]]. done.
Qed.

(** ** The applications of the resource *)

Lemma applicationsList_apps (d : Deployment) (scenario : string) (existing : option Types.Deployment) (st : store)
    (r : store * list (HelmApp * gmap string DeploymentPackageRef * list mapref)) :
  applicationsList d scenario existing st = Returns r -> map (fun x => x.1.1) r.2 = n_apps d.
Proof.
  unfold applicationsList.
  set (f := fun (s : store * list (HelmApp * gmap string DeploymentPackageRef * list mapref)) app => _).
  assert (H : forall l acc, mfold f acc l = Returns r -> map (fun x => x.1.1) r.2 = map (fun x => x.1.1) acc.2 ++ l).
  { induction l as [|app l IH]; intros acc H; simpl in H; [by simplify_eq; rewrite app_nil_r|].
    destruct (f acc app) as [acc'|] eqn:E; simpl in H; [|done]. rewrite (IH _ H). unfold f in E.
    destruct (app_targets_of _ _ _ _ _) as [tg|]; simpl in E; [|done].
    destruct (dependent_packages d app) as [pk|]; simpl in E; [|done]. simplify_eq. simpl. by rewrite map_app, <- app_assoc. }
  intros Hr. by rewrite (H _ _ Hr).
Qed.

(** The resource has an application for each, with the names of its secrets. *)
Lemma cr_applications (d d2 : Deployment) (scenario rv : string) (existing : option Types.Deployment) (st st' : store)
    (cr : Types.Deployment) (app : HelmApp) :
  createDeploymentCr getenv d scenario rv existing st = Returns (Ok cr, d2, st') -> app ∈ n_apps d ->
  d_name cr = n_name d /\ d_namespace cr = n_namespace d /\ dp_profile (sp_pkg (d_spec cr)) = n_profile d /\
  exists a, a ∈ sp_apps (d_spec cr) /\ app_name a = h_name app /\
    app_profile_secret a = mget (n_profile_secrets d) (h_name app) /\
    app_value_secret a = mget (n_value_secrets d) (h_name app) /\
    ha_image_secret (app_helm a) = mget (n_image_secrets d) (h_name app) /\
    (h_repo app = "" \/ h_repo app <> getenv "RS_PROXY_REPO" -> ha_repo_secret (app_helm a) = mget (n_repo_secrets d) (h_name app)).
Proof.
  intros H Happ. unfold createDeploymentCr in H.
  assert (Hk : exists nw, keep_network d scenario existing = set_network nw d).
  { unfold keep_network. destruct existing as [e|]; [destruct (_ && _); [by eexists|]|]; exists (n_network d); by destruct d. }
  destruct Hk as [nw Hk]. rewrite Hk in H. clear Hk.
  destruct (applicationsList (set_network nw d) scenario existing st) as [[st1 apps]|] eqn:E; simpl in H; [|done].
  apply applicationsList_apps in E. cbn in E.
  assert (Hin : exists pk ts, (app, pk, ts) ∈ apps).
  { rewrite <- E in Happ. apply list_elem_of_fmap in Happ as ([[x pk] ts] & -> & Hin). eauto. }
  destruct Hin as (pk & ts & Hin).
  assert (Hcr : exists rv', cr = cr_of (set_network nw d) rv'
    (map (fun '(app, packages, targets) => application getenv (set_network nw d) app packages (map (mread st1) targets)) apps)).
  { repeat case_bool_decide; simplify_eq; by eexists. }
  destruct Hcr as [rv' ->]. split_and!; try done.
  exists (application getenv (set_network nw d) app pk (map (mread st1) ts)). split_and!; try done.
  - cbn. apply list_elem_of_fmap. by exists (app, pk, ts).
  - intros Hr. cbn. destruct Hr as [Hr|Hr].
    + by rewrite (bool_decide_eq_true_2 (h_repo app = "")).
    + rewrite (bool_decide_eq_false_2 (h_repo app = getenv "RS_PROXY_REPO")) by done. by rewrite andb_false_r.
Qed.

(** ** What is deleted *)

Lemma delete_quiet_requested (ns n : string) (t : list nevent) :
  traces (delete_secret_quiet ns n) t (Done (Ok tt)) -> requested t (NDeleteSecret ns n).
Proof.
  intros H. unfold delete_secret_quiet in H. ok_step H t1 r H1. apply requested_l.
  unfold catch, DeleteSecret, map_err, ecall in H1. destruct H1 as (r' & t' & -> & _). by exists r'; left.
Qed.

Lemma delete_app_requested (deployment : Types.Deployment) (a : Application) (t : list nevent) :
  traces (delete_app_secrets lookupenv deployment a) t (Done (Ok tt)) ->
  let ns := d_namespace deployment in
  requested t (NDeleteSecret ns (app_profile_secret a)) /\
  (app_value_secret a <> "" -> requested t (NDeleteSecret ns (app_value_secret a)) /\
                               requested t (NDeleteSecret ns (app_value_secret a +:+ "-masked"))) /\
  (ha_repo_secret (app_helm a) <> "" -> ha_repo_secret (app_helm a) <> getenv "RS_PROXY_REPO_SECRET" ->
     requested t (NDeleteSecret ns (ha_repo_secret (app_helm a)))) /\
  (ha_image_secret (app_helm a) <> "" -> requested t (NDeleteSecret ns (ha_image_secret (app_helm a)))) /\
  requested t (NDeleteSecret ns (cr_template_secret deployment a)).
Proof.
  intros H ns. unfold delete_app_secrets in H. cbv zeta in H. fold ns in H.
  ok_step H t1 u1 H1. destruct u1. apply delete_quiet_requested in H1.
  ok_step H t2 u2 H2. destruct u2. ok_step H t3 u3 H3. destruct u3. ok_step H t4 u4 H4. destruct u4.
  apply delete_quiet_requested in H.
  split_and!.
  - by apply requested_l.
  - intros Hv. rewrite bool_decide_eq_false_2 in H2 by done. cbn [negb] in H2. ok_step H2 t5 u5 H5. destruct u5.
    apply delete_quiet_requested in H5, H2. split; apply requested_r, requested_l; [by apply requested_l|by apply requested_r].
  - intros Hr Hr'. rewrite !bool_decide_eq_false_2 in H3 by done. cbn [negb andb] in H3.
    apply delete_quiet_requested in H3. by apply requested_r, requested_r, requested_l.
  - intros Hi. rewrite bool_decide_eq_false_2 in H4 by done. cbn [negb] in H4.
    apply delete_quiet_requested in H4. by apply requested_r, requested_r, requested_r, requested_l.
  - by apply requested_r, requested_r, requested_r, requested_r.
Qed.

(** Either it is the only version, or there is another. *)
Lemma one_version_or (d : Deployment) (app : HelmApp) :
  one_version d app \/
  exists app', app' ∈ n_apps d /\ h_name app = h_name app' /\ to_lower (h_version app) <> to_lower (h_version app').
Proof.
  unfold one_version, agree.
  destruct (decide (Exists (fun app' => h_name app = h_name app' /\
    to_lower (h_version app) <> to_lower (h_version app')) (n_apps d))) as [H|H].
  - right. apply Exists_exists in H as (app' & ? & ? & ?). eauto.
  - left. intros app' Hin He. destruct (decide (to_lower (h_version app) = to_lower (h_version app'))) as [|Hne]; [done|].
    destruct H. apply Exists_exists. eauto.
Qed.

(** A name with a dash is not empty. *)
Lemma dashed_nonempty (a b : string) : a +:+ "-" +:+ b <> "".
Proof. by destruct a. Qed.

(** C22: Deleting the secrets of the resource made from a deployment deletes every
    secret that was created for it: whatever createSecrets created,
    deleteSecrets, when it reports success, has requested to delete by the same
    namespace and name.  Exactly four kinds may be left: the credentials of an application
    whose chart comes from the registry proxy's repository, whose name the
    resource replaces by the proxy's; a secret that happens to have the proxy's
    name; the masked values of an application without override values; and, when
    the deployment has an application in two versions (nothing checks that it
    has not), the secrets of either version, since one name per application is kept. *)
Theorem secrets_all_deleted (d d' d2 : Deployment) (t1 t2 : list nevent) (scenario rv : string)
    (existing : option Types.Deployment) (st st' : store) (cr : Types.Deployment) (ns : string) (sec : Secret) :
  traces (createSecrets lookupenv marshal json_to_yaml d) t1 (Done (Ok d')) ->
  createDeploymentCr getenv d' scenario rv existing st = Returns (Ok cr, d2, st') ->
  traces (deleteSecrets lookupenv cr) t2 (Done (Ok tt)) ->
  requested t1 (NCreateSecret ns sec) ->
  requested t2 (NDeleteSecret ns (sec_name sec)) \/
  (exists app, app ∈ n_apps d /\ h_repo app = getenv "RS_PROXY_REPO" /\ sec_name sec = helmrepo_secret d app) \/
  sec_name sec = getenv "RS_PROXY_REPO_SECRET" \/
  (exists app, app ∈ n_apps d /\ override_contents d app = "" /\ sec_name sec = masked_secret d app) \/
  (exists app app', app ∈ n_apps d /\ app' ∈ n_apps d /\ h_name app = h_name app' /\
     to_lower (h_version app) <> to_lower (h_version app') /\ wanted d app (sec_name sec)).
Proof.
  intros Ht1 Hcr Ht2 Hreq.
  destruct (makes_all d d' t1 Ht1) as (HP & Hsame & Hnamed).
  destruct Hreq as [r Hr]. rewrite Forall_forall in HP. apply HP in Hr. simpl in Hr.
  destruct Hr as (-> & app & Happ & Hw). clear HP Ht1.
  destruct (one_version_or d app) as [Hone|(app' & Happ' & He & Hne)]; [|right; right; right; right; eauto 10].
  rewrite Forall_forall in Hnamed. destruct (Hnamed app Happ Hone) as (Np & Nv & Nr & Ni). clear Hnamed Hone.
  assert (Happs : n_apps d' = n_apps d) by (by rewrite Hsame). rewrite <- Happs in Happ.
  destruct (cr_applications _ _ _ _ _ _ _ _ app Hcr Happ) as (Hname & Hns & Hprof & a & Ha & Haname & Hp & Hv & Hi & Hrepo).
  rewrite Happs in Happ.
  destruct (traces_nfold_ok _ _ _ a Ht2 Ha) as (u1 & u2 & u3 & -> & Hu). clear Ht2.
  apply delete_app_requested in Hu. cbv zeta in Hu. rewrite Hns in Hu.
  assert (Hn : n_namespace d' = n_namespace d) by (by rewrite Hsame). rewrite Hn in Hu.
  destruct Hu as (Dp & Dv & Dr & Di & Dt).
  assert (Hlift : forall n, requested u2 (NDeleteSecret (n_namespace d) n) ->
    requested (u1 ++ u2 ++ u3) (NDeleteSecret (n_namespace d) n)).
  { intros n Hu. by apply requested_r, requested_l. }
  rewrite Hp in Dp. unfold mget in Dp. rewrite Np in Dp. simpl in Dp.
  rewrite Hv in Dv. rewrite Hi in Di. unfold mget in Dv, Di.
  destruct Hw as [->|[[Hc ->]|[[Hc ->]|[[Hc ->]|[Hc [->| ->]]]]]].
  - left. by apply Hlift.
  - left. apply Hlift. rewrite (Nv Hc) in Dv. simpl in Dv. apply Dv. apply dashed_nonempty.
  - destruct (decide (h_repo app = getenv "RS_PROXY_REPO")) as [He|He]; [right; left; eauto|].
    destruct (decide (helmrepo_secret d app = getenv "RS_PROXY_REPO_SECRET")) as [He'|He']; [by right; right; left|].
    left. apply Hlift. rewrite Hrepo in Dr by (by right). unfold mget in Dr. rewrite (Nr Hc) in Dr. simpl in Dr.
    apply Dr; [apply dashed_nonempty|done].
  - left. apply Hlift. rewrite (Ni Hc) in Di. simpl in Di. apply Di, dashed_nonempty.
  - left. apply Hlift. unfold cr_template_secret in Dt. rewrite Hname, Haname, Hprof in Dt.
    unfold template_secret. by rewrite Hsame in Dt.
  - destruct (decide (override_contents d app = "")) as [He|He]; [right; right; right; left; eauto|].
    left. apply Hlift. rewrite (Nv He) in Dv. simpl in Dv. destruct Dv as [_ Dv]; [apply dashed_nonempty|].
    unfold overrides_secret in Dv. unfold masked_secret. by rewrite !sapp_assoc in Dv.
Qed.
End Facts.

(** The image credentials of a deployment are deleted with the others. *)
Definition sample_image_secret : Secret :=
  mkSecret "parent-web-1.0-imagerepo" (<["password" := "secret"]> {["username" := "user"]}) [] false.

Lemma secrets_all_deleted_witness :
  exists cr d2 st', sample_cr = Returns (Ok cr, d2, st') /\
  requested (nb_log nb_sample sample_create) (NCreateSecret "p1" sample_image_secret) /\
  (requested (nb_log nb_sample (deleteSecrets (fun _ => None) cr)) (NDeleteSecret "p1" (sec_name sample_image_secret)) \/
   (exists app, app ∈ n_apps sample_built /\ h_repo app = Env.getenv (fun _ => None) "RS_PROXY_REPO" /\
      sec_name sample_image_secret = helmrepo_secret sample_built app) \/
   sec_name sample_image_secret = Env.getenv (fun _ => None) "RS_PROXY_REPO_SECRET" \/
   (exists app, app ∈ n_apps sample_built /\ override_contents (fun _ => Ok "{}") Ok sample_built app = "" /\
      sec_name sample_image_secret = masked_secret sample_built app) \/
   (exists app app', app ∈ n_apps sample_built /\ app' ∈ n_apps sample_built /\ h_name app = h_name app' /\
      to_lower (h_version app) <> to_lower (h_version app') /\
      wanted (fun _ => Ok "{}") Ok sample_built app (sec_name sample_image_secret))).
Proof.
  assert (Hreq : requested (nb_log nb_sample sample_create) (NCreateSecret "p1" sample_image_secret)).
  { apply logged_requested. vm_compute. reflexivity. }
  eexists _, _, _. split; [vm_compute; reflexivity|]. split; [exact Hreq|].
  eapply (secrets_all_deleted (fun _ => None) (fun _ => Ok "{}") Ok sample_built sample_named) with (scenario := "create") (rv := "") (existing := None) (st := sample_store).
  - apply nb_traces. vm_compute. reflexivity.
  - vm_compute. reflexivity.
  - apply nb_traces. vm_compute. reflexivity.
  - exact Hreq.
Defined.
