(* ===== verification/InitFacts.v ===== *)
(** * Facts about building a deployment

    What [initDeployment] may ask of the outside, for any environment, and
    what the deployments it builds have in common. *)

From S2P Require Import Prelude Prog GoStr Types Utils Pb ClusterTypes PbStruct Nbi GoMonad NbEff Env Templates Targets.
From S2P Require Import Catalog Secrets Dependency InitDeployment.

(** The requests that building needs: the catalog, a name, the project's
    namespace, listings of the project, and secrets of the namespaces
    [ok_ns], the project's and those of the deployments listed. *)
Class InitRequests (K : forall e, nresp e -> Prop) (P : neff -> Prop) (ok_ns : string -> Prop) (pid : string) : Prop := {
  ir_package n v : P (NCatPackage n v);
  ir_app n v : P (NCatApp n v);
  ir_registry n : P (NCatRegistry n);
  ir_name p : P (NGenerateName p);
  ir_get_namespace : P (NGetNamespace pid);
  ir_create_namespace : P (NCreateNamespace pid);
  ir_list labels : labels = project_labels pid \/ labels = ∅ -> P (NListDeployments pid labels);
  ir_secret ns n : ok_ns ns -> P (NGetSecret ns n);
  ir_pid : ok_ns pid;
  ir_listed labels ds d : K (NListDeployments pid labels) (Ok ds) -> d ∈ ds -> ok_ns (d_namespace d)
}.

Ltac init_request :=
  first [ apply ir_package | apply ir_app | apply ir_registry | apply ir_name | apply ir_get_namespace
        | apply ir_create_namespace | apply ir_list; by auto | apply ir_secret; by auto using ir_pid ].

Section Init.
Context {K : forall e, nresp e -> Prop} {P : neff -> Prop} {ok_ns : string -> Prop} {pid : string}.
Context {IR : InitRequests K P ok_ns pid}.
(** Whether the stack may run out. *)
Context {S : Prop}.
Abbreviation inits := (nwps S K P).

Lemma init_matchUIDDeployment (UID : string) (labels : gmap string string) :
  labels = project_labels pid \/ labels = ∅ ->
  inits (fun d => d_name d = "" \/ ok_ns (d_namespace d)) (matchUIDDeployment UID pid labels).
Proof.
  intros Hl. unfold matchUIDDeployment.
  apply (nwp_bind _ _ (fun ds : list Types.Deployment => forall d, d ∈ ds -> ok_ns (d_namespace d))).
  - nwp_go; [by apply ir_list|]. destruct r as [ds|]; [|done]. intros d Hd. by eapply ir_listed.
  - intros ds Hds. apply nwp_ok. destruct (find_first _ ds) as [d|] eqn:E; simpl; [|by left].
    right. apply find_first_Some in E as [Hin _]. by apply Hds.
Qed.

Lemma init_lookup (getenv : string -> string) (n v p : string) :
  inits (fun _ => True) (Catalog.CatalogLookupDPAndHelmApps getenv n v p).
Proof.
  unfold CatalogLookupDPAndHelmApps, deref. nwp_go; try init_request. apply nwp_nfold; [done|]. intros acc [app ver] _ _.
  unfold lookup_app, deref. nwp_go; try init_request. all: apply nwp_nfold; [done|]; intros ha pr _ _.
  all: unfold lookup_profile; nwp_go; apply nwp_nfold; [done| |done|]; intros ? ? _ _.
  all: unfold lookup_template, lookup_required, deref; nwp_go; try init_request.
Qed.

Lemma init_GetSecretValue (ns n : string) : ok_ns ns -> inits (fun _ => True) (GetSecretValue ns n).
Proof. intros H. unfold GetSecretValue. nwp_go. init_request. Qed.

Lemma init_CreateNamespace : inits (fun _ => True) (CreateNamespace pid).
Proof. unfold CreateNamespace. nwp_go; try init_request. Qed.

Section Build.
Context {MR : MapRange} {ML : MapRangeLaws MR} {num : Type} (num_of_int : Z -> num) (lookupenv : string -> option string).
Context (marshal_map : gmap string string -> res string) (yaml_to_json : string -> res string).
Context (unmarshal_struct : string -> option (list (string * value num)) * option gerror) (Status_Err : gerror -> gerror).
Abbreviation Deployment := (Nbi.Deployment num).

Definition in_pid (d : Deployment) : Prop := n_namespace d = pid /\ n_active_project d = pid.


Lemma init_find_updated (deployID : string) :
  inits (fun r => ok_ns r.2) (find_updated deployID pid).
Proof.
  unfold find_updated. destruct (bool_decide (deployID = "")); [apply nwp_ok, ir_pid|].
  eapply nwp_bind; [apply nwp_catch, init_matchUIDDeployment; by right|].
  intros [d|e] H; [|apply nwp_ok, ir_pid]. case_bool_decide as Hn; [apply nwp_ok, ir_pid|].
  apply nwp_ok. simpl. destruct H as [|H]; [done|]. destruct (bool_decide _); [apply ir_pid|done].
Qed.

Lemma init_unmask_app (name ns profile : string) (ovs : list (OverrideValues num)) (app : catalogclient.HelmApp) :
  ok_ns ns -> inits (fun _ => True) (unmask_app yaml_to_json unmarshal_struct name ns profile ovs app).
Proof. intros H. unfold unmask_app. nwp_go. by apply init_GetSecretValue. Qed.

Lemma in_pid_template (d d' : Deployment) (keys : gmap string (list string)) (err : option gerror) :
  checkParameterTemplate num_of_int marshal_map d keys = Returns (d', err) -> in_pid d -> in_pid d'.
Proof.
  unfold checkParameterTemplate. destruct (mfold _ _ _) as [[[t secrets] e]|]; simpl; intros; by simplify_eq.
Qed.

Lemma in_pid_merge (d d' : Deployment) (target : TargetClusters) (st st' : store) :
  mergeAllAppTargetClusters d target st = Returns (d', st') -> in_pid d -> in_pid d'.
Proof.
  unfold mergeAllAppTargetClusters. destruct (n_targets d); [by intros; simplify_eq|].
  destruct (mfold _ _ _); simpl; intros; by simplify_eq.
Qed.

Lemma merge_apps (d d' : Deployment) (target : TargetClusters) (st st' : store) :
  mergeAllAppTargetClusters d target st = Returns (d', st') -> n_apps d' = n_apps d.
Proof.
  unfold mergeAllAppTargetClusters. destruct (n_targets d); [by intros; simplify_eq|].
  destruct (mfold _ _ _); simpl; intros; by simplify_eq.
Qed.

Lemma init_name_new (display : string) : inits (fun _ => True) (name_new pid display).
Proof. unfold name_new. split; [init_request|]. intros name _. apply nwp_seq; [apply init_CreateNamespace|]. intros _. nwp_go. Qed.

Lemma init_complete (scenario : string) (inp : Request num) (typ : string) (dp : CatPackage)
    (helmApps : list catalogclient.HelmApp) (dflt : string) (overrides : list (OverrideValues num))
    (keys : gmap string (list string)) (targets : list TargetClusters) (all_target : option TargetClusters) (st : store) :
  inits (fun r => in_pid r.1 /\ n_apps r.1 = helmApps)
    (complete num_of_int marshal_map yaml_to_json unmarshal_struct scenario inp typ pid dp helmApps dflt overrides
       keys targets all_target st).
Proof.
  unfold complete. apply nwp_seq; [apply nwp_nfold; [done|]; intros; nwp_go|]. intros _.
  apply nwp_seq.
  { destruct (bool_decide (scenario = "update")); [|by apply nwp_ok].
    eapply nwp_bind; [apply init_find_updated|]. intros [name namespace] Hns. simpl in Hns.
    apply nwp_seq; [|intros ?; by apply nwp_ok].
    apply nwp_nfold; [done|]. intros ovs app _ _. by apply init_unmask_app. }
  intros [[[name deployID] namespace] ovs].
  apply (nwp_bind _ _ (fun r : Deployment * option gerror => n_active_project r.1 = pid /\ n_apps r.1 = helmApps)).
  { apply nwp_of_maypanic. intros [d err]. unfold checkParameterTemplate. simpl.
    destruct (mfold _ _ _) as [[[t secrets] e]|]; simpl; intros; by simplify_eq. }
  intros [d err] [Hd Happs]. simpl in Hd, Happs. apply nwp_seq; [apply nwp_done; done|]. intros _.
  apply nwp_seq; [destruct (is_create scenario); [apply init_name_new|by apply nwp_ok]|]. intros [name' display].
  destruct all_target as [target|]; [|by apply nwp_ok].
  apply nwp_of_maypanic. intros [d' st'] H. split; [eapply in_pid_merge; [exact H|]; by split|].
  apply merge_apps in H. simpl. by rewrite H.
Qed.

Definition deps_in (w : world num) : Prop := map_Forall (fun _ b => in_pid (b_d b)) (w_deps w).

(** The request for a dependent. *)
Definition dep_request (typ : string) (dep : catalogclient.RequiredDeploymentPackage) (ts : list TargetClusters) : Request num :=
  mkRequest (catalogclient.rq_name dep) (catalogclient.rq_version dep) (catalogclient.rq_profile dep) "" "" typ "" [] [] ts None.

(** [fine] holds of the requests for what the applications require. *)
Definition requires_fine (fine : Request num -> Prop) (apps : list catalogclient.HelmApp) : Prop :=
  forall typ app dep ts, app ∈ apps -> dep ∈ catalogclient.h_required app -> fine (dep_request typ dep ts).

Lemma init_addDep (fine : Request num -> Prop) (build : Request num -> world num -> np (Built num * world num))
    (d : Deployment) (typ : string) (targets : list TargetClusters) (w : world num) :
  (forall r w, fine r -> deps_in w -> inits (fun bw => in_pid (b_d bw.1) /\ deps_in bw.2) (build r w)) ->
  requires_fine fine (n_apps d) -> in_pid d -> deps_in w ->
  inits (fun bw => in_pid (b_d bw.1) /\ deps_in bw.2) (addDepAndRelationships lookupenv build d typ targets pid w).
Proof.
  intros Hbuild Hfine Hd Hw. unfold addDepAndRelationships.
  apply (nwp_bind _ _ (fun r : gmap string DeploymentPackageRef * gmap string Deployment * world num => deps_in r.2)).
  - apply nwp_nfold; [done|]. intros s app Happ Hs. apply nwp_nfold; [done|]. clear Hs. intros [[required children] w'] dep Hdep Hs.
    simpl in Hs. unfold add_dependent. apply nwp_seq; [apply init_lookup|]. intros [[depDP depApps] _].
    apply nwp_seq; [by apply nwp_of_maypanic|]. intros depTargets.
    assert (Hnew : forall f, inits (fun r : gmap string DeploymentPackageRef * gmap string Deployment * world num => deps_in r.2)
      (do! (b, w'') := map_err (fun e => mkErr KConflict ("failed to create child deployment: " +:+ e_msg e))
         (build (dep_request typ dep depTargets) w') in
       do! depDeployment := adopt_existing (n_namespace d) pid (catalogclient.GetID dep) f (b_d b) in
       ok (<[catalogclient.GetID dep := mkDPRef (catalogclient.rq_name dep) (catalogclient.rq_version dep) (catalogclient.rq_profile dep)
              (cpk_forbids depDP) []]> required, <[n_name depDeployment := depDeployment]> children,
           mkWorld (<[n_name (b_d b) := mkBuilt depDeployment (b_children b)]> (w_deps w'')) (w_store w'')))).
    { intros f. eapply nwp_bind; [apply nwp_map_err, Hbuild; [by eapply Hfine|done]|]. intros [b w''] [Hb Hw'']. simpl in Hb, Hw''.
      apply (nwp_bind _ _ in_pid).
      - destruct Hd as [Hns _]. unfold adopt_existing, getDeploymentCRWithDeploymentPackage. rewrite Hns.
        destruct f; [|by apply nwp_ok]. apply nwp_seq; [nwp_go; init_request|]. intros [|cr [|? ?]]; [by apply nwp_ok|by apply nwp_ok|apply nwp_fail].
      - intros dd Hdd. apply nwp_ok. unfold deps_in. simpl. by apply map_Forall_insert_2. }
    destruct (getDeploymentWithDeploymentPackage _ _) as [[k known]|]; destruct (cpk_forbids depDP) eqn:Ef;
      rewrite ?Ef in Hnew; try apply Hnew. by apply nwp_ok.
  - intros [[required children] w'] Hw'. by apply nwp_ok.
Qed.

Abbreviation init := (initDeployment num_of_int lookupenv marshal_map yaml_to_json unmarshal_struct Status_Err).
Abbreviation lookup_of inp :=
  (Catalog.CatalogLookupDPAndHelmApps (Env.getenv lookupenv) (in_app_name inp) (in_app_version inp) (in_profile inp)).

(** A request that is [fine] with some room has, by its catalog lookup, requests
    for its dependents that are fine with one less. *)
Lemma init_by_room (fine : nat -> Request num -> Prop) (room : nat) (scenario : string) (inp : Request num) (w : world num) :
  (forall r, fine O r -> S) ->
  (forall room r, fine (Datatypes.S room) r -> inits (fun x => requires_fine (fine room) x.1.2) (lookup_of r)) ->
  fine room inp -> deps_in w ->
  inits (fun bw => in_pid (b_d bw.1) /\ deps_in bw.2) (init room scenario inp w pid).
Proof.
  intros H0 HS. revert scenario inp w. induction room as [|room IH]; intros scenario inp w Hf Hw; simpl; [by eapply H0|].
  destruct (_ && _); [apply nwp_fail|].
  apply nwp_seq; [apply nwp_nfold; [done|]; intros; nwp_go; by apply nwp_of_maypanic|]. intros [st targets].
  apply nwp_seq; [unfold check_all_target; nwp_go; by apply nwp_of_maypanic|]. intros [st' all_target].
  apply nwp_seq; [apply nwp_nfold; [done|]; intros; nwp_go|]. intros [overrides keys].
  eapply nwp_bind; [apply nwp_map_err, HS, Hf|]. intros [[dp apps] dflt] Hreq. simpl in Hreq.
  eapply nwp_bind; [apply init_complete|]. intros [d st''] [Hd Happs]. simpl in Hd, Happs.
  apply nwp_map_err, (init_addDep (fine room)); [|by rewrite Happs|done|done]. intros r w' Hr Hw'. by apply IH.
Qed.

(** Without a bound on the room the stack may run out. *)
Lemma init_initDeployment (room : nat) (scenario : string) (inp : Request num) (w : world num) :
  S -> deps_in w -> inits (fun bw => in_pid (b_d bw.1) /\ deps_in bw.2) (init room scenario inp w pid).
Proof.
  intros HS. apply (init_by_room (fun _ _ => True)); [done| |done].
  intros. eapply nwp_mono; [|apply init_lookup]. done.
Qed.
End Build.

End Init.
