(* ===== verification/QueriesFacts.v ===== *)
(** * Facts about the reading handlers

    The counters of [GetDeploymentsStatus], and the targets a client is shown. *)

From S2P Require Import Prelude Prog GoStr Types Utils Pb ClusterTypes DataSelect PbStruct Nbi GoMonad NbEff Targets Secrets InitDeployment Queries.

(** ** What every handler starts with *)

(** Requests to anything but the validator and OPA. *)
Definition touches (e : neff) : bool :=
  match e with NValidate _ | NOpaInput _ | NOpa _ _ => false | _ => true end.

Definition untouched (t : list nevent) : Prop := Forall (fun x : nevent => touches (projT1 x) = false) t.

(** A program that touches nothing. *)
Definition quiet {A : Type} (p : np A) : Prop := forall t o, traces p t o -> untouched t.

Lemma quiet_nwp {A : Type} (p : np A) : nwp any_answer (fun e => touches e = false) (fun _ => True) p -> quiet p.
Proof. intros H t o Ht. by destruct (nwp_traces _ _ _ p t o H Ht (any_answers t)). Qed.

Lemma untouched_app (t1 t2 : list nevent) : untouched t1 -> untouched t2 -> untouched (t1 ++ t2).
Proof. apply Forall_app_2. Qed.

Section Checks.
Context (Status_Err : gerror -> gerror) (s : DeploymentSvc) (ctx : context).

Lemma quiet_validate (request : string) : quiet (validate Status_Err request).
Proof. apply quiet_nwp. unfold validate. nwp_go. Qed.

Lemma quiet_active_project : quiet (active_project Status_Err s ctx).
Proof. apply quiet_nwp. unfold active_project. apply nwp_map_err. by apply nwp_done. Qed.

Lemma quiet_checks (request what : string) : quiet (checks Status_Err s ctx request what).
Proof.
  apply quiet_nwp. unfold checks, validate, authorize, AuthCheckAllowed, active_project. nwp_go. all: by apply nwp_done.
Qed.

(** What the checks let through is the active project. *)
Lemma checks_project (request what pid : string) (t : list nevent) :
  traces (checks Status_Err s ctx request what) t (Done (Ok pid)) -> GetActiveProjectID s ctx = Ok pid.
Proof.
  intros Ht. assert (H : nwp any_answer (fun _ => True) (fun p => GetActiveProjectID s ctx = Ok p) (checks Status_Err s ctx request what)).
  { unfold checks. apply nwp_seq; [unfold validate; nwp_go|]. intros _.
    apply nwp_seq; [unfold authorize, AuthCheckAllowed; nwp_go|]. intros _.
    apply nwp_map_err, nwp_done. done. }
  by destruct (nwp_traces _ _ _ _ _ _ H Ht (any_answers t)).
Qed.
End Checks.

Lemma untouched_request (t : list nevent) (e : neff) : untouched t -> touches e = true -> ~ requested t e.
Proof. intros Hu He [r Hr]. unfold untouched in Hu. rewrite Forall_forall in Hu. apply Hu in Hr. simpl in Hr. congruence. Qed.

(** ** The counters *)

(** The numbers of a summary are non-negative [int32]s. *)
Definition int32_summary (sm : PbSummary) : Prop :=
  0 <= pbs_total sm <= MaxInt32 /\ 0 <= pbs_running sm <= MaxInt32 /\ 0 <= pbs_down sm <= MaxInt32 /\
  0 <= pbs_unknown sm <= MaxInt32.

Lemma cluster_summary_int32 (d : Types.Deployment) : int32_summary (cluster_summary d).
Proof. unfold int32_summary, cluster_summary; simpl. split_and!; apply ToInt32Clamped_bounds. Qed.

Lemma add32_bounds (x y : Z) : 0 <= add32 x y <= MaxInt32.
Proof.
  unfold add32, wrap32, MaxInt32. pose proof (Z.mod_pos_bound (x + y + 2^31) (2^32) ltac:(lia)).
  destruct (Z.ltb_spec ((x + y + 2^31) `mod` 2^32 - 2^31) 0); lia.
Qed.

Lemma add32_exact (x y : Z) : 0 <= x + y <= MaxInt32 -> add32 x y = x + y.
Proof.
  unfold add32, wrap32, MaxInt32. intros H. rewrite Z.mod_small by lia.
  destruct (Z.ltb_spec (x + y + 2^31 - 2^31) 0); lia.
Qed.

(** A sum that overflows ends at zero. *)
Lemma add32_overflow (x y : Z) : 0 <= x <= MaxInt32 -> 0 <= y <= MaxInt32 -> MaxInt32 < x + y -> add32 x y = 0.
Proof.
  unfold add32, wrap32, MaxInt32. intros Hx Hy H.
  replace (x + y + 2^31) with (x + y - 2^31 + 1 * 2^32) by lia. rewrite Z.mod_add by lia.
  rewrite Z.mod_small by lia. destruct (Z.ltb_spec (x + y - 2^31 - 2^31) 0); lia.
Qed.

Section Counts.
Context {num : Type}.
Abbreviation Msg := (DeploymentMsg (num := num)).

Definition status_of (m : Msg) : PbStatus := pbd_status (m_base m).
Definition summary_of (m : Msg) : PbSummary := pbst_summary (status_of m).

(** The sum of [f] over the deployments whose state is in [p]. *)
Definition sum_of (p : State -> bool) (f : PbSummary -> Z) (l : list Msg) : Z :=
  foldr (fun m acc => (if p (pbst_state (status_of m)) then f (summary_of m) else 0) + acc) 0 l.

Definition is_state (x : State) (y : State) : bool := bool_decide (x = y).
Definition any_state (_ : State) : bool := true.
Definition not_failing (x : State) : bool := negb (is_state State_ERROR x || is_state State_TERMINATING x).
(** Down clusters of a deployment that is neither failing nor in a state of
    its own. *)
Definition plain (x : State) : bool :=
  not_failing x && negb (is_state State_DEPLOYING x || is_state State_UPDATING x || is_state State_UNKNOWN x).

Lemma sum_of_nonneg (p : State -> bool) (f : PbSummary -> Z) (l : list Msg) :
  Forall (fun m => 0 <= f (summary_of m)) l -> 0 <= sum_of p f l.
Proof. induction 1 as [|m l Hm Hl IH]; simpl; [lia|]. destruct (p _); lia. Qed.

Lemma count_field (get : Counts -> Z) (p : State -> bool) (f : PbSummary -> Z) (c : Counts) (l : list Msg) :
  (forall c st, get (count c st) = if p (pbst_state st) then add32 (get c) (f (pbst_summary st)) else get c) ->
  Forall (fun m => 0 <= f (summary_of m)) l ->
  0 <= get c <= MaxInt32 ->
  let c' := foldl (fun c m => count c (status_of m)) c l in
  0 <= get c' <= MaxInt32 /\ (get c + sum_of p f l <= MaxInt32 -> get c' = get c + sum_of p f l).
Proof.
  intros Hget Hl. revert c. induction Hl as [|m l Hm Hl IH]; intros c Hc; simpl; [lia|].
  pose proof (sum_of_nonneg p f l Hl) as Hpos. cbv zeta in IH.
  destruct (IH (count c (status_of m))) as [Hb He].
  - rewrite Hget. destruct (p _); [apply add32_bounds|done].
  - split; [done|]. intros Hsum. rewrite He, Hget; [|rewrite Hget]; destruct (p _); fold (summary_of m);
      rewrite ?add32_exact; lia.
Qed.

(** The eight counters of [GetDeploymentsStatus] are non-negative [int32]s
    whatever the sizes.  As long as the sum of all clusters fits an [int32]
    each is exact: the total counts every cluster; a deployment in error or
    terminating counts all of its clusters as such; any other counts its running
    clusters as running, and the others by its own state (deploying,
    updating, unknown, otherwise down). *)
Theorem status_counts (l : list Msg) :
  Forall (fun m => int32_summary (summary_of m)) l ->
  let c := count_all l in
  (forall x, x ∈ [k_total c; k_running c; k_down c; k_deploying c; k_updating c; k_terminating c; k_unknown c; k_error c] ->
     0 <= x <= MaxInt32) /\
  (sum_of any_state pbs_total l <= MaxInt32 -> k_total c = sum_of any_state pbs_total l) /\
  (sum_of (is_state State_ERROR) pbs_total l <= MaxInt32 -> k_error c = sum_of (is_state State_ERROR) pbs_total l) /\
  (sum_of (is_state State_TERMINATING) pbs_total l <= MaxInt32 ->
     k_terminating c = sum_of (is_state State_TERMINATING) pbs_total l) /\
  (sum_of not_failing pbs_running l <= MaxInt32 -> k_running c = sum_of not_failing pbs_running l) /\
  (sum_of (is_state State_DEPLOYING) pbs_down l <= MaxInt32 -> k_deploying c = sum_of (is_state State_DEPLOYING) pbs_down l) /\
  (sum_of (is_state State_UPDATING) pbs_down l <= MaxInt32 -> k_updating c = sum_of (is_state State_UPDATING) pbs_down l) /\
  (sum_of (is_state State_UNKNOWN) pbs_unknown l <= MaxInt32 -> k_unknown c = sum_of (is_state State_UNKNOWN) pbs_unknown l) /\
  (sum_of plain pbs_down l <= MaxInt32 -> k_down c = sum_of plain pbs_down l).
Proof.
  intros Hl c.
  assert (Hf : forall f, f ∈ [pbs_total; pbs_running; pbs_down; pbs_unknown] -> Forall (fun m => 0 <= f (summary_of m)) l).
  { intros f Hf. eapply Forall_impl; [exact Hl|]. intros m H. destruct H as (? & ? & ? & ?).
    repeat (apply elem_of_cons in Hf as [->|Hf]; [lia|]). by apply elem_of_nil in Hf. }
  assert (Hfield : forall (get : Counts -> Z) (p : State -> bool) (f : PbSummary -> Z), f ∈ [pbs_total; pbs_running; pbs_down; pbs_unknown] ->
    (forall c st, get (count c st) = if p (pbst_state st) then add32 (get c) (f (pbst_summary st)) else get c) ->
    get (mkCounts 0 0 0 0 0 0 0 0) = 0 ->
    0 <= get c <= MaxInt32 /\ (sum_of p f l <= MaxInt32 -> get c = sum_of p f l)).
  { intros get p f Hin Hget H0.
    destruct (count_field get p f (mkCounts 0 0 0 0 0 0 0 0) l Hget (Hf f Hin)) as [Hb He]; [rewrite H0; unfold MaxInt32; lia|].
    split; [exact Hb|]. intros Hs. rewrite H0 in He. exact (He Hs). }
  assert (Hsel : Forall (fun f => f ∈ [pbs_total; pbs_running; pbs_down; pbs_unknown]) [pbs_total; pbs_running; pbs_down; pbs_unknown]).
  { by apply Forall_forall. }
  apply Forall_cons in Hsel as [Ht Hsel]. apply Forall_cons in Hsel as [Hr Hsel].
  apply Forall_cons in Hsel as [Hd Hsel]. apply Forall_cons in Hsel as [Hu _].
  destruct (Hfield k_total any_state pbs_total Ht) as [B1 E1]; [by intros ? [[] ? ?]|done|].
  destruct (Hfield k_error (is_state State_ERROR) pbs_total Ht) as [B2 E2]; [by intros ? [[] ? ?]|done|].
  destruct (Hfield k_terminating (is_state State_TERMINATING) pbs_total Ht) as [B3 E3]; [by intros ? [[] ? ?]|done|].
  destruct (Hfield k_running not_failing pbs_running Hr) as [B4 E4]; [by intros ? [[] ? ?]|done|].
  destruct (Hfield k_deploying (is_state State_DEPLOYING) pbs_down Hd) as [B5 E5]; [by intros ? [[] ? ?]|done|].
  destruct (Hfield k_updating (is_state State_UPDATING) pbs_down Hd) as [B6 E6]; [by intros ? [[] ? ?]|done|].
  destruct (Hfield k_unknown (is_state State_UNKNOWN) pbs_unknown Hu) as [B7 E7]; [by intros ? [[] ? ?]|done|].
  destruct (Hfield k_down plain pbs_down Hd) as [B8 E8]; [by intros ? [[] ? ?]|done|].
  split; [|tauto]. intros x Hx. repeat (apply elem_of_cons in Hx as [->|Hx]; [done|]). by apply elem_of_nil in Hx.
Qed.
End Counts.

(** ** The targets a client is shown *)

Section Targets.
Context {MR : MapRange}.

(** An application of an auto-scaling deployment whose selectors name no
    cluster is shown all of its clusters once per selector, each time with the
    same entry. *)
Lemma targets_per_selector (clusters : gmap string (list string)) (labels : gmap string (gmap string string))
    (app : Application) (ids : list string) :
  (forall l, l ∈ app_targets app -> l !! ClusterName = None) -> clusters !! app_name app = Some ids -> ids <> [] ->
  app_targets_msg AutoScaling clusters labels app =
  concat (replicate (length (app_targets app))
    (map (fun id => mkTgt (app_name app) id (shown_selector labels (app_targets app) id)) ids)).
Proof.
  intros Hl Hids Hne. unfold app_targets_msg. rewrite Hids. f_equal.
  assert (Heq : forall ls, (forall l, l ∈ ls -> l !! ClusterName = None) ->
    map (fun l : gmap string string => match l !! ClusterName with
         | Some cluster => [mkTgt (app_name app) cluster l]
         | None => if bool_decide (AutoScaling = AutoScaling) then
             match default [] (Some ids) with
             | [] => [mkTgt (app_name app) "" (default ∅ (head (app_targets app)))]
             | clusterIDs => map (fun clusterID => mkTgt (app_name app) clusterID (shown_selector labels (app_targets app) clusterID)) clusterIDs
             end else [] end) ls =
    replicate (length ls) (map (fun id => mkTgt (app_name app) id (shown_selector labels (app_targets app) id)) ids)).
  { induction ls as [|l ls IH]; intros H; [done|]. cbn [map length replicate]. rewrite (H l) by left. f_equal.
    - destruct ids; [done|]. done.
    - apply IH. intros l' Hl'. apply H. by right. }
  by apply Heq.
Qed.
End Targets.

(** Two deployments, one of them in error, and a third that is large. *)
Definition sample_msg (state : State) (total running down : Z) : DeploymentMsg (num := Z) :=
  mkMsg (mkPbDeployment "d" "" "" "" "" (mkPbStatus state "" (mkPbSummary total running down 0 ClusterCounts)))
    "" "" 0 [] [] [].

Lemma status_counts_witness :
  k_error (count_all [sample_msg State_RUNNING 3 2 1; sample_msg State_ERROR 4 1 3]) = 4 /\
  k_running (count_all [sample_msg State_RUNNING 3 2 1; sample_msg State_ERROR 4 1 3]) = 2.
Proof.
  assert (Hl : Forall (fun m : DeploymentMsg (num := Z) => int32_summary (summary_of m))
    [sample_msg State_RUNNING 3 2 1; sample_msg State_ERROR 4 1 3]).
  { repeat constructor; vm_compute; congruence. }
  split.
  - apply (status_counts _ Hl). vm_compute. congruence.
  - apply (status_counts _ Hl). vm_compute. congruence.
Defined.
