(* ===== verification/HandlersFacts.v ===== *)
(** * Facts about the writing handlers

    What a deletion deletes, when an update changes anything, and what a
    creation that reports success has done. *)

From S2P Require Import Prelude Prog GoStr Types Pb PbStruct Nbi GoMonad NbEff Env Templates Targets Catalog Secrets SecretsFacts.
From S2P Require Import Dependency DependencyFacts InitDeployment InitFacts Queries QueriesFacts Handlers Service NbSamples.

Section Facts.
Context {MR : MapRange} {ML : MapRangeLaws MR}.
Context (lookupenv : string -> option string) (Status_Err : gerror -> gerror) (s : DeploymentSvc) (ctx : context).

Lemma traces_k8s_ok {A : Type} (p : np A) (t : list nevent) (a : A) :
  traces (k8s Status_Err p) t (Done (Ok a)) -> traces p t (Done (Ok a)).
Proof. apply traces_map_err_ok. Qed.

Lemma traces_list_ok (ns : string) (labels : gmap string string) (t : list nevent) (ds : list Types.Deployment) :
  traces (k8s Status_Err (ListDeployments_ ns labels)) t (Done (Ok ds)) -> t = [ev (NListDeployments ns labels) (Ok ds)].
Proof. intros H. by apply traces_k8s_ok, traces_rcall_ok, traces_call in H. Qed.

(** ** Deletion *)

(** A loop of deletions that returned deleted everything, in order. *)
Lemma traces_delete_loop {A : Type} (ns : string) (l : list (string * A)) (t : list nevent) (u : unit) :
  traces (nfold (fun _ (kv : string * A) => k8s Status_Err (ecall (ncall (NDeleteDeployment ns kv.1)))) tt l) t (Done (Ok u)) ->
  t = map (fun kv => ev (NDeleteDeployment ns kv.1) None) l.
Proof.
  revert t. induction l as [|[k a] l IH]; intros t H; [by destruct H as [-> _]|].
  cbn [nfold] in H. ok_step H t1 b H1. apply traces_k8s_ok, traces_ecall_ok, traces_call in H1 as ->.
  destruct b. by rewrite (IH _ H).
Qed.

(** The names among the deletions. *)
Lemma requested_deletes {A : Type} (ns n : string) (l : list (string * A)) :
  requested (map (fun kv => ev (NDeleteDeployment ns kv.1) None) l : list nevent) (NDeleteDeployment ns n) <->
  exists a, (n, a) ∈ l.
Proof.
  induction l as [|[k a] l IH]; simpl.
  - split; [intros H; by apply requested_nil in H|]. intros [a Ha]. by apply elem_of_nil in Ha.
  - rewrite requested_cons, IH. cbn [projT1 ev]. split.
    + intros [[= ->]|[b Hb]]; [by exists a; left|by exists b; right].
    + intros [b [[= -> ->]|Hb]%elem_of_cons]; [by left|right; eauto].
Qed.

Lemma traces_delete_graph (ns project name : string) (ty : DeleteType) (t : list nevent) :
  traces (delete_graph Status_Err ns project name ty) t (Done (Ok tt)) ->
  exists ds, let all := deploymentMap ds in
    (forall n, requested t (NDeleteDeployment ns n) <-> reachable all name n) /\
    (forall n, reachable all name n -> exists d, all !! n = Some d /\
       forall p, is_Some (st_parents (d_status d) !! p) -> reachable all name p) /\
    exists t2, t = ev (NListDeployments ns (project_labels project)) (Ok ds) :: t2.
Proof.
  intros H. unfold delete_graph in H. ok_step H t1 ds H1. apply traces_list_ok in H1 as ->.
  ok_step H t1 tgts H1. apply traces_map_err_ok in H1. destruct H1 as [-> Htl]. injection Htl as Htl.
  ok_step H t1 valid H1. destruct (validateTargetDeployments tgts) as [v|] eqn:Hv; [|by destruct H1 as [_ H1]].
  destruct H1 as [-> [= ->]]. destruct v; [|by destruct H as [_ H]]. cbn [negb] in H.
  apply traces_delete_loop in H as ->. symmetry in Htl.
  pose proof (getTarget_Ok (deploymentMap ds) name tgts Htl) as Hreach.
  exists ds. cbv zeta. split_and!.
  - intros n. simpl. rewrite requested_cons. cbn [projT1 ev]. rewrite requested_deletes. setoid_rewrite elem_of_map_range.
    setoid_rewrite Hreach. split; [intros [[=]|(a & Ha & _)]; done|]. intros Hn. right. eauto.
  - intros n Hn. rewrite (validate_true (MR := MR)) in Hv.
    destruct (Hv n (deploymentMap ds !! n)) as (d & Hd & Hp); [by apply Hreach|]. exists d. split; [done|].
    intros p Hpp. destruct (Hp p Hpp) as [v Hv']. by apply Hreach in Hv' as [? _].
  - by eexists.
Qed.

Lemma traces_match_ok (UID ns : string) (labels : gmap string string) (t : list nevent) (d : Types.Deployment) :
  traces (typed Status_Err (matchUIDDeployment UID ns labels)) t (Done (Ok d)) ->
  exists ds, t = [ev (NListDeployments ns labels) (Ok ds)] /\
    d = default zero_deployment (find_first (fun val => bool_decide (d_uid val = UID)) ds).
Proof.
  intros H. apply traces_map_err_ok in H. unfold matchUIDDeployment in H. ok_step H t1 ds H1.
  apply traces_map_err_ok, traces_rcall_ok, traces_call in H1 as ->. destruct H as [-> [= ->]]. exists ds. by rewrite app_nil_r.
Qed.

(** A deployment that was found is one of the list. *)
Lemma matched_in (UID : string) (ds : list Types.Deployment) :
  let d := default zero_deployment (find_first (fun val => bool_decide (d_uid val = UID)) ds) in
  d_name d <> "" -> d ∈ ds /\ d_uid d = UID.
Proof.
  simpl. destruct (find_first _ ds) as [d|] eqn:E; simpl; [|done]. intros _.
  apply find_first_Some in E as [Hin Hu]. by apply bool_decide_eq_true in Hu.
Qed.

(** C6: A deletion of a deployment and its children that reports success has
    found the deployment by its UID among those of the project, with no
    parents, and has requested the deletion of exactly the resources that can be
    reached from it through children in the project's second listing.  All of
    them existed, and no parent of any of them is outside that set. *)
Theorem delete_graph_exact (deplId : string) (t : list nevent) :
  traces (DeleteDeployment lookupenv Status_Err s ctx deplId ALL) t (Done (Ok tt)) ->
  exists pid mine root ds, let all := deploymentMap ds in
    GetActiveProjectID s ctx = Ok pid /\
    ev (NListDeployments pid (project_labels pid)) (Ok mine) ∈ t /\ root ∈ mine /\ d_uid root = deplId /\
    st_parents (d_status root) = ∅ /\
    ev (NListDeployments pid (project_labels pid)) (Ok ds) ∈ t /\
    (forall n, requested t (NDeleteDeployment pid n) <-> reachable all (d_name root) n) /\
    (forall n, reachable all (d_name root) n -> exists d, all !! n = Some d /\
       forall p, is_Some (st_parents (d_status d) !! p) -> reachable all (d_name root) p).
Proof.
  intros H. unfold DeleteDeployment in H. destruct (bool_decide (deplId = "")); [by destruct H as [_ H]|].
  ok_step H t1 pid H1. pose proof (quiet_checks _ _ _ _ _ _ _ H1) as Hq. apply checks_project in H1.
  ok_step H t2 d H2. apply traces_match_ok in H2 as (mine & -> & Hd). cbv zeta in H.
  destruct (bool_decide (d_name d = "")) eqn:Hn; [by destruct H as [_ H]|]. apply bool_decide_eq_false in Hn.
  destruct (negb _) eqn:Hp; [by destruct H as [_ H]|]. apply negb_false_iff, bool_decide_eq_true in Hp.
  apply traces_delete_graph in H as (ds & Hdel & Hpar & t3 & ->).
  destruct (matched_in deplId mine) as [Hin Huid]; [by rewrite <- Hd|]. rewrite <- Hd in Hin, Huid.
  exists pid, mine, d, ds. cbv zeta. split_and!; try done.
  - in_trace.
  - in_trace.
  - intros n. rewrite <- Hdel, requested_app, (requested_app [_]), requested_cons. cbn [projT1 ev].
    split; [|tauto]. intros [H|[[H|H]|H]]; [|done| |done].
    + by apply (untouched_request t1) in H.
    + by apply requested_nil in H.
Qed.

(** A child that does not exist is never passed over: the deletion of a graph
    with one does not succeed. *)
Lemma missing_child_no_success (deplId : string) (t : list nevent) (pid n : string) (ds : list Types.Deployment)
    (mine : list Types.Deployment) (root : Types.Deployment) :
  GetActiveProjectID s ctx = Ok pid ->
  (forall ds' , ev (NListDeployments pid (project_labels pid)) (Ok ds') ∈ t -> ds' = ds) ->
  find_first (fun val => bool_decide (d_uid val = deplId)) ds = Some root ->
  reachable (deploymentMap ds) (d_name root) n -> deploymentMap ds !! n = None ->
  ~ traces (DeleteDeployment lookupenv Status_Err s ctx deplId ALL) t (Done (Ok tt)).
Proof.
  intros Hpid Hds Hroot Hr Hn H.
  unfold DeleteDeployment in H. destruct (bool_decide (deplId = "")); [by destruct H as [_ H]|].
  ok_step H t1 p H1. apply checks_project in H1. assert (p = pid) as -> by congruence.
  ok_step H t2 d H2. apply traces_match_ok in H2 as (mine' & -> & Hd).
  assert (mine' = ds) as -> by (apply Hds; in_trace).
  rewrite Hroot in Hd. simpl in Hd. subst d. cbv zeta in H.
  destruct (bool_decide (d_name root = "")); [by destruct H as [_ H]|]. destruct (negb _); [by destruct H as [_ H]|].
  apply traces_delete_graph in H as (ds' & _ & Hpar & t3 & ->).
  assert (ds' = ds) as -> by (apply Hds; in_trace).
  destruct (Hpar n Hr) as (d' & Hd' & _). congruence.
Qed.

(** ** Update *)

Section Update.
Context {num : Type} (num_of_int : Z -> num).
Context (marshal_map : gmap string string -> res string) (marshal : option (value num) -> res string).
Context (json_to_yaml yaml_to_json : string -> res string).
Context (unmarshal_struct : string -> option (list (string * value num)) * option gerror).
Context (room : nat) (print_map : gmap string string -> string).

Abbreviation Update := (UpdateDeployment num_of_int lookupenv marshal_map marshal json_to_yaml yaml_to_json
  unmarshal_struct Status_Err s ctx room print_map).
Abbreviation init := (initDeployment num_of_int lookupenv marshal_map yaml_to_json unmarshal_struct Status_Err room).

(** Nothing changes but that the project's namespace may be created. *)
Definition only_namespace (pid : string) (e : neff) : Prop := changes_state e = true -> e = NCreateNamespace pid.

#[local] Instance only_namespace_init (pid : string) :
  InitRequests any_answer (only_namespace pid) (fun _ => True) pid.
Proof. by split. Qed.

Lemma init_only_namespace (pid scenario : string) (inp : Request num) (w : world num) (t : list nevent)
    (o : outcome (Built num * world num)) :
  map_Forall (fun _ b => in_pid (pid := pid) (b_d b)) (w_deps w) ->
  traces (init scenario inp w pid) t o ->
  Forall (fun x : nevent => only_namespace pid (projT1 x)) t /\
  forall b w', o = Done (Ok (b, w')) -> in_pid (pid := pid) (b_d b) /\ deps_in (pid := pid) w'.
Proof.
  intros Hw Ht.
  destruct (nwp_traces _ _ _ _ _ _ (init_initDeployment (IR := only_namespace_init pid) num_of_int lookupenv marshal_map
    yaml_to_json unmarshal_struct Status_Err room scenario inp w I Hw) Ht (any_answers t)) as [HP HQ].
  split; [exact HP|]. intros b w' ->. exact HQ.
Qed.

Lemma only_namespace_request (pid : string) (t : list nevent) (e : neff) :
  Forall (fun x : nevent => only_namespace pid (projT1 x)) t -> requested t e -> changes_state e = true -> e = NCreateNamespace pid.
Proof. intros HF [r Hr] He. rewrite Forall_forall in HF. exact (HF _ Hr He). Qed.

Lemma quiet_AddToOutgoingContext (pid : string) (t : list nevent) (o : outcome unit) :
  traces (typed Status_Err AddToOutgoingContext) t o -> Forall (fun x : nevent => only_namespace pid (projT1 x)) t.
Proof.
  intros Ht. assert (H : nwp any_answer (only_namespace pid) (fun _ => True) (typed Status_Err AddToOutgoingContext)).
  { unfold typed, AddToOutgoingContext. nwp_go; done. }
  by destruct (nwp_traces _ _ _ _ _ _ H Ht (any_answers t)).
Qed.

Lemma untouched_only_namespace (pid : string) (t : list nevent) :
  untouched t -> Forall (fun x : nevent => only_namespace pid (projT1 x)) t.
Proof. intros H. eapply Forall_impl; [exact H|]. intros [e r]. simpl. unfold only_namespace. by destruct e. Qed.

(** A program that returned no value, or whose continuation is still to come. *)
Lemma traces_nbind_cases {A B : Type} (p : np A) (f : A -> np B) (t : list nevent) (o : outcome B) :
  traces (nbind p f) t o ->
  exists t1 t2 o1, t = t1 ++ t2 /\ traces p t1 o1 /\
    ((t2 = [] /\ forall a, o1 <> Done (Ok a)) \/ exists a, o1 = Done (Ok a) /\ traces (f a) t2 o).
Proof.
  intros [(t1 & t2 & a & -> & H1 & H2)|(o' & H & Ho & _)]%traces_nbind; [eauto 10|].
  exists t, [], o'. rewrite app_nil_r. eauto 10.
Qed.

(** C7: Whatever an update does, it changes nothing (but for creating the namespace
    of the project) before it has found the deployment by its UID in the
    project, seen that it has no parents, and seen that the packages it
    requires now, by name, version and profile, are those of its children.  So
    an update that is refused has changed nothing. *)
Theorem update_guarded (pid deplId : string) (inp : Request num) (st : store) (t : list nevent) (e : neff)
    (o : outcome (option (DeploymentMsg (num := num)))) :
  GetActiveProjectID s ctx = Ok pid ->
  traces (Update deplId (Some inp) st) t o ->
  requested t e -> changes_state e = true -> e <> NCreateNamespace pid ->
  exists t1 t2 t3 b w mine d,
    t = t1 ++ t2 ++ ev (NListDeployments pid (project_labels pid)) (Ok mine) :: t3 /\
    traces (init "update" (set_id_request deplId inp) (mkWorld ∅ st) pid) t2 (Done (Ok (b, w))) /\
    d ∈ mine /\ d_uid d = deplId /\ st_parents (d_status d) = ∅ /\
    childDeplMap d = newDepDeplMap (b_d b) /\ ~ requested (t1 ++ t2) e.
Proof.
  intros Hpid H He Hch Hne.
  assert (Hno : forall t', Forall (fun x : nevent => only_namespace pid (projT1 x)) t' -> ~ requested t' e).
  { intros t' HF Hr. apply Hne. by eapply only_namespace_request. }
  unfold UpdateDeployment in H. destruct (bool_decide (deplId = "")); [destruct H as [-> _]; by apply requested_nil in He|].
  apply traces_nbind_cases in H as (t1 & u1 & o1 & -> & H1 & H).
  assert (N1 : ~ requested t1 e) by (by eapply Hno, untouched_only_namespace, quiet_checks).
  destruct H as [[-> _]|(p & -> & H)]; [by rewrite app_nil_r in He|]. apply checks_project in H1. assert (p = pid) as -> by congruence.
  apply traces_nbind_cases in H as (t2 & u2 & o2 & -> & H2 & H).
  assert (N2 : ~ requested t2 e) by (by eapply Hno, quiet_AddToOutgoingContext).
  destruct H as [[-> _]|([] & -> & H)]; [rewrite app_nil_r, requested_app in He; tauto|].
  apply traces_nbind_cases in H as (t3 & u3 & o3 & -> & H3 & H). unfold typed, map_err in H3.
  apply traces_bind in H3 as (t3' & t3'' & o3' & -> & H3 & [-> Ho3]). rewrite app_nil_r in *.
  destruct (init_only_namespace pid "update" _ (mkWorld ∅ st) _ _ (map_Forall_empty _) H3) as [HF Hin].
  assert (N3 : ~ requested t3' e) by (by apply Hno).
  destruct H as [[-> _]|([b w] & -> & H)]; [rewrite app_nil_r, !requested_app in He; tauto|].
  destruct o3' as [[bw|]| |]; simplify_eq. destruct (Hin b w eq_refl) as [[Hns _] _]. cbv zeta in H. rewrite Hns in H.
  apply traces_nbind_cases in H as (t4 & u4 & o4 & -> & H4 & H).
  destruct H as [[-> Hbad]|(d & -> & H)].
  { assert (N4 : ~ requested t4 e).
    { eapply Hno. assert (W : nwp any_answer (only_namespace pid) (fun _ => True)
        (typed Status_Err (matchUIDDeployment deplId pid (project_labels pid)))).
      { unfold typed, matchUIDDeployment. nwp_go; done. }
      by destruct (nwp_traces _ _ _ _ _ _ W H4 (any_answers t4)). }
    rewrite app_nil_r, !requested_app in He. tauto. }
  apply traces_match_ok in H4 as (mine & -> & Hd).
  assert (N4 : ~ requested [ev (NListDeployments pid (project_labels pid)) (Ok mine) : nevent] e).
  { intros [Hr|Hr]%requested_cons; [simpl in Hr; by subst e|by apply requested_nil in Hr]. }
  destruct (bool_decide (d_name d = "")) eqn:Hn; [destruct H as [-> _]; rewrite app_nil_r, !requested_app in He; tauto|].
  apply bool_decide_eq_false in Hn.
  destruct (bool_decide (d_resource_version d = "")); [destruct H as [-> _]; rewrite app_nil_r, !requested_app in He; tauto|].
  destruct (negb (bool_decide (st_parents _ = ∅))) eqn:Hp; [destruct H as [-> _]; rewrite app_nil_r, !requested_app in He; tauto|].
  destruct (negb (bool_decide (childDeplMap d = _))) eqn:Hc; [destruct H as [-> _]; rewrite app_nil_r, !requested_app in He; tauto|].
  apply negb_false_iff, bool_decide_eq_true in Hp, Hc.
  destruct (matched_in deplId mine) as [Hdin Huid]; [by rewrite <- Hd|]. rewrite <- Hd in Hdin, Huid.
  exists (t1 ++ t2), t3', u4, b, w, mine, d. split_and!; try done.
  - by rewrite <- !app_assoc.
  - rewrite !requested_app. tauto.
Qed.
End Update.
End Facts.

(** The parent and its child are deleted together. *)
Lemma delete_graph_exact_witness :
  exists pid mine root ds, let all := deploymentMap ds in
    GetActiveProjectID sample_svc sample_ctx = Ok pid /\
    ev (NListDeployments pid (project_labels pid)) (Ok mine) ∈ nb_log nb_sample sample_delete /\ root ∈ mine /\
    d_uid root = "uid-1" /\ st_parents (d_status root) = ∅ /\
    ev (NListDeployments pid (project_labels pid)) (Ok ds) ∈ nb_log nb_sample sample_delete /\
    (forall n, requested (nb_log nb_sample sample_delete) (NDeleteDeployment pid n) <-> reachable all (d_name root) n) /\
    (forall n, reachable all (d_name root) n -> exists d, all !! n = Some d /\
       forall p, is_Some (st_parents (d_status d) !! p) -> reachable all (d_name root) p).
Proof.
  apply (delete_graph_exact (fun _ => None) (fun e => e) sample_svc sample_ctx "uid-1").
  apply (nb_traces nb_sample sample_delete). vm_compute. reflexivity.
Defined.

(** An update that is let through deletes the secrets of the old version. *)
Lemma update_guarded_witness :
  exists t1 t2 t3 b w mine d,
    nb_log nb_sample sample_update = t1 ++ t2 ++ ev (NListDeployments "p1" (project_labels "p1")) (Ok mine) :: t3 /\
    traces (initDeployment (fun z => z) (fun _ => None) (fun _ => Ok "{}") Ok (fun _ => (None, None)) (fun e => e) 3 "update"
      (set_id_request "uid-1" (sample_request "new")) (mkWorld ∅ sample_store) "p1") t2 (Done (Ok (b, w))) /\
    d ∈ mine /\ d_uid d = "uid-1" /\ st_parents (d_status d) = ∅ /\ childDeplMap d = newDepDeplMap (b_d b) /\
    ~ requested (t1 ++ t2) (NDeleteSecret "p1" "parent-web-1.0-profile").
Proof.
  eapply (update_guarded (fun _ => None) (fun e => e) sample_svc sample_ctx (fun z => z) (fun _ => Ok "{}")
    (fun _ => Ok "{}") Ok Ok (fun _ => (None, None)) 3 (fun _ => "") "p1" "uid-1" (sample_request "new")).
  - vm_compute. reflexivity.
  - apply (nb_traces nb_sample sample_update). reflexivity.
  - apply logged_requested. vm_compute. reflexivity.
  - reflexivity.
  - discriminate.
Defined.
