(* ===== verification/CreateFacts.v ===== *)
(** * What a creation that reports success has done *)

From S2P Require Import Prelude Prog GoStr Types Pb PbStruct Nbi GoMonad NbEff Env Templates Targets Catalog Secrets SecretsFacts.
From S2P Require Import Dependency DependencyFacts InitDeployment InitFacts Queries QueriesFacts Handlers HandlersFacts.
From S2P Require Import Service DataSelectFacts NbSamples.

Section Create.
Context {MR : MapRange} {ML : MapRangeLaws MR} {num : Type} (num_of_int : Z -> num).
Context (lookupenv : string -> option string) (Status_Err : gerror -> gerror) (s : DeploymentSvc) (ctx : context).
Context (marshal_map : gmap string string -> res string) (marshal : option (value num) -> res string).
Context (json_to_yaml yaml_to_json : string -> res string).
Context (unmarshal_struct : string -> option (list (string * value num)) * option gerror) (room : nat).
Abbreviation Deployment := (Nbi.Deployment num).
Abbreviation getenv := (Env.getenv lookupenv).
Abbreviation init := (initDeployment num_of_int lookupenv marshal_map yaml_to_json unmarshal_struct Status_Err room).
Abbreviation Create := (CreateDeployment num_of_int lookupenv marshal_map marshal json_to_yaml yaml_to_json
  unmarshal_struct Status_Err s ctx room).

(** ** Secrets change the names of secrets only *)

Lemma same_named (P V R I : gmap string string) (d0 d : Deployment) :
  same_but_names d0 d -> same_but_names d0 (set_secret_names P V R I d).
Proof. unfold same_but_names, set_secret_names. destruct d, d0; simpl. intros [=]. by subst. Qed.

Lemma nwp_any_secret (ns n : string) (data : gmap string string) (b : bool) :
  nwp any_answer (fun _ => True) (fun _ => True) (CreateSecret ns n data b).
Proof. unfold CreateSecret. nwp_go. Qed.
#[local] Hint Resolve same_named nwp_any_secret : nwp.

Lemma createSecrets_same (d d' : Deployment) (t : list nevent) :
  traces (createSecrets lookupenv marshal json_to_yaml d) t (Done (Ok d')) -> same_but_names d d'.
Proof.
  intros Ht. assert (H : nwp any_answer (fun _ => True) (same_but_names d) (createSecrets lookupenv marshal json_to_yaml d));
    [|by destruct (nwp_traces _ _ _ _ _ _ H Ht (any_answers t))].
  unfold createSecrets. destruct (json_overrides marshal (n_masked d)) as [om cm].
  apply (nwp_bind _ _ (fun st : Deployment * string * bool => same_but_names d st.1.1)); [|by intros; apply nwp_ok].
  apply nwp_nfold; [done|]. intros [[d0 c] rs] app _ Hd. simpl in Hd. unfold create_app_secrets.
  apply (nwp_bind _ _ (same_but_names d)); [unfold create_profile_secret; nwp_go|]. clear dependent d0. intros d0 Hd.
  apply (nwp_bind _ _ (same_but_names d)); [unfold create_overrides_secret; nwp_go|]. clear dependent d0. intros d0 Hd.
  apply (nwp_bind _ _ (same_but_names d)); [unfold create_repo_secret; nwp_go|]. clear dependent d0. intros d0 Hd.
  apply (nwp_bind _ _ (same_but_names d)); [unfold create_image_secret; nwp_go|]. clear dependent d0. intros d0 Hd.
  apply nwp_seq; [unfold create_template_secrets; nwp_go|]. intros cm'.
  unfold configureRsProxy, UpdateNsLabels, CreateRoleBinding. nwp_go.
Qed.

(** ** The resource *)

Lemma create_cr (d d' : Deployment) (st st' : store) (cr : Types.Deployment) :
  createDeploymentCr getenv d "create" "" None st = Returns (Ok cr, d', st') ->
  d' = d /\ d_name cr = n_name d /\ sp_display_name (d_spec cr) = n_display_name d /\ sp_children (d_spec cr) = ∅.
Proof.
  unfold createDeploymentCr, keep_network. destruct (applicationsList _ _ _ _) as [[st1 apps]|]; simpl; [|done].
  intros H. by simplify_eq.
Qed.

(** The children recorded in a resource. *)
Lemma related_children (b : Built num) (cr : Types.Deployment) :
  sp_children (d_spec cr) = ∅ ->
  forall c, is_Some (sp_children (d_spec (addRelationshipToDeploymentCR b cr)) !! c) <-> is_Some (b_children b !! c).
Proof.
  intros Hcr c. simpl. rewrite Hcr.
  assert (H : forall l (acc : gmap string DependentDeploymentRef),
    is_Some (foldl (fun (acc : gmap string DependentDeploymentRef) (kv : string * Deployment) =>
       <[kv.1 := mkDepRef (mkDPRef (n_app_name kv.2) (n_app_version kv.2) (n_profile kv.2) false []) kv.1]> acc) acc l !! c) <->
    is_Some (acc !! c) \/ exists v, (c, v) ∈ l).
  { induction l as [|[k v] l IH]; intros acc; simpl.
    - split; [by left|]. intros [H|[v H]]; [done|by apply elem_of_nil in H].
    - rewrite IH, lookup_insert_is_Some. simpl. setoid_rewrite elem_of_cons. split.
      + intros [[->|[_ H]]|[v' H]]; [right; eauto|by left|right; eauto].
      + intros [H|[v' [H|H]]]; [|simplify_eq; left; by left|right; eauto].
        destruct (decide (k = c)); [left; by left|left; by right]. }
  rewrite H, lookup_empty. setoid_rewrite elem_of_map_range. split; [intros [[? ?]|H']; [done|exact H']|by right].
Qed.

(** A resource was created for that deployment, by its name and display name,
    with its children, and the API answered with [created]. *)
Definition resource_created (ns : string) (b : Built num) (t : list nevent) (created : Types.Deployment) : Prop :=
  exists cr, ev (NCreateDeployment ns cr) (Ok created) ∈ t /\ d_name cr = n_name (b_d b) /\
    sp_display_name (d_spec cr) = n_display_name (b_d b) /\
    forall c, is_Some (sp_children (d_spec cr) !! c) <-> is_Some (b_children b !! c).

Lemma traces_create_new (ns : string) (b b' : Built num) (st st' : store) (ci created : Types.Deployment) (t : list nevent) :
  traces (create_new lookupenv marshal json_to_yaml Status_Err ns b st) t (Done (Ok (ci, created, b', st'))) ->
  resource_created ns b t created /\ n_deploy_id (b_d b') = d_uid created.
Proof.
  intros H. unfold create_new in H. ok_step H t1 d H1. apply traces_map_err_ok, createSecrets_same in H1.
  ok_step H t2 r H2. destruct r as [[cr d'] st1]. unfold make_cr in H2. ok_step H2 t3 x H3.
  destruct (createDeploymentCr _ _ _ _ _ _) as [[[rc d''] st2]|] eqn:E; [|by destruct H3 as [_ H3]].
  destruct H3 as [-> [= ->]]. ok_step H2 t4 cr0 H4. apply traces_map_err_ok in H4. destruct H4 as [-> [= Hrc]].
  destruct H2 as [-> [= -> -> ->]]. subst rc. apply create_cr in E as (-> & Hn & Hdisp & Hch).
  cbv zeta in H. ok_step H t5 created' H5. apply traces_k8s_ok, traces_rcall_ok, traces_call in H5 as ->.
  ok_step H t6 u H6. destruct H as [-> [= -> -> -> _]]. split; [|done].
  exists (addRelationshipToDeploymentCR (mkBuilt d (b_children b)) cr0). split_and!.
  - in_trace.
  - simpl. rewrite Hn. by rewrite H1.
  - simpl. rewrite Hdisp. by rewrite H1.
  - intros c. by rewrite related_children.
Qed.

(** Package, version and profile, as they are compared. *)
Definition package_of (cr : Types.Deployment) : string :=
  let r := sp_pkg (d_spec cr) in catalogclient.GetDeploymentPackageID (dp_name r) (dp_version r) (dp_profile r).
Definition package_built (d : Deployment) : string :=
  catalogclient.GetDeploymentPackageID (n_app_name d) (n_app_version d) (n_profile d).

(** ** Dependents *)

(** A dependent that is new was created; one that exists was updated. *)
Definition dependent_written (ns : string) (t : list nevent) (v : Built num) : Prop :=
  (n_deploy_id (b_d v) = "" /\ exists created, resource_created ns v t created) \/
  (n_deploy_id (b_d v) <> "" /\ exists old cr, ev (NGetDeployment ns (n_name (b_d v))) (Ok old) ∈ t /\
     requested t (NUpdateDeployment ns (d_name old) cr) /\ d_name cr = d_name old).

Lemma resource_created_app (ns : string) (b : Built num) (t1 t2 t3 : list nevent) (created : Types.Deployment) :
  resource_created ns b t2 created -> resource_created ns b (t1 ++ t2 ++ t3) created.
Proof. intros (cr & H & ?). exists cr. split; [in_trace|done]. Qed.

Lemma dependent_written_app (ns : string) (t1 t2 t3 : list nevent) (v : Built num) :
  dependent_written ns t2 v -> dependent_written ns (t1 ++ t2 ++ t3) v.
Proof.
  intros [(Hi & created & H)|(Hi & old & cr & Hin & Hr & Hn)]; [left|right]; (split; [done|]).
  - exists created. by apply resource_created_app.
  - exists old, cr. split_and!; [in_trace|by apply requested_r, requested_l|done].
Qed.

Lemma traces_update_existing (ns pid : string) (b : Built num) (st st' : store) (t : list nevent) :
  traces (update_existing Status_Err ns pid b st) t (Done (Ok st')) ->
  exists old cr, ev (NGetDeployment ns (n_name (b_d b))) (Ok old) ∈ t /\
    requested t (NUpdateDeployment ns (d_name old) cr) /\ d_name cr = d_name old.
Proof.
  intros H. unfold update_existing in H. ok_step H t1 old H1. apply traces_k8s_ok, traces_rcall_ok, traces_call in H1 as ->.
  cbv zeta in H. ok_step H t2 r H2. destruct (addTargetClusterEntry _ _ _ _) as [[cr st1]|] eqn:E; [|by destruct H2 as [_ H2]].
  destruct H2 as [-> [= ->]]. ok_step H t3 u H3. apply traces_k8s_ok, traces_rcall_ok, traces_call in H3 as ->.
  assert (Hname : d_name cr = d_name old).
  { unfold addTargetClusterEntry in E. destruct (load_apps _ _). destruct (mfold _ _ _) as [[s2 apps]|]; simpl in E; [|done].
    by simplify_eq. }
  exists old, cr. split_and!; [in_trace| |done]. rewrite <- Hname. apply requested_r, requested_r, requested_l. eexists. left.
Qed.

Lemma traces_dependents (ns pid : string) (l : list (string * Built num)) (st st' : store) (t : list nevent) :
  traces (nfold (create_dependent lookupenv marshal json_to_yaml Status_Err ns pid) st l) t (Done (Ok st')) ->
  forall n v, (n, v) ∈ l -> dependent_written ns t v.
Proof.
  revert st t. induction l as [|[n0 v0] l IH]; intros st t H n v Hin; [by apply elem_of_nil in Hin|].
  cbn [nfold] in H. ok_step H t1 st1 H1. apply elem_of_cons in Hin as [Hin|Hin].
  - injection Hin as <- <-. apply (dependent_written_app ns [] t1 t0). unfold create_dependent in H1. cbn [snd] in H1.
    case_bool_decide as Hi; cbn [negb] in H1; [left|right]; (split; [done|]).
    + ok_step H1 t2 r H2. destruct r as [[[ci created] b'] st2]. exists created.
      destruct H1 as [-> _]. apply traces_create_new in H2 as [H2 _]. by apply (resource_created_app ns v [] t2 []).
    + by apply traces_update_existing in H1.
  - pose proof (IH _ _ H n v Hin) as H'. apply (dependent_written_app ns t1 t0 []) in H'. by rewrite app_nil_r in H'.
Qed.

(** ** The whole *)

(** C4: A creation that reports success has built the deployment and its dependents
    for the caller's project; it has then created every dependent that is new and
    updated every one that exists; it has looked at the project's deployments and
    found none of the same package and profile with the same display name; it has
    created the resource, under the name, the display name and with the children
    that were built; and the identifier it returns is the UID the API gave to
    that resource. *)
Theorem create_success (inp : Request num) (st : store) (t : list nevent) (id : string) :
  traces (Create (Some inp) st) t (Done (Ok id)) ->
  exists pid t1 t2 t3 b w crs created,
    t = t1 ++ t2 ++ t3 /\ GetActiveProjectID s ctx = Ok pid /\
    traces (init "create" inp (mkWorld ∅ st) pid) t2 (Done (Ok (b, w))) /\
    (forall n v, w_deps w !! n = Some v -> dependent_written pid t3 v) /\
    ev (NListDeployments pid (project_labels pid)) (Ok crs) ∈ t3 /\
    (forall cr, cr ∈ crs -> package_of cr = package_built (b_d b) -> sp_display_name (d_spec cr) <> n_display_name (b_d b)) /\
    resource_created pid b t3 created /\ id = d_uid created.
Proof.
  intros H. unfold CreateDeployment in H. ok_step H t1 pid H1. apply checks_project in H1.
  ok_step H t2 u H2. clear H2. ok_step H t3 bw H3. destruct bw as [b w]. apply traces_map_err_ok in H3.
  destruct (init_only_namespace lookupenv Status_Err num_of_int marshal_map yaml_to_json unmarshal_struct room
    pid "create" inp (mkWorld ∅ st) _ _ (map_Forall_empty _) H3) as [_ Hin].
  destruct (Hin b w eq_refl) as [[Hns _] _]. clear Hin. cbv zeta in H. rewrite Hns in H.
  ok_step H t4 u4 H4. clear H4. ok_step H t5 st5 H5. pose proof (traces_dependents _ _ _ _ _ _ H5) as Hdep. clear H5.
  ok_step H t6 crs H6. apply traces_map_err_ok in H6. unfold getDeploymentCRWithDeploymentPackage in H6.
  ok_step H6 t7 listed H7. apply traces_map_err_ok, traces_rcall_ok, traces_call in H7 as ->. destruct H6 as [-> [= ->]].
  destruct (find_first _ _) as [dup|] eqn:Ef; [by destruct H as [_ H]|].
  ok_step H t8 r H8. destruct r as [[[ci created] b'] st8]. apply traces_create_new in H8 as [Hcr Hid].
  ok_step H t9 u9 H9. clear H9. destruct H as [-> [= ->]].
  exists pid, (t1 ++ t2), t3, (t4 ++ t5 ++ ([ev (NListDeployments pid (project_labels pid)) (Ok listed)] ++ []) ++ t8 ++ t9 ++ []), b, w, listed, created.
  split_and!; try done.
  - by rewrite <- !app_assoc.
  - intros n v Hv. apply dependent_written_app, (Hdep n). by apply elem_of_map_range.
  - in_trace.
  - intros cr Hincr Hpk Hdn. rewrite find_first_None in Ef. specialize (Ef cr). rewrite bool_decide_eq_false in Ef.
    apply Ef; [|done]. apply list_elem_of_In, List.filter_In. split; [by apply list_elem_of_In|]. by apply bool_decide_eq_true.
  - apply (resource_created_app pid b (t4 ++ t5 ++ ([ev (NListDeployments pid (project_labels pid)) (Ok listed)] ++ [])) t8 (t9 ++ [])) in Hcr.
    rewrite <- !app_assoc in Hcr. rewrite <- ?app_assoc. exact Hcr.
Qed.
End Create.

(** The sample creation makes a dependent, too. *)
Definition sample_handler : np string :=
  CreateDeployment (fun z => z) (fun _ => None) (fun _ => Ok "{}") (fun _ => Ok "{}") Ok Ok (fun _ => (None, None)) (fun e => e)
    sample_svc sample_ctx 3 (Some (sample_request "new")) sample_store.

Lemma create_success_witness :
  exists pid t1 t2 t3 b w crs created,
    nb_log nb_sample sample_handler = t1 ++ t2 ++ t3 /\ GetActiveProjectID sample_svc sample_ctx = Ok pid /\
    traces (initDeployment (fun z => z) (fun _ => None) (fun _ => Ok "{}") Ok (fun _ => (None, None)) (fun e => e) 3
      "create" (sample_request "new") (mkWorld ∅ sample_store) pid) t2 (Done (Ok (b, w))) /\
    (forall n v, w_deps w !! n = Some v -> dependent_written pid t3 v) /\
    ev (NListDeployments pid (project_labels pid)) (Ok crs) ∈ t3 /\
    (forall cr, cr ∈ crs -> package_of cr = package_built (b_d b) -> sp_display_name (d_spec cr) <> n_display_name (b_d b)) /\
    resource_created pid b t3 created /\ "uid-deployment-1" = d_uid created.
Proof.
  apply (create_success (fun z => z) (fun _ => None) (fun e => e) sample_svc sample_ctx (fun _ => Ok "{}") (fun _ => Ok "{}")
    Ok Ok (fun _ => (None, None)) 3).
  apply (nb_traces nb_sample sample_handler). vm_compute. reflexivity.
Defined.
