(* ===== verification/IsolationFacts.v ===== *)
(** * Tenant isolation: the handlers stay in the active project

    Every request of a northbound handler that names a namespace names that of
    the caller's active project, and every listing is restricted to the project. *)

From S2P Require Import Prelude Prog GoStr Types Utils Pb ClusterTypes DataSelect PbStruct Nbi GoMonad NbEff Env Templates Targets.
From S2P Require Import Catalog Secrets Dependency InitDeployment Queries InitFacts Handlers Service.

(** What the Kubernetes API says of its answers: objects come from the
    namespace that was asked for, where one was. *)
Definition namespaced (e : neff) : nresp e -> Prop :=
  match e with
  | NListDeployments ns _ => fun r => match r with Ok ds => ns <> EmptyString -> Forall (fun d => d_namespace d = ns) ds | Err _ => True end
  | NGetDeployment ns _ | NCreateDeployment ns _ | NUpdateDeployment ns _ _ =>
      fun r => match r with Ok d => d_namespace d = ns | Err _ => True end
  | NGetNamespace n => fun r => match r with Ok o => nso_name o = n | Err _ => True end
  | _ => fun _ => True
  end.

(** The request stays in the project. *)
Definition within (pid : string) (e : neff) : Prop :=
  match e with
  | NListDeployments ns labels => ns = pid /\ (labels = project_labels pid \/ labels = ∅)
  | NGetDeployment ns _ | NUpdateDeployment ns _ _ | NDeleteDeployment ns _ => ns = pid
  | NCreateDeployment ns d => ns = pid /\ d_namespace d = pid /\ d_labels d !! AppOrchActiveProjectID = Some pid
  | NListDCs labels => labels !! AppOrchActiveProjectID = Some pid
  | NListClusters ns labels => ns = pid /\ labels = project_labels pid
  | NGetCluster ns _ | NGetBundle ns _ | NGetNamespace ns | NCreateNamespace ns => ns = pid
  | NUpdateNamespace n => nso_name n = pid
  | NCreateRoleBinding rb => rb_subject_namespace rb = pid \/ rb_subject_namespace rb = "fleet-default"
  | NGetSecret ns _ | NCreateSecret ns _ | NUpdateSecret ns _ | NDeleteSecret ns _ => ns = pid
  | _ => True
  end.

Section Isolation.
Context (pid : string) (Hpid : pid <> EmptyString).
Abbreviation stays := (nwp namespaced (within pid)).
Abbreviation in_pid := (InitFacts.in_pid (pid := pid)).

Lemma stays_mono {A : Type} (Q : A -> Prop) (p : np A) : stays Q p -> stays (fun _ => True) p.
Proof. apply nwp_true. Qed.

(** ** Namespaces and secrets *)

Lemma stays_CreateNamespace : stays (fun _ => True) (CreateNamespace pid).
Proof. unfold CreateNamespace. nwp_go. Qed.

Lemma stays_CreateSecret (n : string) (data : gmap string string) (b : bool) :
  stays (fun _ => True) (CreateSecret pid n data b).
Proof. unfold CreateSecret. nwp_go. Qed.

Lemma stays_GetSecretValue (n : string) : stays (fun _ => True) (GetSecretValue pid n).
Proof. unfold GetSecretValue. nwp_go. Qed.
Lemma stays_UpdateNsLabels : stays (fun _ => True) (UpdateNsLabels pid).
Proof.
  unfold UpdateNsLabels. apply (nwp_bind _ _ (fun o : NamespaceObj => nso_name o = pid)).
  - nwp_go; by destruct r.
  - intros o Ho. nwp_go.
Qed.

Lemma stays_CreateRoleBinding (sa n remote : string) :
  sa = pid \/ sa = "fleet-default" -> stays (fun _ => True) (CreateRoleBinding sa n remote).
Proof. intros H. unfold CreateRoleBinding. nwp_go. Qed.

Hint Resolve stays_CreateNamespace stays_CreateSecret stays_GetSecretValue stays_UpdateNsLabels stays_CreateRoleBinding : nwp.

Lemma stays_configureRsProxy (rb remote : string) : stays (fun _ => True) (configureRsProxy pid rb remote).
Proof. unfold configureRsProxy. nwp_go. Qed.
Hint Resolve stays_configureRsProxy : nwp.

Lemma stays_updateOwnerRefSecret (owners : list OwnerReference) (n : string) :
  stays (fun _ => True) (updateOwnerRefSecret owners n pid).
Proof. unfold updateOwnerRefSecret. nwp_go. Qed.

Lemma stays_DeleteSecret (n : string) : stays (fun _ => True) (DeleteSecret pid n).
Proof. unfold DeleteSecret. nwp_go. Qed.
Hint Resolve stays_updateOwnerRefSecret stays_DeleteSecret : nwp.

Lemma stays_delete_quiet (n : string) : stays (fun _ => True) (delete_secret_quiet pid n).
Proof. unfold delete_secret_quiet. nwp_go. Qed.

Lemma stays_own_named (owners : list OwnerReference) (n : string) : stays (fun _ => True) (own_named owners n pid).
Proof. unfold own_named. nwp_go. Qed.
Hint Resolve stays_delete_quiet stays_own_named : nwp.

(** ** The secrets of a deployment *)

Section Secrets.
Context {MR : MapRange} {num : Type} (lookupenv : string -> option string).
Context (marshal : option (value num) -> res string) (json_to_yaml : string -> res string).
Abbreviation Deployment := (Nbi.Deployment num).

Lemma stays_create_app_secrets (o om : gmap string string) (s : Deployment * string * bool) (app : catalogclient.HelmApp) :
  in_pid s.1.1 -> stays (fun s' => in_pid s'.1.1) (create_app_secrets lookupenv json_to_yaml o om s app).
Proof.
  destruct s as [[d cm] rs]. unfold in_pid. simpl. intros [Hd Ha]. unfold create_app_secrets.
  apply (nwp_bind _ _ in_pid); [unfold create_profile_secret; simpl; rewrite Hd; nwp_go|].
  clear dependent d. intros d [Hd Ha].
  apply (nwp_bind _ _ in_pid); [unfold create_overrides_secret; simpl; rewrite Hd; nwp_go|].
  clear dependent d. intros d [Hd Ha].
  apply (nwp_bind _ _ in_pid); [unfold create_repo_secret; simpl; rewrite Hd; nwp_go|].
  clear dependent d. intros d [Hd Ha].
  apply (nwp_bind _ _ in_pid); [unfold create_image_secret; simpl; rewrite Hd; nwp_go|].
  clear dependent d. intros d [Hd Ha].
  apply nwp_seq; [unfold create_template_secrets; rewrite Hd; nwp_go|]. intros cm'. rewrite Hd. nwp_go.
Qed.

Lemma stays_createSecrets (d : Deployment) :
  in_pid d -> stays in_pid (createSecrets lookupenv marshal json_to_yaml d).
Proof.
  intros Hd. unfold createSecrets. destruct (json_overrides marshal (n_masked d)) as [om cm].
  apply (nwp_bind _ _ (fun s : Deployment * string * bool => in_pid s.1.1)); [|by intros; apply nwp_ok].
  apply nwp_nfold; [done|]. intros s x _ Hs. by apply stays_create_app_secrets.
Qed.

Lemma stays_updateOwnerRefSecrets (d : Deployment) : in_pid d -> stays (fun _ => True) (updateOwnerRefSecrets d).
Proof.
  intros [Hd _]. unfold updateOwnerRefSecrets. apply nwp_nfold; [done|]. intros [] app _ _.
  unfold own_app_secrets. rewrite Hd. nwp_go.
Qed.

Lemma stays_createGitClientSecret (d : Deployment) : in_pid d -> stays (fun _ => True) (createGitClientSecret lookupenv d).
Proof.
  intros [Hd _]. unfold createGitClientSecret. rewrite Hd. nwp_go.
  - apply nwp_done. done.
  - unfold with_vault. nwp_go. split; [done|]. intros r _. apply nwp_done. done.
Qed.

Lemma stays_deleteSecrets (deployment : Types.Deployment) :
  d_namespace deployment = pid -> stays (fun _ => True) (deleteSecrets lookupenv deployment).
Proof.
  intros Hd. unfold deleteSecrets. apply nwp_nfold; [done|]. intros [] app _ _.
  unfold delete_app_secrets. rewrite Hd. nwp_go.
Qed.
End Secrets.


(** ** Looking up and building *)

#[local] Instance within_init : InitRequests namespaced (within pid) (fun ns => ns = pid) pid.
Proof.
  split; try (intros; subst; simpl; auto; done).
  intros labels ds d Hds Hd. simpl in Hds. specialize (Hds Hpid). rewrite Forall_forall in Hds. by apply Hds.
Qed.

(** ** The start of a handler *)

Section Handlers.
Context {MR : MapRange} {ML : MapRangeLaws MR} {num : Type} (num_of_int : Z -> num) (lookupenv : string -> option string).
Context (marshal_map : gmap string string -> res string) (marshal : option (value num) -> res string).
Context (json_to_yaml yaml_to_json : string -> res string).
Context (unmarshal_struct : string -> option (list (string * value num)) * option gerror) (Status_Err : gerror -> gerror).
Context (parse_rfc3339 : string -> option Z) {G : GoRegexp} {S : GoSort}.
Context (s : DeploymentSvc) (ctx : context) (Hproject : GetActiveProjectID s ctx = Ok pid).
Context (room : nat) (print_map : gmap string string -> string).
Abbreviation Deployment := (Nbi.Deployment num).

Lemma stays_active_project : stays (fun p => p = pid) (active_project Status_Err s ctx).
Proof. unfold active_project. apply nwp_map_err, nwp_done. rewrite Hproject. intros p Hp. by simplify_eq. Qed.

Lemma stays_authorize (request what : string) : stays (fun _ => True) (authorize Status_Err s ctx request what).
Proof. unfold authorize, AuthCheckAllowed. nwp_go. Qed.

Lemma stays_validate (request : string) : stays (fun _ => True) (validate Status_Err request).
Proof. unfold validate. nwp_go. Qed.

Lemma stays_checks (request what : string) : stays (fun p => p = pid) (checks Status_Err s ctx request what).
Proof.
  unfold checks. apply nwp_seq; [apply stays_validate|]. intros _.
  apply nwp_seq; [apply stays_authorize|]. intros _. apply stays_active_project.
Qed.

(** A handler that starts with the checks. *)
Lemma stays_checked {A : Type} (Q : A -> Prop) (request what : string) (f : string -> np A) :
  stays Q (f pid) -> stays Q (do! p := checks Status_Err s ctx request what in f p).
Proof. intros H. eapply nwp_bind; [apply stays_checks|]. intros p ->. done. Qed.

(** ** Reading *)

Lemma stays_createDeploymentObject (d : Types.Deployment) (dcs : option (list DeploymentCluster)) (filters : list string) :
  d_namespace d = pid ->
  stays (fun _ => True) (createDeploymentObject yaml_to_json unmarshal_struct d dcs filters).
Proof.
  intros Hd. unfold createDeploymentObject. destruct (_ && _); [by apply nwp_ok|].
  apply nwp_seq; [apply nwp_nfold; [done|]; intros ? dc _ _; rewrite Hd; nwp_go|]. intros labels.
  apply nwp_seq; [|intros; by apply nwp_ok].
  apply nwp_nfold; [done|]. intros acc app _ _. unfold read_overrides. rewrite Hd. nwp_go.
Qed.

Lemma stays_queryFilter (ds : list Types.Deployment) (dcs : list DeploymentCluster) (labels : list string) :
  Forall (fun d => d_namespace d = pid) ds ->
  stays (fun _ => True) (queryFilter yaml_to_json unmarshal_struct ds dcs labels).
Proof.
  intros Hds. unfold queryFilter. apply nwp_nfold; [done|]. intros acc d Hin _.
  apply nwp_seq; [|intros; by apply nwp_ok]. apply stays_createDeploymentObject.
  rewrite Forall_forall in Hds. by apply Hds.
Qed.

Lemma stays_list : stays (fun ds : list Types.Deployment => Forall (fun d => d_namespace d = pid) ds)
  (ListDeployments_ pid (project_labels pid)).
Proof. unfold ListDeployments_. nwp_go. destruct r; auto. Qed.

Lemma stays_list_dcs (labels : gmap string string) :
  labels !! AppOrchActiveProjectID = Some pid -> stays (fun _ => True) (ListDeploymentClusters_ labels).
Proof. intros H. unfold ListDeploymentClusters_. nwp_go. Qed.

Lemma project_label : project_labels pid !! AppOrchActiveProjectID = Some pid.
Proof. apply lookup_singleton_eq. Qed.

Lemma stays_matched (UID : string) :
  stays (fun d => d_name d = "" \/ d_namespace d = pid) (matchUIDDeployment UID pid (project_labels pid)).
Proof. apply (init_matchUIDDeployment (IR := within_init)). by left. Qed.

Lemma stays_select {A : Type} (r : res (option A)) (f : gerror -> gerror) : stays (fun _ => True) (select_or_panic r f).
Proof. unfold select_or_panic. nwp_go. Qed.

(** ** Writing *)

Lemma applications_state (d d' : Deployment) (scenario rv : string) (existing : option Types.Deployment) (st st' : store)
    (cr : Types.Deployment) (getenv : string -> string) :
  createDeploymentCr getenv d scenario rv existing st = Returns (Ok cr, d', st') -> in_pid d ->
  in_pid d' /\ d_namespace cr = pid /\ d_labels cr !! AppOrchActiveProjectID = Some pid.
Proof.
  intros H Hd. unfold createDeploymentCr in H.
  assert (Hk : in_pid (keep_network d scenario existing)).
  { unfold keep_network. destruct existing; [|done]. by destruct (_ && _). }
  destruct (applicationsList _ _ _ _) as [[st1 apps]|]; simpl in H; [|done].
  assert (Hcr : forall rv apps, d_namespace (cr_of (keep_network d scenario existing) rv apps) = pid /\
    d_labels (cr_of (keep_network d scenario existing) rv apps) !! AppOrchActiveProjectID = Some pid).
  { intros rv' apps'. destruct Hk as [Hns Hap]. split; [exact Hns|]. simpl. unfold cr_labels.
    rewrite lookup_insert_eq. by rewrite Hap. }
  repeat case_bool_decide; simplify_eq; split_and!; try apply Hcr; apply Hk.
Qed.

Lemma stays_make_cr (d : Deployment) (scenario rv : string) (existing : option Types.Deployment) (st : store) :
  in_pid d ->
  stays (fun r => in_pid r.1.2 /\ d_namespace r.1.1 = pid /\ d_labels r.1.1 !! AppOrchActiveProjectID = Some pid)
    (make_cr lookupenv Status_Err d scenario rv existing st).
Proof.
  intros Hd. unfold make_cr.
  eapply (nwp_bind _ _ (fun x : res Types.Deployment * Deployment * store =>
    match x.1.1 with Ok cr => in_pid x.1.2 /\ d_namespace cr = pid /\ d_labels cr !! AppOrchActiveProjectID = Some pid | Err _ => True end)).
  - apply nwp_of_maypanic. intros [[[cr|e] d'] st'] H; [|done]. simpl. by eapply applications_state.
  - intros [[r d'] st'] H. simpl in H. eapply (nwp_bind _ _ (fun cr => r = Ok cr)); [apply nwp_map_err, nwp_done; done|].
    intros cr ->. by apply nwp_ok.
Qed.

Lemma stays_update_child (n : string) (change : Types.Deployment -> Types.Deployment * bool) :
  stays (fun _ => True) (update_child pid n change).
Proof. unfold update_child. nwp_go. Qed.

Lemma stays_propagate (local : bool) (parent : Types.Deployment) :
  d_namespace parent = pid -> stays (fun _ => True) (propagateTargetsToChildDeployments local parent).
Proof.
  intros Hp. unfold propagateTargetsToChildDeployments. apply nwp_nfold; [done|]. intros [] kv _ _.
  rewrite Hp. apply stays_update_child.
Qed.

Lemma stays_create_new (b : Built num) (st : store) :
  in_pid (b_d b) ->
  stays (fun r => d_namespace r.1.1.2 = pid)
    (create_new lookupenv marshal json_to_yaml Status_Err pid b st).
Proof.
  intros Hb. unfold create_new. eapply nwp_bind; [apply nwp_map_err, stays_createSecrets, Hb|]. intros d Hd.
  eapply nwp_bind; [apply stays_make_cr, Hd|]. intros [[cr d'] st'] (Hd' & Hns & Hlab). cbv zeta.
  apply (nwp_bind _ _ (fun x : Types.Deployment => d_namespace x = pid)).
  { unfold k8s. apply nwp_map_err, nwp_rcall. split; [|by intros [x|] Hx]. split_and!; [done|exact Hns|exact Hlab]. }
  intros deploymentCR Hcr. apply nwp_seq; [apply nwp_map_err, stays_updateOwnerRefSecrets, Hd'|]. intros _. by apply nwp_ok.
Qed.

Lemma stays_update_existing (b : Built num) (st : store) :
  stays (fun _ => True) (update_existing Status_Err pid pid b st).
Proof. unfold update_existing, k8s. nwp_go. by apply nwp_of_maypanic. Qed.

Lemma stays_find_cr (dpID : string) :
  stays (fun _ => True) (getDeploymentCRWithDeploymentPackage pid dpID (project_labels pid)).
Proof. unfold getDeploymentCRWithDeploymentPackage. nwp_go. Qed.

Lemma stays_AddToOutgoingContext : stays (fun _ => True) AddToOutgoingContext.
Proof. unfold AddToOutgoingContext. nwp_go. Qed.

Lemma stays_Create (deployment : option (Request num)) (st : store) :
  stays (fun _ => True) (CreateDeployment num_of_int lookupenv marshal_map marshal json_to_yaml yaml_to_json
    unmarshal_struct Status_Err s ctx room deployment st).
Proof.
  unfold CreateDeployment. destruct deployment as [inp|]; [|apply nwp_fail]. apply stays_checked.
  apply nwp_seq; [apply nwp_map_err, stays_AddToOutgoingContext|]. intros _.
  eapply nwp_bind; [apply nwp_map_err, (init_initDeployment (IR := within_init)); [done|apply map_Forall_empty]|].
  intros [b w] [Hb Hw]. simpl in Hb, Hw. cbv zeta. destruct (Hb) as [Hns _].
  apply nwp_seq; [by apply nwp_map_err, stays_createGitClientSecret|]. intros _. rewrite Hns.
  apply nwp_seq.
  { apply nwp_nfold; [done|]. intros st' [k v] Hin _. unfold create_dependent. destruct (negb _); [apply stays_update_existing|].
    apply nwp_seq; [|intros; by apply nwp_ok]. eapply nwp_true, stays_create_new.
    apply elem_of_map_range in Hin. by apply (Hw k v). }
  intros st'. apply nwp_seq; [apply nwp_map_err, stays_find_cr|]. intros crs.
  destruct (find_first _ crs); [apply nwp_fail|].
  eapply nwp_bind; [apply stays_create_new, Hb|]. intros [[[ci cr] b'] st''] Hcr. simpl in Hcr.
  apply nwp_seq; [|intros; by apply nwp_ok]. case_bool_decide; [by apply nwp_ok|]. by apply stays_propagate.
Qed.

Lemma stays_Delete (deplId : string) (ty : DeleteType) :
  stays (fun _ => True) (DeleteDeployment lookupenv Status_Err s ctx deplId ty).
Proof.
  unfold DeleteDeployment. destruct (bool_decide (deplId = "")); [apply nwp_fail|]. apply stays_checked.
  eapply nwp_bind; [apply nwp_map_err, stays_matched|]. intros d Hd. cbv zeta.
  case_bool_decide as Hn; [apply nwp_fail|]. destruct Hd as [|Hd]; [done|]. destruct (negb _); [apply nwp_fail|].
  destruct ty.
  - apply nwp_seq; [unfold k8s; nwp_go|]. intros _. apply nwp_seq; [|intros; by apply nwp_ok].
    by apply nwp_catch_true, stays_deleteSecrets.
  - unfold delete_graph. apply nwp_seq; [eapply nwp_true, nwp_map_err, stays_list|]. intros ds.
    apply nwp_seq; [by apply nwp_map_err, nwp_done|]. intros tl. apply nwp_seq; [by apply nwp_of_maypanic|]. intros valid.
    destruct (negb valid); [apply nwp_fail|]. apply nwp_nfold; [done|]. intros. unfold k8s. nwp_go.
Qed.

Lemma stays_Update (deplId : string) (deployment : option (Request num)) (st : store) :
  stays (fun _ => True) (UpdateDeployment num_of_int lookupenv marshal_map marshal json_to_yaml yaml_to_json
    unmarshal_struct Status_Err s ctx room print_map deplId deployment st).
Proof.
  unfold UpdateDeployment. destruct deployment as [inp|]; [|apply nwp_fail].
  destruct (bool_decide (deplId = "")); [apply nwp_fail|]. apply stays_checked.
  apply nwp_seq; [apply nwp_map_err, stays_AddToOutgoingContext|]. intros _.
  eapply nwp_bind; [apply nwp_map_err, (init_initDeployment (IR := within_init)); [done|apply map_Forall_empty]|].
  intros [b w] [Hb Hw]. simpl in Hb. cbv zeta. destruct (Hb) as [Hns Hap]. rewrite Hns.
  eapply nwp_bind; [apply nwp_map_err, stays_matched|]. intros d Hd.
  case_bool_decide as Hn; [apply nwp_fail|]. destruct Hd as [|Hd]; [done|].
  case_bool_decide; [apply nwp_fail|]. repeat (destruct (negb _); [apply nwp_fail|]).
  eapply (nwp_bind _ _ (fun r : Types.Deployment * Deployment => d_namespace r.1 = pid /\ in_pid r.2)).
  - unfold replace. apply nwp_seq; [by apply nwp_map_err, stays_deleteSecrets|]. intros _.
    eapply nwp_bind; [apply nwp_map_err, stays_createSecrets; by split|]. intros d1 Hd1.
    eapply nwp_bind; [apply stays_make_cr, Hd1|]. intros [[cr d2] st2] (Hd2 & Hcr & _). cbv zeta. simpl in Hd2, Hcr.
    destruct (Hd2) as [Hns2 _]. rewrite Hns2. apply (nwp_bind _ _ (fun x : Types.Deployment => d_namespace x = pid)).
    { unfold k8s. apply nwp_map_err, nwp_rcall. split; [done|by intros [x|] Hx]. }
    intros updated Hup. apply nwp_seq; [|intros _; by apply nwp_ok].
    case_bool_decide; [by apply nwp_ok|]. by apply stays_propagate.
  - intros [updated d'] [Hup Hd']. simpl in Hup, Hd'. apply nwp_seq; [by apply nwp_map_err, stays_updateOwnerRefSecrets|].
    intros _. by apply stays_createDeploymentObject.
Qed.

(** ** Every method *)

Lemma stays_serve (r : rpc num) :
  stays (fun _ => True) (serve num_of_int lookupenv marshal_map marshal json_to_yaml yaml_to_json unmarshal_struct Status_Err
    parse_rfc3339 s room print_map ctx r).
Proof.
  assert (Hids : forall k v, (<[AppOrchActiveProjectID := pid]> {[k := v]} : gmap string string) !! AppOrchActiveProjectID = Some pid).
  { intros k v. apply lookup_insert_eq. }
  destruct r; simpl; unfold reply_of; (apply nwp_seq; [|intros; by apply nwp_ok]).
  - apply stays_Create.
  - apply stays_Update.
  - apply stays_Delete.
  - unfold GetDeployment. destruct (bool_decide _); [apply nwp_fail|]. apply stays_checked.
    eapply nwp_bind; [apply nwp_map_err, stays_matched|]. intros d Hd.
    case_bool_decide as Hn; [apply nwp_fail|]. destruct Hd as [|Hd]; [done|].
    apply nwp_seq; [apply nwp_map_err, stays_list_dcs, Hids|]. intros dcs. by apply stays_createDeploymentObject.
  - unfold ListDeployments. apply stays_checked. eapply nwp_bind; [apply nwp_map_err, stays_list|]. intros ds Hds.
    apply nwp_seq; [by apply stays_queryFilter|]. intros l. apply nwp_seq; [apply stays_select|]. intros; by apply nwp_ok.
  - unfold GetDeploymentsStatus. apply stays_checked. eapply nwp_bind; [apply nwp_map_err, stays_list|]. intros ds Hds.
    apply nwp_seq; [apply nwp_map_err, stays_list_dcs, project_label|]. intros dcs.
    apply nwp_seq; [by apply stays_queryFilter|]. intros; by apply nwp_ok.
  - unfold ListDeploymentsPerCluster. apply nwp_seq; [apply stays_validate|]. intros _.
    apply nwp_seq; [apply stays_authorize|]. intros _. destruct (bool_decide _); [apply nwp_fail|].
    eapply nwp_bind; [apply stays_active_project|]. intros p ->.
    eapply nwp_bind; [apply nwp_map_err, stays_list|]. intros ds _.
    apply nwp_seq; [apply nwp_map_err, stays_list_dcs|intros; by apply nwp_ok].
    rewrite lookup_insert_ne by done. apply project_label.
  - unfold ListDeploymentClusters. destruct (bool_decide _); [apply nwp_fail|]. apply stays_checked.
    eapply nwp_bind; [apply nwp_map_err, stays_matched|]. intros d _. case_bool_decide; [apply nwp_fail|].
    apply nwp_seq; [apply nwp_map_err, stays_list_dcs, Hids|]. intros dcs.
    apply nwp_seq; [apply stays_select|]. intros; by apply nwp_ok.
  - unfold GetAppNamespace. apply nwp_seq; [apply stays_validate|]. intros _.
    eapply nwp_bind; [apply stays_active_project|]. intros p ->. apply nwp_seq; [unfold k8s; nwp_go|]. intros; by apply nwp_ok.
  - unfold GetKubeConfig. destruct (bool_decide _); [apply nwp_fail|]. apply nwp_seq; [apply stays_validate|]. intros _.
    apply nwp_seq; [unfold AuthCheckAllowed; nwp_go|]. intros _. eapply nwp_bind; [apply stays_active_project|]. intros p ->.
    apply nwp_seq; [unfold k8s; nwp_go|]. intros c. apply nwp_seq; [apply nwp_map_err, stays_GetSecretValue|]. intros; by apply nwp_ok.
  - unfold ListClusters. apply stays_checked. apply nwp_seq; [unfold k8s; nwp_go|]. intros cs.
    apply nwp_seq; [apply stays_select|]. intros; by apply nwp_ok.
  - unfold GetCluster. destruct (bool_decide _); [apply nwp_fail|]. apply stays_checked.
    apply nwp_seq; [apply nwp_map_err, stays_list_dcs, Hids|]. intros dcs. destruct (map _ dcs); [apply nwp_fail|by apply nwp_ok].
Qed.
End Handlers.

End Isolation.
