(* ===== verification/ServiceFacts.v ===== *)
(** * Facts about every method of the northbound service

    Nothing outside is touched before OPA has allowed the request, and
    everything that is touched belongs to the caller's active project. *)

From S2P Require Import Prelude Prog GoStr Types Utils Pb ClusterTypes DataSelect PbStruct Nbi GoMonad NbEff Env Templates Targets.
From S2P Require Import Catalog Secrets Dependency InitDeployment Queries QueriesFacts Handlers Service DataSelectFacts NbSamples IsolationFacts.

(** ** Authorization *)

(** OPA has answered true for the rule of that request. *)
Definition allowed (name : string) (t : list nevent) : Prop :=
  ev (NOpa "deploymentv1" name) (Ok (OpaBool true)) ∈ t.

(** Touches nothing and lets through only what is allowed; touches nothing before
    it is allowed. *)
Definition gate {A : Type} (name : string) (p : np A) : Prop :=
  forall t o, traces p t o -> untouched t /\ forall a, o = Done (Ok a) -> allowed name t.

Definition guarded {A : Type} (name : string) (p : np A) : Prop :=
  forall t o, traces p t o -> untouched t \/ exists t1 t2, t = t1 ++ t2 /\ untouched t1 /\ allowed name t1.

Lemma gate_after {A B : Type} (name : string) (p : np A) (f : A -> np B) :
  quiet p -> (forall a, gate name (f a)) -> gate name (nbind p f).
Proof.
  intros Hp Hf t o H. apply traces_nbind in H as [(t1 & t2 & a & -> & H1 & H2)|(o' & H & _ & Ho)].
  - destruct (Hf a t2 o H2) as [Hu Ha]. split; [by apply untouched_app; [eapply Hp|]|].
    intros b Hb. apply elem_of_app. right. by apply (Ha b).
  - split; [by eapply Hp|]. intros b ->. by destruct (Ho b).
Qed.

Lemma gate_before {A B : Type} (name : string) (p : np A) (f : A -> np B) :
  gate name p -> (forall a, quiet (f a)) -> gate name (nbind p f).
Proof.
  intros Hp Hf t o H. apply traces_nbind in H as [(t1 & t2 & a & -> & H1 & H2)|(o' & H & _ & Ho)].
  - destruct (Hp t1 _ H1) as [Hu Ha]. split; [by apply untouched_app; [|eapply Hf]|].
    intros b _. apply elem_of_app. left. by apply (Ha a).
  - destruct (Hp t o' H) as [Hu _]. split; [done|]. intros b ->. by destruct (Ho b).
Qed.

Lemma guarded_gate {A B : Type} (name : string) (p : np A) (f : A -> np B) : gate name p -> guarded name (nbind p f).
Proof.
  intros Hp t o H. apply traces_nbind in H as [(t1 & t2 & a & -> & H1 & H2)|(o' & H & _ & Ho)].
  - destruct (Hp t1 _ H1) as [Hu Ha]. right. exists t1, t2. eauto.
  - destruct (Hp t o' H) as [Hu _]. by left.
Qed.

Lemma guarded_after {A B : Type} (name : string) (p : np A) (f : A -> np B) :
  quiet p -> (forall a, guarded name (f a)) -> guarded name (nbind p f).
Proof.
  intros Hp Hf t o H. apply traces_nbind in H as [(t1 & t2 & a & -> & H1 & H2)|(o' & H & _ & Ho)].
  - pose proof (Hp t1 _ H1) as Hu. destruct (Hf a t2 o H2) as [Hu2|(t3 & t4 & -> & Hu3 & Ha)].
    + left. by apply untouched_app.
    + right. exists (t1 ++ t3), t4. split_and!; [by rewrite app_assoc|by apply untouched_app|].
      apply elem_of_app. by right.
  - left. by eapply Hp.
Qed.

(** What follows does not matter. *)
Lemma guarded_bind {A B : Type} (name : string) (p : np A) (f : A -> np B) :
  guarded name p -> (forall a t o, traces (f a) t o -> untouched t) -> guarded name (nbind p f).
Proof.
  intros Hp Hf t o H. apply traces_nbind in H as [(t1 & t2 & a & -> & H1 & H2)|(o' & H & _ & Ho)].
  - destruct (Hp t1 _ H1) as [Hu|(t3 & t4 & -> & Hu3 & Ha)].
    + left. apply untouched_app; [done|]. by eapply Hf.
    + right. exists t3, (t4 ++ t2). by rewrite app_assoc.
  - by eapply Hp.
Qed.

Lemma guarded_fail {A : Type} (name : string) (e : gerror) : guarded name (fail (A := A) e).
Proof. intros t o [-> _]. left. constructor. Qed.

Section Facts.
Context {MR : MapRange} {ML : MapRangeLaws MR} {num : Type} (num_of_int : Z -> num) (lookupenv : string -> option string).
Context (marshal_map : gmap string string -> res string) (marshal : option (value num) -> res string).
Context (json_to_yaml yaml_to_json : string -> res string).
Context (unmarshal_struct : string -> option (list (string * value num)) * option gerror) (Status_Err : gerror -> gerror).
Context (parse_rfc3339 : string -> option Z) {G : GoRegexp} {S : GoSort}.
Context (s : DeploymentSvc) (room : nat) (print_map : gmap string string -> string) (ctx : context).

Abbreviation served := (serve num_of_int lookupenv marshal_map marshal json_to_yaml yaml_to_json unmarshal_struct Status_Err
    parse_rfc3339 s room print_map ctx).

Lemma gate_map_err {A : Type} (name : string) (f : gerror -> gerror) (p : np A) : gate name p -> gate name (map_err f p).
Proof.
  intros Hp t o H. unfold map_err in H. apply traces_bind in H as (t1 & t2 & o' & -> & H1 & [-> ->]).
  rewrite app_nil_r. destruct (Hp t1 o' H1) as [Hu Ha]. split; [done|]. intros a Ho. apply (Ha a).
  destruct o' as [[b|e]| |]; by simplify_eq.
Qed.

Lemma gate_AuthCheckAllowed (request name : string) :
  has_opa s = true -> rule_of request = ("deploymentv1", name) -> gate name (AuthCheckAllowed s ctx request).
Proof.
  intros Hopa Hrule t o H. unfold AuthCheckAllowed in H. rewrite Hopa, Hrule in H.
  destruct ctx as [md|]; [|destruct H as [-> ->]; by split; [constructor|]].
  destruct H as (r & t' & -> & H). destruct r as [e|]; cbn in H.
  - destruct H as [-> ->]. by split; [repeat constructor|].
  - destruct H as (r & t'' & -> & H). split.
    + destruct r as [[[]| | |]|e]; cbn in H; destruct H as [-> _]; repeat constructor.
    + intros a ->. destruct r as [[[]| | |]|e]; cbn in H; destruct H as [-> H]; try discriminate H. right. left.
Qed.

Lemma gate_authorize (request name what : string) :
  has_opa s = true -> rule_of request = ("deploymentv1", name) -> gate name (authorize Status_Err s ctx request what).
Proof. intros H1 H2. by apply gate_map_err, gate_AuthCheckAllowed. Qed.

Lemma gate_checks (request name what : string) :
  has_opa s = true -> rule_of request = ("deploymentv1", name) -> gate name (checks Status_Err s ctx request what).
Proof.
  intros H1 H2. apply gate_after; [apply quiet_validate|]. intros _.
  apply gate_before; [by apply gate_authorize|]. intros _. apply quiet_active_project.
Qed.

Lemma guarded_serve (r : rpc num) :
  has_opa s = true -> (forall a, r <> RpcGetAppNamespace a) -> guarded (request_name r) (served r).
Proof.
  intros Hopa Hr.
  assert (Hrep : forall A (f : A -> reply (num := num)) (p : np A), guarded (request_name r) p -> guarded (request_name r) (reply_of f p)).
  { intros A f p Hp. apply guarded_bind; [done|]. intros a t o [-> _]. constructor. }
  destruct r; simpl; apply Hrep; simpl.
  - unfold CreateDeployment. destruct deployment; [|apply guarded_fail]. by apply guarded_gate, gate_checks.
  - unfold UpdateDeployment. destruct deployment; [|apply guarded_fail]. destruct (bool_decide _); [apply guarded_fail|].
    by apply guarded_gate, gate_checks.
  - unfold DeleteDeployment. destruct (bool_decide _); [apply guarded_fail|]. by apply guarded_gate, gate_checks.
  - unfold GetDeployment. destruct (bool_decide _); [apply guarded_fail|]. by apply guarded_gate, gate_checks.
  - by apply guarded_gate, gate_checks.
  - by apply guarded_gate, gate_checks.
  - apply guarded_after; [apply quiet_validate|]. intros _. by apply guarded_gate, gate_authorize.
  - unfold ListDeploymentClusters. destruct (bool_decide _); [apply guarded_fail|]. by apply guarded_gate, gate_checks.
  - by destruct (Hr appId).
  - unfold GetKubeConfig. destruct (bool_decide _); [apply guarded_fail|].
    apply guarded_after; [apply quiet_validate|]. intros _. by apply guarded_gate, gate_map_err, gate_AuthCheckAllowed.
  - by apply guarded_gate, gate_checks.
  - unfold GetCluster. destruct (bool_decide _); [apply guarded_fail|]. by apply guarded_gate, gate_checks.
Qed.

(** C8: With OPA in use, a method of the service does nothing outside, no read,
    no write, no token, no catalog lookup, before OPA has answered true for
    the rule named after its own request.  The one exception is
    GetAppNamespace. *)
Theorem allowed_first (r : rpc num) (t1 t2 : list nevent) (x : nevent) (o : outcome (reply (num := num))) :
  has_opa s = true -> (forall a, r <> RpcGetAppNamespace a) ->
  traces (served r) (t1 ++ x :: t2) o -> touches (projT1 x) = true ->
  ev (NOpa "deploymentv1" (request_name r)) (Ok (OpaBool true)) ∈ t1.
Proof.
  intros Hopa Hr Ht Hx. destruct (guarded_serve r Hopa Hr _ _ Ht) as [Hu|(u1 & u2 & Heq & Hu & Ha)].
  - apply Forall_app in Hu as [_ Hu]. apply Forall_cons in Hu as [Hu _]. congruence.
  - assert (exists v, t1 = u1 ++ v) as [v ->].
    { clear Ht. revert t1 Heq. clear -Hu Hx. induction u1 as [|y u1 IH]; intros t1 Heq; [by exists t1|].
      apply Forall_cons in Hu as [Hy Hu]. destruct t1 as [|z t1]; simpl in Heq; simplify_eq; [congruence|].
      destruct (IH Hu t1) as [v ->]; [done|by exists v]. }
    apply elem_of_app. by left.
Qed.

(** GetAppNamespace never asks OPA. *)
Lemma app_namespace_unchecked (appId : string) (t : list nevent) (o : outcome (reply (num := num))) :
  traces (served (RpcGetAppNamespace appId)) t o -> forall package rule, ~ requested t (NOpa package rule).
Proof.
  intros Ht package rule. assert (H : nwp any_answer (fun e => e <> NOpa package rule) (fun _ => True) (served (RpcGetAppNamespace appId))).
  { simpl. unfold reply_of, GetAppNamespace, validate, active_project, k8s. nwp_go. by apply nwp_done. }
  destruct (nwp_traces _ _ _ _ _ _ H Ht (any_answers t)) as [HF _]. intros [a Ha].
  rewrite Forall_forall in HF. by apply (HF _ Ha).
Qed.

(** C1: With an active project, every request of a method that names a namespace
    names the project's, every listing is restricted to the project by its
    namespace or its label, resources are created in the project's namespace
    and carry its label, and role bindings are for service accounts of the
    project (or the fleet-default namespace).  This is so for whatever the
    cluster and the catalog answer, as long as the API returns objects of
    the namespace it was asked for. *)
Theorem tenant_isolation (pid : string) (r : rpc num) (t : list nevent) (o : outcome (reply (num := num))) :
  pid <> EmptyString -> GetActiveProjectID s ctx = Ok pid ->
  traces (served r) t o -> Forall (fun x : nevent => namespaced (projT1 x) (projT2 x)) t ->
  Forall (fun x : nevent => within pid (projT1 x)) t.
Proof.
  intros Hpid Hp Ht HK.
  destruct (nwp_traces _ _ _ _ _ _ (stays_serve pid Hpid num_of_int lookupenv marshal_map marshal json_to_yaml yaml_to_json
    unmarshal_struct Status_Err parse_rfc3339 s ctx Hp room print_map r) Ht HK) as [H _]. exact H.
Qed.
End Facts.

(** The token is asked for once OPA has answered. *)
Lemma allowed_first_witness :
  ev (NOpa "deploymentv1" "CreateDeploymentRequest") (Ok (OpaBool true)) ∈
  take 3 (nb_log nb_sample (sample_serve sample_svc sample_create_rpc)).
Proof.
  eapply (allowed_first (fun z => z) (fun _ => None) (fun _ => Ok "{}") (fun _ => Ok "{}") Ok Ok (fun _ => (None, None))
    (fun e => e) (fun _ => None) sample_svc 3 (fun _ => "") sample_ctx sample_create_rpc _
    (drop 4 (nb_log nb_sample (sample_serve sample_svc sample_create_rpc))) (ev NToken (Ok "token"))
    (nb_result nb_sample (sample_serve sample_svc sample_create_rpc))).
  - reflexivity.
  - discriminate.
  - rewrite take_drop_middle by (vm_compute; reflexivity).
    apply (nb_traces nb_sample (sample_serve sample_svc sample_create_rpc)). reflexivity.
  - reflexivity.
Defined.

(** The sample cluster answers with objects of the namespace it is asked for. *)
Lemma nb_namespaced (w : nb_world) (e : neff) : namespaced e (nb_answer w e).
Proof.
  destruct e; try done; simpl.
  - intros _. apply nb_listed. by intros d _ ->.
  - by destruct (find_first _ _).
Qed.

(** A creation that makes a dependent deployment, too. *)
Lemma tenant_isolation_witness :
  nb_result nb_sample (sample_serve sample_svc sample_create_rpc) = Done (Ok (ReDeploymentId "uid-deployment-1")) /\
  Forall (fun x : nevent => within "p1" (projT1 x)) (nb_log nb_sample (sample_serve sample_svc sample_create_rpc)).
Proof.
  split; [vm_compute; reflexivity|].
  eapply (tenant_isolation (fun z => z) (fun _ => None) (fun _ => Ok "{}") (fun _ => Ok "{}") Ok Ok (fun _ => (None, None))
    (fun e => e) (fun _ => None) sample_svc 3 (fun _ => "") sample_ctx "p1" sample_create_rpc).
  - discriminate.
  - reflexivity.
  - apply (nb_traces nb_sample (sample_serve sample_svc sample_create_rpc)). reflexivity.
  - apply nb_answers. intros n e. apply nb_namespaced.
Defined.
