(* ===== verification/ConfinedFacts.v ===== *)
(** * Targets are confined to the project

    A target selects clusters by their labels.  Every target of a resource the
    service writes asks for the label of the caller's project, so that a
    deployment cannot reach clusters of another one. *)

From S2P Require Import Prelude Prog GoStr Types Utils Pb ClusterTypes DataSelect PbStruct Nbi GoMonad NbEff Env Templates Targets.
From S2P Require Import Catalog Secrets Dependency InitDeployment InitFacts Queries QueriesFacts Handlers Service.

Section Confined.
Context {MR : MapRange} {ML : MapRangeLaws MR} (pid : string).

(** ** Label maps in the store *)

Definition labelled_map (m : gmap string string) : Prop := m !! ClusterOrchKeyProjectID = Some pid.
Definition labelled (st : store) (r : mapref) : Prop := labelled_map (mread st r).

(** References that are not nil point into the store. *)
Definition valid (st : store) (r : mapref) : Prop := match r with Some i => (i < length st)%nat | None => True end.

(** Every map that carries the project's label still does, and none is gone. *)
Definition keeps (st st' : store) : Prop :=
  (forall r, labelled st r -> labelled st' r) /\ (length st <= length st')%nat.

Lemma keeps_refl (st : store) : keeps st st.
Proof. by split. Qed.

Lemma keeps_trans (st1 st2 st3 : store) : keeps st1 st2 -> keeps st2 st3 -> keeps st1 st3.
Proof. intros [H1 L1] [H2 L2]. split; [auto|lia]. Qed.

Lemma keeps_valid (st st' : store) (r : mapref) : keeps st st' -> valid st r -> valid st' r.
Proof. intros [_ L]. destruct r; simpl; [lia|done]. Qed.

Lemma labelled_Some (st : store) (r : mapref) : labelled st r -> exists i m, r = Some i /\ st !! i = Some m /\ labelled_map m.
Proof.
  unfold labelled, labelled_map, mread. destruct r as [i|]; [|by rewrite lookup_empty].
  destruct (st !! i) as [m|] eqn:E; simpl; [eauto|by rewrite lookup_empty].
Qed.

Lemma labelled_valid (st : store) (r : mapref) : labelled st r -> valid st r.
Proof. intros (i & m & -> & Hi & _)%labelled_Some. by eapply lookup_lt_Some. Qed.

Lemma keeps_mmake (st : store) (m : gmap string string) : keeps st (mmake st m).1.
Proof.
  split; [|simpl; rewrite length_app; lia].
  intros r (i & m' & -> & Hi & Hm)%labelled_Some. unfold labelled, mread, mmake. simpl.
  by rewrite (lookup_app_l_Some _ _ _ _ Hi).
Qed.

Lemma mread_mmake (st : store) (m : gmap string string) : mread (mmake st m).1 (mmake st m).2 = m.
Proof. unfold mread, mmake. simpl. rewrite lookup_app_r by lia. by rewrite Nat.sub_diag. Qed.

Lemma keeps_mwrite (st st' : store) (r : mapref) (k v : string) :
  mwrite st r k v = Returns st' -> (k = ClusterOrchKeyProjectID -> v = pid) -> keeps st st'.
Proof.
  intros H Hk. unfold mwrite in H. destruct r as [j|]; [|done]. simplify_eq. split; [|by rewrite length_alter].
  intros r' (i & m & -> & Hi & Hm)%labelled_Some.
  unfold labelled, mread. destruct (decide (i = j)) as [->|Hne].
  - rewrite list_lookup_alter_eq, Hi. simpl. unfold labelled_map.
    destruct (decide (k = ClusterOrchKeyProjectID)) as [->|Hk']; [by rewrite lookup_insert_eq, Hk|by rewrite lookup_insert_ne].
  - rewrite list_lookup_alter_ne by done. by rewrite Hi.
Qed.

(** Writing the project's label into a map that exists. *)
Lemma labelled_mwrite (st st' : store) (r : mapref) :
  mwrite st r ClusterOrchKeyProjectID pid = Returns st' -> valid st r -> labelled st' r.
Proof.
  destruct r as [i|]; [|done]. intros [= <-] Hi. unfold labelled, mread. rewrite list_lookup_alter_eq.
  destruct (lookup_lt_is_Some_2 st i Hi) as [m Hm]. rewrite Hm. simpl. apply lookup_insert_eq.
Qed.

(** A list of maps, all labelled. *)
Definition all_labelled (st : store) (rs : list mapref) : Prop := Forall (labelled st) rs.

Lemma keeps_all (st st' : store) (rs : list mapref) : keeps st st' -> all_labelled st rs -> all_labelled st' rs.
Proof. intros [H _] Hrs. eapply Forall_impl; [exact Hrs|]. exact H. Qed.

Definition confined_targets (ts : list (gmap string string)) : Prop := Forall labelled_map ts.

Lemma all_labelled_read (st : store) (rs : list mapref) : all_labelled st rs -> confined_targets (map (mread st) rs).
Proof. intros H. by apply Forall_map. Qed.

(** ** Operations on the store *)

Lemma label_target_labelled (typ : string) (st st' : store) (val val' : TargetClusters) :
  label_target typ pid st val = Returns (st', val') -> valid st (tc_labels val) ->
  keeps st st' /\ labelled st' (tc_labels val').
Proof.
  unfold label_target. intros H Hv. case_bool_decide.
  - destruct (mmake st ∅) as [st1 r] eqn:Em. simpl in H.
    destruct (mwrite st1 r ClusterOrchKeyProjectID pid) as [st2|] eqn:E; simpl in H; [|done]. simplify_eq. simpl.
    assert (Hr : valid st1 r) by (injection Em as <- <-; simpl; rewrite length_app; simpl; lia).
    split; [|by eapply labelled_mwrite]. eapply keeps_trans; [|by eapply keeps_mwrite].
    replace st1 with (mmake st ∅).1 by (by rewrite Em). apply keeps_mmake.
  - destruct (mwrite st (tc_labels val) ClusterOrchKeyProjectID pid) as [st1|] eqn:E; simpl in H; [|done]. simplify_eq.
    split; [by eapply keeps_mwrite|by eapply labelled_mwrite].
Qed.

(** Merging a labelled map into any other. *)
Lemma keeps_merge (st st' : store) (r : mapref) (m : gmap string string) :
  labelled_map m -> merge_labels st r m = Returns st' -> keeps st st'.
Proof.
  intros Hm H. revert H. unfold merge_labels. apply (mfold_invariant (fun st' => keeps st st')); [|apply keeps_refl].
  intros [k v] s1 s2 Hin Hk H. simpl in H. eapply keeps_trans; [exact Hk|]. eapply keeps_mwrite; [exact H|].
  intros ->. apply elem_of_map_range in Hin. unfold labelled_map in Hm. congruence.
Qed.

(** A target of a request that may be nil only where writing to it panics. *)
Definition target_ok (typ : string) (st : store) (tc : TargetClusters) : Prop :=
  labelled st (tc_labels tc) \/ (tc_labels tc = None /\ typ = Targeted).

Lemma keeps_target (typ : string) (st st' : store) (tc : TargetClusters) :
  keeps st st' -> target_ok typ st tc -> target_ok typ st' tc.
Proof. intros [H _] [Ht|Ht]; [left; auto|by right]. Qed.

Lemma keeps_targets (typ : string) (st st' : store) (ts : list TargetClusters) :
  keeps st st' -> Forall (target_ok typ st) ts -> Forall (target_ok typ st') ts.
Proof. intros H Hts. eapply Forall_impl; [exact Hts|]. intros tc. by apply keeps_target. Qed.

Lemma add_targeted_labelled (st : store) (rs : list mapref) (tc : TargetClusters) (st' : store) (rs' : list mapref) :
  add_targeted st rs tc = Returns (st', rs') -> target_ok Targeted st tc -> all_labelled st rs ->
  keeps st st' /\ all_labelled st' rs'.
Proof.
  unfold add_targeted. intros H Htc Hrs.
  destruct (mwrite st (tc_labels tc) ClusterName (tc_cluster_id tc)) as [st1|] eqn:E; simpl in H; [|done].
  assert (K1 : keeps st st1) by (by eapply keeps_mwrite).
  assert (L1 : labelled st1 (tc_labels tc)).
  { destruct Htc as [Ht|[Ht _]]; [by apply K1|]. by rewrite Ht in E. }
  destruct (find_index _ rs) as [i|].
  - destruct (merge_labels st1 _ _) as [st2|] eqn:E2; simpl in H; [|done]. simplify_eq.
    assert (K2 : keeps st1 st') by (by eapply keeps_merge).
    pose proof (keeps_trans _ _ _ K1 K2). split; [done|by eapply keeps_all].
  - simplify_eq. split; [done|]. apply Forall_app. split; [by eapply keeps_all|by constructor].
Qed.

Lemma newKeyValues_labelled (existing : gmap string (gset string)) (labels : gmap string string) :
  labelled_map labels -> labelled_map (newKeyValues existing labels).1.
Proof.
  intros H. apply elem_of_map_range in H. unfold newKeyValues.
  set (f := fun (acc : gmap string string * bool) (kv : string * string) => _).
  assert (Hstep : forall acc kv, labelled_map acc.1 -> (kv.1 = ClusterOrchKeyProjectID -> kv.2 = pid) -> labelled_map (f acc kv).1).
  { intros acc [k v] Ha Hk. unfold f. simpl in *. case_bool_decide as Hp.
    - subst k. unfold labelled_map. simpl. by rewrite lookup_insert_eq, Hk.
    - assert (Hins : labelled_map (<[k := v]> acc.1)).
      { unfold labelled_map. rewrite lookup_insert_ne; [done|]. intros ->. by apply Hp. }
      destruct (existing !! k); [|done]. by destruct (negb _). }
  assert (Hfun : forall k v, (k, v) ∈ map_range labels -> k = ClusterOrchKeyProjectID -> v = pid).
  { intros k v Hkv ->. apply elem_of_map_range in Hkv, H. congruence. }
  revert Hfun H. generalize (map_range labels). intros l Hfun H.
  apply list_elem_of_split in H as (l1 & l2 & ->). rewrite foldl_app. simpl.
  assert (Hmid : labelled_map (f (foldl f (∅, false) l1) (ClusterOrchKeyProjectID, pid)).1).
  { unfold f. simpl. unfold labelled_map. apply lookup_insert_eq. }
  assert (Hfun2 : forall k v, (k, v) ∈ l2 -> k = ClusterOrchKeyProjectID -> v = pid).
  { intros k v Hkv. apply Hfun. set_solver. }
  revert Hmid Hfun2. clear -Hstep. generalize (f (foldl f (∅, false) l1) (ClusterOrchKeyProjectID, pid)).
  induction l2 as [|[k v] l2 IH]; intros acc Hacc Hf; simpl; [done|]. apply IH.
  - apply Hstep; [done|]. simpl. intros Hk. eapply Hf; [left|done].
  - intros k' v' Hin. apply Hf. by right.
Qed.

Lemma add_auto_scaling_labelled (scenario : string) (st : store) (rs : list mapref) (tc : TargetClusters) :
  target_ok AutoScaling st tc -> all_labelled st rs ->
  keeps st (add_auto_scaling scenario st rs tc).1 /\
  all_labelled (add_auto_scaling scenario st rs tc).1 (add_auto_scaling scenario st rs tc).2.
Proof.
  intros [Htc|[_ Htc]] Hrs; [|done]. unfold add_auto_scaling. destruct (existsb _ _); [split; [apply keeps_refl|done]|].
  destruct (_ && _).
  - pose proof (keeps_mmake st (newKeyValues (existingKeyValues (map (mread st) rs)) (mread st (tc_labels tc))).1) as K.
    pose proof (mread_mmake st (newKeyValues (existingKeyValues (map (mread st) rs)) (mread st (tc_labels tc))).1) as R.
    destruct (mmake st _) as [st1 r]. simpl in *. split; [done|]. apply Forall_app. split; [by eapply keeps_all|].
    constructor; [|done]. unfold labelled. rewrite R. by apply newKeyValues_labelled.
  - simpl. split; [apply keeps_refl|]. apply Forall_app. split; [done|]. by constructor.
Qed.

(** ** Resources *)

Definition confined (d : Types.Deployment) : Prop :=
  Forall (fun a => confined_targets (app_targets a)) (sp_apps (d_spec d)).

Section Cr.
Context {num : Type}.
Abbreviation Deployment := (Nbi.Deployment num).

Definition good (st : store) (d : Deployment) : Prop :=
  (n_type d = AutoScaling \/ n_type d = Targeted) /\ Forall (target_ok (n_type d) st) (n_targets d).

Lemma keeps_good (st st' : store) (d : Deployment) : keeps st st' -> good st d -> good st' d.
Proof. intros K [Ht Hg]. split; [done|]. by eapply keeps_targets. Qed.

(** Loading labelled maps. *)
Lemma load_labelled (ts : list (gmap string string)) (st : store) :
  confined_targets ts ->
  let r := foldl (fun (s : store * list mapref) m => let '(st, r) := mmake s.1 m in (st, s.2 ++ [r])) (st, []) ts in
  keeps st r.1 /\ all_labelled r.1 r.2.
Proof.
  intros Hts. assert (H : forall rs, all_labelled st rs ->
    let r := foldl (fun (s : store * list mapref) m => let '(st, r) := mmake s.1 m in (st, s.2 ++ [r])) (st, rs) ts in
    keeps st r.1 /\ all_labelled r.1 r.2).
  { revert st. induction Hts as [|m ts Hm Hts IH]; intros st rs Hrs; simpl; [split; [apply keeps_refl|done]|].
    pose proof (keeps_mmake st m) as K. simpl in K.
    assert (R : mread (st ++ [m]) (Some (length st)) = m) by apply (mread_mmake st m).
    destruct (IH (st ++ [m]) (rs ++ [Some (length st)])) as [K' H'].
    - apply Forall_app. split; [by eapply keeps_all|]. constructor; [|done]. unfold labelled. by rewrite R.
    - split; [by eapply keeps_trans|done]. }
  apply H. constructor.
Qed.

Lemma app_targets_labelled (d : Deployment) (scenario app : string) (existing : option Types.Deployment)
    (st st' : store) (rs : list mapref) :
  app_targets_of d scenario existing app st = Returns (st', rs) -> good st d -> from_option confined True existing ->
  keeps st st' /\ all_labelled st' rs.
Proof.
  intros H [Hty Hts] Hex. unfold app_targets_of in H.
  assert (He : confined_targets (existing_targets d scenario existing app)).
  { unfold existing_targets. destruct existing as [e|]; [|constructor]. destruct (_ && _); [|constructor].
    destruct (find_first _ _) as [a|] eqn:E; [|constructor]. apply find_first_Some in E as [Hin _].
    unfold confined in Hex. simpl in Hex. rewrite Forall_forall in Hex. by apply Hex. }
  destruct (load_labelled _ st He) as [K0 L0]. revert H. cbv zeta in K0, L0.
  match goal with |- mfold _ ?r _ = _ -> _ => set (r0 := r) in * end.
  apply (mfold_invariant (fun r => keeps st r.1 /\ all_labelled r.1 r.2) _ (n_targets d) r0 (st', rs)); [|by split].
  intros tc [s1 rs1] [s2 rs2] Hin [K1 L1] H. simpl in *.
  rewrite Forall_forall in Hts. pose proof (keeps_target _ _ _ _ K1 (Hts tc Hin)) as Htc.
  case_bool_decide; [|simplify_eq; done]. case_bool_decide as Hty'.
  - rewrite Hty' in Htc. destruct (add_targeted_labelled _ _ _ _ _ H Htc L1) as [K2 L2].
    split; [by eapply keeps_trans|done].
  - destruct Hty as [Hty|Hty]; [|done]. rewrite Hty in Htc.
    destruct (add_auto_scaling_labelled scenario s1 rs1 tc Htc L1) as [K2 L2]. simplify_eq.
    destruct (add_auto_scaling scenario s1 rs1 tc) as [s3 rs3]. simplify_eq. simpl in *. split; [by eapply keeps_trans|done].
Qed.

Lemma applications_labelled (d : Deployment) (scenario : string) (existing : option Types.Deployment) (st : store)
    (r : store * list (catalogclient.HelmApp * gmap string DeploymentPackageRef * list mapref)) :
  applicationsList d scenario existing st = Returns r -> good st d -> from_option confined True existing ->
  keeps st r.1 /\ Forall (fun x => all_labelled r.1 x.2) r.2.
Proof.
  intros H Hg Hex. revert H. unfold applicationsList.
  apply (mfold_invariant (fun r => keeps st r.1 /\ Forall (fun x => all_labelled r.1 x.2) r.2)); [|split; [apply keeps_refl|constructor]].
  intros app [s1 l1] [s2 l2] _ [K1 L1] H. simpl in *.
  destruct (app_targets_of d scenario existing (catalogclient.h_name app) s1) as [[s3 rs]|] eqn:E; simpl in H; [|done].
  destruct (dependent_packages d app) as [pk|]; simpl in H; [|done]. simplify_eq.
  destruct (app_targets_labelled _ _ _ _ _ _ _ E (keeps_good _ _ _ K1 Hg) Hex) as [K2 L2].
  split; [by eapply keeps_trans|]. apply Forall_app. split; [|by constructor].
  eapply Forall_impl; [exact L1|]. intros x. by apply keeps_all.
Qed.

Lemma createDeploymentCr_confined (d d' : Deployment) (scenario rv : string) (existing : option Types.Deployment)
    (st st' : store) (cr : Types.Deployment) (getenv : string -> string) :
  createDeploymentCr getenv d scenario rv existing st = Returns (Ok cr, d', st') -> good st d ->
  from_option confined True existing -> keeps st st' /\ confined cr.
Proof.
  intros H Hg Hex. unfold createDeploymentCr in H.
  assert (Hk : good st (keep_network d scenario existing)).
  { unfold keep_network. destruct existing as [e|]; [|done]. by destruct (_ && _). }
  destruct (applicationsList (keep_network d scenario existing) scenario existing st) as [[s1 apps]|] eqn:E; simpl in H; [|done].
  destruct (applications_labelled _ _ _ _ _ E Hk Hex) as [K L]. simpl in K, L.
  assert (Hc : forall rv', confined (cr_of (keep_network d scenario existing) rv'
    (map (fun '(app, packages, targets) => application getenv (keep_network d scenario existing) app packages (map (mread s1) targets)) apps))).
  { intros rv'. unfold confined. simpl. apply Forall_map. eapply Forall_impl; [exact L|].
    intros [[app pk] rs] Hrs. simpl. by apply all_labelled_read. }
  repeat case_bool_decide; simplify_eq; split; try done; apply Hc.
Qed.

Lemma createDeploymentCr_keeps (d d' : Deployment) (scenario rv : string) (existing : option Types.Deployment)
    (st st' : store) (r : res Types.Deployment) (getenv : string -> string) :
  createDeploymentCr getenv d scenario rv existing st = Returns (r, d', st') -> good st d ->
  from_option confined True existing -> keeps st st' /\ n_type d' = n_type d /\ n_targets d' = n_targets d.
Proof.
  intros H Hg Hex. unfold createDeploymentCr in H.
  assert (Hk : good st (keep_network d scenario existing) /\ n_type (keep_network d scenario existing) = n_type d /\
    n_targets (keep_network d scenario existing) = n_targets d).
  { unfold keep_network. destruct existing as [e|]; [|done]. by destruct (_ && _). }
  destruct Hk as (Hk & H1 & H2).
  destruct (applicationsList (keep_network d scenario existing) scenario existing st) as [[s1 apps]|] eqn:E; simpl in H; [|done].
  destruct (applications_labelled _ _ _ _ _ E Hk Hex) as [K L]. simpl in K.
  repeat case_bool_decide; simplify_eq; done.
Qed.

Lemma merge_good (d d' : Deployment) (target : TargetClusters) (st st' : store) :
  mergeAllAppTargetClusters d target st = Returns (d', st') -> good st d -> labelled st (tc_labels target) ->
  keeps st st' /\ good st' d'.
Proof.
  intros H Hg Ht. unfold mergeAllAppTargetClusters in H. destruct (n_targets d) as [|tc0 tcs] eqn:En.
  - simplify_eq. split; [apply keeps_refl|]. destruct Hg as [Hty _]. split; [exact Hty|]. simpl. apply Forall_map, Forall_forall.
    intros app _. destruct Hty as [Hty|Hty]; rewrite Hty; simpl; [by left|by right].
  - match type of H with unless_panic ?m _ = _ => destruct m as [s1|] eqn:E; simpl in H; [|done] end. simplify_eq.
    assert (K : keeps st st'); [|split; [done|by eapply keeps_good]].
    revert E. apply (mfold_invariant (fun s => keeps st s)); [|apply keeps_refl]. intros app s1 s2 _ K1.
    apply (mfold_invariant (fun s => keeps st s)); [|done]. intros tc s3 s4 _ K3 H. destruct (_ && _); [|by simplify_eq].
    revert H. apply (mfold_invariant (fun s => keeps st s)); [|done]. intros [k v] s5 s6 Hkv K5 H. simpl in H.
    destruct (mhas _ _); [by simplify_eq|]. eapply keeps_trans; [exact K5|]. eapply keeps_mwrite; [exact H|].
    intros ->. apply elem_of_map_range in Hkv. destruct K3 as [K3 _]. apply K3 in Ht. unfold labelled, labelled_map in Ht. congruence.
Qed.

(** ** Targets for children *)

Lemma getTargetClusterMap_keeps (st st' : store) (input : TargetClusters) (r : mapref) :
  getTargetClusterMap st input = Returns (st', r) -> valid st (tc_labels input) -> keeps st st' /\ valid st' r.
Proof.
  unfold getTargetClusterMap. intros H Hv.
  assert (K : exists s1 r1, (match tc_labels input with None => mmake st ∅ | Some _ => (st, tc_labels input) end) = (s1, r1) /\
    keeps st s1 /\ valid s1 r1).
  { destruct (tc_labels input) as [i|].
    - exists st, (Some i). split; [done|]. by split; [apply keeps_refl|].
    - exists (mmake st ∅).1, (mmake st ∅).2. split; [done|]. split; [apply keeps_mmake|]. simpl. rewrite length_app. simpl. lia. }
  destruct K as (s1 & r1 & E & K & Hr). rewrite E in H. destruct (bool_decide _); [by simplify_eq|].
  destruct (mwrite s1 r1 _ _) as [s2|] eqn:E2; simpl in H; [|done]. simplify_eq.
  assert (K2 : keeps s1 st') by (by eapply keeps_mwrite).
  split; [by eapply keeps_trans|by eapply keeps_valid].
Qed.

Lemma add_target_labelled (tc : TargetClusters) (st st' : store) (app app' : Application * list mapref) :
  add_target pid tc st app = Returns (st', app') -> valid st (tc_labels tc) -> all_labelled st app.2 ->
  keeps st st' /\ all_labelled st' app'.2.
Proof.
  unfold add_target. intros H Hv Hl.
  destruct (getTargetClusterMap st tc) as [[s1 r1]|] eqn:E1; simpl in H; [|done].
  destruct (getTargetClusterMap_keeps _ _ _ _ E1 Hv) as [K1 V1].
  destruct (bool_decide _); [|simplify_eq; split; [done|by eapply keeps_all]].
  destruct (getTargetClusterMap s1 tc) as [[s2 r2]|] eqn:E2; simpl in H; [|done].
  destruct (getTargetClusterMap_keeps _ _ _ _ E2 (keeps_valid _ _ _ K1 Hv)) as [K2 _].
  pose proof (keeps_trans _ _ _ K1 K2) as K12.
  destruct (_ && _); [|simplify_eq; split; [done|exact (keeps_all _ _ _ K12 Hl)]].
  destruct (mwrite s2 r1 ClusterOrchKeyProjectID pid) as [s3|] eqn:E3; simpl in H; [|done]. simplify_eq. simpl.
  assert (K3 : keeps s2 st') by (by eapply keeps_mwrite). pose proof (keeps_trans _ _ _ K12 K3).
  split; [done|]. apply Forall_app. split; [by apply (keeps_all st st')|]. constructor; [|done].
  eapply labelled_mwrite; [exact E3|]. by apply (keeps_valid s1 s2).
Qed.

Lemma load_apps_labelled (apps : list Application) (st : store) :
  Forall (fun a => confined_targets (app_targets a)) apps ->
  keeps st (load_apps st apps).1 /\ Forall (fun x => all_labelled (load_apps st apps).1 x.2) (load_apps st apps).2.
Proof.
  intros Happs. unfold load_apps.
  set (f := fun (s : store * list (Application * list mapref)) app => _).
  assert (H : forall acc, Forall (fun x => all_labelled acc.1 x.2) acc.2 ->
    keeps acc.1 (foldl f acc apps).1 /\ Forall (fun x => all_labelled (foldl f acc apps).1 x.2) (foldl f acc apps).2).
  { induction Happs as [|a apps Ha Happs IH]; intros acc Hacc; simpl; [split; [apply keeps_refl|done]|].
    destruct (load_labelled (app_targets a) acc.1 Ha) as [K L]. cbv zeta in K, L. fold (load_targets acc.1 (app_targets a)) in K, L.
    unfold f at 2 4 6. destruct (load_targets acc.1 (app_targets a)) as [s1 rs]. simpl in K, L.
    destruct (IH (s1, acc.2 ++ [(a, rs)])) as [K2 L2].
    - simpl. apply Forall_app. split; [|by constructor]. eapply Forall_impl; [exact Hacc|]. intros x. by apply keeps_all.
    - split; [by eapply keeps_trans|done]. }
  apply (H (st, [])). constructor.
Qed.

Lemma addTargetClusterEntry_confined (ts : list TargetClusters) (cr cr' : Types.Deployment) (st st' : store) :
  addTargetClusterEntry ts cr pid st = Returns (cr', st') -> Forall (fun tc => valid st (tc_labels tc)) ts -> confined cr ->
  keeps st st' /\ confined cr'.
Proof.
  unfold addTargetClusterEntry. intros H Hts Hcr.
  destruct (load_apps_labelled (sp_apps (d_spec cr)) st Hcr) as [K0 L0].
  destruct (load_apps st (sp_apps (d_spec cr))) as [s0 apps0]. simpl in K0, L0.
  match type of H with unless_panic ?m _ = _ => destruct m as [[s1 apps1]|] eqn:E; simpl in H; [|done] end. simplify_eq.
  set (I := fun r : store * list (Application * list mapref) => keeps st r.1 /\ Forall (fun x => all_labelled r.1 x.2) r.2).
  assert (HI : I (st', apps1)).
  { revert E. apply (mfold_invariant I); [|by split]. intros tc [s2 l2] [s3 l3] Htc [K2 L2] H. simpl in K2, L2, H.
    rewrite Forall_forall in Hts. pose proof (Hts tc Htc) as Hv. clear Hts Hcr Htc.
    assert (HI2 : forall l done_ s, I (s, done_) -> Forall (fun x => all_labelled s x.2) l ->
      forall r, mfold (fun (s' : store * list (Application * list mapref)) app =>
         unless_panic (add_target pid tc s'.1 app) (fun r => Returns (r.1, s'.2 ++ [r.2]))) (s, done_) l = Returns r -> I r).
    { induction l as [|app l IH]; intros done_ s [Ks Ls] Hl r Hr; simpl in Hr; [by simplify_eq|].
      apply Forall_cons in Hl as [Ha Hl]. destruct (add_target pid tc s app) as [[s4 app4]|] eqn:E4; simpl in Hr; [|done].
      destruct (add_target_labelled _ _ _ _ _ E4 (keeps_valid _ _ _ Ks Hv) Ha) as [K4 A4].
      eapply IH; [| |exact Hr].
      - split; [by eapply keeps_trans|]. apply Forall_app. split; [|by constructor].
        eapply Forall_impl; [exact Ls|]. intros x. by apply keeps_all.
      - eapply Forall_impl; [exact Hl|]. intros x. by apply keeps_all. }
    eapply (HI2 l2 [] s2); [split; [done|constructor]|done|exact H]. }
  destruct HI as [K L]. simpl in K, L. split; [done|]. unfold confined. simpl. apply Forall_map.
  eapply Forall_impl; [exact L|]. intros [app rs] Hrs. simpl. by apply all_labelled_read.
Qed.

Lemma confined_set_spec (f : DeploymentSpec -> DeploymentSpec) (d : Types.Deployment) :
  (forall sp, sp_apps (f sp) = sp_apps sp) -> confined d -> confined (set_spec f d).
Proof. intros Hf Hd. unfold confined. simpl. by rewrite Hf. Qed.

Lemma addRelationship_confined (b : Built num) (cr : Types.Deployment) :
  confined cr -> confined (addRelationshipToDeploymentCR b cr).
Proof. intros H. by apply confined_set_spec. Qed.
End Cr.

(** ** Propagation *)

Lemma unique_targets_confined (ts : list (gmap string string)) : confined_targets ts -> confined_targets (unique_targets ts).
Proof.
  intros H. unfold unique_targets. set (f := fun (acc : list (gmap string string) * gset string) target => _).
  assert (Hf : forall acc, confined_targets acc.1 -> confined_targets (foldl f acc ts).1).
  { induction H as [|t ts Ht Hts IH]; intros acc Hacc; simpl; [done|]. apply IH. unfold f. simpl. case_bool_decide; [done|].
    apply Forall_app. split; [done|by constructor]. }
  apply (Hf ([], ∅)). constructor.
Qed.

Lemma targeted_child_confined (us : list (gmap string string)) (a : Application) :
  confined_targets us -> confined_targets (app_targets a) -> confined_targets (app_targets (targeted_child_app us a).1).
Proof.
  intros Hus Ha. unfold targeted_child_app. simpl. set (f := fun (acc : list (gmap string string) * bool) newTarget => _).
  assert (Hf : forall acc, confined_targets acc.1 -> confined_targets (foldl f acc us).1).
  { induction Hus as [|t us Ht Hus IH]; intros acc Hacc; simpl; [done|]. apply IH. unfold f. destruct (existsb _ _); [done|].
    apply Forall_app. split; [done|by constructor]. }
  by apply (Hf (app_targets a, false)).
Qed.

(** What is known of the answers: the deployments of the cluster are confined, and
    a write returns a resource that is, if what was sent is.  And what is sent. *)
Definition confined_answer (e : neff) : nresp e -> Prop :=
  match e with
  | NListDeployments _ _ => fun r => match r with Ok ds => Forall confined ds | Err _ => True end
  | NGetDeployment _ _ => fun r => match r with Ok d => confined d | Err _ => True end
  | NCreateDeployment _ sent | NUpdateDeployment _ _ sent =>
      fun r => match r with Ok d => confined sent -> confined d | Err _ => True end
  | _ => fun _ => True
  end.

Definition confined_request (e : neff) : Prop :=
  match e with
  | NCreateDeployment _ d | NUpdateDeployment _ _ d => confined d
  | _ => True
  end.

Abbreviation sends := (nwp confined_answer confined_request).

Lemma sends_update_child (ns n : string) (change : Types.Deployment -> Types.Deployment * bool) :
  (forall d, confined d -> confined (change d).1) -> sends (fun _ => True) (update_child ns n change).
Proof.
  intros Hc. unfold update_child.
  apply (nwp_bind _ _ (fun r : res Types.Deployment => match r with Ok d => confined d | Err _ => True end)).
  { apply nwp_catch, nwp_rcall. split; [done|]. intros [d|e] Hd; done. }
  intros [d|e] Hd; [|by apply nwp_ok]. specialize (Hc d Hd). destruct (change d) as [d' [|]]; [|by apply nwp_ok].
  simpl in Hc. nwp_go.
Qed.

Lemma sends_propagate (local : bool) (parent : Types.Deployment) :
  confined parent -> sends (fun _ => True) (propagateTargetsToChildDeployments local parent).
Proof.
  intros Hp. unfold propagateTargetsToChildDeployments. apply nwp_nfold; [done|]. intros [] kv _ _. apply sends_update_child.
  intros d Hd. case_bool_decide.
  - unfold auto_scaling_child. unfold confined in Hp. destruct (sp_apps (d_spec parent)) as [|first apps] eqn:E; simpl.
    + unfold confined. simpl. exact Hd.
    + apply Forall_cons in Hp as [Hp _]. unfold confined. simpl. apply Forall_map, Forall_forall. intros a _. exact Hp.
  - simpl. unfold confined. simpl. rewrite map_map. apply Forall_map. eapply Forall_impl; [exact Hd|]. intros a Ha.
    apply targeted_child_confined; [|done]. apply unique_targets_confined. apply Forall_concat, Forall_map. exact Hp.
Qed.

(** ** Building *)

#[local] Instance sends_init : InitRequests confined_answer confined_request (fun _ => True) pid.
Proof. by split. Qed.

Section Build.
Context {num : Type} (num_of_int : Z -> num) (lookupenv : string -> option string).
Context (marshal_map : gmap string string -> res string) (marshal : option (value num) -> res string).
Context (json_to_yaml yaml_to_json : string -> res string).
Context (unmarshal_struct : string -> option (list (string * value num)) * option gerror) (Status_Err : gerror -> gerror).
Abbreviation Deployment := (Nbi.Deployment num).

(** The label maps of a request are in the store. *)
Definition request_valid (st : store) (inp : Request num) : Prop :=
  Forall (fun tc => valid st (tc_labels tc)) (in_targets inp) /\
  from_option (fun tc => valid st (tc_labels tc)) True (in_all_target inp).

Definition world_good (w : world num) : Prop := map_Forall (fun _ b => good (w_store w) (b_d b)) (w_deps w).

Lemma world_keeps (st : store) (w : world num) : keeps (w_store w) st -> world_good w -> world_good (set_store st w).
Proof. intros K Hw n b Hb. eapply keeps_good; [exact K|]. by apply (Hw n b). Qed.

Lemma sends_check_targets (typ : string) (ts : list TargetClusters) (st : store) :
  Forall (fun tc => valid st (tc_labels tc)) ts ->
  sends (fun r => keeps st r.1 /\ Forall (fun tc => labelled r.1 (tc_labels tc)) r.2) (check_targets typ pid ts st).
Proof.
  intros Hts. unfold check_targets. apply nwp_nfold; [split; [apply keeps_refl|constructor]|].
  intros [s1 l1] tc Hin [K L]. simpl in K, L |- *. rewrite Forall_forall in Hts.
  destruct (bool_decide _); [apply nwp_fail|]. destruct (check_target _ _ _); [apply nwp_fail|].
  apply (nwp_bind _ _ (fun r : store * TargetClusters => keeps s1 r.1 /\ labelled r.1 (tc_labels r.2))).
  - apply nwp_of_maypanic. intros [s2 tc2] E. simpl. eapply label_target_labelled; [exact E|]. by eapply keeps_valid, Hts.
  - intros [s2 tc2] [K2 L2]. simpl in K2, L2. apply nwp_ok. simpl. split; [by eapply keeps_trans|].
    apply Forall_app. split; [|by constructor]. eapply Forall_impl; [exact L|]. intros x Hx. by apply K2.
Qed.

Lemma sends_check_all (typ : string) (o : option TargetClusters) (st : store) :
  from_option (fun tc => valid st (tc_labels tc)) True o ->
  sends (fun r => keeps st r.1 /\ from_option (fun tc => labelled r.1 (tc_labels tc)) True r.2) (check_all_target typ pid o st).
Proof.
  intros Ho. unfold check_all_target. destruct o as [tc|]; [|apply nwp_ok; split; [apply keeps_refl|done]].
  destruct (check_target _ _ _); [apply nwp_fail|].
  apply (nwp_bind _ _ (fun r : store * TargetClusters => keeps st r.1 /\ labelled r.1 (tc_labels r.2))).
  - apply nwp_of_maypanic. intros [s2 tc2] E. simpl. by eapply label_target_labelled.
  - intros [s2 tc2] [K2 L2]. by apply nwp_ok.
Qed.

Lemma sends_complete (scenario : string) (inp : Request num) (typ : string) (dp : CatPackage)
    (helmApps : list catalogclient.HelmApp) (dflt : string) (overrides : list (OverrideValues num))
    (keys : gmap string (list string)) (targets : list TargetClusters) (all_target : option TargetClusters) (st : store) :
  typ = AutoScaling \/ typ = Targeted -> Forall (fun tc => labelled st (tc_labels tc)) targets ->
  from_option (fun tc => labelled st (tc_labels tc)) True all_target ->
  sends (fun r => keeps st r.2 /\ good r.2 r.1)
    (complete num_of_int marshal_map yaml_to_json unmarshal_struct scenario inp typ pid dp helmApps dflt overrides
       keys targets all_target st).
Proof.
  intros Hty Hts Hall. unfold complete. apply nwp_seq; [apply nwp_nfold; [done|]; intros; nwp_go|]. intros _.
  apply nwp_seq.
  { destruct (bool_decide (scenario = "update")); [|by apply nwp_ok].
    apply nwp_seq; [eapply nwp_true, (init_find_updated (IR := sends_init))|]. intros [name namespace].
    apply nwp_seq; [|intros ?; by apply nwp_ok].
    apply nwp_nfold; [done|]. intros ovs app _ _. by apply (init_unmask_app (IR := sends_init)). }
  intros [[[name deployID] namespace] ovs].
  apply (nwp_bind _ _ (fun r : Deployment * option gerror => n_type r.1 = typ /\ n_targets r.1 = targets)).
  { apply nwp_of_maypanic. intros [d err]. unfold checkParameterTemplate. simpl.
    destruct (mfold _ _ _) as [[[t secrets] e]|]; simpl; intros; by simplify_eq. }
  intros [d err] [Hd1 Hd2]. simpl in Hd1, Hd2. apply nwp_seq; [apply nwp_done; done|]. intros _.
  apply nwp_seq; [destruct (is_create scenario); [apply (init_name_new (IR := sends_init))|by apply nwp_ok]|]. intros [name' display].
  assert (Hg : good st (set_core name' display (if bool_decide (n_profile d = "") then dflt else n_profile d) (n_deploy_id d) pid d)).
  { unfold good. simpl. rewrite Hd1, Hd2. split; [done|]. eapply Forall_impl; [exact Hts|]. intros tc Htc. by left. }
  destruct all_target as [target|]; [|apply nwp_ok; split; [apply keeps_refl|done]].
  apply nwp_of_maypanic. intros [d' st'] H. simpl. by eapply merge_good.
Qed.

Lemma sends_addDep (build : Request num -> world num -> np (Built num * world num)) (d : Deployment) (typ : string)
    (targets : list TargetClusters) (w : world num) :
  (forall r w, request_valid (w_store w) r -> world_good w ->
     sends (fun bw => keeps (w_store w) (w_store bw.2) /\ good (w_store bw.2) (b_d bw.1) /\ world_good bw.2) (build r w)) ->
  good (w_store w) d -> Forall (fun tc => labelled (w_store w) (tc_labels tc)) targets -> world_good w ->
  sends (fun bw => keeps (w_store w) (w_store bw.2) /\ good (w_store bw.2) (b_d bw.1) /\ world_good bw.2)
    (addDepAndRelationships lookupenv build d typ targets pid w).
Proof.
  intros Hbuild Hd Hts Hw. unfold addDepAndRelationships.
  set (I := fun r : gmap string DeploymentPackageRef * gmap string Deployment * world num =>
    keeps (w_store w) (w_store r.2) /\ world_good r.2).
  apply (nwp_bind _ _ I).
  - apply nwp_nfold; [split; [apply keeps_refl|done]|]. intros s app _ Hs. apply nwp_nfold; [done|]. clear Hs.
    intros [[required children] w'] dep _ [K Hw']. simpl in K, Hw'. unfold add_dependent.
    apply nwp_seq; [apply (init_lookup (IR := sends_init))|]. intros [[depDP depApps] _].
    apply (nwp_bind _ _ (fun l => Forall (fun tc => labelled (w_store w') (tc_labels tc)) l)).
    { apply nwp_of_maypanic. intros l. unfold dep_targets.
      apply (mfold_invariant (fun l => Forall (fun tc => labelled (w_store w') (tc_labels tc)) l)); [|constructor].
      intros app' l1 l2 _ Hl1 E. destruct targets as [|t ts]; [done|]. simplify_eq. apply Forall_cons in Hts as [Ht _].
      apply Forall_app. split; [done|]. constructor; [|done]. simpl. by apply K. }
    intros depTargets Hdep.
    assert (Hnew : forall f (rq : gmap string DeploymentPackageRef), sends I
      (do! (b, w'') := map_err (fun e => mkErr KConflict ("failed to create child deployment: " +:+ e_msg e))
         (build (mkRequest (catalogclient.rq_name dep) (catalogclient.rq_version dep) (catalogclient.rq_profile dep)
                   "" "" typ "" [] [] depTargets None) w') in
       do! depDeployment := adopt_existing (n_namespace d) pid (catalogclient.GetID dep) f (b_d b) in
       ok (rq, <[n_name depDeployment := depDeployment]> children,
           mkWorld (<[n_name (b_d b) := mkBuilt depDeployment (b_children b)]> (w_deps w'')) (w_store w'')))).
    { intros f rq. eapply nwp_bind; [apply nwp_map_err, Hbuild; [|done]|].
      - split; [|done]. eapply Forall_impl; [exact Hdep|]. intros tc. apply labelled_valid.
      - intros [b w''] (K2 & Hb & Hw''). simpl in K2, Hb, Hw''.
        apply (nwp_bind _ _ (fun dd : Deployment => good (w_store w'') dd)).
        + unfold adopt_existing, getDeploymentCRWithDeploymentPackage. destruct f; [|by apply nwp_ok].
          apply nwp_seq; [nwp_go|]. intros [|cr [|? ?]]; [by apply nwp_ok|by apply nwp_ok|apply nwp_fail].
        + intros dd Hdd. apply nwp_ok. split; simpl; [by eapply keeps_trans|]. by apply map_Forall_insert_2. }
    destruct (getDeploymentWithDeploymentPackage _ _) as [[k known]|]; destruct (cpk_forbids depDP); try apply Hnew. by apply nwp_ok.
  - intros [[required children] w'] [K Hw']. simpl in K, Hw'. apply nwp_ok. simpl. split_and!; try done. eapply keeps_good; [exact K|]. exact Hd.
Qed.

Lemma sends_initDeployment (room : nat) (scenario : string) (inp : Request num) (w : world num) :
  request_valid (w_store w) inp -> world_good w ->
  sends (fun bw => keeps (w_store w) (w_store bw.2) /\ good (w_store bw.2) (b_d bw.1) /\ world_good bw.2)
    (initDeployment num_of_int lookupenv marshal_map yaml_to_json unmarshal_struct Status_Err room scenario inp w pid).
Proof.
  revert scenario inp w. induction room as [|room IH]; intros scenario inp w [Hv1 Hv2] Hw; simpl; [done|].
  destruct (_ && _); [apply nwp_fail|].
  eapply nwp_bind; [by apply sends_check_targets|]. intros [s1 targets] [K1 L1]. simpl in K1, L1.
  eapply nwp_bind; [apply sends_check_all|].
  { destruct (in_all_target inp); [|done]. simpl in *. by eapply keeps_valid. }
  intros [s2 all_target] [K2 L2]. simpl in K2, L2.
  apply nwp_seq; [apply nwp_nfold; [done|]; intros; nwp_go|]. intros [overrides keys].
  apply nwp_seq; [apply nwp_map_err, (init_lookup (IR := sends_init))|]. intros [[dp apps] dflt].
  eapply nwp_bind; [apply sends_complete; [| |exact L2]|].
  - unfold deploymentType. repeat case_bool_decide; auto.
  - eapply Forall_impl; [exact L1|]. intros tc. apply K2.
  - intros [d s3] [K3 Hg]. simpl in K3, Hg. apply nwp_map_err.
    pose proof (keeps_trans _ _ _ K1 (keeps_trans _ _ _ K2 K3)) as K.
    eapply nwp_mono; [|apply (sends_addDep _ _ _ _ (set_store s3 w)); [intros r w' Hr Hw'; by apply IH|done| |by apply world_keeps]].
    + intros bw (K4 & Hb & Hw4). split_and!; try done. eapply keeps_trans; [exact K|exact K4].
    + eapply Forall_impl; [exact L1|]. intros tc Htc. by apply K3, K2.
Qed.
End Build.
End Confined.
