(* ===== verification/ConfinedService.v ===== *)
(** * Targets are confined to the project: the methods of the service

    The lemmas of [ConfinedFacts], put together for every method. *)

From S2P Require Import Prelude Prog GoStr Types Utils Pb ClusterTypes DataSelect PbStruct Nbi GoMonad NbEff Env Templates Targets.
From S2P Require Import Catalog Secrets Dependency InitDeployment Queries QueriesFacts Handlers Service DataSelectFacts NbSamples ConfinedFacts.

Section Confined.
Context {MR : MapRange} {ML : MapRangeLaws MR} (pid : string).
Context {num : Type} (num_of_int : Z -> num) (lookupenv : string -> option string).
Context (marshal_map : gmap string string -> res string) (marshal : option (value num) -> res string).
Context (json_to_yaml yaml_to_json : string -> res string).
Context (unmarshal_struct : string -> option (list (string * value num)) * option gerror) (Status_Err : gerror -> gerror).
Context (parse_rfc3339 : string -> option Z) {G : GoRegexp} {S : GoSort}.
Context (s : DeploymentSvc) (ctx : context) (Hproject : GetActiveProjectID s ctx = Ok pid).
Context (room : nat) (print_map : gmap string string -> string).
Abbreviation Deployment := (Nbi.Deployment num).
Abbreviation sends := (nwp (confined_answer pid) (confined_request pid)).
Abbreviation confined := (ConfinedFacts.confined pid).
Abbreviation good := (ConfinedFacts.good pid).
Abbreviation keeps := (ConfinedFacts.keeps pid).

(** ** The start of a handler *)

Lemma sends_checks (request what : string) : sends (fun p => p = pid) (checks Status_Err s ctx request what).
Proof.
  unfold checks. apply nwp_seq; [unfold validate; nwp_go|]. intros _.
  apply nwp_seq; [unfold authorize, AuthCheckAllowed; nwp_go|]. intros _.
  unfold active_project. apply nwp_map_err, nwp_done. rewrite Hproject. intros p Hp. by simplify_eq.
Qed.

Lemma sends_checked {A : Type} (Q : A -> Prop) (request what : string) (f : string -> np A) :
  sends Q (f pid) -> sends Q (do! p := checks Status_Err s ctx request what in f p).
Proof. intros H. eapply nwp_bind; [apply sends_checks|]. intros p ->. done. Qed.

Lemma sends_matched (UID ns : string) (labels : gmap string string) : sends confined (matchUIDDeployment UID ns labels).
Proof.
  unfold matchUIDDeployment. apply (nwp_bind _ _ (Forall confined)).
  - apply nwp_map_err, nwp_rcall. split; [done|]. intros [ds|e] H; done.
  - intros ds Hds. apply nwp_ok. destruct (find_first _ ds) as [d|] eqn:E; simpl; [|constructor].
    apply find_first_Some in E as [Hin _]. rewrite Forall_forall in Hds. by apply Hds.
Qed.

(** ** Secrets leave the targets alone *)

Definition same_spec (d d' : Deployment) : Prop := n_type d' = n_type d /\ n_targets d' = n_targets d.

Lemma same_good (st : store) (d d' : Deployment) : same_spec d d' -> good st d -> good st d'.
Proof. intros [H1 H2] [G1 G2]. split; rewrite ?H1, ?H2; done. Qed.

Lemma sends_CreateSecret (ns n : string) (data : gmap string string) (b : bool) :
  sends (fun _ => True) (CreateSecret ns n data b).
Proof. unfold CreateSecret. nwp_go. Qed.

Lemma sends_configureRsProxy (ns rb remote : string) : sends (fun _ => True) (configureRsProxy ns rb remote).
Proof. unfold configureRsProxy, UpdateNsLabels, CreateRoleBinding. nwp_go. Qed.
#[local] Hint Resolve sends_CreateSecret sends_configureRsProxy : nwp.

Lemma sends_app_secrets (d0 : Deployment) (o om : gmap string string) (s' : Deployment * string * bool)
    (app : catalogclient.HelmApp) :
  same_spec d0 s'.1.1 -> sends (fun s => same_spec d0 s.1.1) (create_app_secrets lookupenv json_to_yaml o om s' app).
Proof.
  destruct s' as [[d cm] rs]. simpl. intros Hd. unfold create_app_secrets.
  apply (nwp_bind _ _ (same_spec d0)); [unfold create_profile_secret; nwp_go|]. clear dependent d. intros d Hd.
  apply (nwp_bind _ _ (same_spec d0)); [unfold create_overrides_secret; nwp_go|]. clear dependent d. intros d Hd.
  apply (nwp_bind _ _ (same_spec d0)); [unfold create_repo_secret; nwp_go|]. clear dependent d. intros d Hd.
  apply (nwp_bind _ _ (same_spec d0)); [unfold create_image_secret; nwp_go|]. clear dependent d. intros d Hd.
  apply nwp_seq; [unfold create_template_secrets; nwp_go|]. intros cm'. nwp_go.
Qed.

Lemma sends_createSecrets (d : Deployment) : sends (same_spec d) (createSecrets lookupenv marshal json_to_yaml d).
Proof.
  unfold createSecrets. destruct (json_overrides marshal (n_masked d)) as [om cm].
  apply (nwp_bind _ _ (fun s' : Deployment * string * bool => same_spec d s'.1.1)); [|by intros; apply nwp_ok].
  apply nwp_nfold; [done|]. intros s' x _ Hs. by apply sends_app_secrets.
Qed.

Lemma sends_updateOwnerRefSecrets (d : Deployment) : sends (fun _ => True) (updateOwnerRefSecrets d).
Proof.
  unfold updateOwnerRefSecrets. apply nwp_nfold; [done|]. intros [] app _ _.
  unfold own_app_secrets, own_named, updateOwnerRefSecret. nwp_go.
Qed.

Lemma sends_deleteSecrets (deployment : Types.Deployment) : sends (fun _ => True) (deleteSecrets lookupenv deployment).
Proof.
  unfold deleteSecrets. apply nwp_nfold; [done|]. intros [] app _ _.
  unfold delete_app_secrets, delete_secret_quiet, DeleteSecret. nwp_go.
Qed.

Lemma sends_createGitClientSecret (d : Deployment) : sends (fun _ => True) (createGitClientSecret lookupenv d).
Proof.
  unfold createGitClientSecret, GetSecretValue. nwp_go.
  - apply nwp_done. done.
  - unfold with_vault. nwp_go. split; [done|]. intros r _. apply nwp_done. done.
Qed.

(** ** Resources written *)

Lemma sends_make_cr (d : Deployment) (scenario rv : string) (existing : option Types.Deployment) (st : store) :
  good st d -> from_option confined True existing ->
  sends (fun r => confined r.1.1 /\ keeps st r.2 /\ good r.2 r.1.2) (make_cr lookupenv Status_Err d scenario rv existing st).
Proof.
  intros Hd Hex. unfold make_cr.
  eapply (nwp_bind _ _ (fun x : res Types.Deployment * Deployment * store =>
    keeps st x.2 /\ good x.2 x.1.2 /\ match x.1.1 with Ok cr => confined cr | Err _ => True end)).
  - apply nwp_of_maypanic. intros [[r d'] st'] H. simpl.
    destruct (createDeploymentCr_keeps pid _ _ _ _ _ _ _ _ _ H Hd Hex) as (K & H1 & H2). split_and!; [done| |].
    + eapply same_good; [split; [exact H1|exact H2]|]. by eapply keeps_good.
    + destruct r as [cr|e]; [|done]. by destruct (createDeploymentCr_confined pid _ _ _ _ _ _ _ _ _ H Hd Hex).
  - intros [[r d'] st'] (K & Hg & Hc). simpl in K, Hg, Hc.
    eapply (nwp_bind _ _ (fun cr => r = Ok cr)); [apply nwp_map_err, nwp_done; done|]. intros cr ->. by apply nwp_ok.
Qed.

Lemma sends_write (p : nprog (res Types.Deployment)) :
  wp (confined_answer pid) (confined_request pid) (fun r => match r with Ok d => confined d | Err _ => True end) p ->
  sends confined (k8s Status_Err (rcall p)).
Proof. intros H. by apply nwp_map_err, nwp_rcall. Qed.

Lemma sends_create_new (ns : string) (b : Built num) (st : store) :
  good st (b_d b) ->
  sends (fun r => confined r.1.1.2 /\ keeps st r.2) (create_new lookupenv marshal json_to_yaml Status_Err ns b st).
Proof.
  intros Hb. unfold create_new. eapply nwp_bind; [apply nwp_map_err, sends_createSecrets|]. intros d Hd.
  eapply nwp_bind; [apply sends_make_cr; [by eapply same_good|done]|]. intros [[cr d'] st'] (Hcr & K & Hd'). cbv zeta.
  simpl in Hcr, K. apply (nwp_bind _ _ confined).
  { apply sends_write. split; [by apply addRelationship_confined|]. by intros [x|] Hx; [apply Hx|]. }
  intros deploymentCR HCR. apply nwp_seq; [apply nwp_map_err, sends_updateOwnerRefSecrets|]. intros _. by apply nwp_ok.
Qed.

Lemma target_valid (typ : string) (st : store) (tc : TargetClusters) : target_ok pid typ st tc -> valid st (tc_labels tc).
Proof. intros [H|[-> _]]; [by eapply labelled_valid|done]. Qed.

Lemma sends_update_existing (ns : string) (b : Built num) (st : store) :
  good st (b_d b) -> sends (fun st' => keeps st st') (update_existing Status_Err ns pid b st).
Proof.
  intros [_ Hts]. unfold update_existing. apply (nwp_bind _ _ confined).
  { apply sends_write. split; [done|]. by intros [x|] Hx; [apply Hx|]. }
  intros cr Hcr. cbv zeta. apply (nwp_bind _ _ (fun r : Types.Deployment * store => keeps st r.2 /\ confined r.1)).
  { apply nwp_of_maypanic. intros [cr' st'] H. eapply addTargetClusterEntry_confined; [exact H| |by apply addRelationship_confined].
    eapply Forall_impl; [exact Hts|]. intros tc. apply target_valid. }
  intros [cr' st'] [K Hcr']. simpl in K, Hcr'. apply nwp_seq; [|intros; by apply nwp_ok].
  eapply nwp_true, sends_write. split; [exact Hcr'|]. by intros [x|] Hx; [apply Hx|].
Qed.

Lemma sends_createDeploymentObject (d : Types.Deployment) (dcs : option (list DeploymentCluster)) (filters : list string) :
  sends (fun _ => True) (createDeploymentObject yaml_to_json unmarshal_struct d dcs filters).
Proof.
  unfold createDeploymentObject, read_overrides, GetSecretValue. destruct (_ && _); [by apply nwp_ok|].
  apply nwp_seq; [apply nwp_nfold; [done|]; intros; nwp_go|]. intros labels.
  apply nwp_seq; [|intros; by apply nwp_ok]. apply nwp_nfold; [done|]. intros; nwp_go.
Qed.

(** ** The methods *)

(** The label maps of the requests are in the store. *)
Definition rpc_valid (r : rpc num) : Prop :=
  match r with
  | RpcCreateDeployment (Some inp) st | RpcUpdateDeployment _ (Some inp) st => request_valid st inp
  | _ => True
  end.

Lemma sends_Create (deployment : option (Request num)) (st : store) :
  from_option (request_valid st) True deployment ->
  sends (fun _ => True) (CreateDeployment num_of_int lookupenv marshal_map marshal json_to_yaml yaml_to_json
    unmarshal_struct Status_Err s ctx room deployment st).
Proof.
  intros Hv. unfold CreateDeployment. destruct deployment as [inp|]; [|apply nwp_fail]. apply sends_checked.
  apply nwp_seq; [unfold typed, AddToOutgoingContext; nwp_go|]. intros _.
  eapply nwp_bind; [apply nwp_map_err, sends_initDeployment; [exact Hv|apply map_Forall_empty]|].
  intros [b w] (_ & Hb & Hw). simpl in Hb, Hw. cbv zeta.
  apply nwp_seq; [apply nwp_map_err, sends_createGitClientSecret|]. intros _.
  apply (nwp_bind _ _ (fun st' => keeps (w_store w) st')).
  { apply nwp_nfold; [apply keeps_refl|]. intros st' [k v] Hin K. unfold create_dependent.
    apply elem_of_map_range in Hin. pose proof (keeps_good _ _ _ _ K (Hw k v Hin)) as Hg. simpl. destruct (negb _).
    - eapply nwp_mono; [|by apply sends_update_existing]. intros st''. by apply keeps_trans.
    - eapply nwp_bind; [by apply sends_create_new|]. intros r [_ K2]. apply nwp_ok. by eapply keeps_trans. }
  intros st' K. apply nwp_seq; [unfold typed, getDeploymentCRWithDeploymentPackage; nwp_go|]. intros crs.
  destruct (find_first _ crs); [apply nwp_fail|].
  eapply nwp_bind; [apply sends_create_new; by eapply keeps_good|]. intros [[[ci cr] b'] st''] [Hcr _]. simpl in Hcr.
  apply nwp_seq; [|intros; by apply nwp_ok]. case_bool_decide; [by apply nwp_ok|]. by apply sends_propagate.
Qed.

Lemma sends_Delete (deplId : string) (ty : DeleteType) :
  sends (fun _ => True) (DeleteDeployment lookupenv Status_Err s ctx deplId ty).
Proof.
  unfold DeleteDeployment. destruct (bool_decide (deplId = "")); [apply nwp_fail|]. apply sends_checked.
  apply nwp_seq; [eapply nwp_true, nwp_map_err, sends_matched|]. intros d. cbv zeta.
  destruct (bool_decide _); [apply nwp_fail|]. destruct (negb _); [apply nwp_fail|]. destruct ty.
  - apply nwp_seq; [unfold k8s; nwp_go|]. intros _. apply nwp_seq; [|intros; by apply nwp_ok].
    apply nwp_catch_true, sends_deleteSecrets.
  - unfold delete_graph. apply nwp_seq; [unfold k8s, ListDeployments_; nwp_go|]. intros ds.
    apply nwp_seq; [by apply nwp_map_err, nwp_done|]. intros tl. apply nwp_seq; [by apply nwp_of_maypanic|]. intros valid.
    destruct (negb valid); [apply nwp_fail|]. apply nwp_nfold; [done|]. intros. unfold k8s. nwp_go.
Qed.

Lemma sends_replace (d : Deployment) (deployment : Types.Deployment) (st : store) :
  good st d -> confined deployment ->
  sends (fun _ => True) (replace lookupenv marshal json_to_yaml Status_Err d deployment st).
Proof.
  intros Hd Hdep. unfold replace. apply nwp_seq; [apply nwp_map_err, sends_deleteSecrets|]. intros _.
  eapply nwp_bind; [apply nwp_map_err, sends_createSecrets|]. intros d1 Hd1.
  eapply nwp_bind; [apply sends_make_cr; [by eapply same_good|exact Hdep]|]. intros [[cr d2] st2] (Hcr & _ & _). cbv zeta.
  simpl in Hcr. assert (Hui : confined (set_spec (with_children (sp_children (d_spec deployment))) cr)).
  { by apply confined_set_spec. }
  apply nwp_seq; [eapply nwp_true, sends_write; split; [exact Hui|by intros [x|] Hx; [apply Hx|]]|]. intros updated.
  apply nwp_seq; [|intros _; by apply nwp_ok]. case_bool_decide; [by apply nwp_ok|]. by apply sends_propagate.
Qed.

Lemma sends_Update (deplId : string) (deployment : option (Request num)) (st : store) :
  from_option (request_valid st) True deployment ->
  sends (fun _ => True) (UpdateDeployment num_of_int lookupenv marshal_map marshal json_to_yaml yaml_to_json
    unmarshal_struct Status_Err s ctx room print_map deplId deployment st).
Proof.
  intros Hv. unfold UpdateDeployment. destruct deployment as [inp|]; [|apply nwp_fail].
  destruct (bool_decide (deplId = "")); [apply nwp_fail|]. apply sends_checked.
  apply nwp_seq; [unfold typed, AddToOutgoingContext; nwp_go|]. intros _.
  eapply nwp_bind; [apply nwp_map_err, sends_initDeployment; [exact Hv|apply map_Forall_empty]|].
  intros [b w] (_ & Hb & _). simpl in Hb. cbv zeta.
  eapply nwp_bind; [apply nwp_map_err, sends_matched|]. intros d Hd.
  destruct (bool_decide _); [apply nwp_fail|]. destruct (bool_decide _); [apply nwp_fail|].
  repeat (destruct (negb _); [apply nwp_fail|]). apply nwp_seq; [by apply sends_replace|]. intros [updated d'].
  apply nwp_seq; [apply nwp_map_err, sends_updateOwnerRefSecrets|]. intros _. apply sends_createDeploymentObject.
Qed.

Lemma sends_select {A : Type} (r : res (option A)) (f : gerror -> gerror) : sends (fun _ => True) (select_or_panic r f).
Proof. unfold select_or_panic. nwp_go. Qed.

Lemma sends_queryFilter (ds : list Types.Deployment) (dcs : list DeploymentCluster) (labels : list string) :
  sends (fun _ => True) (queryFilter yaml_to_json unmarshal_struct ds dcs labels).
Proof.
  unfold queryFilter. apply nwp_nfold; [done|]. intros acc d _ _.
  apply nwp_seq; [|intros; by apply nwp_ok]. apply sends_createDeploymentObject.
Qed.
#[local] Hint Resolve sends_select sends_queryFilter sends_createDeploymentObject sends_matched : nwp.

Lemma sends_reads (r : rpc num) :
  match r with RpcCreateDeployment _ _ | RpcUpdateDeployment _ _ _ | RpcDeleteDeployment _ _ => False | _ => True end ->
  sends (fun _ => True) (serve num_of_int lookupenv marshal_map marshal json_to_yaml yaml_to_json unmarshal_struct Status_Err
    parse_rfc3339 s room print_map ctx r).
Proof.
  assert (Hm : forall U ns l, sends (fun _ => True) (typed Status_Err (matchUIDDeployment U ns l))).
  { intros. eapply nwp_true, nwp_map_err, sends_matched. }
  destruct r; try done; intros _; simpl; unfold reply_of; (apply nwp_seq; [|intros; by apply nwp_ok]).
  - unfold GetDeployment. destruct (bool_decide _); [apply nwp_fail|]. apply sends_checked.
    apply nwp_seq; [apply Hm|]. intros d. destruct (bool_decide _); [apply nwp_fail|].
    apply nwp_seq; [unfold ListDeploymentClusters_, typed, k8s; nwp_go|]. intros dcs. apply sends_createDeploymentObject.
  - unfold ListDeployments. apply sends_checked. unfold ListDeployments_, k8s.
    apply nwp_seq; [nwp_go|]. intros ds. apply nwp_seq; [apply sends_queryFilter|]. intros l.
    apply nwp_seq; [apply sends_select|]. intros; by apply nwp_ok.
  - unfold GetDeploymentsStatus. apply sends_checked. unfold ListDeployments_, ListDeploymentClusters_, k8s.
    apply nwp_seq; [nwp_go|]. intros ds. apply nwp_seq; [nwp_go|]. intros dcs.
    apply nwp_seq; [apply sends_queryFilter|]. intros; by apply nwp_ok.
  - unfold ListDeploymentsPerCluster. apply nwp_seq; [unfold validate; nwp_go|]. intros _.
    apply nwp_seq; [unfold authorize, AuthCheckAllowed; nwp_go|]. intros _. destruct (bool_decide _); [apply nwp_fail|].
    apply nwp_seq; [unfold active_project; by apply nwp_map_err, nwp_done|]. intros p.
    unfold ListDeployments_, ListDeploymentClusters_, k8s. nwp_go.
  - unfold ListDeploymentClusters. destruct (bool_decide _); [apply nwp_fail|]. apply sends_checked.
    apply nwp_seq; [apply Hm|]. intros d. destruct (bool_decide _); [apply nwp_fail|].
    apply nwp_seq; [unfold ListDeploymentClusters_, typed, k8s; nwp_go|]. intros dcs.
    apply nwp_seq; [apply sends_select|]. intros; by apply nwp_ok.
  - unfold GetAppNamespace. apply nwp_seq; [unfold validate; nwp_go|]. intros _.
    apply nwp_seq; [unfold active_project; by apply nwp_map_err, nwp_done|]. intros p. unfold k8s. nwp_go.
  - unfold GetKubeConfig. destruct (bool_decide _); [apply nwp_fail|]. apply nwp_seq; [unfold validate; nwp_go|]. intros _.
    apply nwp_seq; [unfold AuthCheckAllowed; nwp_go|]. intros _.
    apply nwp_seq; [unfold active_project; by apply nwp_map_err, nwp_done|]. intros p.
    apply nwp_seq; [unfold k8s; nwp_go|]. intros c.
    apply nwp_seq; [apply nwp_map_err; unfold GetSecretValue; nwp_go|]. intros; by apply nwp_ok.
  - unfold ListClusters. apply sends_checked. apply nwp_seq; [unfold k8s; nwp_go|]. intros cs.
    apply nwp_seq; [apply sends_select|]. intros; by apply nwp_ok.
  - unfold GetCluster. destruct (bool_decide _); [apply nwp_fail|]. apply sends_checked.
    apply nwp_seq; [unfold ListDeploymentClusters_, typed, k8s; nwp_go|]. intros dcs.
    destruct (map _ dcs); [apply nwp_fail|by apply nwp_ok].
Qed.

(** C2: Every target of every resource a method of the service creates or updates
    selects on the label of the caller's project, whatever labels the request
    asked for, if the deployments that the cluster holds have only such
    targets: the confinement of targets to their project is an invariant of the
    service. *)
Theorem targets_confined (r : rpc num) (t : list nevent) (o : outcome (reply (num := num))) :
  rpc_valid r ->
  traces (serve num_of_int lookupenv marshal_map marshal json_to_yaml yaml_to_json unmarshal_struct Status_Err
    parse_rfc3339 s room print_map ctx r) t o ->
  Forall (fun x : nevent => confined_answer pid (projT1 x) (projT2 x)) t ->
  Forall (fun x : nevent => confined_request pid (projT1 x)) t.
Proof.
  intros Hv Ht HK. assert (H : sends (fun _ => True) (serve num_of_int lookupenv marshal_map marshal json_to_yaml
    yaml_to_json unmarshal_struct Status_Err parse_rfc3339 s room print_map ctx r)); [|by destruct (nwp_traces _ _ _ _ _ _ H Ht HK)].
  destruct r as [d st|id d st|id ty| | | | | | | | |]; try (by apply sends_reads);
    simpl; unfold reply_of; (apply nwp_seq; [|intros; by apply nwp_ok]).
  - apply sends_Create. by destruct d.
  - apply sends_Update. by destruct d.
  - apply sends_Delete.
Qed.
End Confined.

(** The sample cluster keeps what it is sent. *)
Lemma nb_confined (pid : string) (w : nb_world) (e : neff) :
  Forall (confined pid) (nw_deployments w) -> confined_answer pid e (nb_answer w e).
Proof.
  intros Hw. rewrite Forall_forall in Hw. destruct e; try done; simpl; try (intros Hd; exact Hd).
  - apply nb_listed. intros d Hd _. by apply Hw.
  - destruct (find_first _ _) as [d|] eqn:E; [|done]. apply find_first_Some in E as [Hd _]. simpl. by apply (Hw d).
Qed.

(** The target of the request asks for a label only; what is created asks for
    the project, too. *)
Lemma targets_confined_witness :
  nb_result nb_sample (sample_serve sample_svc sample_create_rpc) = Done (Ok (ReDeploymentId "uid-deployment-1")) /\
  Forall (fun x : nevent => confined_request "p1" (projT1 x)) (nb_log nb_sample (sample_serve sample_svc sample_create_rpc)).
Proof.
  split; [vm_compute; reflexivity|].
  eapply (targets_confined "p1" (fun z => z) (fun _ => None) (fun _ => Ok "{}") (fun _ => Ok "{}") Ok Ok (fun _ => (None, None))
    (fun e => e) (fun _ => None) sample_svc sample_ctx eq_refl 3 (fun _ => "") sample_create_rpc).
  - vm_compute. repeat constructor.
  - apply (nb_traces nb_sample (sample_serve sample_svc sample_create_rpc)). reflexivity.
  - apply nb_answers. intros n e. apply nb_confined. repeat constructor.
Defined.
