(* ===== verification/Termination.v ===== *)
(** * Building ends where the catalog has no cycles

    [initDeployment] calls itself for every package that is required.  The
    code sets no bound; the recursion ends when the catalog's requirements are
    well founded, and a bound on the room it needs is the rank of the package. *)

From S2P Require Import Prelude Prog GoStr Types PbStruct Nbi GoMonad NbEff Env Catalog Secrets Dependency InitDeployment InitFacts.
From S2P Require Import Handlers Service DataSelectFacts NbSamples.
Import catalogclient.

(** A package, or an application, by name and version. *)
Abbreviation key := (string * string)%type.

(** What a catalog holds: the applications of a package, and the packages an
    application requires in any of its profiles. *)
Class CatalogGraph : Type := {
  has_app : key -> key -> Prop;
  requires : key -> key -> Prop
}.

(** The catalog answers by that graph. *)
Definition catalogued `{CatalogGraph} (e : neff) : nresp e -> Prop :=
  match e with
  | NCatPackage n v => fun r => match r with Ok (Some p) => forall a, a ∈ cpk_apps p -> has_app (n, v) a | _ => True end
  | NCatApp n v => fun r => match r with
      | Ok (Some a) => forall p q, p ∈ cap_profiles a -> q ∈ cpr_requirements p -> requires (n, v) (rq_name q, rq_version q)
      | _ => True
      end
  | _ => fun _ => True
  end.

(** Every required package has a smaller rank. *)
Definition ranked `{CatalogGraph} (rank : key -> nat) : Prop :=
  forall p a q, has_app p a -> requires a q -> (rank q < rank p)%nat.

Section Termination.
Context `{CG : CatalogGraph} (rank : key -> nat) (Hrank : ranked rank).
Abbreviation ends := (nwps False catalogued (fun _ => True)).

Lemma ends_init_requests (pid : string) : InitRequests catalogued (fun _ => True) (fun _ => True) pid.
Proof. by split. Qed.
#[local] Existing Instance ends_init_requests.

(** ** What an application requires *)

(** The packages an application of the list requires have a rank below [n]. *)
Definition below (n : nat) (app : HelmApp) : Prop := forall q, q ∈ h_required app -> (rank (rq_name q, rq_version q) < n)%nat.

Lemma ends_template (n : nat) (name : string) (ha : HelmApp) (pt : CatTemplate) :
  below n ha -> ends (below n) (lookup_template name ha pt).
Proof. intros H. unfold lookup_template. nwp_go. Qed.

Lemma ends_required (n : nat) (ha : HelmApp) (q : RequiredDeploymentPackage) :
  (rank (rq_name q, rq_version q) < n)%nat -> below n ha -> ends (below n) (lookup_required ha q).
Proof.
  intros Hq H. unfold lookup_required. apply nwp_seq; [nwp_go|]. intros response.
  apply nwp_seq; [unfold deref; nwp_go|]. intros name. apply nwp_ok.
  intros q' [Hq'|Hq']%elem_of_app; [by apply H|]. apply list_elem_of_singleton in Hq' as ->. exact Hq.
Qed.

Lemma ends_profile (n : nat) (name profile : string) (ha : HelmApp) (p : CatProfile) :
  (forall q, q ∈ cpr_requirements p -> (rank (rq_name q, rq_version q) < n)%nat) ->
  below n ha -> ends (below n) (lookup_profile name profile ha p).
Proof.
  intros Hp H. unfold lookup_profile. case_bool_decide; [|by apply nwp_ok].
  eapply nwp_bind; [apply nwp_nfold; [exact H|]; intros; by apply ends_template|]. intros ha' H'.
  apply nwp_nfold; [done|]. intros ha'' q Hq H''. by apply ends_required; [apply Hp|].
Qed.

Lemma ends_app (getenv : string -> string) (p : key) (dp : CatPackage) (cp : gmap string string) (a : key) :
  has_app p a -> ends (below (rank p)) (lookup_app getenv dp cp a).
Proof.
  intros Ha. unfold lookup_app.
  apply (nwp_bind _ _ (fun o : option CatApp => match o with
    | Some app => forall pr q, pr ∈ cap_profiles app -> q ∈ cpr_requirements pr -> requires a (rq_name q, rq_version q)
    | None => True end)).
  { apply nwp_rcall. split; [done|]. intros [[app|]|e] Hr; [|done|done]. simpl in *. by destruct a. }
  intros o Ho. apply (nwp_bind _ _ (fun app => o = Some app)); [destruct o; [by apply nwp_ok|apply nwp_panic]|].
  intros app ->. apply nwp_seq; [nwp_go|]. intros hr. apply nwp_seq; [nwp_go|]. intros ir. cbv zeta.
  apply nwp_seq; [unfold deref; nwp_go|]. intros hr'.
  apply nwp_nfold; [intros q Hq; by apply elem_of_nil in Hq|]. intros ha pr Hpr H.
  apply ends_profile; [|done]. intros q Hq. eapply Hrank; [exact Ha|]. by apply (Ho pr).
Qed.

Lemma ends_lookup (getenv : string -> string) (n v profile : string) :
  ends (fun x => Forall (below (rank (n, v))) x.1.2) (CatalogLookupDPAndHelmApps getenv n v profile).
Proof.
  unfold CatalogLookupDPAndHelmApps.
  apply (nwp_bind _ _ (fun o : option CatPackage => match o with
    | Some p => forall a, a ∈ cpk_apps p -> has_app (n, v) a | None => True end)).
  { apply nwp_map_err, nwp_rcall. split; [done|]. by intros [[p|]|e] Hr. }
  intros o Ho. apply (nwp_bind _ _ (fun p => o = Some p)); [destruct o; [by apply nwp_ok|apply nwp_panic]|].
  intros p ->. cbv zeta. destruct (_ && bool_decide (getProfileMap _ _ = ∅)); [apply nwp_fail|].
  eapply nwp_bind; [apply (nwp_nfold _ _ (Forall (below (rank (n, v))))); [constructor|]|].
  - intros l a Ha Hl. eapply nwp_bind; [apply ends_app, Ho, Ha|]. intros ha Hha. apply nwp_ok.
    apply Forall_app. split; [done|by constructor].
  - intros l Hl. by apply nwp_ok.
Qed.

(** ** The whole *)

Section Init.
Context {MR : MapRange} {ML : MapRangeLaws MR} {num : Type} (num_of_int : Z -> num) (lookupenv : string -> option string).
Context (marshal_map : gmap string string -> res string) (yaml_to_json : string -> res string).
Context (unmarshal_struct : string -> option (list (string * value num)) * option gerror) (Status_Err : gerror -> gerror).
Abbreviation init := (initDeployment num_of_int lookupenv marshal_map yaml_to_json unmarshal_struct Status_Err).

(** C23: The recursion that builds a deployment with its dependents ends if the
    catalog's requirements are well founded: with room on the stack for more
    nested calls than the rank of the package, whatever everything else
    answers, [initDeployment] never runs out of it.  The code has no bound of
    its own. *)
Theorem building_ends (room : nat) (scenario : string) (inp : Request num) (st : store) (pid : string) (t : list nevent)
    (o : outcome (Built num * world num)) :
  (rank (in_app_name inp, in_app_version inp) < room)%nat ->
  traces (init room scenario inp (mkWorld ∅ st) pid) t o ->
  Forall (fun x : nevent => catalogued (projT1 x) (projT2 x)) t -> o <> OutOfStack.
Proof.
  intros Hroom Ht HK.
  assert (H : ends (fun bw => in_pid (pid := pid) (b_d bw.1) /\ deps_in (pid := pid) bw.2) (init room scenario inp (mkWorld ∅ st) pid)).
  { apply (init_by_room num_of_int lookupenv marshal_map yaml_to_json unmarshal_struct Status_Err
      (fun (room : nat) r => (rank (in_app_name r, in_app_version r) < room)%nat)); [lia| |done|apply map_Forall_empty].
    intros room' r Hr. eapply nwp_mono; [|apply ends_lookup]. intros x Hx typ app dep ts Happ Hdep. simpl.
    rewrite Forall_forall in Hx. specialize (Hx app Happ dep Hdep). lia. }
  destruct (nwp_traces _ _ _ _ _ _ H Ht HK) as [_ Ho]. by intros ->.
Qed.
End Init.
End Termination.

(** The sample catalog: [blog] before [database]. *)
#[local] Instance sample_graph : CatalogGraph := {|
  has_app p a := (p = ("blog", "1.0") /\ a = ("web", "1.0")) \/ (p = ("database", "1.0") /\ a = ("sql", "1.0"));
  requires a q := a.1 = "web" /\ q = ("database", "1.0")
|}.
Definition sample_rank (p : key) : nat := if bool_decide (p.1 = "blog") then 1 else 0.

Definition sample_init (room : nat) : np (Built Z * world Z) :=
  initDeployment (fun z => z) (fun _ => None) (fun _ => Ok "{}") Ok (fun _ => (None, None)) (fun e => e) room "create"
    (sample_request "new") (mkWorld ∅ sample_store) "p1".

(** The sample cluster answers by that graph. *)
Lemma sample_packages (w : nb_world) (n v : string) :
  nw_packages w = sample_catalog -> catalogued (NCatPackage n v) (nb_answer w (NCatPackage n v)).
Proof.
  intros Hw. cbn. rewrite Hw. destruct (find_first _ _) as [p|] eqn:E; [|done].
  apply find_first_Some in E as [Hin [<- <-]%bool_decide_eq_true].
  repeat (apply elem_of_cons in Hin as [->|Hin]; [intros a ->%list_elem_of_singleton; simpl; auto|]).
  by apply elem_of_nil in Hin.
Qed.

Lemma sample_apps (w : nb_world) (n v : string) :
  nw_apps w = sample_cat_apps -> catalogued (NCatApp n v) (nb_answer w (NCatApp n v)).
Proof.
  intros Hw. cbn. rewrite Hw. destruct (find_first _ _) as [a|] eqn:E; [|done].
  apply find_first_Some in E as [Hin <-%bool_decide_eq_true].
  repeat (apply elem_of_cons in Hin as [->|Hin]; [intros p q ->%list_elem_of_singleton Hq; simpl in Hq|]).
  - by apply list_elem_of_singleton in Hq as ->.
  - by apply elem_of_nil in Hq.
  - by apply elem_of_nil in Hin.
Qed.

(** Two nested calls are enough, and needed. *)
Lemma building_ends_witness :
  nb_result nb_sample (sample_init 2) <> OutOfStack /\ nb_result nb_sample (sample_init 1) = OutOfStack.
Proof.
  split; [|vm_compute; reflexivity].
  eapply (building_ends sample_rank) with (room := 2%nat) (scenario := "create") (inp := sample_request "new").
  - intros p a q [[-> ->]|[-> ->]] [[=] ->]; vm_compute; lia.
  - vm_compute. lia.
  - apply (nb_traces nb_sample (sample_init 2)). reflexivity.
  - apply nb_answers. intros n e. destruct e; try done.
    + by apply sample_packages.
    + by apply sample_apps.
Defined.
