(* ===== verification/Webhook.v ===== *)
(** * The admission webhook of Deployments ([webhooks/deployment])

    The API server calls [Default] and then [ValidateCreate] or
    [ValidateUpdate] before it stores a Deployment.  [Default] sees to the
    finalizers; the validators tell the catalog which packages are deployed,
    with the functions the controller's catalog finalizer uses
    ([Reconcile.HandleIsDeployed], [Reconcile.IsDeployed]). *)

From S2P Require Import Prelude Prog GoStr Types K8sLib Kube Utils Reconcile Samples.

(** [runtime.Object]: a Deployment, or an object of another Go type. *)
Inductive runtime_object : Type :=
  | ObjDeployment (d : Deployment)
  | ObjOther (go_type : string).

(** [v1beta1.DeploymentPackageRef\{\}].  A list that is empty but not nil, which
    [reflect.DeepEqual] tells from nil, is not distinguished. *)
Definition no_package : DeploymentPackageRef := mkDPRef "" "" "" false [].

Definition pkg (d : Deployment) : DeploymentPackageRef := sp_pkg (d_spec d).

Section Webhook.
Context {L : K8sLib}.
(** The texts [apierrors.NewInternalError] and [NewInvalid] make of the error
    and of the fields refused (path, value, detail). *)
Context (internal_text : string -> string) (invalid_text : string -> list (string * string * string) -> string).
(** The field [deleteGitRepo] of the webhook, set by [SetupWebhookWithManager]. *)
Context (deleteGitRepo : bool).

Definition NewInternalError (e : gerror) : gerror := mkErr KInternal (internal_text (e_msg e)).

(** [errors.Wrapf] *)
Definition Wrapf (e : gerror) (msg : string) : gerror := errorf (msg +:+ ": " +:+ e_msg e).

Definition expected_deployment (got : string) : gerror :=
  mkErr KBadRequest ("expected a Deployment but got a " +:+ got).

Definition add_fin (f : string) (d : Deployment) : Deployment :=
  set_finalizers (add_finalizer (d_finalizers d) f) d.

Definition Default (obj : runtime_object) : res Deployment :=
  match obj with
  | ObjOther t => Err (expected_deployment t)
  | ObjDeployment d =>
      let d := if not_deleting d && deleteGitRepo && negb (has_fin FinalizerGitRemote d)
               then add_fin FinalizerGitRemote d else d in
      let d := if not_deleting d && negb (has_fin FinalizerDependency d)
               then add_fin FinalizerDependency d else d in
      let isEqual := bool_decide (pkg d = no_package) in
      let d := if negb isEqual && not_deleting d && negb (has_fin FinalizerCatalog d)
               then add_fin FinalizerCatalog d else d in
      Ok d
  end.

(** The warnings of the validators are always nil. *)
Definition ValidateCreate (obj : runtime_object) : kprog (option gerror) :=
  match obj with
  | ObjOther t => Ret (Some (expected_deployment t))
  | ObjDeployment d =>
      if bool_decide (pkg d = no_package) then Ret None
      else
        let! err := HandleIsDeployed d true in
        Ret (match err with
             | Some e => Some (NewInternalError (Wrapf e ("failed to set IsDeployed for Deployment " +:+ d_name d)))
             | None => None
             end)
  end.

Definition validate (old deployment : Deployment) : option gerror :=
  let allErrs :=
    if bool_decide (dp_name (pkg old) = dp_name (pkg deployment)) then []
    else [("spec.appName", dp_name (pkg deployment), "must match previous spec.appName")] in
  if 0 <? zlen allErrs then Some (mkErr KInvalid (invalid_text (d_name deployment) allErrs)) else None.

(** The texts for objects that are no Deployments print the type of the nil
    pointer the assertion left behind, not that of the object. *)
Definition ValidateUpdate (oldObj newObj : runtime_object) : kprog (option gerror) :=
  match oldObj, newObj with
  | ObjOther _, _ | _, ObjOther _ => Ret (Some (expected_deployment "*v1beta1.Deployment"))
  | ObjDeployment old, ObjDeployment newDeployment =>
      if bool_decide (pkg newDeployment = no_package) then Ret None
      else match validate old newDeployment with
      | Some e => Ret (Some e)
      | None =>
          if bool_decide (dp_version (pkg old) = dp_version (pkg newDeployment)) then Ret None
          else
            let! err := HandleIsDeployed newDeployment true in
            match err with
            | Some e => Ret (Some (NewInternalError (Wrapf e
                ("failed to set IsDeployed for " +:+ d_name newDeployment +:+
                 " while upgrade, check Catalog service connection"))))
            | None =>
                let! isDeployed := IsDeployed old in
                match isDeployed with
                | Err e => Ret (Some (NewInternalError (Wrapf e ("failed to unset IsDeployed for " +:+ d_name old))))
                | Ok true => Ret None
                | Ok false =>
                    let! err := HandleIsDeployed old false in
                    Ret (match err with
                         | Some e => Some (NewInternalError (Wrapf e
                             ("failed to unset IsDeployed for " +:+ d_name old +:+
                              " while upgrade, check Catalog service connection")))
                         | None => None
                         end)
                end
            end
      end
  end.

Definition ValidateDelete (_ : runtime_object) : kprog (option gerror) := Ret None.

End Webhook.

(** ** The webhook keeps the catalog's flags

    [orch] is the part of the system the flags live in: the Deployments the API
    server stores and the packages the catalog holds as deployed.  Its
    transitions are admissions by the webhook ([Default], then a validator),
    whether or not the object is stored afterwards, deletions, and passes of the
    controller's catalog finalizer, each run as a
    whole with whatever answers, as long as the index lists what is stored and
    a call of the catalog that fails changes nothing.  A third field collects the
    packages that an update was to leave which was admitted but not stored. *)

Definition project (d : Deployment) : string := mget (d_labels d) AppOrchActiveProjectID.

(** A package version of a project, as the catalog flags it. *)
Definition package (d : Deployment) : string * string * string :=
  (project d, dp_name (pkg d), dp_version (pkg d)).

Record orch : Type := mkOrch {
  or_store : list Deployment;
  or_deployed : gset (string * string * string);
  or_abandoned : gset (string * string * string)
}.

(** The packages of the updates that were admitted and not stored. *)
Definition abandon (old new : Deployment) (ab : gset (string * string * string)) : gset (string * string * string) :=
  if bool_decide (package new = package old) then ab else {[package old]} ∪ ab.

(** What the API server identifies an object by. *)
Definition key (d : Deployment) : string * string := (d_namespace d, d_name d).

(** A Deployment is in the namespace of its project, as the service creates it
    ([createDeploymentCr]). *)
Definition well_placed (d : Deployment) : Prop := project d = d_namespace d.

Definition set_flag (b : bool) (q : string * string * string) (fl : gset (string * string * string)) :
    gset (string * string * string) :=
  if b then {[q]} ∪ fl else fl ∖ {[q]}.

(** What one answered request does to the flags. *)
Definition flag_step (fl : gset (string * string * string)) (x : kevent) : gset (string * string * string) :=
  match projT1 x as e return resp e -> gset (string * string * string) with
  | CatalogSetDeployed p n v b => fun r => if bool_decide (r = None) then set_flag b (p, n, v) fl else fl
  | _ => fun _ => fl
  end (projT2 x).

Definition flags_after (t : list kevent) (fl : gset (string * string * string)) : gset (string * string * string) :=
  fold_left flag_step t fl.

(** The index answers with what is stored. *)
Definition truthful (store : list Deployment) (x : kevent) : Prop :=
  match projT1 x as e return resp e -> Prop with
  | ListDeploymentsByRef ref => fun r => forall items, r = Ok items ->
      items ≡ₚ base.filter (fun d => GetAppRef d = ref) store
  | _ => fun _ => True
  end (projT2 x).

Definition mark_deleted (now : Z) (d : Deployment) : Deployment :=
  mkDeployment (d_name d) (d_namespace d) (d_uid d) (d_labels d) (d_generation d)
    (d_resource_version d) (d_creation d) (Some now) (d_finalizers d) (d_spec d) (d_status d).

Section Lifecycle.
Context {L : K8sLib} {HL : K8sLibLaws L}.
Context (internal_text : string -> string) (invalid_text : string -> list (string * string * string) -> string).
Context (deleteGitRepo : bool).

Abbreviation ValidateCreate := (ValidateCreate internal_text).
Abbreviation ValidateUpdate := (ValidateUpdate internal_text invalid_text).

(** The API server stores one object per namespace and name, and an update changes neither
    nor the time of deletion; every object stored is in the namespace of its
    project.  What is admitted may still be refused, by another webhook or by the
    API server.  What is left of a Deployment after a pass of the
    finalizer is the Deployment as it was or as the pass made it, or nothing. *)
Inductive change : orch -> orch -> Prop :=
  | created store fl ab obj d t :
      Default deleteGitRepo obj = Ok d -> well_placed d ->
      (forall x, x ∈ store -> key x <> key d) ->
      traces (ValidateCreate (ObjDeployment d)) t None -> Forall (truthful store) t ->
      change (mkOrch store fl ab) (mkOrch (d :: store) (flags_after t fl) ab)
  | not_created store fl ab obj t o :
      traces (ValidateCreate obj) t o -> Forall (truthful store) t ->
      change (mkOrch store fl ab) (mkOrch store (flags_after t fl) ab)
  | updated store1 old store2 fl ab obj new t :
      Default deleteGitRepo obj = Ok new -> well_placed new ->
      key new = key old -> d_deletion new = d_deletion old ->
      traces (ValidateUpdate (ObjDeployment old) (ObjDeployment new)) t None ->
      Forall (truthful (store1 ++ old :: store2)) t ->
      change (mkOrch (store1 ++ old :: store2) fl ab) (mkOrch (store1 ++ new :: store2) (flags_after t fl) ab)
  | update_refused store old fl ab obj t e :
      old ∈ store -> traces (ValidateUpdate (ObjDeployment old) obj) t (Some e) -> Forall (truthful store) t ->
      change (mkOrch store fl ab) (mkOrch store (flags_after t fl) ab)
  | not_updated store old fl ab new t :
      old ∈ store -> traces (ValidateUpdate (ObjDeployment old) (ObjDeployment new)) t None -> Forall (truthful store) t ->
      change (mkOrch store fl ab) (mkOrch store (flags_after t fl) (abandon old new ab))
  | deleted store1 d store2 fl ab now :
      change (mkOrch (store1 ++ d :: store2) fl ab) (mkOrch (store1 ++ mark_deleted now d :: store2) fl ab)
  | finalized store1 d store2 fl ab t d' err left :
      is_Some (d_deletion d) ->
      traces (handleFinalizerCatalog d) t (d', err) -> Forall (truthful (store1 ++ d :: store2)) t ->
      left = [] \/ left = [d] \/ left = [d'] ->
      change (mkOrch (store1 ++ d :: store2) fl ab) (mkOrch (store1 ++ left ++ store2) (flags_after t fl) ab).

(** ** The calls *)

Lemma flags_after_app t1 t2 fl : flags_after (t1 ++ t2) fl = flags_after t2 (flags_after t1 fl).
Proof. apply fold_left_app. Qed.

Lemma HandleIsDeployed_flags d b t o fl :
  traces (HandleIsDeployed d b) t o ->
  flags_after t fl = match o with None => set_flag b (package d) fl | Some _ => fl end.
Proof.
  unfold HandleIsDeployed, AddToOutgoingContext. intros H. kunfold H; try done.
  all: unfold flags_after, flag_step; cbn.
  all: match goal with r : resp (CatalogSetDeployed _ _ _ _) |- _ => destruct r end; simplify_eq; done.
Qed.

Lemma IsDeployed_flags d t r fl store :
  traces (IsDeployed d) t r -> Forall (truthful store) t ->
  flags_after t fl = fl /\
  (r = Ok false -> forall i, i ∈ store -> GetAppRef i = GetAppRef d -> project i = project d -> d_name i = d_name d).
Proof.
  unfold IsDeployed. intros H Ht. kunfold H; (split; [done|]); [|done].
  intros [=Hex] i Hi Href Hpr. apply Forall_inv in Ht. cbn in Ht.
  specialize (Ht _ eq_refl). rewrite existsb_false_elem_of in Hex.
  specialize (Hex i ltac:(rewrite Ht; apply list_elem_of_filter; done)).
  unfold project in Hpr. rewrite bool_decide_true in Hex by done. cbn in Hex. by reflect_guards.
Qed.

Lemma same_package_same_ref d1 d2 : package d1 = package d2 -> project d1 = project d2 /\ GetAppRef d1 = GetAppRef d2.
Proof. unfold package, GetAppRef, pkg. intros [= H1 H2 H3]. by rewrite H2, H3. Qed.

(** No other Deployment of the store has the package of [d]. *)
Definition last_user (store : list Deployment) (d : Deployment) : Prop :=
  forall i, i ∈ store -> package i = package d -> project i = project d /\ d_name i = d_name d.

Lemma last_user_of store d :
  (forall i, i ∈ store -> GetAppRef i = GetAppRef d -> project i = project d -> d_name i = d_name d) ->
  last_user store d.
Proof. intros H i Hi Hp. destruct (same_package_same_ref i d Hp). eauto. Qed.

Lemma create_flags d t o fl store :
  traces (ValidateCreate (ObjDeployment d)) t o -> Forall (truthful store) t ->
  fl ⊆ flags_after t fl /\ (o = None -> pkg d <> no_package -> package d ∈ flags_after t fl).
Proof.
  unfold Webhook.ValidateCreate. intros H _. destruct (bool_decide (pkg d = no_package)) eqn:E; reflect_guards.
  - destruct H as [-> ->]. done.
  - split_trace H t1 t2 o1 H1. apply (HandleIsDeployed_flags _ _ _ _ fl) in H1.
    destruct H as [-> ->]. rewrite app_nil_r, H1. destruct o1; [done|]. cbn. set_solver.
Qed.

(** Each flag survives an update but that of a version nobody else uses; the
    version an admitted update moves to is flagged. *)
Lemma update_flags old new t o fl store :
  traces (ValidateUpdate (ObjDeployment old) (ObjDeployment new)) t o -> Forall (truthful store) t ->
  (forall q, q ∈ fl -> q ∈ flags_after t fl \/
     (q = package old /\ o = None /\ pkg new <> no_package /\ package new <> package old /\ last_user store old)) /\
  (o = None -> pkg new <> no_package ->
     dp_name (pkg old) = dp_name (pkg new) /\
     (dp_version (pkg old) = dp_version (pkg new) \/ package new ∈ flags_after t fl)).
Proof.
  unfold Webhook.ValidateUpdate. intros H Ht. destruct (bool_decide (pkg new = no_package)) eqn:E0; reflect_guards;
    [destruct H as [-> ->]; naive_solver|].
  unfold validate in H. destruct (bool_decide (dp_name (pkg old) = dp_name (pkg new))) eqn:E1; reflect_guards;
    cbn [zlen length Z.of_nat] in H; [|destruct H as [-> ->]; naive_solver].
  destruct (bool_decide (dp_version (pkg old) = dp_version (pkg new))) eqn:E2; reflect_guards;
    [destruct H as [-> ->]; naive_solver|].
  assert (package new <> package old) as Hne by (unfold package; congruence).
  split_trace H t1 t2 o1 H1. apply (HandleIsDeployed_flags _ _ _ _ fl) in H1. rewrite flags_after_app, H1.
  apply Forall_app in Ht as [_ Ht]. destruct o1 as [e|]; [destruct H as [-> ->]; naive_solver|].
  split_trace H t3 t4 r H3. apply Forall_app in Ht as [Ht _].
  apply (IsDeployed_flags _ _ _ (set_flag true (package new) fl) store) in H3 as [H3 Hlast]; [|done].
  rewrite flags_after_app, H3. cbn.
  destruct r as [[|]|e]; [destruct H as [-> ->]; cbn; set_solver| |destruct H as [-> ->]; cbn; set_solver].
  split_trace H t5 t6 o2 H5. apply (HandleIsDeployed_flags _ _ _ _ ({[package new]} ∪ fl)) in H5.
  destruct H as [-> ->]. rewrite app_nil_r, H5. specialize (Hlast eq_refl). apply last_user_of in Hlast.
  destruct o2; cbn; [set_solver|]. split; [|set_solver].
  intros q Hq. destruct (decide (q = package old)) as [->|]; [by right|left; set_solver].
Qed.

(** A pass of the catalog finalizer takes only the flag of the last user away. *)
Lemma finalizer_flags d t d' err fl store q :
  traces (handleFinalizerCatalog d) t (d', err) -> Forall (truthful store) t ->
  q ∈ fl -> q ∈ flags_after t fl \/ (q = package d /\ last_user store d).
Proof.
  unfold handleFinalizerCatalog. intros H Ht Hq.
  destruct (negb (has_fin FinalizerCatalog d)); [destruct H as [-> _]; auto|].
  split_trace H t1 t2 r H1. apply Forall_app in Ht as [Ht _].
  apply (IsDeployed_flags _ _ _ fl store) in H1 as [H1 Hlast]; [|done]. rewrite flags_after_app, H1.
  destruct r as [[|]|e]; [unfold_trace H; auto| |unfold_trace H; auto].
  split_trace H t3 t4 o H3. apply (HandleIsDeployed_flags _ _ _ _ fl) in H3. rewrite flags_after_app, H3.
  assert (t4 = []) as -> by (unfold_trace H; done). specialize (Hlast eq_refl). apply last_user_of in Hlast.
  destruct o; cbn; [auto|]. destruct (decide (q = package d)) as [->|]; [by right|left; set_solver].
Qed.

(** ** The invariant *)

Definition in_use (d : Deployment) : Prop := d_deletion d = None /\ dp_name (pkg d) <> "".

Definition flags_kept (s : orch) : Prop :=
  NoDup (map key (or_store s)) /\ Forall well_placed (or_store s) /\
  forall d, d ∈ or_store s -> in_use d -> package d ∈ or_deployed s \/ package d ∈ or_abandoned s.

Lemma in_use_package d : in_use d -> pkg d <> no_package.
Proof. intros [_ H] E. by rewrite E in H. Qed.

Lemma key_unique store1 d store2 i :
  NoDup (map key (store1 ++ d :: store2)) -> key i = key d -> i ∈ store1 ++ store2 -> False.
Proof.
  rewrite map_app. cbn. rewrite NoDup_app, NoDup_cons. intros (_ & Hdis & Hnot & _) Hk [Hi|Hi]%elem_of_app.
  - apply (Hdis (key i)); [by apply list_elem_of_fmap_2|]. rewrite Hk. left.
  - apply Hnot. rewrite <- Hk. by apply list_elem_of_fmap_2.
Qed.

Lemma nodup_replace store1 d store2 left :
  NoDup (map key (store1 ++ d :: store2)) -> (left = [] \/ exists d', left = [d'] /\ key d' = key d) ->
  NoDup (map key (store1 ++ left ++ store2)).
Proof.
  rewrite !map_app. cbn. intros H [->|(d' & -> & E)]; cbn; [|by rewrite E].
  apply NoDup_app in H as (H1 & H2 & H3). apply NoDup_cons in H3 as [_ H3]. apply NoDup_app.
  split; [done|]. split; [|done]. intros x Hx Hx2. apply (H2 x Hx). by right.
Qed.

Lemma finalizer_same d t d' err :
  traces (handleFinalizerCatalog d) t (d', err) ->
  key d' = key d /\ d_deletion d' = d_deletion d /\ project d' = project d.
Proof.
  unfold handleFinalizerCatalog. intros H. destruct (negb _); [by destruct H as [_ [= -> ->]]|].
  split_trace H t1 t2 r H1. split_trace H t3 t4 o H3. unfold_trace H; done.
Qed.

Lemma placed_replace store1 d store2 left :
  Forall well_placed (store1 ++ d :: store2) -> Forall well_placed left -> Forall well_placed (store1 ++ left ++ store2).
Proof. rewrite !Forall_app, Forall_cons. tauto. Qed.

(** Nobody else of the store uses the package of its last user. *)
Lemma last_user_alone store1 d store2 x :
  NoDup (map key (store1 ++ d :: store2)) -> Forall well_placed (store1 ++ d :: store2) ->
  last_user (store1 ++ d :: store2) d -> x ∈ store1 ++ store2 -> package x <> package d.
Proof.
  intros Hnd Hw Hlast Hx Hp. apply (key_unique store1 d store2 x Hnd); [|done].
  destruct (Hlast x) as [E1 E2]; [set_solver|done|]. rewrite Forall_forall in Hw. unfold key, well_placed in *.
  by rewrite <- (Hw x), <- (Hw d), E1, E2 by set_solver.
Qed.

Lemma change_flags s s' : change s s' -> flags_kept s -> flags_kept s'.
Proof.
  unfold flags_kept.
  destruct 1 as [store fl ab obj d t HD Hp Hfresh H Ht|store fl ab obj t o H Ht|store1 old store2 fl ab obj new t HD Hp Hn Hd H Ht
    |store old fl ab obj t e Ho H Ht|store old fl ab new t Ho H Ht|store1 d store2 fl ab now
    |store1 d store2 fl ab t d' err left Hdel H Ht Hleft];
    cbn; intros (Hnd & Hw & Hk).
  - destruct (create_flags d t None fl store H Ht) as [Hsub Hnew]. split_and!; [|by constructor|].
    + apply NoDup_cons. split; [|done]. intros (x & E & Hx)%list_elem_of_fmap. by apply (Hfresh x).
    + intros x [->|Hx]%elem_of_cons Hu; [left; apply Hnew; [done|by apply in_use_package]|]. set_solver.
  - destruct obj as [d|ty]; [|destruct H as [-> _]; done].
    destruct (create_flags d t o fl store H Ht) as [Hsub _]. split_and!; [done..|]. set_solver.
  - destruct (update_flags old new t None fl _ H Ht) as [Hsub Hnew]. split_and!.
    + apply (nodup_replace store1 old store2 [new]); [done|right]. by exists new.
    + apply (placed_replace store1 old store2 [new]); [done|by constructor].
    + intros x Hx Hu. assert (x = new \/ x ∈ store1 ++ store2) as [->|Hx'] by set_solver.
      * destruct (Hnew eq_refl (in_use_package _ Hu)) as [Hname [Hver|?]]; [|by left].
        assert (package new = package old) as E.
        { rewrite Forall_forall in Hw. specialize (Hw old ltac:(set_solver)). unfold key, well_placed, package in *. congruence. }
        rewrite E. destruct (Hk old) as [Hin|?]; [set_solver|destruct Hu as [Hu1 Hu2]; split; congruence| |by right].
        destruct (Hsub (package old) Hin) as [?|(_ & _ & _ & Hne & _)]; [by left|done].
      * destruct (Hk x) as [Hin|?]; [set_solver|done| |by right].
        destruct (Hsub (package x) Hin) as [?|(E & _ & _ & _ & Hlast)]; [by left|].
        by apply (last_user_alone store1 old store2 x) in E.
  - destruct obj as [new|ty]; [|destruct H as [-> _]; done].
    destruct (update_flags old new t (Some e) fl _ H Ht) as [Hsub _]. split_and!; [done..|].
    intros x Hx Hu. destruct (Hk x Hx Hu) as [Hin|?]; [|by right].
    destruct (Hsub (package x) Hin) as [?|(_ & [=] & _)]. by left.
  - destruct (update_flags old new t None fl _ H Ht) as [Hsub _]. split_and!; [done..|].
    intros x Hx Hu. unfold abandon. destruct (Hk x Hx Hu) as [Hin|?]; [|right; case_bool_decide; set_solver].
    destruct (Hsub (package x) Hin) as [?|(-> & _ & _ & Hne & _)]; [by left|].
    right. rewrite bool_decide_false by done. set_solver.
  - split_and!.
    + apply (nodup_replace store1 d store2 [mark_deleted now d]); [done|right]. by exists (mark_deleted now d).
    + apply (placed_replace store1 d store2 [mark_deleted now d]); [done|]. constructor; [|done].
      rewrite Forall_forall in Hw. apply (Hw d). set_solver.
    + intros x Hx Hu. assert (x = mark_deleted now d \/ x ∈ store1 ++ store2) as [->|Hx'] by set_solver.
      * by destruct Hu as [[=] _].
      * apply Hk; [set_solver|done].
  - destruct (finalizer_same d t d' err H) as (Ekey & Edel & Epr).
    assert (Forall (fun x => key x = key d /\ project x = project d /\ d_deletion x = d_deletion d) left) as Hl
      by (destruct Hleft as [->|[->| ->]]; repeat constructor; done).
    split_and!.
    + apply (nodup_replace store1 d store2 left); [done|].
      destruct Hleft as [->|[->| ->]]; [by left|right; by exists d|right; by exists d'].
    + apply (placed_replace store1 d store2 left); [done|]. rewrite Forall_forall in Hw. specialize (Hw d ltac:(set_solver)).
      eapply Forall_impl; [exact Hl|]. unfold key, well_placed in *. intros x (Ek & Ep & _). simplify_eq. congruence.
    + intros x Hx Hu. assert (x ∈ left \/ x ∈ store1 ++ store2) as [Hxl|Hx'] by set_solver.
      * rewrite Forall_forall in Hl. destruct (Hl x Hxl) as (_ & _ & E), Hdel as [now Hdel], Hu as [Hu _]. congruence.
      * destruct (Hk x) as [Hin|?]; [set_solver|done| |by right].
        destruct (finalizer_flags d t d' err fl _ (package x) H Ht Hin) as [?|(E & Hlast)]; [by left|].
        by apply (last_user_alone store1 d store2 x) in E.
Qed.

(** C19: Starting from nothing, and whatever sequence of creations, updates, deletions and
    finalizer passes happens one after the other, with requests that fail on the way, objects that
    the webhook refuses and objects that it admits and that are not stored
    after all: the catalog holds every package version (of a package with a name) as deployed that a stored
    Deployment, not being deleted, uses, except for versions that an update, admitted and
    then not stored, was to leave.  (The Deployments are in the namespaces of
    their projects, where the service creates them; the API server keeps one object per namespace and
    name; the index answers with what is stored; a call of the catalog that
    fails changes nothing.) *)
Theorem used_packages_flagged (s : orch) (d : Deployment) :
  rtc change (mkOrch [] ∅ ∅) s -> d ∈ or_store s -> in_use d ->
  package d ∈ or_deployed s \/ package d ∈ or_abandoned s.
Proof.
  intros H. enough (flags_kept s) as (_ & _ & Hk) by eauto. clear d.
  revert s H. apply (rtc_ind_r (R:=change) flags_kept (mkOrch [] ∅ ∅)).
  - split_and!; [constructor..|]. intros x Hx. by apply elem_of_nil in Hx.
  - intros s1 s2 _ Hc Hs. by eapply change_flags.
Qed.

(** ** The finalizers *)

Lemma Default_finalizers d d' f :
  Default deleteGitRepo (ObjDeployment d) = Ok d' ->
  f ∈ d_finalizers d' <->
  f ∈ d_finalizers d \/
  (d_deletion d = None /\
   ((f = FinalizerGitRemote /\ deleteGitRepo = true) \/ f = FinalizerDependency \/
    (f = FinalizerCatalog /\ pkg d <> no_package))).
Proof.
  assert (Hadd : forall b g x, f ∈ d_finalizers (if b && negb (has_fin g x) then add_fin g x else x) <->
    f ∈ d_finalizers x \/ (b = true /\ f = g)).
  { intros b g x. unfold has_fin. destruct b; cbn; [|naive_solver].
    destruct (contains_finalizer (d_finalizers x) g) eqn:E; cbn.
    - apply contains_finalizer_spec in E. naive_solver.
    - rewrite elem_of_add_finalizer. naive_solver. }
  cbn. intros [= <-].
  set (d1 := if not_deleting d && deleteGitRepo && _ then _ else d).
  assert (not_deleting d1 = not_deleting d /\ pkg d1 = pkg d) as [E1 P1] by (subst d1; by split_matches).
  set (d2 := if not_deleting d1 && _ then _ else d1).
  assert (not_deleting d2 = not_deleting d /\ pkg d2 = pkg d) as [E2 P2] by (subst d2; by split_matches).
  rewrite Hadd. subst d2. rewrite Hadd. subst d1. rewrite Hadd, P2, E2, E1.
  unfold not_deleting. rewrite !andb_true_iff, negb_true_iff, bool_decide_eq_false, bool_decide_eq_true.
  naive_solver.
Qed.

End Lifecycle.

(** ** What the model shows *)

(** The catalog's flags are changed while a request is admitted, before the
    object is stored: a finalizer pass that overlaps with a creation takes the
    flag away from the package the new Deployment uses. *)
Theorem overlapping_admission {L : K8sLib} (text : string -> string) (d1 d2 : Deployment)
    (token : string) (fl : gset (string * string * string)) :
  token <> "" -> package d1 = package d2 -> pkg d2 <> no_package -> has_fin FinalizerCatalog d1 = true ->
  exists t1 t2, traces (ValidateCreate text (ObjDeployment d2)) t1 None /\
    traces (handleFinalizerCatalog d1) t2 (remove_fin FinalizerCatalog d1, None) /\
    Forall (truthful [d1]) (t1 ++ t2) /\ package d2 ∉ flags_after (t1 ++ t2) fl.
Proof.
  intros Htok Hpk Hne Hf.
  pose (login := [ev (R:=resp) M2MToken (Ok token); ev (R:=resp) (VaultLogout token) None]).
  pose (set b d := ev (R:=resp) (CatalogSetDeployed (project d) (dp_name (pkg d)) (dp_version (pkg d)) b) None).
  exists (login ++ [set true d2]),
    (ev (R:=resp) (ListDeploymentsByRef (GetAppRef d1)) (Ok [d1]) :: login ++ [set false d1]).
  assert (Hcall : forall b d, traces (HandleIsDeployed d b) (login ++ [set b d]) None).
  { intros b d. unfold HandleIsDeployed, AddToOutgoingContext, login, set, kcall. cbn.
    eexists _, _. split; [done|]. cbn. rewrite bool_decide_false by done. cbn.
    repeat (eexists _, _; split; [done|]; cbn). done. }
  split_and!.
  - unfold ValidateCreate. rewrite bool_decide_false by done. apply traces_bind.
    eexists _, [], None. rewrite app_nil_r. split_and!; [done|apply Hcall|done].
  - unfold handleFinalizerCatalog. rewrite Hf. apply traces_bind. eexists [_], _, (Ok false). split; [done|]. split.
    + unfold IsDeployed. cbn. eexists _, _. split; [done|]. cbn. rewrite (bool_decide_true (d_name d1 = d_name d1)) by done.
      by rewrite andb_false_r.
    + apply traces_bind. eexists _, [], None. rewrite app_nil_r. split_and!; [done|apply Hcall|done].
  - apply Forall_app. split; repeat (constructor; [done|]); [constructor|].
    constructor; [|repeat (constructor; [done|]); constructor].
    intros items [=<-]. rewrite filter_cons_True by done. done.
  - rewrite <- Hpk, flags_after_app. generalize (flags_after (login ++ [set true d2]) fl). intros fl'.
    unfold flags_after, flag_step, set_flag, package. cbn. set_solver.
Qed.

(** Two packages with one index key. *)
Lemma index_key_shared (d1 d2 : Deployment) :
  dp_name (pkg d1) = "db" -> dp_version (pkg d1) = "1-2" ->
  dp_name (pkg d2) = "db-1" -> dp_version (pkg d2) = "2" -> GetAppRef d1 = GetAppRef d2.
Proof. unfold GetAppRef, pkg. by intros -> -> -> ->. Qed.

(** ** A concrete life: a creation and an upgrade *)

Definition index_env (store : list Deployment) : khandler unit := fun e w =>
  (match e return resp e with
   | ListDeploymentsByRef ref => Ok (base.filter (fun d => GetAppRef d = ref) store)
   | e => answer empty_world e
   end, w).

Lemma index_env_truthful {A : Type} store (p : kprog A) : Forall (truthful store) (run_log (index_env store) tt p).2.
Proof.
  induction p as [a|e k IH]; cbn; [constructor|].
  pose proof (IH (index_env store e tt).1) as H. destruct e; cbn in *;
    destruct (run_log _ _ _) as [[? ?] ?]; cbn in *; (constructor; [|done]); try done.
  by intros items [=<-].
Qed.

Lemma index_env_traces {A : Type} store (p : kprog A) (a : A) :
  (run_log (index_env store) tt p).1.1 = a -> traces p (run_log (index_env store) tt p).2 a.
Proof. intros <-. apply run_log_traces. Qed.

Definition with_version (v : string) (d : Deployment) : Deployment :=
  mkDeployment (d_name d) (d_namespace d) (d_uid d) (d_labels d) (d_generation d) (d_resource_version d)
    (d_creation d) (d_deletion d) (d_finalizers d)
    (mkSpec "blog" "proj" (mkDPRef "wordpress" v "default" false []) [] Targeted ∅ (mkNet "" "" "")) (d_status d).

Definition defaulted (v : string) : Deployment :=
  default sample_deployment
    match Default true (ObjDeployment (with_version v sample_deployment)) with Ok d => Some d | Err _ => None end.

Definition text1 (s : string) : string := s.
Definition text2 (s : string) (_ : list (string * string * string)) : string := s.

Definition create_log : list kevent :=
  (run_log (index_env []) tt (ValidateCreate text1 (ObjDeployment (defaulted "1")))).2.
Definition upgrade_log : list kevent :=
  (run_log (index_env [defaulted "1"]) tt
     (ValidateUpdate text1 text2 (ObjDeployment (defaulted "1")) (ObjDeployment (defaulted "2")))).2.

Definition upgraded : orch := mkOrch [defaulted "2"] (flags_after upgrade_log (flags_after create_log ∅)) ∅.

Lemma used_packages_flagged_witness :
  rtc (change text1 text2 true) (mkOrch [] ∅ ∅) upgraded /\
  package (defaulted "2") ∈ or_deployed upgraded /\ package (defaulted "1") ∉ or_deployed upgraded.
Proof.
  assert (rtc (change text1 text2 true) (mkOrch [] ∅ ∅) upgraded) as H.
  { eapply rtc_l; [|apply rtc_once].
    - apply (created text1 text2 true [] ∅ ∅ (ObjDeployment (with_version "1" sample_deployment)) (defaulted "1") create_log).
      + vm_compute. reflexivity.
      + vm_compute. reflexivity.
      + intros x Hx. by apply elem_of_nil in Hx.
      + apply index_env_traces. vm_compute. reflexivity.
      + apply index_env_truthful.
    - apply (updated text1 text2 true [] (defaulted "1") [] _ ∅ (ObjDeployment (with_version "2" sample_deployment))).
      + vm_compute. reflexivity.
      + vm_compute. reflexivity.
      + vm_compute. reflexivity.
      + vm_compute. reflexivity.
      + apply index_env_traces. vm_compute. reflexivity.
      + apply index_env_truthful. }
  split; [exact H|]. split.
  - destruct (used_packages_flagged text1 text2 true upgraded (defaulted "2") H) as [Hf|Hf]; [left|..].
    + split; [vm_compute; reflexivity|vm_compute; discriminate].
    + exact Hf.
    + by apply elem_of_empty in Hf.
  - apply (bool_decide_eq_false_1 (package (defaulted "1") ∈ or_deployed upgraded)). vm_compute. reflexivity.
Defined.
