(* ===== verification/Tenant.v ===== *)
(** * Projects that go: [internal/tenant/nexus-hook.go]

    The tenancy service calls the hook when a project is created or updated;
    the hook keeps a watcher object under the project, and when the project is
    to be deleted it deletes the project's Deployments and then its watcher.
    [Subscribe] and [setupConfigADMWatcherConfig] only register the hook. *)

From S2P Require Import Prelude Prog GoStr Types Samples.

Definition appName : string := "app-deployment-manager".

Inductive ActiveWatcherStatus : Type := StatusIndicationIdle | StatusIndicationInProgress | StatusIndicationError.

#[export] Instance ActiveWatcherStatus_eq_dec : EqDecision ActiveWatcherStatus.
Proof. solve_decision. Defined.

(** [ProjectActiveWatcherSpec] *)
Record WatcherSpec : Type := mkWatcher {
  w_status : ActiveWatcherStatus;
  w_message : string;
  w_timestamp : Z
}.

#[export] Instance WatcherSpec_eq_dec : EqDecision WatcherSpec.
Proof. solve_decision. Defined.

(** [RuntimeprojectRuntimeProject]: what the hook reads of it. *)
Record Project : Type := mkProject { pr_name : string; pr_uid : string; pr_deleted : bool }.

#[export] Instance Project_eq_dec : EqDecision Project.
Proof. solve_decision. Defined.

(** Errors of the nexus client, as [IsAlreadyExists] and [IsChildNotFound] sort them. *)
Inductive nexus_err : Type := NxAlreadyExists | NxChildNotFound | NxOther (msg : string).

Inductive teff : Type :=
  | TNow
  | TAddWatcher (project : Project) (name : string) (spec : WatcherSpec)
  | TGetWatcher (project : Project) (name : string)
  | TUpdateWatcher (project : Project) (spec : WatcherSpec)
  | TDeleteWatcher (project : Project) (name : string)
  | TListDeployments (ns : string) (labels : gmap string string)
  | TDeleteDeployment (ns name : string).

#[export] Instance teff_eq_dec : EqDecision teff.
Proof. solve_decision. Defined.

(** The client returns the list it decoded also next to an error. *)
Definition tresp (e : teff) : Type :=
  match e with
  | TNow => Z
  | TAddWatcher _ _ _ => option nexus_err
  | TGetWatcher _ _ => WatcherSpec + nexus_err
  | TUpdateWatcher _ _ => option nexus_err
  | TDeleteWatcher _ _ => option nexus_err
  | TListDeployments _ _ => list Deployment * option gerror
  | TDeleteDeployment _ _ => option gerror
  end.

Abbreviation tprog := (prog teff tresp).
Abbreviation tevent := (event teff tresp).

Definition tcall (e : teff) : tprog (tresp e) := call e.

Definition safeUnixTime : tprog Z :=
  let! t := tcall TNow in Ret (if t <? 0 then 0 else t).

(** The watcher is changed in place; whether the update was stored is only logged. *)
Definition setProjWatcherStatus (project : Project) (watcherObj : WatcherSpec) (statusInd : ActiveWatcherStatus)
    (message : string) : tprog WatcherSpec :=
  let! now := safeUnixTime in
  let watcherObj := mkWatcher statusInd message now in
  let! _ := tcall (TUpdateWatcher project watcherObj) in
  Ret watcherObj.

Definition delete_deployment (project : Project) (watcherObj : WatcherSpec) (d : Deployment) : tprog WatcherSpec :=
  let! err := tcall (TDeleteDeployment (pr_uid project) (d_name d)) in
  match err with
  | Some _ => setProjWatcherStatus project watcherObj StatusIndicationError "Failed to delete deployments"
  | None => Ret watcherObj
  end.

Definition projectUpdated (project : Project) : tprog unit :=
  if negb (pr_deleted project) then Ret tt
  else
    let! got := tcall (TGetWatcher project appName) in
    match got with
    | inr _ => Ret tt
    | inl watcherObj =>
        let! watcherObj := setProjWatcherStatus project watcherObj StatusIndicationInProgress "Deleting" in
        let! deployments := tcall (TListDeployments (pr_uid project) {[AppOrchActiveProjectID := pr_uid project]}) in
        let! watcherObj := (match deployments.2 with
                            | Some _ => setProjWatcherStatus project watcherObj StatusIndicationError "Failed to get deployments"
                            | None => Ret watcherObj
                            end) in
        let! watcherObj := pfold deployments.1 watcherObj (delete_deployment project) in
        let! err := tcall (TDeleteWatcher project appName) in
        match err with
        | None | Some NxChildNotFound => Ret tt
        | Some _ =>
            let! _ := setProjWatcherStatus project watcherObj StatusIndicationError "Failed to delete project" in
            Ret tt
        end
    end.

Definition projectCreated (project : Project) : tprog unit :=
  if pr_deleted project then projectUpdated project
  else
    let! now := safeUnixTime in
    let! _ := tcall (TAddWatcher project appName
      (mkWatcher StatusIndicationIdle (appName +:+ " subscribed to project " +:+ pr_name project) now)) in
    Ret tt.

(** ** What happens to the Deployments of a project that goes *)

#[local] Arguments setProjWatcherStatus : simpl never.
#[local] Arguments delete_deployment : simpl never.

(** The Deployments a trace asks to delete, and the indicators it sends. *)
Definition sel_deleted (x : tevent) : option (string * string) :=
  match projT1 x with TDeleteDeployment ns name => Some (ns, name) | _ => None end.

Definition sel_indicator (x : tevent) : option ActiveWatcherStatus :=
  match projT1 x with TUpdateWatcher _ s => Some (w_status s) | _ => None end.

(** A list or a deletion that was answered with an error. *)
Definition failed (x : tevent) : bool :=
  match projT1 x as e return tresp e -> bool with
  | TListDeployments _ _ => fun r => negb (bool_decide (r.2 = None))
  | TDeleteDeployment _ _ => fun r => negb (bool_decide (r = None))
  | _ => fun _ => false
  end (projT2 x).

Definition sel_failure (x : tevent) : option ActiveWatcherStatus :=
  if failed x then Some StatusIndicationError else None.

Definition deleted_deployments (t : list tevent) : list (string * string) := omap sel_deleted t.
Definition indicators (t : list tevent) : list ActiveWatcherStatus := omap sel_indicator t.
Definition failures (t : list tevent) : list ActiveWatcherStatus := omap sel_failure t.

Ltac tunfold H := repeat (first [progress unfold tcall, safeUnixTime, setProjWatcherStatus in H | trace_step H]).

Lemma status_trace p w i msg t w' :
  traces (setProjWatcherStatus p w i msg) t w' ->
  deleted_deployments t = [] /\ indicators t = [i] /\ failures t = [].
Proof. intros H. by tunfold H. Qed.

Lemma delete_trace p w d t w' :
  traces (delete_deployment p w d) t w' ->
  deleted_deployments t = [(pr_uid p, d_name d)] /\ indicators t = failures t.
Proof.
  unfold delete_deployment. intros (r & t2 & -> & H). cbn in H. destruct r as [e|].
  - apply (status_trace _ w) in H as (H1 & H2 & H3). unfold deleted_deployments, indicators, failures in *.
    cbn. by rewrite H1, H2, H3.
  - by destruct H as [-> _].
Qed.

Lemma delete_loop p items : forall w t w',
  traces (pfold items w (delete_deployment p)) t w' ->
  deleted_deployments t = map (fun d => (pr_uid p, d_name d)) items /\ indicators t = failures t.
Proof.
  induction items as [|d items IH]; intros w t w'; cbn; [by intros [-> _]|].
  intros H. split_trace H t1 t2 w1 H1. apply delete_trace in H1 as [H1 H2]. apply IH in H as [H3 H4].
  unfold deleted_deployments, indicators, failures in *. rewrite !omap_app. by rewrite H1, H2, H3, H4.
Qed.

(** C30: A project that is not being deleted loses nothing.  For one that is,
    once its watcher is found, exactly the Deployments listed in its namespace
    under its label are asked to be deleted, in order and whatever fails; the
    watcher reports one error for each failure; and only then, failures or
    not, the watcher is deleted, which tells the tenancy service that the
    project is clean. *)
Theorem project_deletion (p : Project) (t : list tevent) :
  traces (projectUpdated p) t tt ->
  (pr_deleted p = false -> t = []) /\
  (pr_deleted p = true -> forall w, ev (R:=tresp) (TGetWatcher p appName) (inl w) ∈ t ->
   exists (items : list Deployment) (err : option gerror) t1 r t2,
     ev (R:=tresp) (TListDeployments (pr_uid p) {[AppOrchActiveProjectID := pr_uid p]}) (items, err) ∈ t1 /\
     t = t1 ++ ev (TDeleteWatcher p appName) r :: t2 /\
     deleted_deployments t1 = map (fun d => (pr_uid p, d_name d)) items /\
     deleted_deployments t2 = [] /\
     indicators t1 = StatusIndicationInProgress :: failures t1).
Proof.
  unfold projectUpdated. intros H. destruct (pr_deleted p); cbn in H; [|by destruct H as [-> _]].
  split; [done|]. intros _ w Hw. destruct H as (got & t' & -> & H). cbn in H. destruct got as [w0|e].
  2: { destruct H as [-> _]. which_event Hw. }
  clear Hw. split_trace H ta tb w1 Ha. destruct H as ([items err] & td & -> & H). cbn in H.
  split_trace H te tf w2 He. split_trace H tg th w3 Hg. destruct H as (r & ti & -> & H).
  apply (status_trace _ w0) in Ha as (Ha1 & Ha2 & Ha3). apply delete_loop in Hg as [Hg1 Hg2].
  assert (deleted_deployments te = [] /\ failures te = [] /\
    indicators te = if bool_decide (err = None) then [] else [StatusIndicationError]) as (He1 & He2 & He3).
  { destruct err; [apply (status_trace _ w1) in He as (? & ? & ?)|destruct He as [-> _]]; done. }
  assert (deleted_deployments ti = []) as Hi by (destruct r as [[]|]; cbn in H; tunfold H; by try destruct H as [-> _]).
  exists items, err, (ev (TGetWatcher p appName) (inl w0) :: ta ++
    ev (R:=tresp) (TListDeployments (pr_uid p) {[AppOrchActiveProjectID := pr_uid p]}) (items, err) :: te ++ tg), r, ti.
  unfold deleted_deployments, indicators, failures in *. split_and!.
  - set_solver.
  - cbn. by rewrite <- !app_assoc; cbn; rewrite <- !app_assoc.
  - cbn. rewrite !omap_app. cbn. rewrite !omap_app. by rewrite Ha1, He1, Hg1.
  - done.
  - cbn. rewrite !omap_app. cbn. rewrite !omap_app, Ha2, Ha3, He2, He3, Hg2. by destruct err.
Qed.

(** ** A project with two Deployments, one of which cannot be deleted *)

Definition tenant_env : handler teff tresp unit := fun e w =>
  (match e return tresp e with
   | TNow => 1
   | TAddWatcher _ _ _ | TUpdateWatcher _ _ | TDeleteWatcher _ _ => @None nexus_err
   | TGetWatcher _ _ => inl (mkWatcher StatusIndicationIdle "" 0)
   | TListDeployments _ _ => ([sample_deployment; sample_deployment], None)
   | TDeleteDeployment _ _ => Some (errorf "conflict")
   end, w).

Definition gone : Project := mkProject "proj" "project-1" true.

Definition tenant_log : list tevent := (run_log tenant_env tt (projectUpdated gone)).2.

Lemma project_deletion_witness :
  deleted_deployments tenant_log = [("project-1", "deployment-x"); ("project-1", "deployment-x")] /\
  exists items err t1 r t2,
    ev (R:=tresp) (TListDeployments "project-1" {[AppOrchActiveProjectID := "project-1"]}) (items, err) ∈ t1 /\
    tenant_log = t1 ++ ev (TDeleteWatcher gone appName) r :: t2 /\
    deleted_deployments t1 = map (fun d => ("project-1", d_name d)) items /\
    deleted_deployments t2 = [] /\
    indicators t1 = StatusIndicationInProgress :: failures t1.
Proof.
  split; [vm_compute; reflexivity|].
  refine (proj2 (project_deletion gone tenant_log _) eq_refl (mkWatcher StatusIndicationIdle "" 0) _).
  - exact (run_log_traces tenant_env (projectUpdated gone) tt).
  - apply (nth_event 0). vm_compute. reflexivity.
Defined.
