(* ===== verification/Migration.v ===== *)
(** * Migration to projects: [internal/manager/migration.go]

    Every custom resource of the listed kinds gets the label of the project
    unless it has one. *)

From S2P Require Import Prelude Prog GoMonad GoStr Types NbEff.

Definition appOrchResources : list string := ["deployments"; "clusters"; "deploymentclusters"].
Definition rancherResources : list string := ["gitrepos"; "clusters"; "bundles"].

(** [schema.GroupVersionResource] *)
Record GVR : Type := mkGVR { gvr_group : string; gvr_version : string; gvr_resource : string }.

#[export] Instance GVR_eq_dec : EqDecision GVR.
Proof. solve_decision. Defined.

(** An [unstructured.Unstructured]: [GetLabels] of an object without labels is nil. *)
Record CR : Type := mkCR { cr_namespace : string; cr_name : string; cr_labels : gomap }.

#[export] Instance CR_eq_dec : EqDecision CR.
Proof. solve_decision. Defined.

Inductive meff : Type :=
  | MList (gvr : GVR)
  | MUpdate (gvr : GVR) (ns : string) (cr : CR).

#[export] Instance meff_eq_dec : EqDecision meff.
Proof. solve_decision. Defined.

Definition mresp (e : meff) : Type :=
  match e with
  | MList _ => res (list CR)
  | MUpdate _ _ _ => option gerror
  end.

Abbreviation mprog := (prog meff mresp).
Abbreviation mevent := (event meff mresp).

Definition mcall (e : meff) : mprog (mresp e) := call e.

Section Migration.
(** The field [newUUID] of [Migration]. *)
Context (newUUID : string).

Definition labelled (m : gmap string string) (cr : CR) : CR :=
  mkCR (cr_namespace cr) (cr_name cr) (Some (<[AppOrchActiveProjectID := newUUID]> m)).

(** The body of the loop of [migrate]; writing a label into a nil map panics. *)
Definition migrate_cr (gvr : GVR) (cr : CR) : mprog (option (maypanic (option gerror))) :=
  match gmlookup (cr_labels cr) AppOrchActiveProjectID with
  | Some _ => Ret None
  | None =>
      match cr_labels cr with
      | None => Ret (Some Panics)
      | Some m =>
          let! err := mcall (MUpdate gvr (cr_namespace cr) (labelled m cr)) in
          Ret (match err with
               | Some e => Some (Returns (Some (K8sToTypedError e)))
               | None => None
               end)
      end
  end.

Definition migrate (fleetGVR : GVR) (resource : string) : mprog (maypanic (option gerror)) :=
  let fleetGVR := mkGVR (gvr_group fleetGVR) (gvr_version fleetGVR) resource in
  let! crList := mcall (MList fleetGVR) in
  match crList with
  | Err e => Ret (Returns (Some e))
  | Ok items =>
      let! stop := pfor_ret items (migrate_cr fleetGVR) in
      Ret (default (Returns None) stop)
  end.

(** [for _, r := range ... { if err := m.migrate(ctx, r); err != nil { return err } }] *)
Definition migrate_all (fleetGVR : GVR) (resources : list string) : mprog (option (maypanic (option gerror))) :=
  pfor_ret resources (fun r =>
    let! o := migrate fleetGVR r in
    Ret (match o with Returns None => None | _ => Some o end)).

Definition start (fleetGVR : GVR) : mprog (maypanic (option gerror)) :=
  let! stop := migrate_all fleetGVR appOrchResources in
  match stop with
  | Some o => Ret o
  | None =>
      let! stop := migrate_all (mkGVR "fleet.cattle.io" "v1alpha1" (gvr_resource fleetGVR)) rancherResources in
      Ret (default (Returns None) stop)
  end.

Definition run_migration : mprog (maypanic (option gerror)) :=
  start (mkGVR "app.edge-orchestrator.intel.com" "v1beta1" "").

End Migration.

(** ** The migration labels what has no project *)

Section MigrationFacts.
Context (newUUID : string).

Definition has_project (cr : CR) : Prop := is_Some (gmlookup (cr_labels cr) AppOrchActiveProjectID).

(** What is asked to be done with one object of a list. *)
Definition migrated (t : list mevent) (gvr : GVR) (cr : CR) : Prop :=
  has_project cr \/
  exists m, cr_labels cr = Some m /\ ev (R:=mresp) (MUpdate gvr (cr_namespace cr) (labelled newUUID m cr)) None ∈ t.

Lemma migrated_mono t t' gvr cr : t ⊆ t' -> migrated t gvr cr -> migrated t' gvr cr.
Proof. intros Ht [?|(m & ? & ?)]; [by left|right; eauto]. Qed.

Lemma migrate_cr_trace gvr cr t :
  traces (migrate_cr newUUID gvr cr) t None -> migrated t gvr cr.
Proof.
  unfold migrate_cr, migrated, has_project. destruct (gmlookup _ _); [by left; eauto|].
  destruct (cr_labels cr) as [m|]; [|by intros [_ [=]]].
  intros (r & t' & -> & H). destruct r; [by destruct H as [_ [=]]|]. right. exists m. split; [done|left].
Qed.

(** A loop that ran to its end ran each of its iterations to its end. *)
Lemma loop_end {A B : Type} (l : list A) (f : A -> mprog (option B)) : forall t,
  traces (pfor_ret l f) t None -> forall x, x ∈ l -> exists t', t' ⊆ t /\ traces (f x) t' None.
Proof.
  induction l as [|y l IH]; intros t; cbn; [intros _ x Hx; by apply elem_of_nil in Hx|].
  intros H x Hx. split_trace H t1 t2 o H1. destruct o; [by destruct H as [_ [=]]|].
  apply elem_of_cons in Hx as [->|Hx]; [exists t1; split; [set_solver|done]|].
  destruct (IH t2 H x Hx) as (t' & Hs & Ht'). exists t'. split; [set_solver|done].
Qed.

(** A loop none of whose iterations stops with [b]. *)
Lemma loop_goes_on {A B : Type} (l : list A) (f : A -> mprog (option B)) (b : B) :
  (forall x t, ~ traces (f x) t (Some b)) -> forall t, ~ traces (pfor_ret l f) t (Some b).
Proof.
  intros Hf. induction l as [|y l IH]; intros t; cbn; [by intros [_ [=]]|].
  intros H. split_trace H t1 t2 o H1. destruct o; [|by apply (IH t2)].
  destruct H as [_ [= ->]]. by apply (Hf y t1).
Qed.

Lemma migrate_trace gvr r t :
  traces (migrate newUUID gvr r) t (Returns None) ->
  exists items, ev (MList (mkGVR (gvr_group gvr) (gvr_version gvr) r)) (Ok items) ∈ t /\
    Forall (migrated t (mkGVR (gvr_group gvr) (gvr_version gvr) r)) items.
Proof.
  unfold migrate. intros (l & t' & -> & H). cbn in H. destruct l as [items|e]; [|by destruct H as [_ [=]]].
  split_trace H t1 t2 stop H1. destruct H as [-> H]. rewrite app_nil_r. exists items. split; [left|].
  assert (stop = None) as ->.
  { destruct stop as [o|]; [|done]. cbn in H. subst o. exfalso. revert H1. apply loop_goes_on.
    intros cr t'. unfold migrate_cr. destruct (gmlookup _ _); [by intros [_ [=]]|].
    destruct (cr_labels cr); [|by intros [_ [=]]]. by intros ([e|] & ? & _ & [_ [=]]). }
  apply Forall_forall. intros cr Hcr. destruct (loop_end _ _ _ H1 cr Hcr) as (t'' & Hs & Ht).
  apply migrate_cr_trace in Ht. eapply migrated_mono; [|done]. set_solver.
Qed.

Lemma migrate_all_trace g l t : traces (migrate_all newUUID g l) t None -> forall r, r ∈ l ->
  exists items, ev (R:=mresp) (MList (mkGVR (gvr_group g) (gvr_version g) r)) (Ok items) ∈ t /\
    Forall (migrated t (mkGVR (gvr_group g) (gvr_version g) r)) items.
Proof.
  intros H r Hr. destruct (loop_end _ _ _ H r Hr) as (t' & Hs & Ht).
  split_trace Ht t1 t2 o H1. destruct Ht as [-> Ho]. rewrite app_nil_r in Hs.
  destruct o as [[e|]|]; try done. apply migrate_trace in H1 as (items & Hi & HF).
  exists items. split; [set_solver|]. eapply Forall_impl; [exact HF|]. intros cr. by apply migrated_mono.
Qed.

Lemma migrate_all_goes_on g l t : ~ traces (migrate_all newUUID g l) t (Some (Returns None)).
Proof.
  apply loop_goes_on. intros r t'. intros H. split_trace H t1 t2 o H1.
  destruct H as [_ H]. by destruct o as [[|]|].
Qed.

(** A migration that succeeds has listed all six kinds of resources, and
    has given the project's label, and changed nothing else, to every object
    listed that had none. *)
Theorem migration_complete (t : list mevent) :
  traces (run_migration newUUID) t (Returns None) ->
  forall gvr,
    (gvr_group gvr = "app.edge-orchestrator.intel.com" /\ gvr_version gvr = "v1beta1" /\ gvr_resource gvr ∈ appOrchResources) \/
    (gvr_group gvr = "fleet.cattle.io" /\ gvr_version gvr = "v1alpha1" /\ gvr_resource gvr ∈ rancherResources) ->
  exists items, ev (R:=mresp) (MList gvr) (Ok items) ∈ t /\ Forall (migrated t gvr) items.
Proof.
  unfold run_migration, start. intros H [g v r] Hg. cbn in Hg. split_trace H t1 t2 o H1.
  destruct o as [o|]; [destruct H as [_ <-]; by apply migrate_all_goes_on in H1|].
  split_trace H t3 t4 o H3. destruct H as [-> Ho].
  assert (o = None) as -> by (destruct o as [o|]; [cbn in Ho; subst o; by apply migrate_all_goes_on in H3|done]).
  destruct Hg as [(-> & -> & Hr)|(-> & -> & Hr)];
    [destruct (migrate_all_trace _ _ _ H1 r Hr) as (items & Hi & HF)|destruct (migrate_all_trace _ _ _ H3 r Hr) as (items & Hi & HF)];
    (exists items; split; [set_solver|]; eapply Forall_impl; [exact HF|]; intros cr; apply migrated_mono; set_solver).
Qed.

(** An object without any label stops the migration with a panic. *)
Lemma unlabelled_panics gvr cr : cr_labels cr = None -> migrate_cr newUUID gvr cr = Ret (Some Panics).
Proof. unfold migrate_cr. by intros ->. Qed.

End MigrationFacts.
