(* ===== verification/ArmEff.v ===== *)
(** * The App Resource Manager: what it asks of the outside

    The calls that leave app-resource-manager, its configuration, the context
    of a request, the authorization of [internal/opa], the client of the
    deployment manager ([internal/adm]) and the creation of cluster clients. *)

From S2P Require Import Prelude Prog GoMonad GoStr Types NbEff.

(** [model.WebSocketServer]: what the code reads of the configuration file. *)
Record WebSocketServer : Type := mkWS {
  ws_protocol : string;
  ws_host : string;
  ws_limit_ip : Z;
  ws_limit_account : Z;
  ws_read_limit : Z;
  ws_dl_idle : Z;
  ws_ul_idle : Z;
  ws_origins : list string
}.

#[export] Instance WebSocketServer_eq_dec : EqDecision WebSocketServer.
Proof. solve_decision. Defined.

(** ** Objects of a cluster *)

(** The owner references of an object: kind, name, [Controller] ([None] is nil). *)
Record OwnerRef : Type := mkOwnerRef { own_kind : string; own_name : string; own_controller : option bool }.

(** [metav1.ObjectMeta] *)
Record ObjectMeta : Type := mkMeta {
  om_name : string;
  om_namespace : string;
  om_uid : string;
  om_creation : Z;
  om_annotations : gmap string string;
  om_owners : list OwnerRef
}.

Inductive ContainerState : Type :=
  | StateNone
  | StateWaiting (reason message : string)
  | StateRunning
  | StateTerminated (exit : Z) (reason message : string).

(** A container of a pod's spec, and one of its statuses. *)
Record ContainerSpec : Type := mkContainer { con_name : string; con_image : string }.
Record ContainerStat : Type := mkContainerStat { cst_name : string; cst_restarts : Z; cst_state : ContainerState }.

(** [corev1.Pod]; conditions are pairs of type and status. *)
Record PodObj : Type := mkPodObj {
  po_meta : ObjectMeta;
  po_phase : string;
  po_conditions : list (string * string);
  po_containers : list ContainerSpec;
  po_statuses : list ContainerStat
}.

Record ServicePort : Type := mkSvcPort { svp_name : string; svp_port : Z; svp_protocol : string }.

(** [corev1.Service]; the last field is the number of ingress points of its load balancer. *)
Record ServiceObj : Type := mkService {
  sv_meta : ObjectMeta;
  sv_type : string;
  sv_ports : list ServicePort;
  sv_lb_ingress : Z
}.

(** [networkingv1.IngressRule]: the host and, if [HTTP] is not nil, for every
    path the port name of its backend's service, or [None] where the backend is
    not a service. *)
Record IngressRule : Type := mkRule { ir_host : string; ir_http : option (list (option string)) }.

Record IngressObj : Type := mkIngress {
  ing_meta : ObjectMeta;
  ing_rules : list IngressRule;
  ing_tls : bool;
  ing_lb_ingress : Z
}.

(** [kubevirt] VirtualMachine; [vmo_running] is the pointer [Spec.Running]. *)
Record VMObj : Type := mkVM {
  vmo_meta : ObjectMeta;
  vmo_ready : bool;
  vmo_status : string;
  vmo_running : option bool
}.

Inductive client_kind : Type := KubeClient | DynamicClient | KubevirtClient.

#[export] Instance client_kind_eq_dec : EqDecision client_kind.
Proof. solve_decision. Defined.

(** ** Requests *)

Inductive aeff : Type :=
  | AConfig                                          (* model.GetConfigModel *)
  | AOpaInput (request : string)
  | AOpa (package rule : string)
  | AToken
  | ATokenLogout (token : string)
  (** the deployment manager, with the project of the outgoing context *)
  | AKubeConfig (project clusterID : string)
  | AAppNamespace (project appID : string)
  (** clients of a cluster *)
  | ARestConfig (kubeConfig : string)                (* RESTConfigFromKubeConfig *)
  | ARateLimiter                                     (* ratelimiter.GetRateLimiterParams *)
  | ANewClient (kind : client_kind)
  (** the cluster *)
  | AListPods (ns selector : string)
  | ADeletePod (ns name : string)
  | AGetOwner (kind ns name : string)
  | AListServices (ns : string)
  | ACountSubsets (ns name : string)                 (* Endpoints(ns).Get(name), len(Subsets) *)
  | AListIngresses (ns : string)
  | AListVMs (ns : string)
  | AStartVM (ns name : string)
  | AStopVM (ns name : string)
  | ARestartVM (ns name : string)
  | AAuthFromMD                                      (* grpc_auth.AuthFromMD *)
  (** the console of a virtual machine *)
  | AIntercept (token project : string)              (* authlib.AuthenticationInterceptor *)
  | AIncreaseIP (key : string)
  | ADecreaseIP (key : string)
  | AIncreaseAccount (key : string)
  | ADecreaseAccount (key : string)
  | AVNC (ns name : string)
  | AUpgrade
  | ARelay (readLimit dlIdle ulIdle : Z)
  | AReply (code : Z) (msg : string).

#[export] Instance aeff_eq_dec : EqDecision aeff.
Proof. solve_decision. Defined.

Definition aresp (e : aeff) : Type :=
  match e with
  | AConfig => res WebSocketServer
  | AOpaInput _ => option gerror
  | AOpa _ _ => res opa_answer
  | AToken => res string
  | ATokenLogout _ => option gerror
  | AKubeConfig _ _ => res (option string)           (* the reply may lack the configuration *)
  | AAppNamespace _ _ => res string
  | ARestConfig _ | ARateLimiter | ANewClient _ => option gerror
  | AListPods _ _ => res (list PodObj)
  | ADeletePod _ _ => option gerror
  | AGetOwner _ _ _ => res ObjectMeta
  | AListServices _ => res (list ServiceObj)
  | ACountSubsets _ _ => res Z
  | AListIngresses _ => res (list IngressObj)
  | AListVMs _ => res (list VMObj)
  | AStartVM _ _ | AStopVM _ _ | ARestartVM _ _ => option gerror
  | AAuthFromMD => res string
  | AIntercept _ _ => res (option (gmap string (list string)))
  | AIncreaseIP _ | ADecreaseIP _ | AIncreaseAccount _ | ADecreaseAccount _ => option gerror
  | AVNC _ _ => option gerror
  | AUpgrade => option gerror
  | ARelay _ _ _ => option gerror
  | AReply _ _ => unit
  end.

Abbreviation aprog := (prog aeff aresp).
Abbreviation aevent := (event aeff aresp).
Abbreviation ahandler := (handler aeff aresp).
Abbreviation ap := (gp aeff aresp).
Abbreviation acall e := (call (E:=aeff) (R:=aresp) e).

(** The calls that change something in a cluster. *)
Definition acts (e : aeff) : bool :=
  match e with
  | ADeletePod _ _ | AStartVM _ _ | AStopVM _ _ | ARestartVM _ _ | AVNC _ _ | ARelay _ _ _ => true
  | _ => false
  end.

(** ** [internal/opa] *)

Module opa.

(** Unlike the deployment manager's, a request without a project is one of the project "". *)
Definition GetActiveProjectID (ctx : context) : res string :=
  match ctx with
  | None => Err (mkErr KInvalid "unable to extract metadata from ctx")
  | Some md =>
      match default [] (md !! "activeprojectid") with
      | [] => Ok ""
      | [id] => Ok id
      | _ => Err (mkErr KInvalid "multiple ActiveProjectIDs are set - it should be one")
      end
  end.

(** [has_opa] is [opaClient != nil]; the texts of the values OPA answered with
    are not modelled. *)
Definition IsAuthorized (ctx : context) (requestType : string) (has_opa : bool) : ap unit :=
  if negb has_opa then ok tt
  else match ctx with
  | None => fail (mkErr KInvalid "unable to extract metadata from ctx")
  | Some _ =>
      do! _ := map_err (fun e => mkErr KInvalid ("cannot marshal object to JSON " +:+ e_msg e))
                 (ecall (acall (AOpaInput requestType))) in
      let (requestPackage, requestName) := rule_of requestType in
      do! resp := map_err (fun e => mkErr KInvalid ("error on OPA Post. " +:+ e_msg e))
                    (rcall (acall (AOpa requestPackage requestName))) in
      match resp with
      | OpaNot200 => panic
      | OpaBool true => ok tt
      | OpaBool false => fail (mkErr KForbidden "access denied")
      | OpaObject => fail (mkErr KForbidden ("access denied by OPA rule " +:+ requestName))
      | OpaOther => fail (mkErr KInvalid ("access denied by OPA rule " +:+ requestName))
      end
  end.

End opa.

(** ** [internal/adm] *)

Module adm.

(** The outgoing context carries the token and the project returned. *)
Definition addToOutgoingContext (ctx : context) : ap string :=
  do! activeProjectID := done (opa.GetActiveProjectID ctx) in
  do! token := rcall (acall AToken) in
  if bool_decide (token = "") then fail (errorf "token is empty")
  else do! _ := ecall (acall (ATokenLogout token)) in ok activeProjectID.

Definition GetAppNamespace (ctx : context) (appID : string) : ap string :=
  do! project := addToOutgoingContext ctx in
  rcall (acall (AAppNamespace project appID)).

(** A reply without the configuration is dereferenced. *)
Definition GetKubeConfig (ctx : context) (clusterID : string) : ap string :=
  do! project := addToOutgoingContext ctx in
  do! resp := rcall (acall (AKubeConfig project clusterID)) in
  match resp with Some kubeConfig => ok kubeConfig | None => panic end.

End adm.

(** [getK8sClient], [getDynamicK8sClient], [getKubevirtClient] *)
Definition getClient (kind : client_kind) (ctx : context) (clusterID : string) : ap unit :=
  do! kubeConfig := adm.GetKubeConfig ctx clusterID in
  do! _ := ecall (acall (ARestConfig kubeConfig)) in
  do! _ := ecall (acall ARateLimiter) in
  ecall (acall (ANewClient kind)).
