(* ===== verification/ArmKube.v ===== *)
(** * The App Resource Manager: pods and endpoints ([internal/kubernetes]) *)

From S2P Require Import Prelude Prog GoMonad GoStr Types NbEff ArmEff.

Definition ExternalDNSAnnotation : string := "external-dns.alpha.kubernetes.io/hostname".
Definition ServiceProxyPortAnnotation : string := "service-proxy.app.orchestrator.io/ports".
Definition AnnotationKeyForAppID : string := "meta.helm.sh/release-name".
Definition IngressHostnameSourceAnnotation : string := "dns.alpha.kubernetes.io/ingress-hostname-source".
Definition AnnotationOnly : string := "annotation-only".
Definition DefinedHostOnly : string := "defined-hosts-only".
Definition LabelKeyForVirtHandler : string := "kubevirt.io".

(** ** Messages of the API *)

Inductive PodState : Type := PodUnspecified | PodPending | PodRunning | PodSucceeded | PodFailed.

Inductive ContainerMsgState : Type :=
  | MsgNone
  | MsgWaiting (reason message : string)
  | MsgRunning
  | MsgTerminated (exit : Z) (reason message : string).

Record ContainerMsg : Type := mkContainerMsg {
  cm_name : string;
  cm_image : string;
  cm_restarts : Z;
  cm_status : option ContainerMsgState
}.

Inductive VMState : Type :=
  | VMUnspecified | VMStopped | VMProvisioning | VMStarting | VMRunning | VMPaused | VMStopping | VMTerminating
  | VMCrashLoopBackoff | VMMigrating | VMUnschedulable | VMErrImagePull | VMImagePullBackoff | VMPvcNotFound
  | VMDataVolumeError | VMWaitingForVolumeBinding.

Inductive AdminState : Type := AdminUnspecified | AdminUp | AdminDown.

Inductive Workload : Type :=
  | WPod (state : PodState) (containers : list ContainerMsg)
  | WVirtualMachine (state : VMState) (admin : AdminState).

(** [resourceapiv2.AppWorkload] *)
Record AppWorkload : Type := mkWorkload {
  wl_id : string;
  wl_name : string;
  wl_namespace : string;
  wl_create_time : Z;
  wl_ready : bool;
  wl_workload : Workload
}.

Record PortMsg : Type := mkPort { pt_name : string; pt_value : Z; pt_protocol : string; pt_proxy_url : string }.

(** [resourceapiv2.AppEndpoint] *)
Record AppEndpoint : Type := mkEndpoint {
  ae_id : string;
  ae_name : string;
  ae_ports : list PortMsg;
  ae_fqdns : list string;
  ae_ready : bool
}.

(** ** Conversions ([utils.go]) *)

Definition convertPodPhase (phase : string) : PodState :=
  if bool_decide (phase = "Running") then PodRunning
  else if bool_decide (phase = "Failed") then PodFailed
  else if bool_decide (phase = "Pending") then PodPending
  else if bool_decide (phase = "Succeeded") then PodSucceeded
  else PodUnspecified.

Definition convertContainerStatus (s : ContainerState) : ContainerMsgState :=
  match s with
  | StateNone => MsgNone
  | StateWaiting reason message => MsgWaiting reason message
  | StateRunning => MsgRunning
  | StateTerminated exit reason message => MsgTerminated exit reason message
  end.

Record serviceProxyURL : Type := mkProxyURL {
  spu_domain : string;
  spu_project : string;
  spu_cluster : string;
  spu_namespace : string;
  spu_service : string;
  spu_port : string;
  spu_protocol : string
}.

Definition createServiceProxyURL (u : serviceProxyURL) : string :=
  let base := spu_domain u +:+ "/app-service-proxy-index.html?project=" +:+ spu_project u +:+ "&cluster=" +:+
              spu_cluster u +:+ "&namespace=" +:+ spu_namespace u +:+ "&service=" in
  if bool_decide (spu_protocol u = "") then base +:+ spu_service u +:+ ":" +:+ spu_port u
  else base +:+ spu_protocol u +:+ ":" +:+ spu_service u +:+ ":" +:+ spu_port u.

(** [strconv.ParseInt(s, 10, 32)] *)
Definition parse_int32 (s : string) : option Z :=
  match parse_int64 s with
  | Some n => if (-2^31 <=? n) && (n <? 2^31) then Some n else None
  | None => None
  end.

Section Manager.
(** [os.Getenv("SERVICE_PROXY_DOMAIN_NAME")] *)
Context (domainName : string).
(** The text of [strconv.ParseInt]'s error. *)
Context (parse_int_error : string -> string).

(** ** Pods *)

Definition DeletePod (ctx : context) (clusterID namespace podName : string) : ap unit :=
  do! _ := getClient KubeClient ctx clusterID in
  map_err K8sToTypedError (ecall (acall (ADeletePod namespace podName))).

Definition controls (r : OwnerRef) : bool := default false (own_controller r).

Definition owner_kinds : list string := ["ReplicaSet"; "DaemonSet"; "StatefulSet"; "SriovOperatorConfig"].

(** The first controlling owner decides; [room] is what the stack has left for
    the walk up the owners. *)
Fixpoint checkOwnerAnnotations (room : nat) (meta : ObjectMeta) (namespace appID : string) : ap bool :=
  match room with
  | O => Ret OutOfStack
  | S room =>
      if bool_decide (om_annotations meta !! AnnotationKeyForAppID = Some appID) then ok true
      else match find_first controls (om_owners meta) with
      | None => ok false
      | Some ownerRef =>
          if bool_decide (own_kind ownerRef ∈ owner_kinds) then
            do! owner := map_err K8sToTypedError
                           (rcall (acall (AGetOwner (own_kind ownerRef) namespace (own_name ownerRef)))) in
            checkOwnerAnnotations room owner namespace appID
          else ok false
      end
  end.

Definition podReady (conditions : list (string * string)) : bool :=
  fold_left (fun ready c =>
    if bool_decide (c = ("Ready", "True")) then true
    else if bool_decide (c = ("Ready", "False")) then false
    else ready) conditions false.

Definition container_msg (statuses : list ContainerStat) (index : nat) (c : ContainerSpec) : ContainerMsg :=
  match statuses !! index with
  | Some st => mkContainerMsg (con_name c) (con_image c) (cst_restarts st) (Some (convertContainerStatus (cst_state st)))
  | None => mkContainerMsg (con_name c) (con_image c) 0 None
  end.

Definition pod_workload (pod : PodObj) : AppWorkload :=
  mkWorkload (om_uid (po_meta pod)) (om_name (po_meta pod)) (om_namespace (po_meta pod)) (om_creation (po_meta pod))
    (podReady (po_conditions pod))
    (WPod (convertPodPhase (po_phase pod)) (imap (container_msg (po_statuses pod)) (po_containers pod))).

Definition owned_pod (room : nat) (appID : string) (acc : list PodObj) (pod : PodObj) : ap (list PodObj) :=
  do! isOwned := checkOwnerAnnotations room (po_meta pod) (om_namespace (po_meta pod)) appID in
  ok (if isOwned : bool then acc ++ [pod] else acc).

Definition GetPodWorkloads (room : nat) (ctx : context) (appID clusterID : string) : ap (list AppWorkload) :=
  do! _ := getClient KubeClient ctx clusterID in
  do! _ := getClient DynamicClient ctx clusterID in
  do! appNamespace := adm.GetAppNamespace ctx appID in
  let excludeLabelSelector := LabelKeyForVirtHandler +:+ "!=virt-launcher" in
  do! pods := map_err K8sToTypedError (rcall (acall (AListPods appNamespace excludeLabelSelector))) in
  do! appPodList := nfold (owned_pod room appID) [] pods in
  ok (map pod_workload appPodList).

(** ** Endpoints *)

(** One entry of the annotation with the proxied ports, for the port [port];
    an entry with more than one colon is skipped. *)
Definition proxy_entry (service : ServiceObj) (projectID clusterID : string) (svcPort : ServicePort)
    (url : string) (pair : string) : res string :=
  let set protocol servicePort :=
    match parse_int32 servicePort with
    | None => Err (errorf (parse_int_error servicePort))
    | Some n =>
        Ok (if n =? svp_port svcPort then
              createServiceProxyURL (mkProxyURL domainName projectID clusterID
                (om_namespace (sv_meta service)) (om_name (sv_meta service)) servicePort protocol)
            else url)
    end in
  match split (trim_space pair) ":" with
  | [protocol; servicePort] => set protocol servicePort
  | [servicePort] => set "" servicePort
  | _ => Ok url
  end.

Definition service_port (service : ServiceObj) (projectID clusterID : string) (svcPort : ServicePort) : res PortMsg :=
  let port url := mkPort (svp_name svcPort) (svp_port svcPort) (svp_protocol svcPort) url in
  match om_annotations (sv_meta service) !! ServiceProxyPortAnnotation with
  | Some serviceProxyPorts =>
      try url := rfold (proxy_entry service projectID clusterID svcPort) "" (split serviceProxyPorts ",") in
      Ok (port url)
  | None => Ok (port "")
  end.

Definition getServicePorts (service : ServiceObj) (projectID clusterID : string) : res (list PortMsg) :=
  rfold (fun ports svcPort => try port := service_port service projectID clusterID svcPort in Ok (ports ++ [port]))
    [] (sv_ports service).

Definition service_ready (subsets : Z) (service : ServiceObj) : bool :=
  if subsets =? 0 then false
  else if bool_decide (sv_type service = "LoadBalancer") then negb (sv_lb_ingress service =? 0)
  else true.

Definition fqdns_of (annotations : gmap string string) : list string :=
  match annotations !! ExternalDNSAnnotation with
  | Some hostNameValue => split hostNameValue ","
  | None => []
  end.

Definition service_endpoint (projectID appID clusterID : string) (endpoints : list AppEndpoint) (service : ServiceObj) :
    ap (list AppEndpoint) :=
  if negb (bool_decide (mget (om_annotations (sv_meta service)) AnnotationKeyForAppID = appID)) then ok endpoints
  else
    do! ports := done (getServicePorts service projectID clusterID) in
    do! subsets := map_err K8sToTypedError
                     (rcall (acall (ACountSubsets (om_namespace (sv_meta service)) (om_name (sv_meta service))))) in
    ok (endpoints ++ [mkEndpoint (om_uid (sv_meta service)) (om_name (sv_meta service)) ports
      (fqdns_of (om_annotations (sv_meta service))) (service_ready subsets service)]).

Definition getServiceAppEndpointsV2 (projectID appID appNamespace clusterID : string) : ap (list AppEndpoint) :=
  do! services := map_err K8sToTypedError (rcall (acall (AListServices appNamespace))) in
  nfold (service_endpoint projectID appID clusterID) [] services.

(** [strings.Split] of the annotation, also when it is absent. *)
Definition ingress_fqdns (ingress : IngressObj) : list string :=
  let annotations := om_annotations (ing_meta ingress) in
  match annotations !! IngressHostnameSourceAnnotation with
  | Some hostnameSource =>
      if bool_decide (hostnameSource = AnnotationOnly) then split (mget annotations ExternalDNSAnnotation) ","
      else if bool_decide (hostnameSource = DefinedHostOnly) then
        match ing_rules ingress with rule :: _ => [ir_host rule] | [] => [] end
      else []
  | None => []
  end.

(** A path whose backend is not a service is dereferenced. *)
Definition path_port (tls : bool) (ports : list PortMsg) (path : option string) : maypanic (list PortMsg) :=
  match path with
  | None => Panics
  | Some name =>
      Returns (ports ++ [if tls then mkPort name 443 "HTTPS" "" else mkPort name 80 "HTTP" ""])
  end.

Definition rule_ports (tls : bool) (ports : list PortMsg) (rule : IngressRule) : maypanic (list PortMsg) :=
  match ir_http rule with
  | Some paths => mfold (path_port tls) ports paths
  | None => Returns ports
  end.

Definition ingress_endpoint (appID : string) (appEndpoints : list AppEndpoint) (ingress : IngressObj) :
    maypanic (list AppEndpoint) :=
  if negb (bool_decide (mget (om_annotations (ing_meta ingress)) AnnotationKeyForAppID = appID)) then Returns appEndpoints
  else
    unless_panic (mfold (rule_ports (ing_tls ingress)) [] (ing_rules ingress)) (fun ports =>
      Returns (appEndpoints ++ [mkEndpoint (om_uid (ing_meta ingress)) (om_name (ing_meta ingress)) ports
        (ingress_fqdns ingress) (negb (ing_lb_ingress ingress =? 0))])).

Definition getIngressAppEndpointsV2 (appID appNamespace : string) : ap (list AppEndpoint) :=
  do! ingresses := map_err K8sToTypedError (rcall (acall (AListIngresses appNamespace))) in
  of_maypanic (mfold (ingress_endpoint appID) [] ingresses).

Definition GetAppEndpointsV2 (ctx : context) (appID clusterID : string) : ap (list AppEndpoint) :=
  do! _ := getClient KubeClient ctx clusterID in
  do! appNamespace := adm.GetAppNamespace ctx appID in
  let activeProjectID := match opa.GetActiveProjectID ctx with Ok id => id | Err _ => "nil" end in
  do! serviceEndpoints := getServiceAppEndpointsV2 activeProjectID appID appNamespace clusterID in
  do! ingressEndpoints := getIngressAppEndpointsV2 appID appNamespace in
  ok (serviceEndpoints ++ ingressEndpoints).

End Manager.
