(* ===== verification/ArmValidate.v ===== *)
(** * The App Resource Manager: the validation of requests

    api/nbi/v2/resource/v2/*.pb.validate.go: [validate] of every request
    message.  Protobuf strings are valid UTF-8. *)

From Stdlib Require Import Ascii.
From S2P Require Import Prelude GoStr Types.

(** ** The patterns *)

Definition lower_alnum (c : ascii) : bool :=
  let n := nat_of_ascii c in (Nat.leb 97 n && Nat.leb n 122) || is_digit c.

Definition name_char (c : ascii) : bool := lower_alnum c || bool_decide (c = "-"%char).

Definition hex_char (c : ascii) : bool :=
  let n := nat_of_ascii c in is_digit c || (Nat.leb 97 n && Nat.leb n 102) || (Nat.leb 65 n && Nat.leb n 70).

(** [^[a-z0-9][a-z0-9-]{0,max}[a-z0-9]{0,1}$]: the last character is optional. *)
Definition bounded_pattern (max : nat) (s : string) : bool :=
  match to_list s with
  | [] => false
  | first :: rest =>
      lower_alnum first &&
      ((Nat.leb (length rest) max && forallb name_char rest) ||
       match rev rest with
       | [] => false
       | last :: middle => lower_alnum last && Nat.leb (length middle) max && forallb name_char middle
       end)
  end.

(** [^[a-z0-9]([-a-z0-9-]*[a-z0-9])?$] *)
Definition name_pattern (s : string) : bool :=
  match to_list s with
  | [] => false
  | first :: rest =>
      lower_alnum first &&
      match rev rest with
      | [] => true
      | last :: middle => lower_alnum last && forallb name_char middle
      end
  end.

(** [^[0-9a-fA-F]{8}-[0-9a-fA-F]{4}-[0-9a-fA-F]{4}-[0-9a-fA-F]{4}-[0-9a-fA-F]{12}$]:
    [groups] are the lengths of the groups still to come. *)
Fixpoint hex_groups (groups : list nat) (l : list ascii) : bool :=
  match groups with
  | [] => false
  | n :: more =>
      bool_decide (length (take n l) = n) && forallb hex_char (take n l) &&
      match more, drop n l with
      | [], rest => bool_decide (rest = [])
      | _, dash :: rest => bool_decide (dash = "-"%char) && hex_groups more rest
      | _, [] => false
      end
  end.

Definition uuid_pattern (s : string) : bool := hex_groups [8; 4; 4; 4; 12]%nat (to_list s).

(** [utf8.RuneCountInString] of valid UTF-8: the bytes that continue no rune. *)
Definition rune_count (s : string) : nat :=
  length (List.filter (fun c => negb (Nat.leb 128 (nat_of_ascii c) && Nat.ltb (nat_of_ascii c) 192)) (to_list s)).

(** ** Violations *)

Record violation : Type := mkViolation { v_field : string; v_reason : string; v_cause : string }.

#[export] Instance violation_eq_dec : EqDecision violation.
Proof. solve_decision. Defined.

(** [Error()] of the message's validation error. *)
Definition violation_text (message : string) (v : violation) : string :=
  "invalid " +:+ message +:+ "." +:+ v_field v +:+ ": " +:+ v_reason v +:+
  (if bool_decide (v_cause v = "") then "" else " | caused by: " +:+ v_cause v).

(** What [validate(all)] makes of the violations: the first one, or all of them. *)
Definition validation_result (message : string) (all : bool) (l : list violation) : option gerror :=
  match l with
  | [] => None
  | v :: _ => Some (errorf (if all then join (map (violation_text message) l) "; " else violation_text message v))
  end.

Definition dquoted (s : string) : string := String (ascii_of_nat 34) (s +:+ String (ascii_of_nat 34) "").

Definition check_rule (holds : bool) (v : violation) : list violation := if holds then [] else [v].

Definition length_rule (field : string) (max : nat) (s : string) : list violation :=
  check_rule (Nat.leb 1 (rune_count s) && Nat.leb (rune_count s) max)
    (mkViolation field ("value length must be between 1 and " +:+ itoa (Z.of_nat max) +:+ " runes, inclusive") "").

Definition pattern_rule (field pattern : string) (matches : bool) : list violation :=
  check_rule matches (mkViolation field ("value does not match regex pattern " +:+ dquoted pattern) "").

Definition app_rules (appID : string) : list violation :=
  length_rule "AppId" 80 appID ++
  pattern_rule "AppId" "^[a-z0-9][a-z0-9-]{0,78}[a-z0-9]{0,1}$" (bounded_pattern 78 appID).

Definition cluster_rules (clusterID : string) : list violation :=
  length_rule "ClusterId" 40 clusterID ++
  pattern_rule "ClusterId" "^[a-z0-9][a-z0-9-]{0,38}[a-z0-9]{0,1}$" (bounded_pattern 38 clusterID).

Definition name_rules (field name : string) : list violation :=
  length_rule field 253 name ++ pattern_rule field "^[a-z0-9]([-a-z0-9-]*[a-z0-9])?$" (name_pattern name).

Definition vm_rules (vmID : string) : list violation :=
  check_rule (uuid_pattern vmID) (mkViolation "VirtualMachineId" "value must be a valid UUID" "invalid uuid format").

(** ** The messages *)

Definition ListAppWorkloadsRequest_validate (all : bool) (appID clusterID : string) : option gerror :=
  validation_result "ListAppWorkloadsRequest" all (app_rules appID ++ cluster_rules clusterID).

Definition ListAppEndpointsRequest_validate (all : bool) (appID clusterID : string) : option gerror :=
  validation_result "ListAppEndpointsRequest" all (app_rules appID ++ cluster_rules clusterID).

Definition DeletePodRequest_validate (all : bool) (clusterID namespace podName : string) : option gerror :=
  validation_result "DeletePodRequest" all
    (cluster_rules clusterID ++ name_rules "Namespace" namespace ++ name_rules "PodName" podName).

Definition GetVNCRequest_validate (all : bool) (appID clusterID vmID : string) : option gerror :=
  validation_result "GetVNCRequest" all (app_rules appID ++ cluster_rules clusterID ++ vm_rules vmID).

Definition StartVirtualMachineRequest_validate (all : bool) (appID clusterID vmID : string) : option gerror :=
  validation_result "StartVirtualMachineRequest" all (app_rules appID ++ cluster_rules clusterID ++ vm_rules vmID).

Definition StopVirtualMachineRequest_validate (all : bool) (appID clusterID vmID : string) : option gerror :=
  validation_result "StopVirtualMachineRequest" all (app_rules appID ++ cluster_rules clusterID ++ vm_rules vmID).

Definition RestartVirtualMachineRequest_validate (all : bool) (appID clusterID vmID : string) : option gerror :=
  validation_result "RestartVirtualMachineRequest" all (app_rules appID ++ cluster_rules clusterID ++ vm_rules vmID).

Example uuid_sample : uuid_pattern "0f8fad5b-d9cb-469f-a165-70867728950e" = true /\ uuid_pattern "0f8fad5b-d9cb-469f-a165-7086772895" = false.
Proof. split; reflexivity. Qed.
