(* ===== verification/ArmVirt.v ===== *)
(** * The App Resource Manager: virtual machines and the service

    [internal/kubevirt] but for the console, the southbound handler and the
    methods of the gRPC services ([internal/northbound/services/v2/resource]). *)

From S2P Require Import Prelude Prog GoMonad GoStr Types NbEff ArmEff ArmKube ArmValidate.

Definition VNCWebSocketPrefix : string := "vnc".

Definition convertVMStatusV2 (printableStatus : string) : VMState :=
  default VMUnspecified (option_map snd (find_first (fun p => bool_decide (p.1 = printableStatus)) [
    ("Stopped", VMStopped); ("Provisioning", VMProvisioning); ("Starting", VMStarting); ("Running", VMRunning);
    ("Paused", VMPaused); ("Stopping", VMStopping); ("Terminating", VMTerminating);
    ("CrashLoopBackOff", VMCrashLoopBackoff); ("Migrating", VMMigrating); ("Unknown", VMUnspecified);
    ("ErrorUnschedulable", VMUnschedulable); ("ErrImagePull", VMErrImagePull); ("ImagePullBackOff", VMImagePullBackoff);
    ("ErrorPvcNotFound", VMPvcNotFound); ("DataVolumeError", VMDataVolumeError);
    ("WaitingForVolumeBinding", VMWaitingForVolumeBinding)])).

Definition convertAdminStatusV2 (runningStatus : option bool) : AdminState :=
  match runningStatus with
  | None => AdminUnspecified
  | Some true => AdminUp
  | Some false => AdminDown
  end.

Section Manager.
(** [sort.Slice] by identifier: some permutation in order; the rest is the
    library's affair. *)
Context (sort_by_id : list AppWorkload -> list AppWorkload).
(** [os.Getenv("OIDC_SERVER_URL")] when the manager is made. *)
Context (oidcURL : string).
Context (domainName : string) (parse_int_error : string -> string).

Definition vm_of_app (appID : string) (vm : VMObj) : bool :=
  bool_decide (mget (om_annotations (vmo_meta vm)) AnnotationKeyForAppID = appID).

Definition getKubevirtVirtualMachineList (ctx : context) (appID : string) : ap (list VMObj) :=
  do! appNamespace := adm.GetAppNamespace ctx appID in
  do! vmList := map_err K8sToTypedError (rcall (acall (AListVMs appNamespace))) in
  ok (base.filter (fun vm => vm_of_app appID vm = true) vmList).

Definition getKubevirtVirtualMachine (ctx : context) (appID vmID : string) : ap VMObj :=
  do! vmList := getKubevirtVirtualMachineList ctx appID in
  match find_first (fun vm => bool_decide (om_uid (vmo_meta vm) = vmID)) vmList with
  | Some vm => ok vm
  | None => fail (mkErr KNotFound ("failed to get VM (appID " +:+ appID +:+ ", vmID " +:+ vmID +:+ ")"))
  end.

Definition vm_workload (vm : VMObj) : AppWorkload :=
  mkWorkload (om_uid (vmo_meta vm)) (om_name (vmo_meta vm)) (om_namespace (vmo_meta vm)) (om_creation (vmo_meta vm))
    (vmo_ready vm) (WVirtualMachine (convertVMStatusV2 (vmo_status vm)) (convertAdminStatusV2 (vmo_running vm))).

Definition GetVMWorkloads (ctx : context) (appID clusterID : string) : ap (list AppWorkload) :=
  do! _ := getClient KubevirtClient ctx clusterID in
  do! vmList := getKubevirtVirtualMachineList ctx appID in
  ok (sort_by_id (map vm_workload vmList)).

(** [StartVM], [StopVM] and [RestartVM] are one text but for the call. *)
Inductive vm_action : Type := Start | Stop | Restart.

Definition vm_request (action : vm_action) : string -> string -> aeff :=
  match action with Start => AStartVM | Stop => AStopVM | Restart => ARestartVM end.

Definition vm_call (action : vm_action) (ns name : string) : ap unit :=
  match action with
  | Start => ecall (acall (AStartVM ns name))
  | Stop => ecall (acall (AStopVM ns name))
  | Restart => ecall (acall (ARestartVM ns name))
  end.

Definition act_on_vm (action : vm_action) (ctx : context) (appID clusterID vmID : string) : ap unit :=
  do! _ := getClient KubevirtClient ctx clusterID in
  do! vm := getKubevirtVirtualMachine ctx appID vmID in
  map_err K8sToTypedError (vm_call action (om_namespace (vmo_meta vm)) (om_name (vmo_meta vm))).

Definition StartVM : context -> string -> string -> string -> ap unit := act_on_vm Start.
Definition StopVM : context -> string -> string -> string -> ap unit := act_on_vm Stop.
Definition RestartVM : context -> string -> string -> string -> ap unit := act_on_vm Restart.

Definition vnc_address (cfg : WebSocketServer) (project appID clusterID vmID : string) : string :=
  ws_protocol cfg +:+ "://" +:+ ws_host cfg +:+ "/" +:+ VNCWebSocketPrefix +:+ "/" +:+ project +:+ "/" +:+
  appID +:+ "/" +:+ clusterID +:+ "/" +:+ vmID.

(** The token is only asked for; it is not part of the address. *)
Definition GetVNCAddress (ctx : context) (appID clusterID vmID : string) : ap string :=
  do! cfgModel := rcall (acall AConfig) in
  do! _ := getClient KubevirtClient ctx clusterID in
  do! _ := getKubevirtVirtualMachine ctx appID vmID in
  do! _ := (if bool_decide (oidcURL = "") then ok "" else rcall (acall AAuthFromMD)) in
  let activeProjectID := match opa.GetActiveProjectID ctx with Ok id => id | Err _ => "nil" end in
  ok (vnc_address cfgModel activeProjectID appID clusterID vmID).

(** ** [internal/southbound] *)

(** Workloads that are not found count as none. *)
Definition unless_not_found {A : Type} (p : ap (list A)) : ap (list A) :=
  do! r := catch p in
  match r with
  | Ok l => ok l
  | Err e => if is_not_found e then ok [] else fail e
  end.

Definition GetAppWorkLoads (room : nat) (ctx : context) (appID clusterID : string) : ap (list AppWorkload) :=
  do! vmWorkLoads := unless_not_found (GetVMWorkloads ctx appID clusterID) in
  do! podWorkLoads := unless_not_found (GetPodWorkloads room ctx appID clusterID) in
  ok (vmWorkLoads ++ podWorkLoads).

(** ** [internal/northbound] *)

(** A method with its request. *)
Inductive arpc : Type :=
  | ListAppWorkloads (appID clusterID : string)
  | ListAppEndpoints (appID clusterID : string)
  | DeletePodRpc (clusterID namespace podName : string)
  | GetVNC (appID clusterID vmID : string)
  | VirtualMachineRpc (action : vm_action) (appID clusterID vmID : string).

Inductive areply : Type :=
  | WorkloadsReply (l : list AppWorkload)
  | EndpointsReply (l : list AppEndpoint)
  | VNCReply (address : string)
  | EmptyReply.

(** The name of the Go type of the request, without the star. *)
Definition arequest_name (r : arpc) : string :=
  match r with
  | ListAppWorkloads _ _ => "resourcev2.ListAppWorkloadsRequest"
  | ListAppEndpoints _ _ => "resourcev2.ListAppEndpointsRequest"
  | DeletePodRpc _ _ _ => "resourcev2.DeletePodRequest"
  | GetVNC _ _ _ => "resourcev2.GetVNCRequest"
  | VirtualMachineRpc Start _ _ _ => "resourcev2.StartVirtualMachineRequest"
  | VirtualMachineRpc Stop _ _ _ => "resourcev2.StopVirtualMachineRequest"
  | VirtualMachineRpc Restart _ _ _ => "resourcev2.RestartVirtualMachineRequest"
  end.

(** The fields that must not be empty, and the message when one is. *)
Definition required (r : arpc) : list string * string :=
  match r with
  | ListAppWorkloads a c | ListAppEndpoints a c =>
      ([a; c], "Request is not valid; app ID or cluster ID is empty")
  | DeletePodRpc c ns p => ([p; ns; c], "Request is not valid; pod name or namespace or cluster ID is empty")
  | GetVNC a c v | VirtualMachineRpc _ a c v =>
      ([a; c; v], "Request is not valid; app ID or cluster ID or VM ID is empty")
  end.

(** [req.ValidateAll()] *)
Definition ValidateAll (r : arpc) : option gerror :=
  match r with
  | ListAppWorkloads a c => ListAppWorkloadsRequest_validate true a c
  | ListAppEndpoints a c => ListAppEndpointsRequest_validate true a c
  | DeletePodRpc c ns p => DeletePodRequest_validate true c ns p
  | GetVNC a c v => GetVNCRequest_validate true a c v
  | VirtualMachineRpc Start a c v => StartVirtualMachineRequest_validate true a c v
  | VirtualMachineRpc Stop a c v => StopVirtualMachineRequest_validate true a c v
  | VirtualMachineRpc Restart a c v => RestartVirtualMachineRequest_validate true a c v
  end.

Definition handle (room : nat) (ctx : context) (r : arpc) : ap areply :=
  match r with
  | ListAppWorkloads a c => do! l := GetAppWorkLoads room ctx a c in ok (WorkloadsReply l)
  | ListAppEndpoints a c => do! l := GetAppEndpointsV2 domainName parse_int_error ctx a c in ok (EndpointsReply l)
  | DeletePodRpc c ns p => do! _ := DeletePod ctx c ns p in ok EmptyReply
  | GetVNC a c v => do! address := GetVNCAddress ctx a c v in ok (VNCReply address)
  | VirtualMachineRpc Start a c v => do! _ := StartVM ctx a c v in ok EmptyReply
  | VirtualMachineRpc Stop a c v => do! _ := StopVM ctx a c v in ok EmptyReply
  | VirtualMachineRpc Restart a c v => do! _ := RestartVM ctx a c v in ok EmptyReply
  end.

(** The methods of the four services: the same checks, then the handler.
    [is_nil] is [req == nil]. *)
Definition aserve (room : nat) (has_opa : bool) (ctx : context) (is_nil : bool) (r : arpc) : ap areply :=
  if is_nil || bool_decide ("" ∈ (required r).1) then fail (mkErr KInvalid (required r).2)
  else
    match ValidateAll r with
    | Some e => fail (mkErr KInvalid (e_msg e))
    | None =>
    do! _ := map_err (fun e => mkErr KForbidden (e_msg e)) (opa.IsAuthorized ctx (arequest_name r) has_opa) in
    handle room ctx r
    end.

End Manager.
