(* ===== verification/ArmFacts.v ===== *)
(** * The App Resource Manager acts on the application it was asked about *)

From S2P Require Import Prelude Prog GoMonad GoStr Types NbEff ArmEff ArmKube ArmVirt.

(** Programs that leave the workloads of a cluster alone. *)
Abbreviation harmless := (nwps True (fun (e : aeff) (_ : aresp e) => True) (fun e => acts e = false)).

Lemma harmless_but {A : Type} (p : ap A) Q (e : aeff) :
  acts e = true -> harmless Q p -> nwps True (fun (e : aeff) (_ : aresp e) => True) (fun e' => e' <> e) (fun _ => True) p.
Proof.
  intros He Hp. eapply wp_mono; [| |exact (nwp_true _ _ _ _ Hp)].
  - intros e' He' ->. congruence.
  - by intros [[]| |].
Qed.

(** What the deployment manager is asked on behalf of a request goes to the
    project of the request. *)
Lemma outgoing_trace ctx t project :
  traces (adm.addToOutgoingContext ctx) t (Done (Ok project)) -> opa.GetActiveProjectID ctx = Ok project.
Proof.
  unfold adm.addToOutgoingContext. destruct (opa.GetActiveProjectID ctx) as [p|e]; intros H; nunfold H; congruence.
Qed.

Section Trace.
Context (ctx : context).

(** [e] was asked and answered with [r], for the project of the request. *)
Definition asked_for (t : list aevent) (e : string -> aeff) (r : forall p, aresp (e p)) : Prop :=
  exists project, opa.GetActiveProjectID ctx = Ok project /\ ev (e project) (r project) ∈ t.

Lemma outgoing_harmless : harmless (fun _ => True) (adm.addToOutgoingContext ctx).
Proof. unfold adm.addToOutgoingContext. nwp_go. by apply nwp_done. Qed.
#[local] Hint Resolve outgoing_harmless : nwp.

Lemma GetAppNamespace_trace a t ns :
  traces (adm.GetAppNamespace ctx a) t (Done (Ok ns)) ->
  asked_for t (fun p => AAppNamespace p a) (fun _ => Ok ns).
Proof.
  unfold adm.GetAppNamespace. intros H. apply traces_nbind in H as [(t1 & t2 & p & -> & H1 & H2)|(? & _ & _ & H)]; [|by destruct (H ns)].
  apply outgoing_trace in H1. nunfold H2. exists p. split; [done|]. set_solver.
Qed.

Lemma GetAppNamespace_harmless a : harmless (fun _ => True) (adm.GetAppNamespace ctx a).
Proof. unfold adm.GetAppNamespace. nwp_go. Qed.
#[local] Hint Resolve GetAppNamespace_harmless : nwp.

Lemma getClient_harmless kind c : harmless (fun _ => True) (getClient kind ctx c).
Proof. unfold getClient, adm.GetKubeConfig. nwp_go. Qed.
#[local] Hint Resolve getClient_harmless : nwp.

(** A client is made from the configuration of the cluster in the project. *)
Lemma getClient_trace kind c t :
  traces (getClient kind ctx c) t (Done (Ok tt)) ->
  exists kubeConfig, asked_for t (fun p => AKubeConfig p c) (fun _ => Ok (Some kubeConfig)).
Proof.
  unfold getClient. intros H. apply traces_nbind in H as [(t1 & t2 & k & -> & H1 & _)|(? & _ & _ & H)]; [|by destruct (H tt)].
  unfold adm.GetKubeConfig in H1. apply traces_nbind in H1 as [(t3 & t4 & p & -> & H3 & H4)|(? & _ & _ & H)]; [|by destruct (H k)].
  apply outgoing_trace in H3. nunfold H4; try done. eexists _, p. split; [done|].
  apply elem_of_app; left; apply elem_of_app; right. left.
Qed.

(** The machine found is one of the application's, and has the identifier. *)
Lemma getVM_trace a v t vm :
  traces (getKubevirtVirtualMachine ctx a v) t (Done (Ok vm)) ->
  exists ns vms, asked_for t (fun p => AAppNamespace p a) (fun _ => Ok ns) /\
    ev (R:=aresp) (AListVMs ns) (Ok vms) ∈ t /\
    vm ∈ vms /\ vm_of_app a vm = true /\ om_uid (vmo_meta vm) = v.
Proof.
  unfold getKubevirtVirtualMachine, getKubevirtVirtualMachineList. intros H.
  apply traces_nbind in H as [(t1 & t2 & l & -> & H1 & H2)|(? & _ & _ & H)]; [|by destruct (H vm)].
  apply traces_nbind in H1 as [(t3 & t4 & ns & -> & H3 & H4)|(? & _ & _ & H)]; [|by destruct (H l)].
  apply GetAppNamespace_trace in H3 as (p & Hp & Hin).
  nunfold H4; try done. match goal with r : aresp (AListVMs _) |- _ => destruct r end; simplify_eq.
  destruct (find_first _ _) as [vm'|] eqn:Hf; nunfold H2.
  apply find_first_Some in Hf as [Hf Hu]. apply list_elem_of_filter in Hf as [Ha Hvm]. reflect_guards.
  eexists ns, _. split; [exists p; split; [done|set_solver]|]. split; [|done].
  apply elem_of_app; left; apply elem_of_app; right. left.
Qed.

Lemma getVM_harmless a v : harmless (fun _ => True) (getKubevirtVirtualMachine ctx a v).
Proof. unfold getKubevirtVirtualMachine, getKubevirtVirtualMachineList. nwp_go. Qed.
#[local] Hint Resolve getVM_harmless : nwp.

Lemma IsAuthorized_harmless req b : harmless (fun _ => True) (opa.IsAuthorized ctx req b).
Proof. unfold opa.IsAuthorized. nwp_go. Qed.
#[local] Hint Resolve IsAuthorized_harmless : nwp.

Lemma IsAuthorized_trace req t :
  traces (opa.IsAuthorized ctx req true) t (Done (Ok tt)) ->
  ev (R:=aresp) (AOpa (rule_of req).1 (rule_of req).2) (Ok (OpaBool true)) ∈ t.
Proof.
  unfold opa.IsAuthorized. intros H. destruct (rule_of req) as [p n]. nunfold H; try done.
  all: repeat match goal with r : aresp _ |- _ => destruct r end; simplify_eq. all: cbn; right; left.
Qed.

End Trace.

(** What acting on a machine asks for, and which machine it acts upon. *)
Lemma act_on_vm_trace (act : vm_action) (ctx : context) (a c v : string) (t : list aevent) (o : outcome unit)
    (action : vm_action) (ns name : string) :
  traces (act_on_vm act ctx a c v) t o -> requested t (vm_request action ns name) ->
  act = action /\ exists kubeConfig appns vms vm,
    asked_for ctx t (fun project => AKubeConfig project c) (fun _ => Ok (Some kubeConfig)) /\
    asked_for ctx t (fun project => AAppNamespace project a) (fun _ => Ok appns) /\
    ev (R:=aresp) (AListVMs appns) (Ok vms) ∈ t /\
    vm ∈ vms /\ vm_of_app a vm = true /\ om_uid (vmo_meta vm) = v /\
    om_namespace (vmo_meta vm) = ns /\ om_name (vmo_meta vm) = name.
Proof.
  intros Ha Hr'. assert (acts (vm_request action ns name) = true) as He by by destruct action. unfold act_on_vm in Ha.
  apply nbind_request with (e := vm_request action ns name) in Ha as (t1 & t2 & [] & -> & H1 & Ha & Hr'');
    [|by eapply harmless_but; [done|apply getClient_harmless]|done].
  apply nbind_request with (e := vm_request action ns name) in Ha as (t3 & t4 & vm & -> & H3 & Ha & Hr3);
    [|by eapply harmless_but; [done|apply getVM_harmless]|done].
  destruct (getClient_trace ctx _ _ _ H1) as (kubeConfig & p & Hp & Hk).
  destruct (getVM_trace ctx _ _ _ _ H3) as (appns & vms & (p' & Hp' & Hns) & Hvms & Hvm & Happ & Huid).
  assert (act = action /\ om_namespace (vmo_meta vm) = ns /\ om_name (vmo_meta vm) = name) as (-> & Hn1 & Hn2).
  { destruct act; unfold vm_call in Ha; nunfold Ha; apply requested_cons in Hr3 as [Hr3|Hr3];
      try (by apply requested_nil in Hr3); destruct action; cbn in Hr3; by simplify_eq. }
  split; [done|]. exists kubeConfig, appns, vms, vm. split_and!; try done.
  - exists p. split; [done|]. set_solver.
  - exists p'. split; [done|]. set_solver.
  - set_solver.
Qed.

Lemma asked_for_mono (ctx : context) (t t' : list aevent) (e : string -> aeff) (r : forall p, aresp (e p)) :
  t ⊆ t' -> asked_for ctx t e r -> asked_for ctx t' e r.
Proof. intros Hs (p & Hp & Hin). exists p. split; [done|by apply Hs]. Qed.

(** ** The service *)

Section Service.
Context (sort_by_id : list AppWorkload -> list AppWorkload) (oidcURL domainName : string) (parse_int_error : string -> string).

Abbreviation serve := (aserve sort_by_id oidcURL domainName parse_int_error).

#[local] Hint Resolve outgoing_harmless GetAppNamespace_harmless getClient_harmless getVM_harmless IsAuthorized_harmless : nwp.

Lemma checkOwner_harmless room meta ns a : harmless (fun _ => True) (checkOwnerAnnotations room meta ns a).
Proof. revert meta. induction room as [|room IH]; intros meta; cbn [checkOwnerAnnotations]; nwp_go. Qed.
#[local] Hint Resolve checkOwner_harmless : nwp.

Lemma GetPodWorkloads_harmless room ctx a c : harmless (fun _ => True) (GetPodWorkloads room ctx a c).
Proof.
  unfold GetPodWorkloads. nwp_go. eapply nwp_true, (nwp_nfold _ _ (fun _ => True)); [done|].
  intros s x _ _. unfold owned_pod. nwp_go.
Qed.

Lemma GetVMWorkloads_harmless ctx a c : harmless (fun _ => True) (GetVMWorkloads sort_by_id ctx a c).
Proof. unfold GetVMWorkloads, getKubevirtVirtualMachineList. nwp_go. Qed.
#[local] Hint Resolve GetPodWorkloads_harmless GetVMWorkloads_harmless : nwp.

Lemma GetAppEndpoints_harmless ctx a c : harmless (fun _ => True) (GetAppEndpointsV2 domainName parse_int_error ctx a c).
Proof.
  unfold GetAppEndpointsV2. nwp_go.
  - unfold getServiceAppEndpointsV2. nwp_go. eapply nwp_true, (nwp_nfold _ _ (fun _ => True)); [done|].
    intros s x _ _. unfold service_endpoint. nwp_go. by apply nwp_done.
  - unfold getIngressAppEndpointsV2. nwp_go. by apply nwp_of_maypanic.
Qed.
#[local] Hint Resolve GetAppEndpoints_harmless : nwp.

(** The handlers that only read. *)
Definition reads_only (r : arpc) : bool :=
  match r with ListAppWorkloads _ _ | ListAppEndpoints _ _ | GetVNC _ _ _ => true | _ => false end.

Lemma reading_harmless room ctx r :
  reads_only r = true -> harmless (fun _ => True) (handle sort_by_id oidcURL domainName parse_int_error room ctx r).
Proof.
  destruct r; try done; intros _; unfold handle.
  - unfold GetAppWorkLoads, unless_not_found. nwp_go.
  - nwp_go.
  - unfold GetVNCAddress. nwp_go.
Qed.

(** The checks of [aserve]: what was asked before a request [e] that acts. *)
Lemma aserve_checked room ctx nil r t o e :
  traces (serve room true ctx nil r) t o -> requested t e -> acts e = true ->
  ev (R:=aresp) (AOpa (rule_of (arequest_name r)).1 (rule_of (arequest_name r)).2) (Ok (OpaBool true)) ∈ t /\
  exists t', t' ⊆ t /\ traces (handle sort_by_id oidcURL domainName parse_int_error room ctx r) t' o /\ requested t' e.
Proof.
  unfold aserve. intros H Hr He.
  destruct (nil || _); [destruct H as [-> _]; by apply requested_nil in Hr|].
  destruct (ValidateAll r); [destruct H as [-> _]; by apply requested_nil in Hr|].
  apply nbind_request with (e := e) in H as (t3 & t4 & [] & -> & H3 & H & Hr'); [|apply (harmless_but _ (fun _ => True)); [done|]; nwp_go|done].
  split.
  - apply traces_bind in H3 as (ta & tb & oa & -> & Ha & Hb). destruct oa as [[[]|]| |]; destruct Hb as [_ Hb]; try done.
    apply IsAuthorized_trace in Ha. set_solver.
  - exists t4. split; [set_solver|done].
Qed.

(** A machine is acted upon only by the handler of such a request. *)
Lemma serve_acts_on_vm (room : nat) (ctx : context) (nil : bool) (r : arpc) (t : list aevent) (o : outcome areply)
    (action : vm_action) (ns name : string) :
  traces (serve room true ctx nil r) t o -> requested t (vm_request action ns name) ->
  exists act a c v t' o', r = VirtualMachineRpc act a c v /\
    ev (R:=aresp) (AOpa (rule_of (arequest_name r)).1 (rule_of (arequest_name r)).2) (Ok (OpaBool true)) ∈ t /\
    t' ⊆ t /\ traces (act_on_vm act ctx a c v) t' o' /\ requested t' (vm_request action ns name).
Proof.
  intros H Hr. assert (acts (vm_request action ns name) = true) as He by by destruct action.
  destruct (aserve_checked _ _ _ _ _ _ _ H Hr He) as (Hopa & t' & Hsub & H' & Hr').
  destruct (reads_only r) eqn:Hro.
  { exfalso. destruct Hr' as [ans Hin].
    destruct (nwp_traces _ _ _ _ _ _ (reading_harmless room ctx r Hro) H') as [HF _]; [by apply Forall_forall|].
    rewrite Forall_forall in HF. specialize (HF _ Hin). cbn in HF. congruence. }
  clear H Hr. destruct r as [| |c pns pod| |act a c v]; try done; unfold handle in H'.
  { exfalso. apply nbind_request with (e := vm_request action ns name) in H' as (t1 & t2 & [] & -> & _ & [-> _] & Hr);
      [by apply requested_nil in Hr| |done].
    unfold DeletePod. apply nwp_seq; [eapply harmless_but; [done|apply getClient_harmless]|intros _].
    apply nwp_map_err, nwp_ecall. split; [by destruct action|done]. }
  assert (exists o', traces (act_on_vm act ctx a c v) t' o') as [o' Ha].
  { destruct act; unfold StartVM, StopVM, RestartVM in H'; apply traces_bind in H' as (t1 & t2 & o1 & -> & H1 & H2);
      (assert (t2 = []) as -> by (by destruct o1 as [[]| |]; destruct H2 as [-> _])); rewrite app_nil_r in *; eauto. }
  by exists act, a, c, v, t', o'.
Qed.

(** A virtual machine is started, stopped or restarted only at a request
    to do exactly that, which OPA allowed; only a machine that the cluster
    lists in the application's namespace, is labelled with the application and
    has the identifier of the request; and cluster and namespace are those the
    deployment manager gives for the project of the request. *)
Theorem vm_action_guarded (room : nat) (ctx : context) (nil : bool) (r : arpc) (t : list aevent) (o : outcome areply)
    (action : vm_action) (ns name : string) :
  traces (serve room true ctx nil r) t o -> requested t (vm_request action ns name) ->
  exists a c v kubeConfig appns vms vm,
    r = VirtualMachineRpc action a c v /\
    ev (R:=aresp) (AOpa (rule_of (arequest_name r)).1 (rule_of (arequest_name r)).2) (Ok (OpaBool true)) ∈ t /\
    asked_for ctx t (fun project => AKubeConfig project c) (fun _ => Ok (Some kubeConfig)) /\
    asked_for ctx t (fun project => AAppNamespace project a) (fun _ => Ok appns) /\
    ev (R:=aresp) (AListVMs appns) (Ok vms) ∈ t /\
    vm ∈ vms /\ vm_of_app a vm = true /\ om_uid (vmo_meta vm) = v /\
    om_namespace (vmo_meta vm) = ns /\ om_name (vmo_meta vm) = name.
Proof.
  intros H Hr. destruct (serve_acts_on_vm _ _ _ _ _ _ _ _ _ H Hr) as (act & a & c & v & t' & o' & -> & Hopa & Hs & Ha & Hr').
  destruct (act_on_vm_trace _ _ _ _ _ _ _ _ _ _ Ha Hr') as (-> & kubeConfig & appns & vms & vm & Hk & Hn & Hl & Hvm).
  exists a, c, v, kubeConfig, appns, vms, vm. split_and!; try tauto; [by eapply asked_for_mono..|by apply Hs].
Qed.

End Service.

(** ** A cluster with one machine *)

Definition sample_vm : VMObj :=
  mkVM (mkMeta "vm-1" "app-ns" "0f8fad5b-d9cb-469f-a165-70867728950e" 0 {[AnnotationKeyForAppID := "app-1"]} []) true "Running" (Some true).

Definition vnc_cfg : WebSocketServer := mkWS "wss" "vnc" 1 1 0 0 0 ["https://vnc"].

Definition no_gerror : option gerror := None.

Definition arm_answer (e : aeff) : aresp e :=
  match e return aresp e with
  | AConfig => Ok vnc_cfg
  | AOpaInput _ => no_gerror
  | AOpa _ _ => Ok (OpaBool true)
  | AToken => Ok "token"
  | ATokenLogout _ => no_gerror
  | AKubeConfig _ _ => Ok (Some "kubeconfig")
  | AAppNamespace _ _ => Ok "app-ns"
  | ARestConfig _ | ARateLimiter | ANewClient _ => no_gerror
  | AListPods _ _ => Ok []
  | ADeletePod _ _ => no_gerror
  | AGetOwner _ _ _ => Err (errorf "not found")
  | AListServices _ => Ok []
  | ACountSubsets _ _ => Ok 0
  | AListIngresses _ => Ok []
  | AListVMs _ => Ok [sample_vm]
  | AStartVM _ _ | AStopVM _ _ | ARestartVM _ _ => no_gerror
  | AAuthFromMD => Ok "token"
  | AIntercept _ project => Ok (Some {["activeprojectid" := [project]; "preferred_username" := ["alice"]]})
  | AIncreaseIP _ | ADecreaseIP _ | AIncreaseAccount _ | ADecreaseAccount _ => no_gerror
  | AVNC _ _ => no_gerror
  | AUpgrade => no_gerror
  | ARelay _ _ _ => no_gerror
  | AReply _ _ => tt
  end.

Definition arm_env : ahandler unit := fun e w => (arm_answer e, w).

Definition arm_log {A : Type} (p : aprog A) : list aevent := (run_log arm_env tt p).2.
Definition arm_result {A : Type} (p : aprog A) : A := (run_log arm_env tt p).1.1.

Lemma arm_traces {A : Type} (p : aprog A) : traces p (arm_log p) (arm_result p).
Proof. apply run_log_traces. Qed.

Definition restart_sample : ap areply :=
  aserve (fun l => l) "" "" (fun s => s) 5 true (Some {["activeprojectid" := ["project-1"]]}) false
    (VirtualMachineRpc Restart "app-1" "cluster-1" "0f8fad5b-d9cb-469f-a165-70867728950e").

Lemma vm_action_guarded_witness :
  arm_result restart_sample = Done (Ok EmptyReply) /\
  exists a c v kubeConfig appns vms vm,
    VirtualMachineRpc Restart "app-1" "cluster-1" "0f8fad5b-d9cb-469f-a165-70867728950e" = VirtualMachineRpc Restart a c v /\
    ev (R:=aresp) (AOpa "resourcev2" "RestartVirtualMachineRequest") (Ok (OpaBool true)) ∈ arm_log restart_sample /\
    asked_for (Some {["activeprojectid" := ["project-1"]]}) (arm_log restart_sample)
      (fun project => AKubeConfig project c) (fun _ => Ok (Some kubeConfig)) /\
    asked_for (Some {["activeprojectid" := ["project-1"]]}) (arm_log restart_sample)
      (fun project => AAppNamespace project a) (fun _ => Ok appns) /\
    ev (R:=aresp) (AListVMs appns) (Ok vms) ∈ arm_log restart_sample /\
    vm ∈ vms /\ vm_of_app a vm = true /\ om_uid (vmo_meta vm) = v /\
    om_namespace (vmo_meta vm) = "app-ns" /\ om_name (vmo_meta vm) = "vm-1".
Proof.
  split; [vm_compute; reflexivity|].
  exact (vm_action_guarded (fun l => l) "" "" (fun s => s) 5 (Some {["activeprojectid" := ["project-1"]]}) false
    (VirtualMachineRpc Restart "app-1" "cluster-1" "0f8fad5b-d9cb-469f-a165-70867728950e") (arm_log restart_sample) (arm_result restart_sample)
    Restart "app-ns" "vm-1" (arm_traces restart_sample)
    (ex_intro _ no_gerror (nth_event 12 (arm_log restart_sample) _ eq_refl))).
Defined.

(** ** Statuses of containers *)

(** The statuses a pod reports are matched with its containers by position:
    with the same statuses in another order, a container is shown with the state
    of another. *)
Theorem statuses_by_position (meta : ObjectMeta) :
  let pod statuses := mkPodObj meta "Running" [] [mkContainer "web" "nginx"; mkContainer "db" "pg"] statuses in
  let web := mkContainerStat "web" 0 StateRunning in
  let db := mkContainerStat "db" 7 (StateWaiting "CrashLoopBackOff" "") in
  wl_workload (pod_workload (pod [db; web])) =
    WPod PodRunning [mkContainerMsg "web" "nginx" 7 (Some (MsgWaiting "CrashLoopBackOff" ""));
                     mkContainerMsg "db" "pg" 0 (Some MsgRunning)].
Proof. reflexivity. Qed.

(** A path of an ingress whose backend is not a service ends the request in a panic. *)
Theorem resource_backend_panics (appID : string) (meta : ObjectMeta) (host : string) (tls : bool) (lb : Z) :
  mget (om_annotations meta) AnnotationKeyForAppID = appID ->
  ingress_endpoint appID [] (mkIngress meta [mkRule host (Some [None])] tls lb) = Panics.
Proof. intros H. unfold ingress_endpoint. cbn. by rewrite bool_decide_true. Qed.
