(* ===== verification/ArmReplies.v ===== *)
(** * The App Resource Manager: the rules for its replies

    api/nbi/v2/resource/v2/*.pb.validate.go: [validate] of the messages that a
    listing is made of.  The messages of timestamps have no rules, and no
    member of a oneof is a typed nil here. *)

From Stdlib Require Import Ascii.
From S2P Require Import Prelude Prog GoMonad GoStr Types NbEff ArmEff ArmKube ArmValidate ArmVirt ArmFacts.

Definition invalid_uuid : string := "invalid uuid format".

(** A message inside another. *)
Definition embedded (field : string) (e : option gerror) : list violation :=
  match e with Some e => [mkViolation field "embedded message failed validation" (e_msg e)] | None => [] end.

(** The members of a repeated field. *)
Definition members {A : Type} (field : string) (validate : A -> option gerror) (l : list A) : list violation :=
  concat (imap (fun i x => embedded (field +:+ "[" +:+ itoa (Z.of_nat i) +:+ "]") (validate x)) l).

Definition max_items (field : string) (max : nat) (n : nat) : list violation :=
  check_rule (Nat.leb n max) (mkViolation field ("value must contain no more than " +:+ itoa (Z.of_nat max) +:+ " item(s)") "").

Definition uuid_rule (field id : string) : list violation :=
  check_rule (uuid_pattern id) (mkViolation field "value must be a valid UUID" invalid_uuid).

(** ** Workloads *)

(** Messages without rules. *)
Definition ContainerStateWaiting_validate : option gerror := None.
Definition ContainerStateRunning_validate : option gerror := None.
Definition ContainerStateTerminated_validate : option gerror := None.
Definition PodStatus_validate : option gerror := None.

Definition ContainerStatus_validate (all : bool) (s : ContainerMsgState) : option gerror :=
  validation_result "ContainerStatus" all
    match s with
    | MsgNone => []
    | MsgWaiting _ _ => embedded "ContainerStateWaiting" ContainerStateWaiting_validate
    | MsgRunning => embedded "ContainerStateRunning" ContainerStateRunning_validate
    | MsgTerminated _ _ _ => embedded "ContainerStateTerminated" ContainerStateTerminated_validate
    end.

(** A status that is nil is valid. *)
Definition Container_validate (all : bool) (c : ContainerMsg) : option gerror :=
  validation_result "Container" all
    (length_rule "Name" 63 (cm_name c) ++
     pattern_rule "Name" "^[a-z0-9]([-a-z0-9-]*[a-z0-9])?$" (name_pattern (cm_name c)) ++
     match cm_status c with Some s => embedded "Status" (ContainerStatus_validate all s) | None => [] end).

Definition Pod_validate (all : bool) (containers : list ContainerMsg) : option gerror :=
  validation_result "Pod" all
    (max_items "Containers" 50 (length containers) ++ members "Containers" (Container_validate all) containers ++
     embedded "Status" PodStatus_validate).

Definition AdminStatus_validate : option gerror := None.
Definition VirtualMachineStatus_validate : option gerror := None.

Definition VirtualMachine_validate (all : bool) : option gerror :=
  validation_result "VirtualMachine" all
    (embedded "Status" VirtualMachineStatus_validate ++ embedded "AdminStatus" AdminStatus_validate).

Definition AppWorkload_validate (all : bool) (w : AppWorkload) : option gerror :=
  validation_result "AppWorkload" all
    (uuid_rule "Id" (wl_id w) ++ name_rules "Name" (wl_name w) ++
     match wl_workload w with
     | WVirtualMachine _ _ => embedded "VirtualMachine" (VirtualMachine_validate all)
     | WPod _ containers => embedded "Pod" (Pod_validate all containers)
     end).

Definition ListAppWorkloadsResponse_validate (all : bool) (l : list AppWorkload) : option gerror :=
  validation_result "ListAppWorkloadsResponse" all
    (max_items "AppWorkloads" 500 (length l) ++ members "AppWorkloads" (AppWorkload_validate all) l).

(** ** Endpoints *)

Section Endpoints.
(** The first rune of a text, in quotes. *)
Context (quoted_rune : list ascii -> string).

Definition bad_char (c : ascii) : bool := negb (lower_alnum c || bool_decide (c = "-"%char)).

Fixpoint from_bad (l : list ascii) : option (list ascii) :=
  match l with [] => None | c :: l' => if bad_char c then Some l else from_bad l' end.

Definition hostname_part (part : string) : option gerror :=
  let l := to_list part in
  if Nat.eqb (length l) 0 || Nat.ltb 63 (length l) then
    Some (errorf "hostname part must be non-empty and cannot exceed 63 characters")
  else if bool_decide (head l = Some "-"%char) then Some (errorf "hostname parts cannot begin with hyphens")
  else if bool_decide (last l = Some "-"%char) then Some (errorf "hostname parts cannot end with hyphens")
  else option_map (fun rest => errorf ("hostname parts can only contain alphanumeric characters or hyphens, got " +:+ quoted_rune rest))
         (from_bad l).

Definition validateHostname (host : string) : option gerror :=
  let s := to_lower (trim_suffix host ".") in
  if Nat.ltb 253 (String.length host) then Some (errorf "hostname cannot exceed 253 characters")
  else match omap hostname_part (split s ".") with e :: _ => Some e | [] => None end.

Definition Fqdn_validate (all : bool) (fqdn : string) : option gerror :=
  validation_result "Fqdn" all
    match validateHostname fqdn with
    | Some e => [mkViolation "Fqdn" "value must be a valid hostname" (e_msg e)]
    | None => []
    end.

Definition short_name_rules (field name : string) : list violation :=
  length_rule field 40 name ++ pattern_rule field "^[a-z0-9][a-z0-9-]{0,38}[a-z0-9]{0,1}$" (bounded_pattern 38 name).

Definition Port_validate (all : bool) (p : PortMsg) : option gerror :=
  validation_result "Port" all (short_name_rules "Name" (pt_name p)).

Definition EndpointStatus_validate : option gerror := None.

Definition AppEndpoint_validate (all : bool) (e : AppEndpoint) : option gerror :=
  validation_result "AppEndpoint" all
    (uuid_rule "Id" (ae_id e) ++ short_name_rules "Name" (ae_name e) ++
     max_items "Fqdns" 10 (length (ae_fqdns e)) ++ members "Fqdns" (Fqdn_validate all) (ae_fqdns e) ++
     max_items "Ports" 20 (length (ae_ports e)) ++ members "Ports" (Port_validate all) (ae_ports e) ++
     embedded "EndpointStatus" EndpointStatus_validate).

Definition ListAppEndpointsResponse_validate (all : bool) (l : list AppEndpoint) : option gerror :=
  validation_result "ListAppEndpointsResponse" all
    (max_items "AppEndpoints" 100 (length l) ++ members "AppEndpoints" (AppEndpoint_validate all) l).

End Endpoints.

(** ** The replies of the resource manager keep their own rules *)

(** ** Messages without violations *)

Lemma valid_iff m all l : validation_result m all l = None <-> l = [].
Proof. by destruct l. Qed.

Lemma valid_nil m all l : l = [] -> validation_result m all l = None.
Proof. apply valid_iff. Qed.

Lemma max_items_iff field max n : max_items field max n = [] <-> (n <= max)%nat.
Proof. unfold max_items, check_rule. destruct (Nat.leb_spec n max) as [H|H]; split; [done|done|done|lia]. Qed.

Lemma embedded_iff field e : embedded field e = [] <-> e = None.
Proof. by destruct e. Qed.

Lemma app_nil_iff {A : Type} (l l' : list A) : l ++ l' = [] <-> l = [] /\ l' = [].
Proof. destruct l; [by split; [|intros [_ H]]|by split; [|intros [H _]]]. Qed.

Lemma check_rule_ok b v : b = true -> check_rule b v = [].
Proof. by intros ->. Qed.

Lemma members_iff {A : Type} field (validate : A -> option gerror) l :
  members field validate l = [] <-> Forall (fun x => validate x = None) l.
Proof.
  unfold members.
  assert (H : forall (f : nat -> string) l, concat (imap (fun i x => embedded (f i) (validate x)) l) = [] <->
    Forall (fun x => validate x = None) l).
  { clear. intros f l. revert f. induction l as [|x l IH]; intros f; [done|].
    rewrite imap_cons. cbn [concat]. rewrite app_nil_iff, embedded_iff, Forall_cons.
    by rewrite <- (IH (fun i => f (S i))). }
  apply (H (fun i => field +:+ "[" +:+ itoa (Z.of_nat i) +:+ "]")).
Qed.

(** ** Objects as Kubernetes keeps them *)

Definition wf_name (max : nat) (name : string) : bool :=
  Nat.leb 1 (rune_count name) && Nat.leb (rune_count name) max && name_pattern name.

Definition wf_meta (m : ObjectMeta) : bool := uuid_pattern (om_uid m) && wf_name 253 (om_name m).

(** A pod as admission lets it in, with a name that is a label. *)
Definition wf_pod (p : PodObj) : bool :=
  wf_meta (po_meta p) && forallb (fun c => wf_name 63 (con_name c)) (po_containers p).

Definition wf_vm (vm : VMObj) : bool := wf_meta (vmo_meta vm).

(** What the cluster answered. *)
Definition answers_wf (t : list aevent) : Prop :=
  (forall ns sel pods, ev (R:=aresp) (AListPods ns sel) (Ok pods) ∈ t -> forallb wf_pod pods = true) /\
  (forall ns vms, ev (R:=aresp) (AListVMs ns) (Ok vms) ∈ t -> forallb wf_vm vms = true).

Lemma answers_wf_sub t t' : answers_wf t' -> t ⊆ t' -> answers_wf t.
Proof. intros [Hp Hv] Hs. split; intros *; intros H; [eapply Hp|eapply Hv]; by apply Hs. Qed.

(** ** Workloads *)

Lemma container_valid all statuses i c : wf_name 63 (con_name c) = true -> Container_validate all (container_msg statuses i c) = None.
Proof.
  intros [Hl Hp]%andb_true_iff. apply valid_nil. unfold length_rule, pattern_rule, container_msg.
  destruct (statuses !! i) as [st|]; cbn [cm_name cm_status]; rewrite !check_rule_ok by done; [|done].
  by destruct (cst_state st).
Qed.

Lemma Forall_imap {A B : Type} (P : B -> Prop) (f : nat -> A -> B) l :
  Forall (fun x => forall i, P (f i x)) l -> Forall P (imap f l).
Proof.
  revert f. induction l as [|x l IH]; intros f HF; [constructor|]. apply Forall_cons in HF as [Hx HF]. rewrite imap_cons.
  constructor; [apply Hx|]. apply IH. eapply Forall_impl; [exact HF|]. intros y Hy i. apply Hy.
Qed.

Lemma meta_rules m : wf_meta m = true -> uuid_rule "Id" (om_uid m) = [] /\ name_rules "Name" (om_name m) = [].
Proof.
  intros [Hu [Hl Hn]%andb_true_iff]%andb_true_iff. unfold uuid_rule, name_rules, length_rule, pattern_rule.
  by rewrite !check_rule_ok by done.
Qed.

(** Not a pod with more containers than the message of a pod may have. *)
Definition few_containers (w : AppWorkload) : Prop :=
  match wl_workload w with WPod _ containers => (length containers <= 50)%nat | WVirtualMachine _ _ => True end.

(** The one rule a workload may break. *)
Definition valid_if_few (all : bool) (w : AppWorkload) : Prop := AppWorkload_validate all w = None <-> few_containers w.

Lemma pod_valid all p : wf_pod p = true -> valid_if_few all (pod_workload p).
Proof.
  intros [Hm Hc]%andb_true_iff. unfold valid_if_few, AppWorkload_validate. rewrite valid_iff. destruct (meta_rules _ Hm) as [H1 H2].
  cbn [pod_workload wl_id wl_name wl_workload]. rewrite H1, H2. cbn [app].
  rewrite embedded_iff. unfold Pod_validate. rewrite valid_iff, !app_nil_iff, max_items_iff, members_iff.
  unfold few_containers. cbn [pod_workload wl_workload]. split; [by intros [? _]|]. intros Hn. split; [done|]. split; [|done].
  apply Forall_imap. rewrite forallb_forall in Hc. apply Forall_forall. intros c Hin i.
  apply container_valid, Hc. by apply list_elem_of_In.
Qed.

Lemma vm_valid all vm : wf_vm vm = true -> valid_if_few all (vm_workload vm).
Proof.
  intros Hm. split; [done|]. intros _. apply valid_nil. destruct (meta_rules _ Hm) as [H1 H2].
  cbn [vm_workload wl_id wl_name wl_workload]. by rewrite H1, H2.
Qed.

Section Replies.
Context (sort_by_id : list AppWorkload -> list AppWorkload) (oidcURL domainName : string) (parse_int_error : string -> string).

Lemma owned_pods_trace room a acc pods t l :
  traces (nfold (owned_pod room a) acc pods) t (Done (Ok l)) -> l ⊆ acc ++ pods.
Proof.
  revert acc t. induction pods as [|p pods IH]; cbn [nfold]; intros acc t H.
  - destruct H as [-> H]. injection H as ->. set_solver.
  - apply nbind_ok in H as (t1 & t2 & acc1 & -> & H1 & H). apply IH in H. unfold owned_pod in H1.
    apply nbind_ok in H1 as (t3 & t4 & b & -> & _ & [_ H1]). injection H1 as ->. destruct b; set_solver.
Qed.

Lemma pod_workloads_valid all room ctx a c t l :
  traces (GetPodWorkloads room ctx a c) t (Done (Ok l)) -> answers_wf t -> Forall (valid_if_few all) l.
Proof.
  unfold GetPodWorkloads. intros H Hwf. apply nbind_ok in H as (t1 & t2 & [] & -> & _ & H).
  apply nbind_ok in H as (t3 & t4 & [] & -> & _ & H). apply nbind_ok in H as (t5 & t6 & ns & -> & _ & H).
  apply nbind_ok in H as (t7 & t8 & pods & -> & H7 & H). apply nbind_ok in H as (t9 & t10 & own & -> & H9 & [-> H]).
  injection H as ->. apply owned_pods_trace in H9. cbn in H9.
  assert (forallb wf_pod pods = true) as Hp.
  { nunfold H7. match goal with Hr : Done _ = match ?r with _ => _ end |- _ => destruct r end; simplify_eq. destruct Hwf as [Hp _].
    eapply Hp. do 3 (apply elem_of_app; right). left. }
  rewrite forallb_forall in Hp. apply Forall_fmap, Forall_forall. intros p Hin. apply pod_valid, Hp, list_elem_of_In. by apply H9.
Qed.

(** [sort_by_id] only reorders. *)
Lemma vm_workloads_valid all ctx a c t l :
  (forall l, sort_by_id l ≡ₚ l) ->
  traces (GetVMWorkloads sort_by_id ctx a c) t (Done (Ok l)) -> answers_wf t -> Forall (valid_if_few all) l.
Proof.
  unfold GetVMWorkloads, getKubevirtVirtualMachineList. intros Hsort H Hwf. apply nbind_ok in H as (t1 & t2 & [] & -> & _ & H).
  apply nbind_ok in H as (t3 & t4 & vms & -> & H3 & [-> H]). injection H as ->.
  apply nbind_ok in H3 as (t5 & t6 & ns & -> & _ & H3). apply nbind_ok in H3 as (t7 & t8 & all_vms & -> & H7 & [-> H]). injection H as ->.
  assert (forallb wf_vm all_vms = true) as Hv.
  { nunfold H7. match goal with Hr : Done _ = match ?r with _ => _ end |- _ => destruct r end; simplify_eq. destruct Hwf as [_ Hv].
    eapply Hv. rewrite <- !app_assoc. do 2 (apply elem_of_app; right). left. }
  rewrite Hsort. rewrite forallb_forall in Hv. apply Forall_fmap, Forall_forall. intros vm Hin.
  apply list_elem_of_filter in Hin as [_ Hin]. by apply vm_valid, Hv, list_elem_of_In.
Qed.

Lemma unless_not_found_trace {A : Type} (p : ap (list A)) t l :
  traces (unless_not_found p) t (Done (Ok l)) -> l = [] \/ traces p t (Done (Ok l)).
Proof.
  unfold unless_not_found. intros H. apply nbind_ok in H as (t1 & t2 & r & -> & H1 & H). unfold catch in H1.
  apply traces_bind in H1 as (t3 & t4 & o & -> & H3 & H4). destruct o as [[x|e]| |]; destruct H4 as [-> H4]; simplify_eq.
  - destruct H as [-> H]. injection H as ->. right. by rewrite !app_nil_r.
  - destruct (is_not_found e); destruct H as [-> H]; [|done]. injection H as ->. by left.
Qed.

(** C37: What the service lists keeps the rules of its own API: if the cluster's
    objects are identified and named as Kubernetes does it (by UUIDs, and by labels, without dots),
    a workload of a reply is a valid message, with everything in it, unless and
    only unless it is a pod with more than the 50 containers the message may have
    (Kubernetes has no such limit), and the reply is valid if and only if it
    has no such pod and at most the 500 workloads the API allows. *)
Theorem listing_valid (room : nat) (has_opa nil all : bool) (ctx : context) (a c : string) (t : list aevent) (l : list AppWorkload) :
  (forall l, sort_by_id l ≡ₚ l) ->
  traces (aserve sort_by_id oidcURL domainName parse_int_error room has_opa ctx nil (ListAppWorkloads a c)) t (Done (Ok (WorkloadsReply l))) ->
  answers_wf t ->
  (forall w, w ∈ l -> AppWorkload_validate all w = None <-> few_containers w) /\
  (ListAppWorkloadsResponse_validate all l = None <-> (length l <= 500)%nat /\ forall w, w ∈ l -> few_containers w).
Proof.
  intros Hsort H Hwf.
  enough (Forall (valid_if_few all) l) as HF.
  { rewrite Forall_forall in HF. split; [done|]. unfold ListAppWorkloadsResponse_validate.
    rewrite valid_iff, app_nil_iff, max_items_iff, members_iff, Forall_forall.
    split; intros [Hl Hall]; (split; [done|]); intros w Hw; by apply (HF w Hw), Hall. }
  unfold aserve in H. destruct (nil || _); [by destruct H|]. destruct (ValidateAll _); [by destruct H|].
  apply nbind_ok in H as (t1 & t2 & [] & -> & _ & H). cbn [handle] in H.
  apply nbind_ok in H as (t3 & t4 & l' & -> & H & [-> Hl]). injection Hl as ->. unfold GetAppWorkLoads in H.
  apply nbind_ok in H as (t5 & t6 & vms & -> & Hv & H). apply nbind_ok in H as (t7 & t8 & pods & -> & Hp & [-> Hl]). injection Hl as ->.
  apply Forall_app. split.
  - apply unless_not_found_trace in Hv as [->|Hv]; [constructor|]. eapply vm_workloads_valid; [done|exact Hv|].
    eapply answers_wf_sub; [exact Hwf|set_solver].
  - apply unless_not_found_trace in Hp as [->|Hp]; [constructor|]. eapply pod_workloads_valid; [exact Hp|].
    eapply answers_wf_sub; [exact Hwf|set_solver].
Qed.

End Replies.

(** ** A listing *)

Definition listed_pod : PodObj :=
  mkPodObj (mkMeta "shop-7c9f" "app-ns" "6ba7b810-9dad-11d1-80b4-00c04fd430c8" 0 {[AnnotationKeyForAppID := "app-1"]} [])
    "Running" [("Ready", "True")] [mkContainer "web" "nginx"] [mkContainerStat "web" 1 StateRunning].

Definition list_answer (e : aeff) : aresp e :=
  match e return aresp e with AListPods _ _ => Ok [listed_pod] | e' => arm_answer e' end.

Definition list_env : ahandler unit := fun e w => (list_answer e, w).

Definition list_sample : ap areply :=
  aserve (fun l => l) "" "" (fun s => s) 5 true (Some {["activeprojectid" := ["project-1"]]}) false (ListAppWorkloads "app-1" "cluster-1").

Definition list_log : list aevent := (run_log list_env tt list_sample).2.

Definition listed : list AppWorkload := [vm_workload sample_vm; pod_workload listed_pod].

Lemma list_run : (run_log list_env tt list_sample).1.1 = Done (Ok (WorkloadsReply listed)).
Proof. vm_compute. reflexivity. Qed.

Definition wf_event (x : aevent) : bool :=
  match x with
  | existT (AListPods _ _) (Ok pods) => forallb wf_pod pods
  | existT (AListVMs _) (Ok vms) => forallb wf_vm vms
  | _ => true
  end.

Lemma list_answers : answers_wf list_log.
Proof.
  assert (Hall : forallb wf_event list_log = true) by (vm_compute; reflexivity).
  rewrite forallb_forall in Hall. split; intros *; intros H; exact (Hall _ (proj1 (list_elem_of_In _ _) H)).
Qed.

Lemma list_traces : traces list_sample list_log (Done (Ok (WorkloadsReply listed))).
Proof. exact (eq_ind _ (fun o => traces list_sample list_log o) (run_log_traces list_env list_sample tt) _ list_run). Qed.

Lemma listing_valid_witness :
  length listed = 2%nat /\ ListAppWorkloadsResponse_validate true listed = None.
Proof.
  split; [reflexivity|].
  pose proof (listing_valid (fun l => l) "" "" (fun s => s) 5 true false true (Some {["activeprojectid" := ["project-1"]]})
    "app-1" "cluster-1" list_log listed (fun l => Permutation_refl l) list_traces list_answers) as [_ [_ H]].
  apply H. split; [vm_compute; lia|].
  intros w [->|[->|Hw]%elem_of_cons]%elem_of_cons; [vm_compute; lia..|by apply elem_of_nil in Hw].
Defined.

(** A service with a port without a name, which Kubernetes allows, makes an
    endpoint that its API does not. *)
Example unnamed_port_invalid quoted_rune ready :
  ListAppEndpointsResponse_validate quoted_rune true
    [mkEndpoint "6ba7b810-9dad-11d1-80b4-00c04fd430c8" "shop" [mkPort "" 80 "TCP" ""] [] ready] <> None.
Proof. vm_compute. done. Qed.

(** A pod whose name has a dot, which Kubernetes allows, makes a workload that its
    API does not. *)
Example dotted_name_invalid :
  AppWorkload_validate true (mkWorkload "6ba7b810-9dad-11d1-80b4-00c04fd430c8" "shop.v1" "app-ns" 0 true (WPod PodRunning [])) <> None.
Proof. vm_compute. done. Qed.
