(* ===== verification/WsProxy.v ===== *)
(** * The App Resource Manager: session counters and the copying of a console
      ([internal/wsproxy]) *)

From S2P Require Import Prelude GoStr.

(** ** [counter.go]

    A counter is shared by all handlers and its operations run under its
    lock; [limit] is what [getMaxLimit] returned before the lock was taken. *)

Inductive CounterType : Type := CounterTypeUnknown | CounterTypeIP | CounterTypeAccount.

Abbreviation counter_store := (gmap string Z).

(** The limits of the configuration file, as [GetConfigModel] read them. *)
Definition getMaxLimit (t : CounterType) (config : res (Z * Z)) : res Z :=
  match t with
  | CounterTypeIP => try limits := config in Ok limits.1
  | CounterTypeAccount => try limits := config in Ok limits.2
  | CounterTypeUnknown =>
      Err (mkErr KInvalid "received counter type is invalid - not defined: counterType CounterTypeUnknown")
  end.

Definition Increase (limit : res Z) (key : string) (store : counter_store) : counter_store * option gerror :=
  match limit with
  | Err e => (store, Some (mkErr KNotFound ("failed to retrieve limit value in config file: err " +:+ e_msg e)))
  | Ok limit =>
      let v := default 0 (store !! key) in
      let store := match store !! key with None => <[key := 1]> store | Some _ => store end in
      if (0 <? limit) && (limit <? wrap64 (v + 1)) then
        (store, Some (mkErr KForbidden ("exceeding count limit: limit " +:+ itoa limit +:+ ", key " +:+ key)))
      else (<[key := wrap64 (v + 1)]> store, None)
  end.

Definition Decrease (key : string) (store : counter_store) : counter_store * option gerror :=
  match store !! key with
  | None => (store, Some (mkErr KNotFound ("failed to find the value from counter: key " +:+ key)))
  | Some v =>
      if v <? 1 then
        (store, Some (mkErr KInvalid
          ("failed to decrease value since the decreased value will be negative: key " +:+ key +:+ ", value " +:+ itoa v)))
      else (<[key := v - 1]> store, None)
  end.

(** ** [forwarding.go] *)

Inductive read_err : Type := EOF | ReadErr (e : gerror).

(** One round of the loop: what [src.Read] returned, unless the timer was first. *)
Inductive round (A : Type) : Type :=
  | Read (data : list A) (err : option read_err)
  | Idle.
Arguments Read {A} data err.
Arguments Idle {A}.

Section Copy.
Context {A : Type}.

(** [dst.Write] of the bytes: how many it took, and its error. *)
Variable write : list A -> Z * option gerror.

(** The loop of [CopyBufferWithIdleTimeout], for a source that is no [WriterTo]
    and a destination that is no [ReaderFrom]: what it did in the rounds there
    were.  The reading goroutine sends an error before the count, and the loop
    returns on the first it receives.  [None] is a loop still waiting. *)
Fixpoint CopyBufferWithIdleTimeout (rounds : list (round A)) (written : Z) : list (list A) * option (Z * option gerror) :=
  match rounds with
  | [] => ([], None)
  | Idle :: _ => ([], Some (written, Some (mkErr KTimeout "idle timeout")))
  | Read _ (Some EOF) :: _ => ([], Some (written, None))
  | Read _ (Some (ReadErr e)) :: _ => ([], Some (written, Some e))
  | Read data None :: rounds =>
      let nr := zlen data in
      if 0 <? nr then
        let (nw, ew) := write data in
        let bad := (nw <? 0) || (nr <? nw) in
        let ew := if bad then Some (default (mkErr KInvalid "invalid write result") ew) else ew in
        let nw := if bad then 0 else nw in
        let written := wrap64 (written + nw) in
        match ew with
        | Some e => ([data], Some (written, Some e))
        | None =>
            if negb (nr =? nw) then ([data], Some (written, Some (mkErr KUnavailable "short buffer error")))
            else let (sent, r) := CopyBufferWithIdleTimeout rounds written in (data :: sent, r)
        end
      else CopyBufferWithIdleTimeout rounds written
  end.

End Copy.

(** ** What the copying of a console passes on *)

Section CopyFacts.
Context {A : Type}.

Abbreviation copy := (@CopyBufferWithIdleTimeout A).

(** What the source has delivered up to a round that ends the copying. *)
Fixpoint delivered (rounds : list (round A)) : list A :=
  match rounds with
  | Read data None :: rounds => data ++ delivered rounds
  | _ => []
  end.

(** What is written is an initial part of what was read, in order, whole
    reads at a time and no byte twice, whatever the destination answers; and
    if it takes all it is given, nothing read before the end is missing, and
    the number returned is the number of bytes. *)
Theorem copy_in_order (write : list A -> Z * option gerror) (rounds : list (round A)) :
  (exists rest, concat (copy write rounds 0).1 ++ rest = delivered rounds) /\
  ((forall data, write data = (zlen data, None)) -> zlen (delivered rounds) < 2^63 ->
   concat (copy write rounds 0).1 = delivered rounds /\
   forall n err, (copy write rounds 0).2 = Some (n, err) -> n = zlen (delivered rounds)).
Proof.
  assert (H : forall written,
    (exists rest, concat (copy write rounds written).1 ++ rest = delivered rounds) /\
    ((forall data, write data = (zlen data, None)) -> 0 <= written -> written + zlen (delivered rounds) < 2^63 ->
     concat (copy write rounds written).1 = delivered rounds /\
     forall n err, (copy write rounds written).2 = Some (n, err) -> n = written + zlen (delivered rounds))).
  2: { destruct (H 0) as [H1 H2]. split; [done|]. intros Hw Hl. by apply H2. }
  induction rounds as [|[data [[|e]|]|] rounds IH]; intros written; cbn.
  1,2,3,5: split; [by exists []|]; intros _ _ _; split; [done|]; intros n err Hn; simplify_eq; unfold zlen; cbn; lia.
  destruct (0 <? zlen data) eqn:Hn0.
  - apply Z.ltb_lt in Hn0. destruct (write data) as [nw ew] eqn:Hw.
    set (bad := (nw <? 0) || (zlen data <? nw)). set (nw' := if bad then 0 else nw).
    destruct (if bad then _ else ew) as [e|] eqn:Hew.
    { split; [by exists (delivered rounds); cbn; rewrite app_nil_r|]. intros Hall. exfalso.
      rewrite Hall in Hw. injection Hw as <- <-. subst bad. rewrite Z.ltb_irrefl, orb_false_r in Hew.
      destruct (zlen data <? 0) eqn:E; [apply Z.ltb_lt in E; lia|done]. }
    destruct (negb (zlen data =? nw')) eqn:Hs.
    { split; [by exists (delivered rounds); cbn; rewrite app_nil_r|]. intros Hall. exfalso.
      rewrite Hall in Hw. injection Hw as <- <-. subst nw' bad. rewrite Z.ltb_irrefl, orb_false_r in Hs.
      destruct (zlen data <? 0) eqn:E; [apply Z.ltb_lt in E; lia|]. by rewrite Z.eqb_refl in Hs. }
    apply negb_false_iff, Z.eqb_eq in Hs. rewrite <- Hs.
    destruct (IH (wrap64 (written + zlen data))) as [[rest Hrest] IH2].
    destruct (copy write rounds (wrap64 (written + zlen data))) as [sent r] eqn:Hc. cbn in *. split.
    + exists rest. by rewrite <- app_assoc, Hrest.
    + intros Hall Hpos Hlt. rewrite zlen_app in *. pose proof (zlen_nonneg (delivered rounds)).
      rewrite wrap64_small in IH2 by lia. destruct (IH2 Hall) as [E1 E2]; [lia|lia|].
      split; [by rewrite E1|]. intros n err Hr. rewrite (E2 n err Hr). lia.
  - apply Z.ltb_ge in Hn0. assert (data = []) as -> by (apply zlen_nil_inv; pose proof (zlen_nonneg data); lia). apply IH.
Qed.

(** Bytes that come together with an error, or with the end of the stream, are lost. *)
Theorem last_bytes_lost (write : list A -> Z * option gerror) (data : list A) (e : read_err) :
  (copy write [Read data (Some e)] 0).1 = [] /\ exists err, (copy write [Read data (Some e)] 0).2 = Some (0, err).
Proof. destruct e; cbn; eauto. Qed.

End CopyFacts.

Definition greedy (data : list Z) : Z * option gerror := (zlen data, None).

Lemma copy_in_order_witness :
  concat (CopyBufferWithIdleTimeout greedy [Read [1; 2] None; Read [] None; Read [3] None; Idle] 0).1 = [1; 2; 3].
Proof.
  refine (proj1 (proj2 (copy_in_order greedy [Read [1; 2] None; Read [] None; Read [3] None; Idle]) _ _)).
  - reflexivity.
  - vm_compute. reflexivity.
Defined.
