(* ===== verification/Vnc.v ===== *)
(** * The App Resource Manager: the console of a virtual machine

    The handler of a console's WebSocket ([kubevirt.GetVNCWebSocketHandler],
    [vnc.go]), registered by the VNC proxy.  The session counters are requests
    here; [WsProxy] says how they are answered. *)

From S2P Require Import Prelude Prog GoMonad GoStr Types NbEff ArmEff ArmKube ArmVirt.

Definition CookieKeyCloakTokens : string := "keycloak-tokens".
Definition CookieKeyCloakTokenPrefix : string := "keycloak-token-".

(** What the handler reads of an HTTP request; a header that is absent is "". *)
Record HttpRequest : Type := mkRequest {
  hr_path : string;
  hr_origin : string;
  hr_forwarded_host : string;
  hr_forwarded_for : string;
  hr_cookies : list (string * string)
}.

Record vncPath : Type := mkVncPath { vp_project : string; vp_app : string; vp_cluster : string; vp_vm : string }.

Definition newVNCPath (path : string) : res vncPath :=
  match split path "/" with
  | [""; prefix; project; app; cluster; vm] =>
      if bool_decide (prefix = VNCWebSocketPrefix) then Ok (mkVncPath project app cluster vm)
      else Err (mkErr KInvalid ("wrong VNC path format: path-" +:+ path))
  | _ => Err (mkErr KInvalid ("wrong VNC path format: path-" +:+ path))
  end.

(** [req.Cookie(name)]: the first cookie of the name. *)
Definition Cookie (cookies : list (string * string)) (name : string) : res string :=
  match find_first (fun c => bool_decide (c.1 = name)) cookies with
  | Some c => Ok c.2
  | None => Err (errorf "http: named cookie not present")
  end.

(** [strconv.Atoi] *)
Definition Atoi (s : string) : res Z :=
  match parse_int64 s with
  | Some n => Ok n
  | None => Err (errorf ("strconv.Atoi: parsing " +:+ s))
  end.

(** The loop over the numbered cookies: [togo] of them to go. *)
Fixpoint token_parts (cookies : list (string * string)) (prefix : string) (num : Z) (togo : nat) : res (list string) :=
  match togo with
  | O => Ok []
  | S togo =>
      try part := Cookie cookies (prefix +:+ itoa num) in
      try parts := token_parts cookies prefix (num + 1) togo in
      Ok (part :: parts)
  end.

Definition getCombinedJWTToken (cookies : list (string * string)) : res string :=
  try numTokenCookiesStr := Cookie cookies CookieKeyCloakTokens in
  try numTokenCookies := Atoi numTokenCookiesStr in
  try tokenParts := token_parts cookies CookieKeyCloakTokenPrefix 0 (Z.to_nat numTokenCookies) in
  Ok (join tokenParts "").

(** [setErrorStatus] and [return] *)
Definition refuse (code : Z) (msg : string) (e : gerror) : ap unit :=
  pbind (acall (AReply code (msg +:+ e_msg e))) (fun _ => ok tt).

(** The rest of the handler where there is no error. *)
Definition or_refuse {A : Type} (code : Z) (msg : string) (p : ap A) (f : A -> ap unit) : ap unit :=
  do! r := catch p in
  match r with
  | Ok a => f a
  | Err e => refuse code msg e
  end.

Section Handler.
(** [m.tokenCheck], [opa.IsOPAEnabled()], [opaClient != nil]. *)
Context (tokenCheck opaEnabled has_opa : bool).

(** After the sessions are counted: connect, and copy until one side stops. *)
Definition console (cfg : WebSocketServer) (outCtx : context) (path : vncPath) : ap unit :=
  or_refuse 404 "failed to get kubevirt client, error: " (getClient KubevirtClient outCtx (vp_cluster path)) (fun _ =>
  or_refuse 404 "failed to get VNC stream, error: "
    (do! vm := getKubevirtVirtualMachine outCtx (vp_app path) (vp_vm path) in
     ecall (acall (AVNC (om_namespace (vmo_meta vm)) (om_name (vmo_meta vm))))) (fun _ =>
  or_refuse 400 "failed to call websocket upgrade, error: " (ecall (acall AUpgrade)) (fun _ =>
  do! _ := catch (ecall (acall (ARelay (ws_read_limit cfg) (ws_dl_idle cfg) (ws_ul_idle cfg)))) in
  ok tt))).

(** The loop over the accounts returns at the first that is refused. *)
Fixpoint increase_accounts (accounts : list string) (rest : ap unit) : ap unit :=
  match accounts with
  | [] => rest
  | account :: accounts =>
      or_refuse 429 ("session request per account exceeds the limit, account: " +:+ account +:+ ", err: ")
        (ecall (acall (AIncreaseAccount account))) (fun _ => increase_accounts accounts rest)
  end.

Definition decrease_accounts (accounts : list string) : aprog unit :=
  pfor accounts (fun account => pbind (acall (ADecreaseAccount account)) (fun _ => Ret tt)).

Definition sessions (remoteIP : string) (accounts : list string) (rest : ap unit) : ap unit :=
  or_refuse 429 ("session request per IP exceeds the limit, ip: " +:+ remoteIP +:+ ", error: ")
    (ecall (acall (AIncreaseIP remoteIP))) (fun _ =>
  with_defer (pbind (acall (ADecreaseIP remoteIP)) (fun _ => Ret tt))
    (increase_accounts accounts (with_defer (decrease_accounts accounts) rest))).

(** The context of the session and its accounts. *)
Definition vnc_request : string := "resourcev2.GetVNCRequest".

Definition authorize_session (tokenString : string) (path : vncPath) (f : context -> list string -> ap unit) : ap unit :=
  if opaEnabled then
    or_refuse 401 "failed to parse token string, error: "
      (rcall (acall (AIntercept tokenString (vp_project path)))) (fun outCtx =>
    or_refuse 401 "access denied by OPA rules, error: " (opa.IsAuthorized outCtx vnc_request has_opa) (fun _ =>
    match outCtx with
    | None => refuse 401 "failed to get username from token, error: " (errorf "<nil>")
    | Some md => f outCtx (default [] (md !! "preferred_username"))
    end))
  else f None [].

Definition GetVNCWebSocketHandler (r : HttpRequest) : ap unit :=
  or_refuse 500 "failed to get config model, err: " (rcall (acall AConfig)) (fun cfg =>
  let origin := hr_origin r in
  let remoteIP := hd "" (split (hr_forwarded_for r) ",") in
  if negb (bool_decide (origin ∈ ws_origins cfg)) then
    refuse 403 "failed to validate http origin due to no or wrong origins in http header, " (errorf
      ("received origins: " +:+ origin +:+ ", allowed origins: [" +:+ join (ws_origins cfg) " " +:+ "]"))
  else if negb (bool_decide (hr_forwarded_host r = ws_host cfg)) then
    refuse 403 "failed to validate http origin due to no or wrong forwarded host info, " (errorf
      ("received forwarded host: " +:+ hr_forwarded_host r +:+ ", expected forwarded host: " +:+ ws_host cfg))
  else
    or_refuse 400 "cannot get JWT token to Authenticate: "
      (done (if tokenCheck then getCombinedJWTToken (hr_cookies r) else Ok "")) (fun tokenString =>
    or_refuse 404 "failed to parse VNC path, error: " (done (newVNCPath (hr_path r))) (fun path =>
    authorize_session tokenString path (fun outCtx accounts =>
    sessions remoteIP accounts (console cfg outCtx path))))).

End Handler.
