(* ===== verification/VncFacts.v ===== *)
(** * Sessions are counted

    Any number of console handlers run at once and share the two counters, whose
    operations are atomic.  [reach] is their interleaving: each step lets one
    handler issue its next request, and a request to a counter is answered by
    the counter's own code ([WsProxy.Increase], [WsProxy.Decrease]) in the
    state the counters are in. *)

From S2P Require Import Prelude Prog GoMonad GoStr Types NbEff ArmEff ArmKube ArmVirt WsProxy Vnc.

(** ** A program with a ghost count

    [delta] is what an answered request adds to the count.  [keeps]: from [h] on,
    the count stays in bounds whatever is answered (in [K]), and [fin] holds at
    the end. *)
Section Ghost.
Context {E : Type} {R : E -> Type} (K : forall e, R e -> Prop) (delta : forall e, R e -> Z) (inside : Z -> Prop).

Fixpoint keeps {A : Type} (h : Z) (p : prog E R A) (fin : A -> Z -> Prop) : Prop :=
  match p with
  | Ret a => fin a h
  | Vis e k => forall r, K e r -> inside (h + delta e r) /\ keeps (h + delta e r) (k r) fin
  end.

Definition held (t : list (event E R)) : Z := foldr (fun x h => delta (projT1 x) (projT2 x) + h) 0 t.

Lemma held_app t1 t2 : held (t1 ++ t2) = held t1 + held t2.
Proof. unfold held. induction t1 as [|x t1 IH]; cbn; [done|]. rewrite IH. lia. Qed.

Lemma keeps_bind {A B : Type} h (p : prog E R A) (f : A -> prog E R B) fin fin' :
  keeps h p fin -> (forall a h', fin a h' -> keeps h' (f a) fin') -> keeps h (pbind p f) fin'.
Proof.
  revert h. induction p as [a|e k IH]; cbn; intros h Hp Hf; [auto|].
  intros r Hr. destruct (Hp r Hr). split; [done|]. by apply IH.
Qed.

Lemma keeps_mono {A : Type} h (p : prog E R A) (fin fin' : A -> Z -> Prop) :
  (forall a h', fin a h' -> fin' a h') -> keeps h p fin -> keeps h p fin'.
Proof.
  intros Hf. revert h. induction p as [a|e k IH]; cbn; intros h Hp; [auto|].
  intros r Hr. destruct (Hp r Hr). split; [done|]. by apply IH.
Qed.

(** Requests that do not count. *)
Lemma keeps_free {A : Type} h (p : prog E R A) :
  inside h -> issues (fun e => forall r, delta e r = 0) p -> keeps h p (fun _ h' => h' = h).
Proof.
  intros Hh. induction p as [a|e k IH]; cbn; [done|]. intros [He Hk] r _. rewrite He, Z.add_0_r. auto.
Qed.

(** [t] is what a run of [p] has done so far. *)
Fixpoint partial {A : Type} (p : prog E R A) (t : list (event E R)) {struct t} : Prop :=
  match t with
  | [] => True
  | x :: t =>
      match p with
      | Ret _ => False
      | Vis e k => exists r, x = ev e r /\ partial (k r) t
      end
  end.

Lemma partial_prefix {A : Type} (p : prog E R A) t1 t2 : partial p (t1 ++ t2) -> partial p t1.
Proof.
  revert p. induction t1 as [|x t1 IH]; intros p; cbn; [done|]. destruct p as [a|e k]; [done|].
  intros (r & -> & H). exists r. split; [done|]. by eapply IH.
Qed.

Lemma keeps_partial {A : Type} (p : prog E R A) fin h t :
  keeps h p fin -> partial p t -> Forall (fun x => K (projT1 x) (projT2 x)) t -> inside h -> inside (h + held t).
Proof.
  revert h t. induction p as [a|e k IH]; intros h [|x t] Hp Ht HK Hh; try done;
    try (change (held []) with 0; by rewrite Z.add_0_r).
  destruct Ht as (r & -> & Ht). apply Forall_cons in HK as [Hr HK]. destruct (Hp r Hr) as [Hin Hk].
  change (held (ev e r :: t)) with (delta e r + held t). rewrite Z.add_assoc. by apply (IH r).
Qed.

Lemma keeps_finished {A : Type} (p : prog E R A) fin a h t :
  keeps h p fin -> traces p t a -> Forall (fun x => K (projT1 x) (projT2 x)) t -> fin a (h + held t).
Proof.
  revert h t. induction p as [b|e k IH]; intros h t Hp Ht HK.
  - destruct Ht as [-> ->]. change (held []) with 0. by rewrite Z.add_0_r.
  - destruct Ht as (r & t' & -> & Ht). apply Forall_cons in HK as [Hr HK]. destruct (Hp r Hr) as [_ Hk].
    change (held (ev e r :: t')) with (delta e r + held t'). rewrite Z.add_assoc. by apply (IH r).
Qed.
End Ghost.

(** ** The counters *)

(** Sessions of the address [key] and of the account [key] that a request opens
    and closes. *)
Definition delta_ip (key : string) (e : aeff) : aresp e -> Z :=
  match e as e return aresp e -> Z with
  | AIncreaseIP k => fun r => if bool_decide (k = key) && bool_decide (r = None) then 1 else 0
  | ADecreaseIP k => fun _ => if bool_decide (k = key) then -1 else 0
  | _ => fun _ => 0
  end.

Definition delta_account (key : string) (e : aeff) : aresp e -> Z :=
  match e as e return aresp e -> Z with
  | AIncreaseAccount k => fun r => if bool_decide (k = key) && bool_decide (r = None) then 1 else 0
  | ADecreaseAccount k => fun _ => if bool_decide (k = key) then -1 else 0
  | _ => fun _ => 0
  end.

(** The stores of the two counters. *)
Record counters : Type := mkCounters { ct_ip : counter_store; ct_account : counter_store }.

(** An answered request and what it did to the counters. *)
Definition counter_step (config : res (Z * Z)) (s : counters) (x : aevent) (s' : counters) : Prop :=
  match projT1 x as e return aresp e -> Prop with
  | AIncreaseIP k => fun r =>
      Increase (getMaxLimit CounterTypeIP config) k (ct_ip s) = (ct_ip s', r) /\ ct_account s' = ct_account s
  | ADecreaseIP k => fun r => Decrease k (ct_ip s) = (ct_ip s', r) /\ ct_account s' = ct_account s
  | AIncreaseAccount k => fun r =>
      Increase (getMaxLimit CounterTypeAccount config) k (ct_account s) = (ct_account s', r) /\ ct_ip s' = ct_ip s
  | ADecreaseAccount k => fun r => Decrease k (ct_account s) = (ct_account s', r) /\ ct_ip s' = ct_ip s
  | _ => fun _ => s' = s
  end (projT2 x).

(** A token names at most one account. *)
Definition one_account (e : aeff) : aresp e -> Prop :=
  match e as e return aresp e -> Prop with
  | AIntercept _ _ => fun r => forall md, r = Ok (Some md) -> (length (default [] (md !! "preferred_username")) <= 1)%nat
  | _ => fun _ => True
  end.

Definition count (store : counter_store) (key : string) : Z := default 0 (store !! key).

Fixpoint zsum {A : Type} (f : A -> Z) (l : list A) : Z :=
  match l with [] => 0 | x :: l => f x + zsum f l end.

Lemma zsum_insert {A : Type} (f : A -> Z) (l : list A) (i : nat) (x y : A) :
  l !! i = Some x -> zsum f (<[i := y]> l) = zsum f l - f x + f y.
Proof.
  revert i. induction l as [|z l IH]; intros [|i] H; try done; cbn in H; [simplify_eq; cbn; lia|].
  change (<[S i := y]> (z :: l)) with (z :: <[i := y]> l). cbn [zsum]. rewrite (IH i H). lia.
Qed.

Lemma zsum_bounds {A : Type} (f : A -> Z) (l : list A) :
  (forall x, x ∈ l -> 0 <= f x <= 1) -> 0 <= zsum f l <= zlen l.
Proof.
  induction l as [|x l IH]; intros H; cbn; [unfold zlen; cbn; lia|].
  rewrite zlen_cons. specialize (IH ltac:(intros; apply H; by right)). specialize (H x ltac:(left)).
  lia.
Qed.

Lemma zsum_elem {A : Type} (f : A -> Z) (l : list A) (x : A) :
  (forall x, x ∈ l -> 0 <= f x) -> x ∈ l -> f x <= zsum f l.
Proof.
  induction l as [|y l IH]; intros H Hx; [by apply elem_of_nil in Hx|]. cbn.
  assert (0 <= zsum f l) as Hl.
  { clear -H. induction l as [|z l IH]; cbn; [lia|]. pose proof (H z ltac:(right; left)).
    specialize (IH ltac:(intros w [->|Hw]%elem_of_cons; apply H; [left|by right; right])). lia. }
  pose proof (H y ltac:(left)). apply elem_of_cons in Hx as [->|Hx]; [lia|].
  specialize (IH ltac:(intros; apply H; by right) Hx). lia.
Qed.

(** The counter's operations, on a value in range. *)
Lemma Increase_count limit key store store' r :
  Increase limit key store = (store', r) -> 0 <= count store key < 2^63 - 1 ->
  (forall k, count store' k = count store k + if bool_decide (key = k) && bool_decide (r = None) then 1 else 0) /\
  (r = None -> forall n, limit = Ok n -> 0 < n -> count store' key <= n).
Proof.
  unfold Increase, count. intros H Hv. destruct limit as [n|e]; [|by simplify_eq; split; [intros; rewrite andb_false_r; lia|]].
  rewrite wrap64_small in H by lia.
  destruct ((0 <? n) && (n <? default 0 (store !! key) + 1)) eqn:E.
  - apply andb_true_iff in E as [E1 E2]. apply Z.ltb_lt in E1, E2. injection H as <- <-. split; [|done]. intros k.
    rewrite andb_false_r. destruct (store !! key) eqn:Es; [lia|]. cbn in E2. lia.
  - injection H as <- <-. split.
    + intros k. rewrite andb_true_r. case_bool_decide as Hk; [subst k; rewrite lookup_insert_eq; done|].
      rewrite lookup_insert_ne by done. destruct (store !! key); [lia|]. rewrite lookup_insert_ne by done. lia.
    + intros _ m [= ->] Hm. rewrite lookup_insert_eq. cbn.
      apply andb_false_iff in E as [E|E]; apply Z.ltb_ge in E; lia.
Qed.

Lemma Decrease_count key store store' r :
  Decrease key store = (store', r) -> 0 < count store key ->
  r = None /\ forall k, count store' k = count store k + if bool_decide (key = k) then -1 else 0.
Proof.
  unfold Decrease, count. intros H Hv. destruct (store !! key) as [v|] eqn:Es; [|done]. cbn in Hv.
  destruct (v <? 1) eqn:E; [apply Z.ltb_lt in E; lia|]. injection H as <- <-. split; [done|]. intros k.
  case_bool_decide as Hk; [subst k; rewrite lookup_insert_eq, Es; cbn; lia|]. rewrite lookup_insert_ne by done. lia.
Qed.

(** ** What one handler counts *)

Definition uncounted (e : aeff) : Prop :=
  match e with
  | AIncreaseIP _ | ADecreaseIP _ | AIncreaseAccount _ | ADecreaseAccount _ => False
  | _ => True
  end.

Definition any (e : aeff) (_ : aresp e) : Prop := True.

Abbreviation quiet := (nwps False any uncounted (fun _ => True)).

Lemma quiet_GetKubeConfig ctx c : quiet (adm.GetKubeConfig ctx c).
Proof. unfold adm.GetKubeConfig, adm.addToOutgoingContext. nwp_go. all: apply nwp_done; done. Qed.
#[local] Hint Resolve quiet_GetKubeConfig : nwp.

Lemma quiet_GetAppNamespace ctx a : quiet (adm.GetAppNamespace ctx a).
Proof. unfold adm.GetAppNamespace, adm.addToOutgoingContext. nwp_go. all: apply nwp_done; done. Qed.
#[local] Hint Resolve quiet_GetAppNamespace : nwp.

Lemma quiet_getClient kind ctx c : quiet (getClient kind ctx c).
Proof. unfold getClient. nwp_go. Qed.
#[local] Hint Resolve quiet_getClient : nwp.

Lemma quiet_getVM ctx a v : quiet (getKubevirtVirtualMachine ctx a v).
Proof. unfold getKubevirtVirtualMachine, getKubevirtVirtualMachineList. nwp_go. Qed.
#[local] Hint Resolve quiet_getVM : nwp.

Lemma quiet_IsAuthorized ctx req b : quiet (opa.IsAuthorized ctx req b).
Proof. unfold opa.IsAuthorized. nwp_go. Qed.
#[local] Hint Resolve quiet_IsAuthorized : nwp.

Lemma quiet_refuse code msg e : quiet (refuse code msg e).
Proof. split; [done|]. done. Qed.
#[local] Hint Resolve quiet_refuse : nwp.

Lemma quiet_or_refuse {A : Type} code msg (p : ap A) f :
  quiet p -> (forall a, quiet (f a)) -> quiet (or_refuse code msg p f).
Proof. intros Hp Hf. unfold or_refuse. eapply nwp_seq; [by apply nwp_catch_true|]. intros [a|e]; auto with nwp. Qed.

Lemma quiet_console cfg ctx path : quiet (console cfg ctx path).
Proof.
  unfold console. repeat (apply quiet_or_refuse; [nwp_go|intros ?]). nwp_go.
Qed.
#[local] Hint Resolve quiet_console : nwp.

Section OneHandler.
Context (K : forall e, aresp e -> Prop) (delta : forall e, aresp e -> Z).

Definition open_or_not (h : Z) : Prop := 0 <= h <= 1.

Abbreviation keeps := (keeps K delta open_or_not).

(** No session is open in the end, and the stack was enough. *)
Definition settled (o : outcome unit) (h : Z) : Prop := o <> OutOfStack /\ h = 0.

Lemma keeps_quiet {A : Type} h (p : ap A) :
  (forall e, uncounted e -> forall r, delta e r = 0) ->
  open_or_not h -> quiet p -> keeps h p (fun o h' => o <> OutOfStack /\ h' = h).
Proof.
  intros Hd Hh. unfold nwps. induction p as [o|e k IH]; cbn; [by destruct o as [[]| |]|].
  intros [He Hk] r _. rewrite (Hd e He), Z.add_0_r. split; [done|]. apply IH, Hk. done.
Qed.

Lemma keeps_or_refuse {A : Type} code msg (p : ap A) f h fin :
  (forall e, uncounted e -> forall r, delta e r = 0) -> open_or_not h ->
  keeps h p (fun o h' => match o with Done (Ok a) => keeps h' (f a) fin
                                 | Done (Err _) => open_or_not h' /\ fin (Done (Ok tt)) h'
                                 | Panicked => fin Panicked h' | OutOfStack => fin OutOfStack h' end) ->
  keeps h (or_refuse code msg p f) fin.
Proof.
  intros Hd Hh Hp. unfold or_refuse, catch, nbind. eapply keeps_bind.
  - eapply keeps_bind; [exact Hp|]. intros o h' Ho.
    instantiate (1 := fun o h' => match o with
      | Done (Ok (Ok a)) => keeps h' (f a) fin | Done (Ok (Err _)) => open_or_not h' /\ fin (Done (Ok tt)) h'
      | Done (Err e) => fin (Done (Err e)) h' | Panicked => fin Panicked h' | OutOfStack => fin OutOfStack h' end).
    by destruct o as [[]| |].
  - intros [[[a|e]|e]| |] h' Ho; cbn; try done.
    intros r _. rewrite (Hd (AReply _ _) I), Z.add_0_r. done.
Qed.

(** A quiet step of the handler. *)
Lemma keeps_or_refuse_quiet {A : Type} code msg (p : ap A) f h :
  (forall e, uncounted e -> forall r, delta e r = 0) -> h = 0 -> quiet p ->
  (forall a, keeps 0 (f a) settled) -> keeps h (or_refuse code msg p f) settled.
Proof.
  intros Hd -> Hp Hf. apply keeps_or_refuse; [done|done|].
  eapply keeps_mono; [|by apply keeps_quiet]. intros [[a|e]| |] h' [Ho ->]; done.
Qed.

Lemma keeps_refuse code msg e h :
  (forall e, uncounted e -> forall r, delta e r = 0) -> open_or_not h ->
  keeps h (refuse code msg e) (fun o h' => o <> OutOfStack /\ h' = h).
Proof. intros. apply keeps_quiet; [done|done|]. apply quiet_refuse. Qed.

Lemma keeps_with_defer {A : Type} (deferred : aprog unit) (p : ap A) h h1 h2 :
  keeps h p (fun o h' => o <> OutOfStack /\ h' = h1) -> keeps h1 deferred (fun _ h' => h' = h2) ->
  keeps h (with_defer deferred p) (fun o h' => o <> OutOfStack /\ h' = h2).
Proof.
  intros Hp Hd. unfold with_defer. eapply keeps_bind; [exact Hp|]. intros o h' [Ho ->].
  destruct o; try done; (eapply keeps_bind; [exact Hd|]; by intros ? ? ->).
Qed.

(** What all of the handler but the counting adds up to. *)
Lemma keeps_handler tokenCheck opaEnabled has_opa (r : HttpRequest) :
  (forall e, uncounted e -> forall r, delta e r = 0) ->
  (forall remoteIP accounts rest, quiet rest ->
     (K = one_account -> (length accounts <= 1)%nat) -> keeps 0 (sessions remoteIP accounts rest) settled) ->
  (K = one_account \/ K = any) ->
  keeps 0 (GetVNCWebSocketHandler tokenCheck opaEnabled has_opa r) settled.
Proof.
  intros Hd Hs HK. unfold GetVNCWebSocketHandler.
  apply keeps_or_refuse_quiet; [done|done|nwp_go|intros cfg].
  case_match; [by apply keeps_refuse|]. case_match; [by apply keeps_refuse|].
  apply keeps_or_refuse_quiet; [done|done|by apply nwp_done|intros token].
  apply keeps_or_refuse_quiet; [done|done|by apply nwp_done|intros path].
  unfold authorize_session. destruct opaEnabled; [|apply Hs; [apply quiet_console|cbn; lia]].
  apply keeps_or_refuse; [done|done|]. cbn. intros ans Hans. rewrite (Hd (AIntercept _ _) I). split; [done|].
  destruct ans as [outCtx|e]; cbn; [|done].
  apply keeps_or_refuse_quiet; [done|done|apply quiet_IsAuthorized|intros _].
  destruct outCtx as [md|]; [|intros r' _; by rewrite (Hd (AReply _ _) I)].
  apply Hs; [apply quiet_console|]. intros ->. by apply Hans.
Qed.

End OneHandler.

Lemma uncounted_ip key e : uncounted e -> forall r, delta_ip key e r = 0.
Proof. by destruct e. Qed.

Lemma uncounted_account key e : uncounted e -> forall r, delta_account key e r = 0.
Proof. by destruct e. Qed.

#[local] Hint Resolve uncounted_ip uncounted_account : core.

Lemma quiet_for_ip K key accounts h :
  open_or_not h -> keeps K (delta_ip key) open_or_not h (decrease_accounts accounts) (fun _ h' => h' = h).
Proof.
  intros Hh. induction accounts as [|a accounts IH]; cbn; [done|]. intros r _. rewrite Z.add_0_r. done.
Qed.

Lemma sessions_ip key remoteIP accounts rest :
  quiet rest -> keeps any (delta_ip key) open_or_not 0 (sessions remoteIP accounts rest) settled.
Proof.
  intros Hr. unfold sessions. apply keeps_or_refuse; [by apply uncounted_ip|done|]. cbn. intros r _.
  destruct r as [e|]; cbn; [by rewrite andb_false_r|]. rewrite andb_true_r.
  set (h := if bool_decide (remoteIP = key) then 1 else 0).
  assert (open_or_not h) as Hh by (subst h; unfold open_or_not; case_match; lia). split; [done|].
  apply (keeps_with_defer _ _ _ _ _ h).
  - assert (keeps any (delta_ip key) open_or_not (0 + h) (with_defer (decrease_accounts accounts) rest)
      (fun o h' => o <> OutOfStack /\ h' = h)) as Hin.
    { apply (keeps_with_defer _ _ _ _ _ h); [|by apply quiet_for_ip].
      apply keeps_quiet; [by apply uncounted_ip|done|done]. }
    revert Hin. generalize (with_defer (decrease_accounts accounts) rest) as inner. intros inner Hin.
    induction accounts as [|a accounts IH]; cbn [increase_accounts]; [done|].
    apply keeps_or_refuse; [by apply uncounted_ip|done|]. cbn. intros r _. rewrite Z.add_0_r. split; [done|].
    by destruct r.
  - cbn. intros r _. subst h. case_match; cbn; split; unfold open_or_not; lia.
Qed.

Lemma sessions_account key remoteIP accounts rest :
  quiet rest -> (length accounts <= 1)%nat ->
  keeps one_account (delta_account key) open_or_not 0 (sessions remoteIP accounts rest) settled.
Proof.
  intros Hr Hl. unfold sessions. apply keeps_or_refuse; [by apply uncounted_account|done|]. cbn. intros r _.
  destruct r as [e|]; cbn; [done|]. split; [done|]. apply (keeps_with_defer _ _ _ _ _ 0).
  - destruct accounts as [|a [|? ?]]; cbn in Hl; [|clear Hl|lia].
    + cbn [increase_accounts]. apply (keeps_with_defer _ _ _ _ _ 0); [|done]. apply keeps_quiet; [by apply uncounted_account|done|done].
    + cbn [increase_accounts]. apply keeps_or_refuse; [by apply uncounted_account|done|]. cbn. intros r _.
      destruct r as [e|]; cbn; [by rewrite andb_false_r|]. rewrite andb_true_r.
      set (h := if bool_decide (a = key) then 1 else 0).
      assert (open_or_not h) as Hh by (subst h; unfold open_or_not; case_match; lia). split; [done|].
      apply (keeps_with_defer _ _ _ _ _ h); [apply keeps_quiet; [by apply uncounted_account|done|done]|].
      cbn. intros r _. subst h. case_match; cbn; split; unfold open_or_not; lia.
  - cbn. intros r _. done.
Qed.

(** ** All handlers together *)

(** Either counter: its store, what counts for a key, what is asked of the answers. *)
Definition store_of (c : CounterType) (s : counters) : counter_store :=
  match c with CounterTypeAccount => ct_account s | _ => ct_ip s end.

Definition delta_of (c : CounterType) (key : string) : forall e, aresp e -> Z :=
  match c with CounterTypeAccount => delta_account key | _ => delta_ip key end.

Definition asked_of (c : CounterType) : forall e, aresp e -> Prop :=
  match c with CounterTypeAccount => one_account | _ => any end.

(** Sessions of [key] open after [t]. *)
Definition open_sessions (c : CounterType) (key : string) (t : list aevent) : Z := held (delta_of c key) t.

Section Sessions.
Context (tokenCheck opaEnabled has_opa : bool) (requests : list HttpRequest).
(** The configurations the file may hold while the handlers run. *)
Context (configs : res (Z * Z) -> Prop).

Abbreviation handler_of := (GetVNCWebSocketHandler tokenCheck opaEnabled has_opa).

(** [reach ts s]: the handlers may have come as far as [ts], leaving the counters [s]. *)
Inductive reach : list (list aevent) -> counters -> Prop :=
  | reach_start : reach (map (fun _ => []) requests) (mkCounters ∅ ∅)
  | reach_step ts s i r t x config s' :
      reach ts s -> requests !! i = Some r -> ts !! i = Some t -> partial (handler_of r) (t ++ [x]) ->
      configs config -> counter_step config s x s' ->
      reach (<[i := t ++ [x]]> ts) s'.

Definition answered (c : CounterType) (t : list aevent) : Prop :=
  Forall (fun x : aevent => asked_of c (projT1 x) (projT2 x)) t.

Lemma handler_settles c key r :
  keeps (asked_of c) (delta_of c key) open_or_not 0 (handler_of r) settled.
Proof.
  destruct c; unfold asked_of, delta_of; apply keeps_handler.
  all: try apply uncounted_ip; try apply uncounted_account; auto.
  all: try (intros; by apply sessions_ip). intros. apply sessions_account; auto.
Qed.

Lemma held_open c key r t : partial (handler_of r) t -> answered c t -> 0 <= open_sessions c key t <= 1.
Proof.
  intros Hp Ha. apply (keeps_partial _ _ _ _ _ 0 t (handler_settles c key r) Hp Ha). unfold open_or_not. lia.
Qed.

Lemma reach_partial ts s : reach ts s ->
  length ts = length requests /\
  forall i r t, requests !! i = Some r -> ts !! i = Some t -> partial (handler_of r) t.
Proof.
  induction 1 as [|ts s i r t x config s' _ [IH1 IH2] Hr Ht Hp _ _].
  - rewrite length_map. split; [done|]. intros i r t _ Hi. apply list_elem_of_lookup_2, list_elem_of_fmap in Hi as (? & -> & _). done.
  - rewrite length_insert. split; [done|]. intros j r' t' Hr' Ht'. destruct (decide (i = j)) as [<-|Hne].
    + rewrite list_lookup_insert_eq in Ht' by (by eapply lookup_lt_Some). by simplify_eq.
    + rewrite list_lookup_insert_ne in Ht' by done. eauto.
Qed.

(** One counted request, in a state where counts are in range. *)
Lemma step_count c config s x s' :
  counter_step config s x s' ->
  (forall key, 0 <= count (store_of c s) key < 2^63 - 1) ->
  (forall key, 0 <= count (store_of c s) key + delta_of c key (projT1 x) (projT2 x)) ->
  forall key,
    count (store_of c s') key = count (store_of c s) key + delta_of c key (projT1 x) (projT2 x) /\
    (forall limit, getMaxLimit c config = Ok limit -> 0 < limit ->
       count (store_of c s') key <= Z.max limit (count (store_of c s) key)).
Proof.
  intros Hs Hr Hd key. destruct x as [e r]. cbn in *.
  destruct c; cbn in *; destruct e; cbn in Hs, Hd |- *; try (subst s'; split; [lia|intros; lia]).
  all: destruct Hs as [Hop Hother]; try (rewrite Hother; split; [lia|intros; lia]).
  all: try match type of Hop with
    | Increase _ ?k _ = _ => destruct (Increase_count _ _ _ _ _ Hop (Hr k)) as [Hc Hl]; rewrite Hc
    | Decrease ?k _ = _ => destruct (Decrease_count _ _ _ _ Hop) as [_ Hc];
        [specialize (Hd k); rewrite bool_decide_true in Hd by done; lia|rewrite Hc] end.
  all: split; [done|intros limit Hlim Hpos; try discriminate Hlim].
  all: repeat case_bool_decide; cbn; subst; try lia.
  all: specialize (Hl eq_refl _ Hlim Hpos); rewrite Hc, !bool_decide_true in Hl by done; cbn in Hl; lia.
Qed.

(** Every configuration limits the counter, by no more than [limit]. *)
Definition limited (c : CounterType) (limit : Z) : Prop :=
  forall config, configs config -> exists l, getMaxLimit c config = Ok l /\ 0 < l <= limit.

Lemma reach_counts c ts s :
  reach ts s -> zlen requests < 2^63 - 1 -> Forall (answered c) ts ->
  forall key, count (store_of c s) key = zsum (open_sessions c key) ts /\
    forall limit, 0 < limit -> limited c limit -> count (store_of c s) key <= limit.
Proof.
  intros H Hn. induction H as [|ts s i r t x config s' Hre IH Hr Ht Hp Hconf Hstep]; intros Ha key.
  - assert (count (store_of c (mkCounters ∅ ∅)) key = 0) as -> by (destruct c; unfold count; cbn; by rewrite lookup_empty).
    split; [|intros limit Hlim _; lia]. assert (zsum (open_sessions c key) (map (fun _ => []) requests) = 0) as ->.
    { clear. induction requests; cbn; [done|]. by rewrite IHl. }
    done.
  - destruct (reach_partial ts s Hre) as [Hlen Hpar].
    assert (answered c (t ++ [x])) as Hax.
    { rewrite Forall_forall in Ha. apply Ha, (list_elem_of_lookup_2 _ i), list_lookup_insert_eq. by eapply lookup_lt_Some. }
    assert (Forall (answered c) ts) as Hats.
    { apply Forall_lookup_2. intros j t' Hj. destruct (decide (i = j)) as [<-|Hne].
      - simplify_eq. by apply Forall_app in Hax as [? _].
      - eapply (Forall_lookup_1 _ _ j t' Ha). by rewrite list_lookup_insert_ne. }
    specialize (IH Hats). assert (forall k, count (store_of c s) k = zsum (open_sessions c k) ts) as Heq by (intros k; apply IH).
    assert (forall key t', t' ∈ ts -> 0 <= open_sessions c key t' <= 1) as Hone.
    { intros k t' [j Hj]%list_elem_of_lookup_1. assert (is_Some (requests !! j)) as [r' Hr'].
      { apply lookup_lt_is_Some. rewrite <- Hlen. by eapply lookup_lt_Some. }
      apply (held_open c k r'); [by eapply Hpar|]. by eapply Forall_lookup_1. }
    assert (forall key, open_sessions c key (t ++ [x]) = open_sessions c key t + delta_of c key (projT1 x) (projT2 x)) as Hx.
    { intros k. unfold open_sessions. rewrite held_app. cbn. lia. }
    destruct (step_count c config s x s' Hstep) with (key := key) as [Hcount Hbound].
    + intros k. rewrite Heq. destruct (zsum_bounds (open_sessions c k) ts (Hone k)). unfold zlen in *. rewrite Hlen in *. lia.
    + intros k. rewrite Heq. pose proof (held_open c k r _ Hp Hax) as H1. rewrite Hx in H1.
      pose proof (zsum_elem (open_sessions c k) ts t ltac:(intros; by apply Hone) ltac:(by eapply list_elem_of_lookup_2)). lia.
    + split; [rewrite Hcount, Heq, (zsum_insert _ _ _ t) by done; rewrite Hx; lia|].
      intros limit Hpos Hlim. destruct (Hlim config Hconf) as (l & Hl & Hl1 & Hl2).
      specialize (Hbound l Hl Hl1). pose proof (proj2 (IH key) limit Hpos Hlim). lia.
Qed.

(** C14: However many consoles are asked for at once, and however their handlers
    interleave and fail: a counter always holds the number of sessions open for
    a key (for accounts, provided that a token names one account); it never
    exceeds the configured limit; and when all handlers have returned, every
    count is back to zero, so that nobody is locked out by sessions that ended. *)
Theorem sessions_counted (c : CounterType) (ts : list (list aevent)) (s : counters) (key : string) :
  reach ts s -> zlen requests < 2^63 - 1 -> Forall (answered c) ts ->
  count (store_of c s) key = zsum (open_sessions c key) ts /\
  Forall (fun t => 0 <= open_sessions c key t <= 1) ts /\
  (forall limit, 0 < limit -> limited c limit -> count (store_of c s) key <= limit) /\
  ((forall i r t, requests !! i = Some r -> ts !! i = Some t -> exists o, traces (handler_of r) t o) ->
   count (store_of c s) key = 0).
Proof.
  intros H Hn Ha. destruct (reach_counts c ts s H Hn Ha key) as [Hcount Hlimit].
  destruct (reach_partial ts s H) as [Hlen Hpar].
  assert (forall i t, ts !! i = Some t -> exists r, requests !! i = Some r) as Hreq.
  { intros i t Hi. apply lookup_lt_is_Some. rewrite <- Hlen. by eapply lookup_lt_Some. }
  split; [done|]. split; [|split; [done|]].
  - apply Forall_lookup_2. intros i t Hi. destruct (Hreq i t Hi) as [r Hr].
    apply (held_open c key r); [by eapply Hpar|by eapply Forall_lookup_1].
  - intros Hall. rewrite Hcount.
    assert (forall t, t ∈ ts -> open_sessions c key t = 0) as Hz.
    { intros t [i Hi]%list_elem_of_lookup_1. destruct (Hreq i t Hi) as [r Hr]. destruct (Hall i r t Hr Hi) as [o Ho].
      by destruct (keeps_finished _ _ _ _ _ _ _ _ (handler_settles c key r) Ho (Forall_lookup_1 _ _ _ _ Ha Hi)). }
    clear -Hz. induction ts as [|t ts IH]; cbn; [done|]. rewrite Hz by left. rewrite IH; [done|]. intros; apply Hz; by right.
Qed.

End Sessions.

(** ** What the model shows *)

(** An account that was counted before another account of the token is refused
    stays counted: the deferred decrease is registered after the loop. *)
Theorem second_account_leaks (ip a b : string) (e : gerror) (rest : ap unit) :
  a <> b ->
  exists t, traces (sessions ip [a; b] rest) t (Done (Ok tt)) /\
    open_sessions CounterTypeAccount a t = 1 /\ open_sessions CounterTypeIP ip t = 0.
Proof.
  intros Hab. exists [ev (R:=aresp) (AIncreaseIP ip) None; ev (R:=aresp) (AIncreaseAccount a) None;
    ev (R:=aresp) (AIncreaseAccount b) (Some e);
    ev (R:=aresp) (AReply 429 (("session request per account exceeds the limit, account: " +:+ b +:+ ", err: ") +:+ e_msg e)) tt;
    ev (R:=aresp) (ADecreaseIP ip) None].
  split; [|split].
  - cbn. repeat (eexists _, _; split; [reflexivity|]; cbn). done.
  - unfold open_sessions. cbn. rewrite bool_decide_true, (bool_decide_false (b = a)) by congruence. done.
  - unfold open_sessions. cbn. by rewrite bool_decide_true.
Qed.

(** Without OPA the handler goes on with a context that has no metadata, and no
    console can be opened. *)
Definition reaches_cluster (e : aeff) : bool :=
  match e with AKubeConfig _ _ | AVNC _ _ | AUpgrade | ARelay _ _ _ => true | _ => false end.

Theorem console_needs_opa (tokenCheck has_opa : bool) (r : HttpRequest) :
  issues (fun e => reaches_cluster e = false) (GetVNCWebSocketHandler tokenCheck false has_opa r).
Proof.
  unfold GetVNCWebSocketHandler, or_refuse, catch. cbn. split; [done|]. intros [cfg|e]; cbn; [|done].
  case_match; [done|]. case_match; [done|]. destruct (if tokenCheck then _ else _); cbn; [|done].
  destruct (newVNCPath _); cbn; [|done]. split; [done|].
  intros [e|]; cbn; repeat (split; [done|]; intros ?; cbn); done.
Qed.

(** ** Two requests from one address, and room for one *)

Definition two_requests : list HttpRequest :=
  repeat (mkRequest "/vnc/project-1/app/cluster/vm" "https://vnc" "vnc" "10.0.0.1, 10.0.0.2" []) 2.

Definition vnc_config : WebSocketServer := mkWS "wss" "vnc" 1 1 0 0 0 ["https://vnc"].

Definition one_each (c : res (Z * Z)) : Prop := c = Ok (1, 1).

Definition too_many : gerror := mkErr KForbidden "exceeding count limit: limit 1, key 10.0.0.1".

Definition first_done : list aevent := [ev (R:=aresp) AConfig (Ok vnc_config); ev (R:=aresp) (AIncreaseIP "10.0.0.1") None].
Definition second_refused : list aevent :=
  [ev (R:=aresp) AConfig (Ok vnc_config); ev (R:=aresp) (AIncreaseIP "10.0.0.1") (Some too_many)].

Definition asked : list aevent := [ev (R:=aresp) AConfig (Ok vnc_config)].

Lemma reach_next ts s i r t x config ts' s' :
  reach false false false two_requests one_each ts s -> two_requests !! i = Some r -> ts !! i = Some t ->
  partial (GetVNCWebSocketHandler false false false r) (t ++ [x]) -> config = Ok (1, 1) ->
  counter_step config s x s' -> <[i := t ++ [x]]> ts = ts' ->
  reach false false false two_requests one_each ts' s'.
Proof. intros. subst ts'. by eapply reach_step. Defined.

Lemma two_reached :
  reach false false false two_requests one_each [first_done; second_refused] (mkCounters {["10.0.0.1" := 1]} ∅).
Proof.
  eapply (reach_next [first_done; asked] _ 1 _ _ (ev (R:=aresp) (AIncreaseIP "10.0.0.1") (Some too_many)));
    [|reflexivity|reflexivity| |reflexivity|split; [|reflexivity]; vm_compute; reflexivity|reflexivity].
  2: { vm_compute. repeat (eexists; split; [reflexivity|]). exact I. }
  eapply (reach_next [first_done; []] _ 1 _ _ (ev (R:=aresp) AConfig (Ok vnc_config)));
    [|reflexivity|reflexivity| |reflexivity|reflexivity|reflexivity].
  2: { vm_compute. repeat (eexists; split; [reflexivity|]). exact I. }
  eapply (reach_next [asked; []] (mkCounters ∅ ∅) 0 _ _ (ev (R:=aresp) (AIncreaseIP "10.0.0.1") None));
    [|reflexivity|reflexivity| |reflexivity|split; [|reflexivity]; vm_compute; reflexivity|reflexivity].
  2: { vm_compute. repeat (eexists; split; [reflexivity|]). exact I. }
  eapply (reach_next [[]; []] _ 0 _ _ (ev (R:=aresp) AConfig (Ok vnc_config)));
    [|reflexivity|reflexivity| |reflexivity|reflexivity|reflexivity].
  2: { vm_compute. repeat (eexists; split; [reflexivity|]). exact I. }
  apply reach_start.
Defined.

Lemma sessions_counted_witness :
  count {["10.0.0.1" := 1]} "10.0.0.1" = zsum (open_sessions CounterTypeIP "10.0.0.1") [first_done; second_refused] /\
  count {["10.0.0.1" := 1]} "10.0.0.1" <= 1.
Proof.
  destruct (sessions_counted false false false two_requests one_each CounterTypeIP [first_done; second_refused]
    (mkCounters {["10.0.0.1" := 1]} ∅) "10.0.0.1" two_reached) as (H1 & _ & H2 & _).
  - vm_compute. reflexivity.
  - repeat (constructor; [repeat (constructor; [exact I|]); constructor|]). constructor.
  - split; [exact H1|]. apply (H2 1); [lia|]. intros c ->. exists 1. split; [reflexivity|lia].
Defined.
