(* ===== verification/ConsoleFacts.v ===== *)
(** * Who gets a console *)

From S2P Require Import Prelude Prog GoMonad GoStr Types NbEff ArmEff ArmKube ArmVirt ArmFacts WsProxy Vnc VncFacts.

Section Requests.
Context (e : aeff) (He : match e with AReply _ _ => False | _ => True end).

Abbreviation never := (nwps True (fun (e : aeff) (_ : aresp e) => True) (fun e' => e' <> e) (fun _ => True)).

Lemma or_refuse_request {A : Type} code msg (p : ap A) (f : A -> ap unit) t o :
  never p -> traces (or_refuse code msg p f) t o -> requested t e ->
  exists t1 t2 a, t = t1 ++ t2 /\ traces p t1 (Done (Ok a)) /\ traces (f a) t2 o /\ requested t2 e.
Proof.
  intros Hp H Hr. apply nbind_request with (e := e) in H as (t1 & t2 & r & -> & H1 & H2 & Hr2);
    [|by apply nwp_catch_true|done].
  destruct r as [a|err].
  - exists t1, t2, a. split; [done|]. split; [|done].
    apply traces_bind in H1 as (ta & tb & oa & -> & Ha & Hb).
    destruct oa as [r| |]; destruct Hb as [-> Hb]; try done. injection Hb as <-. by rewrite app_nil_r.
  - exfalso. destruct H2 as ([] & t' & -> & [-> _]). apply requested_cons in Hr2 as [Hr2|Hr2]; [|by apply requested_nil in Hr2].
    cbn in Hr2. by subst e.
Qed.

(** The same for a value that takes no request to get. *)
Lemma or_refuse_done {A : Type} code msg (v : res A) (f : A -> ap unit) t o :
  traces (or_refuse code msg (done v) f) t o -> requested t e ->
  exists a, v = Ok a /\ traces (f a) t o.
Proof.
  intros H Hr. apply or_refuse_request in H as (t1 & t2 & a & -> & [-> Hv] & H2 & _); [|by apply nwp_done|done].
  injection Hv as <-. by exists a.
Qed.

Lemma with_defer_request {A : Type} (deferred : aprog unit) (p : ap A) t o :
  issues (fun e' => e' <> e) deferred -> traces (with_defer deferred p) t o -> requested t e ->
  exists t1 t2 o1, t = t1 ++ t2 /\ traces p t1 o1 /\ requested t1 e.
Proof.
  intros Hd H Hr. apply traces_bind in H as (t1 & t2 & o1 & -> & H1 & H2). exists t1, t2, o1. split; [done|]. split; [done|].
  apply requested_app in Hr as [Hr|Hr]; [done|]. exfalso. destruct o1 as [r| |].
  1,2: apply traces_bind in H2 as (t3 & t4 & [] & -> & H3 & [-> _]); rewrite app_nil_r in Hr;
    by apply (requested_traces _ _ _ _ _ Hd H3 Hr).
  destruct H2 as [-> _]. by apply requested_nil in Hr.
Qed.

End Requests.

(** The answer of the only request of [H]. *)
Ltac call_answered H :=
  nunfold H; repeat match goal with r : aresp _ |- _ => destruct r end; simplify_eq; left.

(** Every account of the loop was counted before what follows it. *)
Lemma increase_accounts_trace e accounts rest t o :
  match e with AReply _ _ | AIncreaseAccount _ => False | _ => True end ->
  traces (increase_accounts accounts rest) t o -> requested t e ->
  exists t1 t2, t = t1 ++ t2 /\ traces rest t2 o /\ requested t2 e /\
    Forall (fun a => ev (R:=aresp) (AIncreaseAccount a) None ∈ t1) accounts.
Proof.
  intros He. revert t. induction accounts as [|a accounts IH]; cbn [increase_accounts]; intros t H Hr.
  - exists [], t. split_and!; done.
  - apply or_refuse_request with (e := e) in H as (t1 & t2 & [] & -> & H1 & H2 & Hr2); [|by destruct e| |done].
    2: { apply nwp_ecall. split; [|done]. by intros <-. }
    destruct (IH t2 H2 Hr2) as (t3 & t4 & -> & H4 & Hr4 & HF). exists (t1 ++ t3), t4.
    split; [by rewrite app_assoc|]. split; [done|]. split; [done|]. constructor.
    + nunfold H1. destruct r; simplify_eq. left.
    + eapply Forall_impl; [exact HF|]. intros b Hb. by apply elem_of_app; right.
Qed.

(** [console] copies only after it has found the machine in the project of its
    context and opened its stream. *)
Lemma console_trace cfg ctx path t o rl dl ul :
  traces (console cfg ctx path) t o -> requested t (ARelay rl dl ul) ->
  (rl = ws_read_limit cfg /\ dl = ws_dl_idle cfg /\ ul = ws_ul_idle cfg) /\
  exists kubeConfig appns vms vm,
    asked_for ctx t (fun project => AKubeConfig project (vp_cluster path)) (fun _ => Ok (Some kubeConfig)) /\
    asked_for ctx t (fun project => AAppNamespace project (vp_app path)) (fun _ => Ok appns) /\
    ev (R:=aresp) (AListVMs appns) (Ok vms) ∈ t /\
    vm ∈ vms /\ vm_of_app (vp_app path) vm = true /\ om_uid (vmo_meta vm) = vp_vm path /\
    ev (R:=aresp) (AVNC (om_namespace (vmo_meta vm)) (om_name (vmo_meta vm))) None ∈ t.
Proof.
  unfold console. intros H Hr.
  apply or_refuse_request with (e := ARelay rl dl ul) in H as (t1 & t2 & [] & -> & H1 & H & Hr2);
    [|done|eapply harmless_but; [done|apply getClient_harmless]|done].
  apply or_refuse_request with (e := ARelay rl dl ul) in H as (t3 & t4 & [] & -> & H3 & H & Hr4); [|done| |done].
  2: { apply nwp_seq; [eapply harmless_but; [done|apply getVM_harmless]|intros vm].
       apply nwp_ecall. by split. }
  apply or_refuse_request with (e := ARelay rl dl ul) in H as (t5 & t6 & [] & -> & _ & H & Hr6);
    [|done|apply nwp_ecall; by split|done].
  apply traces_nbind in H3 as [(ta & tb & vm & -> & Ha & Hb)|(? & _ & _ & H3)]; [|by destruct (H3 tt)].
  destruct (getClient_trace ctx _ _ _ H1) as (kubeConfig & p & Hp & Hk).
  destruct (getVM_trace ctx _ _ _ _ Ha) as (appns & vms & (p' & Hp' & Hns) & Hvms & Hvm & Happ & Huid).
  split.
  - nunfold H; apply requested_cons in Hr6 as [Hr6|Hr6]; try (by apply requested_nil in Hr6); cbn in Hr6; by simplify_eq.
  - exists kubeConfig, appns, vms, vm. split_and!; try done.
    + exists p. split; [done|]. set_solver.
    + exists p'. split; [done|]. set_solver.
    + set_solver.
    + nunfold Hb. match goal with r : aresp (AVNC _ _) |- _ => destruct r end; simplify_eq.
      rewrite !elem_of_app. right; left; right. left.
Qed.

Lemma rule_of_vnc : rule_of vnc_request = ("resourcev2", "GetVNCRequest").
Proof. vm_compute. reflexivity. Qed.

(** C9: A console is copied only where OPA is enabled, and only after: the page
    came from an allowed origin and through the configured host; the token in
    the cookies was accepted for the project of the path, and OPA (if there is
    a client for it) allowed it; the address and every account of the token
    were counted within their limits; and the machine was found, by its
    identifier and the application's label, in the namespace and cluster of
    the project of the accepted token. *)
Theorem console_guarded (tokenCheck opaEnabled has_opa : bool) (r : HttpRequest) (t : list aevent)
    (o : outcome unit) (rl dl ul : Z) :
  traces (GetVNCWebSocketHandler tokenCheck opaEnabled has_opa r) t o -> requested t (ARelay rl dl ul) ->
  opaEnabled = true /\
  exists cfg path token md kubeConfig appns vms vm,
    ev (R:=aresp) AConfig (Ok cfg) ∈ t /\
    hr_origin r ∈ ws_origins cfg /\ hr_forwarded_host r = ws_host cfg /\
    newVNCPath (hr_path r) = Ok path /\
    (tokenCheck = true -> getCombinedJWTToken (hr_cookies r) = Ok token) /\
    ev (R:=aresp) (AIntercept token (vp_project path)) (Ok (Some md)) ∈ t /\
    (has_opa = true -> ev (R:=aresp) (AOpa "resourcev2" "GetVNCRequest") (Ok (OpaBool true)) ∈ t) /\
    ev (R:=aresp) (AIncreaseIP (hd "" (split (hr_forwarded_for r) ","))) None ∈ t /\
    Forall (fun account => ev (R:=aresp) (AIncreaseAccount account) None ∈ t) (default [] (md !! "preferred_username")) /\
    asked_for (Some md) t (fun project => AKubeConfig project (vp_cluster path)) (fun _ => Ok (Some kubeConfig)) /\
    asked_for (Some md) t (fun project => AAppNamespace project (vp_app path)) (fun _ => Ok appns) /\
    ev (R:=aresp) (AListVMs appns) (Ok vms) ∈ t /\
    vm ∈ vms /\ vm_of_app (vp_app path) vm = true /\ om_uid (vmo_meta vm) = vp_vm path /\
    ev (R:=aresp) (AVNC (om_namespace (vmo_meta vm)) (om_name (vmo_meta vm))) None ∈ t /\
    (rl = ws_read_limit cfg /\ dl = ws_dl_idle cfg /\ ul = ws_ul_idle cfg).
Proof.
  intros H Hr. destruct opaEnabled; [split; [done|]|].
  2: { exfalso. pose proof (requested_traces _ _ _ _ _ (console_needs_opa tokenCheck has_opa r) H Hr). done. }
  unfold GetVNCWebSocketHandler in H.
  apply or_refuse_request with (e := ARelay rl dl ul) in H as (t0 & t1 & cfg & -> & H0 & H & Hr1); [|done|apply nwp_rcall; by split; [|intros []]|done].
  assert (ev (R:=aresp) AConfig (Ok cfg) ∈ t0) as Hcfg by call_answered H0.
  case_match eqn:Ho; [destruct H as (? & ? & -> & [-> _]); no_request Hr1|].
  case_match eqn:Hh; [destruct H as (? & ? & -> & [-> _]); no_request Hr1|]. reflect_guards.
  apply or_refuse_done with (e := ARelay rl dl ul) in H as (token & Htok & H); [|done|done].
  apply or_refuse_done with (e := ARelay rl dl ul) in H as (path & Hpath & H); [|done|done].
  unfold authorize_session in H.
  apply or_refuse_request with (e := ARelay rl dl ul) in H as (t2 & t3 & ctx & -> & H2 & H & Hr3); [|done|apply nwp_rcall; by split; [|intros []]|done].
  assert (ev (R:=aresp) (AIntercept token (vp_project path)) (Ok ctx) ∈ t2) as Hctx by call_answered H2.
  apply or_refuse_request with (e := ARelay rl dl ul) in H as (t4 & t5 & [] & -> & H4 & H & Hr5);
    [|done|eapply harmless_but; [done|apply IsAuthorized_harmless]|done].
  destruct ctx as [md|]; [|destruct H as (? & ? & -> & [-> _]); no_request Hr5].
  unfold sessions in H.
  apply or_refuse_request with (e := ARelay rl dl ul) in H as (t6 & t7 & [] & -> & H6 & H & Hr7); [|done|apply nwp_ecall; by split|done].
  assert (ev (R:=aresp) (AIncreaseIP (hd "" (split (hr_forwarded_for r) ","))) None ∈ t6) as Hip
    by call_answered H6.
  apply with_defer_request with (e := ARelay rl dl ul) in H as (t8 & t9 & o1 & -> & H & Hr8); [|done|done].
  apply increase_accounts_trace with (e := ARelay rl dl ul) in H as (t10 & t11 & -> & H & Hr11 & Hacc); [|done|done].
  apply with_defer_request with (e := ARelay rl dl ul) in H as (t12 & t13 & o2 & -> & H & Hr12); [| |done].
  2: { unfold decrease_accounts. apply issues_pfor. intros a _. by split. }
  destruct (console_trace _ _ _ _ _ _ _ _ H Hr12) as (Hlim & kubeConfig & appns & vms & vm & (p & Hp & Hk) & (p' & Hp' & Hns) & Hvms & Hvm & Happ & Huid & Hvnc).
  exists cfg, path, token, md, kubeConfig, appns, vms, vm. split_and!; try done; try (rewrite !elem_of_app; tauto).
  - by intros ->.
  - intros ->. apply IsAuthorized_trace in H4. rewrite rule_of_vnc in H4. rewrite !elem_of_app. tauto.
  - eapply Forall_impl; [exact Hacc|]. intros account Hin. rewrite !elem_of_app. tauto.
  - exists p. split; [done|]. rewrite !elem_of_app. tauto.
  - exists p'. split; [done|]. rewrite !elem_of_app. tauto.
  - apply Hlim.
  - apply Hlim.
  - apply Hlim.
Qed.

(** ** A session *)

Definition console_request : HttpRequest :=
  mkRequest "/vnc/project-1/app-1/cluster-1/0f8fad5b-d9cb-469f-a165-70867728950e" "https://vnc" "vnc" "10.0.0.1, 10.0.0.2"
    [("keycloak-tokens", "2"); ("keycloak-token-0", "abc"); ("keycloak-token-1", "def")].

Definition console_sample : ap unit := GetVNCWebSocketHandler true true true console_request.

Lemma console_guarded_witness :
  getCombinedJWTToken (hr_cookies console_request) = Ok "abcdef" /\
  exists cfg path token md vm,
    newVNCPath (hr_path console_request) = Ok path /\
    getCombinedJWTToken (hr_cookies console_request) = Ok token /\
    ev (R:=aresp) (AIntercept token (vp_project path)) (Ok (Some md)) ∈ arm_log console_sample /\
    ev (R:=aresp) (AVNC (om_namespace (vmo_meta vm)) (om_name (vmo_meta vm))) None ∈ arm_log console_sample /\
    hr_origin console_request ∈ ws_origins cfg.
Proof.
  split; [vm_compute; reflexivity|].
  destruct (console_guarded true true true console_request (arm_log console_sample) (arm_result console_sample) 0 0 0
    (arm_traces console_sample) (ex_intro _ no_gerror (nth_event 18 (arm_log console_sample) _ eq_refl)))
    as (_ & cfg & path & token & md & kubeConfig & appns & vms & vm & _ & Ho & _ & Hp & Ht & Hi & _ & _ & _ & _ & _ & _ & _ & _ & _ & Hv & _).
  exists cfg, path, token, md, vm. split; [exact Hp|]. split; [exact (Ht eq_refl)|]. split; [exact Hi|]. split; [exact Hv|exact Ho].
Defined.
