(* ===== verification/AddressFacts.v ===== *)
(** * The address of a console leads to the console

    The gRPC service builds the address ([GetVNCAddress]); the websocket handler
    parses its path ([newVNCPath]).  The validation of requests is what makes
    the two agree. *)

From Stdlib Require Import Ascii.
From S2P Require Import Prelude Prog GoMonad GoStr Split Types NbEff ArmEff ArmKube ArmValidate ArmVirt ArmFacts Vnc.

(** Characters that stand for themselves everywhere in a URL. *)
Definition unreserved (c : ascii) : bool :=
  let n := nat_of_ascii c in name_char c || (Nat.leb 65 n && Nat.leb n 90).

Definition plain (s : string) : bool := forallb unreserved (to_list s).

Lemma unreserved_name c : name_char c = true -> unreserved c = true.
Proof. unfold unreserved. by intros ->. Qed.

Lemma unreserved_lower c : lower_alnum c = true -> unreserved c = true.
Proof. intros H. apply unreserved_name. unfold name_char. by rewrite H. Qed.

Lemma unreserved_hex c : hex_char c = true -> unreserved c = true.
Proof.
  unfold unreserved, hex_char, name_char, lower_alnum. cbv zeta. rewrite !orb_true_iff, !andb_true_iff, !Nat.leb_le.
  intros [[H|H]|H]; [auto| |]; [left; left; left|right]; lia.
Qed.

Lemma forallb_impl {A : Type} (p q : A -> bool) l :
  (forall x, p x = true -> q x = true) -> forallb p l = true -> forallb q l = true.
Proof. rewrite !forallb_forall. auto. Qed.

Lemma forallb_rev {A : Type} (p : A -> bool) l : forallb p (rev l) = true -> forallb p l = true.
Proof. rewrite !forallb_forall. setoid_rewrite <- in_rev. done. Qed.

Lemma bounded_plain n s : bounded_pattern n s = true -> plain s = true.
Proof.
  unfold bounded_pattern, plain. destruct (to_list s) as [|first rest]; [done|]. cbn. intros [Hf H]%andb_true_iff.
  rewrite (unreserved_lower _ Hf). cbn. apply orb_true_iff in H as [[_ H]%andb_true_iff|H].
  - by eapply forallb_impl; [apply unreserved_name|].
  - apply forallb_rev. destruct (rev rest) as [|last middle]; [done|]. apply andb_true_iff in H as [[Hl _]%andb_true_iff H].
    cbn. rewrite (unreserved_lower _ Hl). by eapply forallb_impl; [apply unreserved_name|].
Qed.

Lemma hex_groups_plain groups l : hex_groups groups l = true -> forallb unreserved l = true.
Proof.
  revert l. induction groups as [|n more IH]; cbn [hex_groups]; intros l H; [done|].
  apply andb_true_iff in H as [[_ Ht]%andb_true_iff H]. rewrite <- (take_drop n l), forallb_app.
  rewrite (forallb_impl _ _ _ unreserved_hex Ht). destruct more as [|m more].
  - apply bool_decide_eq_true in H as ->. done.
  - destruct (drop n l) as [|dash rest]; [done|]. apply andb_true_iff in H as [Hd H].
    apply bool_decide_eq_true in Hd as ->. by apply (IH rest).
Qed.

(** What passes the validation of a request for a console. *)
Lemma valid_vnc_request a c v :
  GetVNCRequest_validate true a c v = None -> plain a = true /\ plain c = true /\ plain v = true.
Proof.
  unfold GetVNCRequest_validate, validation_result. destruct (app_rules a ++ cluster_rules c ++ vm_rules v) eqn:E; [|done]. intros _.
  apply app_eq_nil in E as [Ha [Hc Hv]%app_eq_nil].
  unfold app_rules, cluster_rules, vm_rules, pattern_rule, check_rule in *.
  apply app_eq_nil in Ha as [_ Ha]. apply app_eq_nil in Hc as [_ Hc].
  destruct (bounded_pattern 78 a) eqn:H1; [|done]. destruct (bounded_pattern 38 c) eqn:H2; [|done].
  destruct (uuid_pattern v) eqn:H3; [|done].
  split; [by eapply bounded_plain|]. split; [by eapply bounded_plain|]. by eapply hex_groups_plain.
Qed.

Lemma plain_free s : plain s = true -> free "/" s.
Proof.
  unfold plain, free. rewrite forallb_forall. intros H Hs. apply list_elem_of_In in Hs. by specialize (H _ Hs).
Qed.

Definition console_path (project a c v : string) : string :=
  "/" +:+ VNCWebSocketPrefix +:+ "/" +:+ project +:+ "/" +:+ a +:+ "/" +:+ c +:+ "/" +:+ v.

Lemma path_parses project a c v :
  plain project = true -> plain a = true -> plain c = true -> plain v = true ->
  newVNCPath (console_path project a c v) = Ok (mkVncPath project a c v).
Proof.
  intros Hp Ha Hc Hv. unfold newVNCPath.
  assert (split (console_path project a c v) "/" = [""; VNCWebSocketPrefix; project; a; c; v]) as ->; [|by rewrite bool_decide_true].
  change (console_path project a c v) with
    ("" +:+ String "/" (VNCWebSocketPrefix +:+ String "/" (project +:+ String "/" (a +:+ String "/" (c +:+ String "/" v))))).
  rewrite !split_append. rewrite !(split_whole "/") by (apply plain_free; done). done.
Qed.

Section Address.
Context (sort_by_id : list AppWorkload -> list AppWorkload) (oidcURL domainName : string) (parse_int_error : string -> string).

(** C16: The address that a request for a console is answered with leads to the
    console it was asked for: it is the configured protocol and host, followed
    by a path that needs no escaping and from which the websocket handler reads
    back the project of the request and the application, cluster and machine
    of the request; and when it was given out the machine was there, in the
    namespace of the application. *)
Theorem address_roundtrip (room : nat) (has_opa nil : bool) (ctx : context) (a c v project : string)
    (t : list aevent) (reply : areply) :
  traces (aserve sort_by_id oidcURL domainName parse_int_error room has_opa ctx nil (GetVNC a c v)) t (Done (Ok reply)) ->
  opa.GetActiveProjectID ctx = Ok project -> plain project = true ->
  exists cfg path appns vms vm,
    ev (R:=aresp) AConfig (Ok cfg) ∈ t /\
    reply = VNCReply (ws_protocol cfg +:+ "://" +:+ ws_host cfg +:+ path) /\
    newVNCPath path = Ok (mkVncPath project a c v) /\
    forallb (fun ch => unreserved ch || bool_decide (ch = "/"%char)) (to_list path) = true /\
    ev (R:=aresp) (AAppNamespace project a) (Ok appns) ∈ t /\
    ev (R:=aresp) (AListVMs appns) (Ok vms) ∈ t /\ vm ∈ vms /\ vm_of_app a vm = true /\ om_uid (vmo_meta vm) = v.
Proof.
  intros H Hproject Hp. unfold aserve in H. destruct (nil || _); [by destruct H|].
  destruct (ValidateAll (GetVNC a c v)) as [e|] eqn:Hvalid; [by destruct H|].
  destruct (valid_vnc_request a c v Hvalid) as (Ha & Hc & Hv).
  apply traces_nbind in H as [(t1 & t2 & [] & -> & _ & H)|(? & _ & _ & H)]; [|by destruct (H reply)].
  cbn [handle] in H. apply traces_nbind in H as [(t3 & t4 & address & -> & H & [-> Hreply])|(? & _ & _ & H)]; [|by destruct (H reply)].
  injection Hreply as ->. unfold GetVNCAddress in H.
  apply traces_nbind in H as [(t5 & t6 & cfg & -> & H5 & H)|(? & _ & _ & H)]; [|by destruct (H address)].
  apply traces_nbind in H as [(t7 & t8 & [] & -> & _ & H)|(? & _ & _ & H)]; [|by destruct (H address)].
  apply traces_nbind in H as [(t9 & t10 & vm & -> & H9 & H)|(? & _ & _ & H)]; [|by destruct (H address)].
  apply traces_nbind in H as [(t11 & t12 & tok & -> & _ & [-> H])|(? & _ & _ & H)]; [|by destruct (H address)].
  injection H as ->. rewrite Hproject. destruct (getVM_trace ctx _ _ _ _ H9) as (appns & vms & (p & Hpp & Hns) & Hvms & Hvm & Happ & Huid).
  assert (p = project) as -> by congruence.
  exists cfg, (console_path project a c v), appns, vms, vm. split_and!.
  - nunfold H5. simplify_eq. set_solver.
  - unfold vnc_address, console_path. done.
  - by apply path_parses.
  - assert (forall s, plain s = true -> forallb (fun ch => unreserved ch || bool_decide (ch = "/"%char)) (to_list s) = true) as Hq
      by (intros s; apply forallb_impl; by intros x ->).
    unfold console_path. rewrite !to_list_app, !forallb_app, (Hq _ Hp), (Hq _ Ha), (Hq _ Hc), (Hq _ Hv). done.
  - set_solver.
  - set_solver.
  - done.
  - done.
  - done.
Qed.
End Address.

Definition console_address_request : ap areply :=
  aserve (fun l => l) "" "" (fun s => s) 5 true (Some {["activeprojectid" := ["project-1"]]}) false
    (GetVNC "app-1" "cluster-1" "0f8fad5b-d9cb-469f-a165-70867728950e").

Lemma address_roundtrip_witness :
  plain "project-1" = true /\
  exists cfg path, arm_result console_address_request = Done (Ok (VNCReply (ws_protocol cfg +:+ "://" +:+ ws_host cfg +:+ path))) /\
    newVNCPath path = Ok (mkVncPath "project-1" "app-1" "cluster-1" "0f8fad5b-d9cb-469f-a165-70867728950e").
Proof.
  split; [reflexivity|].
  destruct (address_roundtrip (fun l => l) "" "" (fun s => s) 5 true false (Some {["activeprojectid" := ["project-1"]]})
    "app-1" "cluster-1" "0f8fad5b-d9cb-469f-a165-70867728950e" "project-1" (arm_log console_address_request)
    (VNCReply "wss://vnc/vnc/project-1/app-1/cluster-1/0f8fad5b-d9cb-469f-a165-70867728950e")
    (arm_traces console_address_request) eq_refl eq_refl) as (cfg & path & appns & vms & vm & _ & Hr & Hp & _).
  exists cfg, path. split; [|exact Hp]. rewrite <- Hr. vm_compute. reflexivity.
Defined.
