(* ===== verification/AspServer.v ===== *)
(** * The App Service Proxy: the request on its way to an application

    [internal/rbac], [internal/admclient] and the handler of [internal/server]:
    who may pass, which cluster and service the cookies name, and the request
    that is forwarded to the cluster gateway. *)

From Stdlib Require Import Ascii.
From S2P Require Import Prelude Prog GoMonad GoStr Types NbEff Vnc.

(** ** [net/http]: headers and cookies *)

(** Keys in canonical form. *)
Definition Header : Type := gmap string (list string).

Definition Header_Get (h : Header) (k : string) : string := hd "" (default [] (h !! k)).
Definition Header_Set (k v : string) (h : Header) : Header := <[k := [v]]> h.
Definition Header_Add (k v : string) (h : Header) : Header := <[k := default [] (h !! k) ++ [v]]> h.
Definition Header_Del (k : string) (h : Header) : Header := delete k h.

Definition quote : ascii := ascii_of_nat 34.
Definition backslash : ascii := ascii_of_nat 92.

Fixpoint drop_while (p : ascii -> bool) (l : list ascii) : list ascii :=
  match l with [] => [] | c :: l' => if p c then drop_while p l' else l end.

(** [textproto.TrimString]: spaces, tabs and line ends at both sides. *)
Definition TrimString (s : string) : string :=
  let sp c := bool_decide (nat_of_ascii c ∈ [32; 9; 10; 13]%nat) in
  of_list (rev (drop_while sp (rev (drop_while sp (to_list s))))).

(** The characters of a token (RFC 7230). *)
Definition token_char (c : ascii) : bool :=
  let n := nat_of_ascii c in
  (Nat.leb 48 n && Nat.leb n 57) || (Nat.leb 65 n && Nat.leb n 90) || (Nat.leb 94 n && Nat.leb n 122) ||
  bool_decide (n ∈ [33; 35; 36; 37; 38; 39; 42; 43; 45; 46; 124; 126]%nat).

Definition is_token (s : string) : bool := negb (bool_decide (s = "")) && forallb token_char (to_list s).

Definition cookie_value_char (c : ascii) : bool :=
  let n := nat_of_ascii c in
  Nat.leb 32 n && Nat.ltb n 127 && negb (bool_decide (c = quote)) && negb (bool_decide (c = ";"%char)) &&
  negb (bool_decide (c = backslash)).

(** A value may be in double quotes. *)
Definition parse_cookie_value (s : string) : option string :=
  let l := to_list s in
  let l := match l, rev l with
           | a :: _ :: _, b :: _ => if bool_decide (a = quote) && bool_decide (b = quote) then removelast (tail l) else l
           | _, _ => l
           end in
  if forallb cookie_value_char l then Some (of_list l) else None.

Definition read_cookie (part : string) : option (string * string) :=
  let part := TrimString part in
  if bool_decide (part = "") then None
  else
    let (name, val) := cut "="%char part in
    let name := TrimString name in
    if is_token name then option_map (fun v => (name, v)) (parse_cookie_value val) else None.

(** [req.Cookies()] *)
Definition Cookies (h : Header) : list (string * string) :=
  concat (map (fun line => omap read_cookie (split line ";")) (default [] (h !! "Cookie"))).

(** [req.AddCookie] of a cookie without a value: a request's cookies have no
    attributes. *)
Definition AddEmptyCookie (name : string) (h : Header) : Header :=
  let s := name +:+ "=" in
  let c := Header_Get h "Cookie" in
  if bool_decide (c = "") then Header_Set "Cookie" s h else Header_Set "Cookie" (c +:+ "; " +:+ s) h.

(** ** Requests to the outside *)

Record ClusterCR : Type := mkClusterCR { ccr_name : string; ccr_labels : gomap }.

(** The request handed to the reverse proxy. *)
Record Forwarded : Type := mkForwarded { fw_path : string; fw_host : string; fw_header : Header }.

#[export] Instance Forwarded_eq_dec : EqDecision Forwarded.
Proof. solve_decision. Defined.

Inductive peff : Type :=
  | PParseJWT (token : string)                       (* jwtAuth.ParseAndValidate *)
  | PIntercept (token project : string)              (* authlib.AuthenticationInterceptor *)
  | POpaInput (method : string)
  | POpa (package rule : string)
  | PListClusters (timeout : Z) (ns : string) (labels : gmap string string)
  | PForward (req : Forwarded)
  | PRedirect (url : string)
  | PError (code : Z) (msg : string).

#[export] Instance peff_eq_dec : EqDecision peff.
Proof. solve_decision. Defined.

Definition presp (e : peff) : Type :=
  match e with
  | PParseJWT _ => option gerror
  | PIntercept _ _ => res (option (gmap string (list string)))
  | POpaInput _ => option gerror
  | POpa _ _ => res opa_answer
  | PListClusters _ _ _ => res (list ClusterCR)
  | PForward _ | PRedirect _ | PError _ _ => unit
  end.

Abbreviation pp := (gp peff presp).
Abbreviation pevent := (event peff presp).
Abbreviation pcall e := (call (E:=peff) (R:=presp) e).

(** ** [internal/rbac] *)

Module rbac.

Definition tokenCookiePrefix : string := "app-service-proxy-token".
Definition tokenCookieCount : string := tokenCookiePrefix +:+ "s".

(** The token, and the headers with the cookie added that is meant to delete
    the count. *)
Definition getCombinedJWTToken (h : Header) : res string * Header :=
  match Cookie (Cookies h) tokenCookieCount with
  | Err e => (Err e, h)
  | Ok numTokenCookiesStr =>
      let h := AddEmptyCookie tokenCookieCount h in
      (try numTokenCookies := Atoi numTokenCookiesStr in
       try tokenParts := token_parts (Cookies h) (tokenCookiePrefix +:+ "-") 0 (Z.to_nat numTokenCookies) in
       Ok (join tokenParts ""), h)
  end.

(** Each check returns the headers it leaves behind. *)
Definition Authenticate (h : Header) : pp (Header * option gerror) :=
  let (authToken, h) := getCombinedJWTToken h in
  match authToken with
  | Err e => ok (h, Some (mkErr KInvalid ("cannot get JWT token to Authenticate " +:+ e_msg e)))
  | Ok token =>
      pbind (pcall (PParseJWT token)) (fun err => ok (h, err))
  end.

(** [opa_port] is whether the port of OPA is a number: the process ends if it is
    not.  When the call of OPA fails, its reply is nil and is read all the same. *)
Definition Authorize (opa_port : bool) (method : string) (h : Header) (projectID : string) : pp (Header * option gerror) :=
  if negb opa_port then panic
  else
    let (jwt, h) := getCombinedJWTToken h in
    let invalid msg e := ok (h, Some (mkErr KInvalid (msg +:+ e_msg e))) in
    match jwt with
    | Err e => invalid "cannot get JWT token to Authorize " e
    | Ok jwt =>
        pbind (pcall (PIntercept jwt projectID)) (fun ctx =>
        match ctx with
        | Err e => invalid "failed to parse token string, error: " e
        | Ok None => ok (h, Some (mkErr KInvalid "unable to extract metadata from ctx"))
        | Ok (Some _) =>
            pbind (pcall (POpaInput method)) (fun err =>
            match err with
            | Some e => invalid "cannot marshal object to JSON " e
            | None =>
                pbind (pcall (POpa "deploymentv1" "allow")) (fun resp =>
                match resp with
                | Err _ | Ok OpaNot200 => panic
                | Ok (OpaBool true) => ok (h, None)
                | Ok _ => ok (h, Some (mkErr KForbidden "access denied"))
                end)
            end)
        end)
    end.

End rbac.

(** ** [internal/admclient] *)

Definition CapiInfraName : string := "edge-orchestrator.intel.com/capiInfraName".

(** The name of the first cluster that has the label; none is "". *)
Definition GetClusterInfraName (timeout : Z) (clusterID activeProjectID : string) : pp string :=
  let labels : gmap string string := {[ClusterName := clusterID]} in
  let labels := if bool_decide (activeProjectID = "") then labels
                else <[AppOrchActiveProjectID := activeProjectID]> labels in
  do! clusters := rcall (pcall (PListClusters timeout activeProjectID labels)) in
  ok (match find_first (fun c => bool_decide (is_Some (gmlookup (ccr_labels c) CapiInfraName))) clusters with
      | Some c => gmget (ccr_labels c) CapiInfraName
      | None => ""
      end).

(** ** [internal/server] *)

Record CookieInfo : Type := mkCookieInfo {
  ci_project : string;
  ci_cluster : string;
  ci_namespace : string;
  ci_service : string
}.

Definition extractCookieInfo (h : Header) : res CookieInfo :=
  try project := Cookie (Cookies h) "app-service-proxy-project" in
  try cluster := Cookie (Cookies h) "app-service-proxy-cluster" in
  try namespace := Cookie (Cookies h) "app-service-proxy-namespace" in
  try service := Cookie (Cookies h) "app-service-proxy-service" in
  Ok (mkCookieInfo project cluster namespace service).

(** A cookie of the header that is none of the token's. *)
Definition kept_part (part : string) : bool := negb (has_prefix part rbac.tokenCookiePrefix).

Definition open_bracket : string := String "["%char (String quote "").
Definition close_bracket : string := String quote "]".

Definition sanitizeCookieHeader (cookieHeader : string) : string :=
  let cookieHeader := trim_prefix cookieHeader open_bracket in
  let cookieHeader := trim_suffix cookieHeader close_bracket in
  let sanitizedParts := List.filter kept_part (map trim_space (split cookieHeader ";")) in
  join sanitizedParts "; ".

(** What the handler reads of a request. *)
Record AspRequest : Type := mkAspRequest {
  ar_method : string;
  ar_path : string;
  ar_timeout : string;
  ar_header : Header
}.

Section Server.
(** The fields of [Server]: authentication, authorization and their settings, the
    address of the gateway, and whether it makes a URL. *)
Context (authNenabled authZenabled opa_port : bool) (ccgAddress : string) (target_error : option gerror).

(** The headers after the checks, and the first error. *)
Definition isAllowed (req : AspRequest) (projectID : string) : pp (Header * option gerror) :=
  do! r := (if authNenabled then rbac.Authenticate (ar_header req) else ok (ar_header req, None)) in
  match r with
  | (h, Some err) => ok (h, Some err)
  | (h, None) => if authZenabled then rbac.Authorize opa_port (ar_method req) h projectID else ok (h, None)
  end.

(** Seconds as nanoseconds of a [time.Duration]. *)
Definition timeout_of (timeout : string) : Z :=
  let default_timeout := 15 * 10^9 in
  if bool_decide (timeout = "") then default_timeout
  else match Atoi timeout with
       | Ok val => wrap64 (val * 10^9)
       | Err _ => default_timeout
       end.

Definition newPath (ci : CookieInfo) (clusterInfraName path : string) : string :=
  "/kubernetes/" +:+ ci_project ci +:+ "-" +:+ clusterInfraName +:+ "/api/v1/namespaces/" +:+ ci_namespace ci +:+
  "/services/" +:+ ci_service ci +:+ "/proxy" +:+ path.

(** The cookies of the token are added once more without a value. *)
Definition reset_cookies (h : Header) : Header :=
  fold_left (fun h c => if has_prefix c.1 rbac.tokenCookiePrefix then AddEmptyCookie c.1 h else h) (Cookies h) h.

(** What the [Director] does to the headers. *)
Definition direct_header (projectID : string) (h : Header) : Header :=
  let h := reset_cookies h in
  let h := Header_Set "Cookie" (sanitizeCookieHeader (Header_Get h "Cookie")) h in
  let existingHeader := Header_Get h "Authorization" in
  let h := if bool_decide (existingHeader = "") then h
           else Header_Del "Authorization" (Header_Add "X-App-Authorization" existingHeader h) in
  Header_Add "Activeprojectid" projectID h.

Definition ServicesProxy (req : AspRequest) : pp unit :=
  match extractCookieInfo (ar_header req) with
  | Err e => pbind (pcall (PRedirect "/app-service-proxy-index.html")) (fun _ => ok tt)
  | Ok ci =>
      do! r := isAllowed req (ci_project ci) in
      let (h, err) := r : Header * option gerror in
      match err with
      | Some err => pbind (pcall (PError 401 (e_msg err))) (fun _ => ok tt)
      | None =>
          match target_error with
          | Some err => pbind (pcall (PError 400 (e_msg err))) (fun _ => ok tt)
          | None =>
              do! got := catch (GetClusterInfraName (timeout_of (ar_timeout req)) (ci_cluster ci) (ci_project ci)) in
              match got with
              | Err _ => ok tt
              | Ok clusterInfraName =>
                  pbind (pcall (PForward (mkForwarded (newPath ci clusterInfraName (ar_path req)) ccgAddress
                    (direct_header (ci_project ci) h)))) (fun _ => ok tt)
              end
          end
      end
  end.

(** [maxBodySizeBytesLimit]: megabytes of the environment, shifted as a Go [int]. *)
Definition maxBodySizeBytesLimit (value : string) : Z :=
  let limit := match parse_int64 value with Some n => n | None => 100 end in
  wrap64 (Z.shiftl limit 20).

End Server.
