(* ===== verification/AspFacts.v ===== *)
(** * What the App Service Proxy passes on *)

From Stdlib Require Import Ascii.
From S2P Require Import Prelude Prog GoMonad GoStr Split Types NbEff Vnc AspServer.

(** ** Cookies *)

Definition cookie_parts (h : string) : list string := map trim_space (split h ";").

(** The header without the brackets it may be in. *)
Definition unbracketed (h : string) : string := trim_suffix (trim_prefix h open_bracket) close_bracket.

(** Sanitizing a [Cookie] header drops the parts that name the token and keeps the
    others, in order. *)
Theorem sanitized_parts (h : string) :
  List.filter kept_part (cookie_parts (unbracketed h)) <> [] ->
  cookie_parts (sanitizeCookieHeader h) = List.filter kept_part (cookie_parts (unbracketed h)).
Proof.
  unfold sanitizeCookieHeader. fold (unbracketed h). fold (cookie_parts (unbracketed h)).
  assert (Forall (fun p => free ";" p /\ trim_space p = p) (List.filter kept_part (cookie_parts (unbracketed h)))) as HF.
  { apply Forall_forall. intros p Hp. apply list_elem_of_In, filter_In in Hp as [Hp _].
    apply in_map_iff in Hp as (q & <- & Hq). split; [|apply trim_space_idem]. apply trim_space_free.
    pose proof (split_free ";" (unbracketed h)) as Hf. rewrite Forall_forall in Hf. apply Hf. by apply list_elem_of_In. }
  destruct (List.filter kept_part (cookie_parts (unbracketed h))) as [|x l]; [done|]. intros _.
  unfold cookie_parts. rewrite split_join; [|done|by eapply Forall_impl; [exact HF|]; cbn; intros ? []].
  cbn [map]. apply Forall_cons in HF as [[_ Hx] HF]. rewrite Hx. f_equal. rewrite map_map.
  clear -HF. induction l as [|y l IH]; cbn [map]; [done|]. apply Forall_cons in HF as [[_ Hy] HF].
  rewrite trim_space_leading, Hy. by rewrite IH.
Qed.

(** No part of a sanitized header is one of the token's. *)
Lemma sanitized_no_token (h p : string) :
  p ∈ cookie_parts (sanitizeCookieHeader h) -> has_prefix p rbac.tokenCookiePrefix = false.
Proof.
  intros Hp. destruct (List.filter kept_part (cookie_parts (unbracketed h))) as [|x l] eqn:E.
  - unfold sanitizeCookieHeader in Hp. fold (unbracketed h) in Hp. fold (cookie_parts (unbracketed h)) in Hp.
    rewrite E in Hp. cbn in Hp. apply list_elem_of_singleton in Hp as ->. done.
  - rewrite sanitized_parts in Hp by (by rewrite E). apply list_elem_of_In, filter_In in Hp as [_ Hk].
    unfold kept_part in Hk. by apply negb_true_iff in Hk.
Qed.

(** ** Cookies that were added *)

Lemma Header_Set_eq k v (h : Header) : Header_Set k v h !! k = Some [v].
Proof. unfold Header_Set, Header. apply lookup_insert_eq. Qed.

(** The cookie of the count that is added comes after those of the header. *)
Lemma added_cookie (h : Header) (line : string) :
  h !! "Cookie" = Some [line] -> line <> "" ->
  Cookies (AddEmptyCookie rbac.tokenCookieCount h) = Cookies h ++ [(rbac.tokenCookieCount, "")].
Proof.
  intros Hh Hl. unfold AddEmptyCookie, Header_Get. rewrite Hh. cbn [default hd].
  rewrite bool_decide_false by done. unfold Cookies. rewrite Header_Set_eq, Hh. cbn [default id hd map concat].
  rewrite !app_nil_r. change (line +:+ "; " +:+ rbac.tokenCookieCount +:+ "=")
    with (line +:+ String ";" (String " " (rbac.tokenCookieCount +:+ "="))).
  rewrite split_append, omap_app. done.
Qed.

Lemma added_line (h : Header) :
  exists line, AddEmptyCookie rbac.tokenCookieCount h !! "Cookie" = Some [line] /\ line <> "".
Proof.
  unfold AddEmptyCookie. case_bool_decide as Hc; (eexists; split; [apply Header_Set_eq|]); [done|].
  by destruct (Header_Get h "Cookie").
Qed.

Lemma Cookie_app l n v k : k <> n \/ (exists x, Cookie l k = Ok x) -> Cookie (l ++ [(n, v)]) k = Cookie l k.
Proof.
  unfold Cookie. intros H. induction l as [|c l IH]; cbn.
  - destruct (bool_decide (n = k)) eqn:E; [|done]. apply bool_decide_eq_true in E as ->.
    destruct H as [H|[x H]]; done.
  - cbn in H. destruct (bool_decide (c.1 = k)); [done|auto].
Qed.

Lemma token_parts_app l n v prefix num togo :
  (forall i, prefix +:+ itoa i <> n) -> token_parts (l ++ [(n, v)]) prefix num togo = token_parts l prefix num togo.
Proof.
  intros Hn. revert num. induction togo as [|togo IH]; intros num; cbn [token_parts]; [done|].
  rewrite Cookie_app by (left; apply Hn). destruct (Cookie l (prefix +:+ itoa num)); cbn; [|done]. by rewrite IH.
Qed.

(** Reading the token does not change the token that is read, if the cookies are
    on one line. *)
Lemma token_again (h : Header) (line token : string) :
  h !! "Cookie" = Some [line] -> (rbac.getCombinedJWTToken h).1 = Ok token ->
  (rbac.getCombinedJWTToken (rbac.getCombinedJWTToken h).2).1 = Ok token.
Proof.
  intros Hh Ht. unfold rbac.getCombinedJWTToken in Ht |- *. destruct (Cookie (Cookies h) rbac.tokenCookieCount) as [count|] eqn:Ec; [|done].
  cbn [fst snd] in Ht |- *.
  assert (Cookies (AddEmptyCookie rbac.tokenCookieCount h) = Cookies h ++ [(rbac.tokenCookieCount, "")]) as Ha.
  { apply (added_cookie h line Hh). intros ->. unfold Cookies in Ec. rewrite Hh in Ec. done. }
  assert (forall i, (rbac.tokenCookiePrefix +:+ "-") +:+ itoa i <> rbac.tokenCookieCount) as Hn by done.
  assert (forall h', Cookies h' = Cookies h ++ [(rbac.tokenCookieCount, "")] ->
    Cookie (Cookies h') rbac.tokenCookieCount = Ok count) as Hc.
  { intros h' ->. rewrite Cookie_app by (right; by exists count). done. }
  rewrite (Hc _ Ha). cbn [fst]. destruct (Atoi count) as [num|]; [|done]. cbn in Ht |- *.
  rewrite Ha, token_parts_app in Ht by done.
  set (h2 := AddEmptyCookie rbac.tokenCookieCount (AddEmptyCookie rbac.tokenCookieCount h)).
  assert (Cookies h2 = Cookies (AddEmptyCookie rbac.tokenCookieCount h) ++ [(rbac.tokenCookieCount, "")]) as Hb.
  { destruct (added_line h) as (line' & Hl & Hne). by apply (added_cookie _ line'). }
  rewrite Hb, Ha, !token_parts_app by done. done.
Qed.

(** ** The headers of the forwarded request *)

Lemma Header_Set_ne k k' v (h : Header) : k <> k' -> Header_Set k v h !! k' = h !! k'.
Proof. intros. unfold Header_Set, Header. by apply lookup_insert_ne. Qed.

Lemma Header_Add_eq k v (h : Header) : Header_Add k v h !! k = Some (default [] (h !! k) ++ [v]).
Proof. unfold Header_Add, Header. apply lookup_insert_eq. Qed.

Lemma Header_Add_ne k k' v (h : Header) : k <> k' -> Header_Add k v h !! k' = h !! k'.
Proof. intros. unfold Header_Add, Header. by apply lookup_insert_ne. Qed.

Lemma Header_Del_eq k (h : Header) : Header_Del k h !! k = None.
Proof. unfold Header_Del, Header. apply lookup_delete_eq. Qed.

Lemma Header_Del_ne k k' (h : Header) : k <> k' -> Header_Del k h !! k' = h !! k'.
Proof. intros. unfold Header_Del, Header. by apply lookup_delete_ne. Qed.

#[local] Hint Rewrite Header_Set_eq Header_Add_eq Header_Del_eq : asp_header.
#[local] Hint Rewrite Header_Set_ne Header_Add_ne Header_Del_ne using done : asp_header.

Lemma reset_cookies_other (h : Header) (k : string) : k <> "Cookie" -> reset_cookies h !! k = h !! k.
Proof.
  intros Hk. unfold reset_cookies. generalize (Cookies h) as l. intros l. revert h. induction l as [|c l IH]; intros h; cbn; [done|].
  rewrite IH. destruct (has_prefix _ _); [|done]. unfold AddEmptyCookie. case_bool_decide; by apply Header_Set_ne.
Qed.

(** The credentials of the client after the first line is looked at: only that
    line counts, and if it is empty nothing is moved or removed. *)
Definition moved_authorization (h h' : Header) : Prop :=
  match default [] (h !! "Authorization") with
  | first :: _ =>
      if bool_decide (first = "") then
        h' !! "Authorization" = h !! "Authorization" /\ h' !! "X-App-Authorization" = h !! "X-App-Authorization"
      else h' !! "Authorization" = None /\
           h' !! "X-App-Authorization" = Some (default [] (h !! "X-App-Authorization") ++ [first])
  | [] => default [] (h' !! "Authorization") = [] /\ h' !! "X-App-Authorization" = h !! "X-App-Authorization"
  end.

Lemma direct_authorization (projectID : string) (h : Header) : moved_authorization h (direct_header projectID h).
Proof.
  unfold moved_authorization, direct_header, Header_Get. autorewrite with asp_header. rewrite reset_cookies_other by done.
  destruct (default [] (h !! "Authorization")) as [|first more] eqn:E; cbn [hd].
  - rewrite bool_decide_true by done. autorewrite with asp_header. by rewrite !reset_cookies_other, E.
  - case_bool_decide; autorewrite with asp_header; by rewrite !reset_cookies_other.
Qed.

Lemma direct_cookies (projectID : string) (h : Header) :
  exists line, direct_header projectID h !! "Cookie" = Some [line] /\
    forall part, part ∈ cookie_parts line -> has_prefix part rbac.tokenCookiePrefix = false.
Proof.
  unfold direct_header. eexists. split; [case_bool_decide; autorewrite with asp_header; reflexivity|].
  intros part. apply sanitized_no_token.
Qed.

(** An empty line of credentials hides the next one. *)
Lemma second_authorization_forwarded (projectID : string) (h : Header) (real : string) :
  h !! "Authorization" = Some [""; real] ->
  direct_header projectID h !! "Authorization" = Some [""; real].
Proof.
  intros H. pose proof (direct_authorization projectID h) as Hm. unfold moved_authorization in Hm. rewrite H in Hm.
  by destruct Hm.
Qed.

(** What the client sent as [Activeprojectid] stays in front of the project. *)
Theorem client_project_first (projectID : string) (h : Header) :
  direct_header projectID h !! "Activeprojectid" = Some (default [] (h !! "Activeprojectid") ++ [projectID]).
Proof.
  unfold direct_header. case_bool_decide; autorewrite with asp_header; by rewrite reset_cookies_other.
Qed.

(** ** The checks *)

Section Handler.
Context (authNenabled authZenabled opa_port : bool) (ccgAddress : string) (target_error : option gerror).

Abbreviation never_forwards := (nwps True (fun (e : peff) (_ : presp e) => True)
  (fun e => match e with PForward _ => False | _ => True end) (fun _ => True)).

Lemma getToken_header (h : Header) (k : string) : k <> "Cookie" -> (rbac.getCombinedJWTToken h).2 !! k = h !! k.
Proof.
  intros Hk. unfold rbac.getCombinedJWTToken. destruct (Cookie _ _); [|done]. cbn [snd].
  unfold AddEmptyCookie. case_bool_decide; by apply Header_Set_ne.
Qed.

Lemma Authenticate_trace h t h' :
  traces (rbac.Authenticate h) t (Done (Ok (h', None))) ->
  exists token, (rbac.getCombinedJWTToken h).1 = Ok token /\ h' = (rbac.getCombinedJWTToken h).2 /\
    ev (R:=presp) (PParseJWT token) None ∈ t.
Proof.
  unfold rbac.Authenticate. destruct (rbac.getCombinedJWTToken h) as [[token|e] h1]; intros H; nunfold H; simplify_eq.
  exists token. split; [done|]. split; [done|]. left.
Qed.

Lemma Authorize_trace method h project t h' :
  traces (rbac.Authorize opa_port method h project) t (Done (Ok (h', None))) ->
  exists token md, (rbac.getCombinedJWTToken h).1 = Ok token /\ h' = (rbac.getCombinedJWTToken h).2 /\
    ev (R:=presp) (PIntercept token project) (Ok (Some md)) ∈ t /\
    ev (R:=presp) (POpaInput method) None ∈ t /\
    ev (R:=presp) (POpa "deploymentv1" "allow") (Ok (OpaBool true)) ∈ t.
Proof.
  unfold rbac.Authorize. destruct opa_port; [|intros H; by nunfold H].
  destruct (rbac.getCombinedJWTToken h) as [[token|e] h1]; intros H; cbn [negb] in H; nunfold H; simplify_eq.
  all: repeat case_match; nunfold H; simplify_eq.
  exists token, g. split_and!; set_solver.
Qed.

Lemma isAllowed_never req project : never_forwards (isAllowed authNenabled authZenabled opa_port req project).
Proof.
  unfold isAllowed, rbac.Authenticate, rbac.Authorize. apply nwp_seq.
  - destruct authNenabled; [|by apply nwp_ok]. destruct (rbac.getCombinedJWTToken _) as [[]]; [|by apply nwp_ok].
    split; [done|]. intros r _. by apply nwp_ok.
  - intros [h [e|]]; [by apply nwp_ok|]. destruct authZenabled; [|by apply nwp_ok]. destruct (negb opa_port); [done|].
    destruct (rbac.getCombinedJWTToken h) as [[]]; [|by apply nwp_ok].
    split; [done|]. intros [[md|]|] _; try by apply nwp_ok. split; [done|]. intros [e|] _; [by apply nwp_ok|].
    split; [done|]. intros [[[]| | |]|] _; done.
Qed.

(** What both checks leave behind when they pass. *)
Definition checked (req : AspRequest) (project : string) (t : list pevent) : Prop :=
  (authNenabled = true -> exists token,
    (rbac.getCombinedJWTToken (ar_header req)).1 = Ok token /\ ev (R:=presp) (PParseJWT token) None ∈ t) /\
  (authZenabled = true -> exists token md,
    ev (R:=presp) (PIntercept token project) (Ok (Some md)) ∈ t /\
    ev (R:=presp) (POpaInput (ar_method req)) None ∈ t /\
    ev (R:=presp) (POpa "deploymentv1" "allow") (Ok (OpaBool true)) ∈ t /\
    (forall line, ar_header req !! "Cookie" = Some [line] -> (rbac.getCombinedJWTToken (ar_header req)).1 = Ok token)).

Lemma isAllowed_trace req project t h :
  traces (isAllowed authNenabled authZenabled opa_port req project) t (Done (Ok (h, None))) ->
  checked req project t /\ forall k, k <> "Cookie" -> h !! k = ar_header req !! k.
Proof.
  unfold isAllowed. intros H.
  apply traces_nbind in H as [(t1 & t2 & [h1 [e|]] & -> & H1 & H2)|(? & _ & _ & H)]; [destruct H2 as [_ H2]; by simplify_eq| |by destruct (H (h, None))].
  assert ((authNenabled = true -> exists token,
      (rbac.getCombinedJWTToken (ar_header req)).1 = Ok token /\ ev (R:=presp) (PParseJWT token) None ∈ t1) /\
    (h1 = ar_header req \/ h1 = (rbac.getCombinedJWTToken (ar_header req)).2 /\
      exists token, (rbac.getCombinedJWTToken (ar_header req)).1 = Ok token)) as [HN Hh1].
  { destruct authNenabled; [|destruct H1 as [-> H1]; simplify_eq; by split; [|left]].
    apply Authenticate_trace in H1 as (token & Ht & -> & Hp). eauto 10. }
  assert (forall k, k <> "Cookie" -> h1 !! k = ar_header req !! k) as Hk1.
  { intros k Hk. destruct Hh1 as [->|[-> _]]; [done|]. by apply getToken_header. }
  destruct authZenabled eqn:HZ; [|destruct H2 as [-> H2]; simplify_eq].
  2: { split; [|done]. split; [|congruence]. intros Hn. destruct (HN Hn) as (token & Ht & Hp). exists token. set_solver. }
  apply Authorize_trace in H2 as (token & md & Ht & -> & Hi & Hin & Ha). split.
  - split.
    + intros Hn. destruct (HN Hn) as (token' & Ht' & Hp). exists token'. set_solver.
    + intros _. exists token, md. split_and!; [set_solver..|]. intros line Hl.
      destruct Hh1 as [->|[-> [token' Ht']]]; [done|].
      pose proof (token_again _ _ _ Hl Ht') as Hag. congruence.
  - intros k Hk. rewrite getToken_header by done. auto.
Qed.

Lemma checked_app req project t1 t2 : checked req project t1 -> checked req project (t1 ++ t2).
Proof.
  intros [HN HZ]. split.
  - intros H. destruct (HN H) as (token & Ht & Hp). exists token. set_solver.
  - intros H. destruct (HZ H) as (token & md & H1 & H2 & H3 & H4). exists token, md. split_and!; [set_solver..|done].
Qed.

(** The labels a cluster is looked up by. *)
Definition cluster_labels (ci : CookieInfo) : gmap string string :=
  if bool_decide (ci_project ci = "") then {[ClusterName := ci_cluster ci]}
  else <[AppOrchActiveProjectID := ci_project ci]> {[ClusterName := ci_cluster ci]}.

Definition infra_name (clusters : list ClusterCR) : string :=
  match find_first (fun c => bool_decide (is_Some (gmlookup (ccr_labels c) CapiInfraName))) clusters with
  | Some c => gmget (ccr_labels c) CapiInfraName
  | None => ""
  end.


End Handler.

(** ** A request on its way *)

Definition asp_answer (e : peff) : presp e :=
  match e with
  | PParseJWT _ => None
  | PIntercept _ project => Ok (Some {["activeprojectid" := [project]]})
  | POpaInput _ => None
  | POpa _ _ => Ok (OpaBool true)
  | PListClusters _ _ _ =>
      Ok [mkClusterCR "other" None; mkClusterCR "edge" (Some {[CapiInfraName := "infra-1"]})]
  | PForward _ | PRedirect _ | PError _ _ => tt
  end.

Definition asp_env (e : peff) (w : unit) : presp e * unit := (asp_answer e, w).

Definition asp_request : AspRequest :=
  mkAspRequest "GET" "/index.html" "30"
    {["Cookie" := ["app-service-proxy-project=p1; app-service-proxy-cluster=c1; app-service-proxy-namespace=ns1; app-service-proxy-service=web:80; theme=dark; app-service-proxy-tokens=2; app-service-proxy-token-0=abc; app-service-proxy-token-1=def"];
      "Authorization" := ["Basic 123"]]}.

Definition asp_sample : pp unit := ServicesProxy true true true "ccg:80" None asp_request.

Definition asp_log : list pevent := (run_log asp_env tt asp_sample).2.

Example asp_forwards :
  (rbac.getCombinedJWTToken (ar_header asp_request)).1 = Ok "abcdef" /\
  map (fun x => match projT1 x with
                | PForward f => (fw_path f, Header_Get (fw_header f) "Cookie", Header_Get (fw_header f) "X-App-Authorization")
                | _ => ("", "", "") end) (List.filter (fun x => match projT1 x with PForward _ => true | _ => false end) asp_log)
  = [("/kubernetes/p1-infra-1/api/v1/namespaces/ns1/services/web:80/proxy/index.html",
      "app-service-proxy-project=p1; app-service-proxy-cluster=c1; app-service-proxy-namespace=ns1; app-service-proxy-service=web:80; theme=dark",
      "Basic 123")].
Proof. split; vm_compute; reflexivity. Qed.

