(* ===== verification/Regex.v ===== *)
(** * Regular expressions as Go's [regexp] matches them

    Leftmost, and of the matches there the one a backtracking search finds
    first.  Texts are lists of bytes, and a class is a set of bytes: on valid
    UTF-8 a negated class under a repetition takes whole runes. *)

From Stdlib Require Import Ascii.
From S2P Require Import Prelude GoStr.

Inductive regex : Type :=
  | REmpty
  | RClass (p : ascii -> bool)
  | RSeq (a b : regex)
  | RAlt (a b : regex)
  | ROpt (a : regex)
  | RStar (greedy : bool) (a : regex)
  | RGroup (a : regex).

Definition RPlus (a : regex) : regex := RSeq a (RStar true a).
Definition RChar (c : ascii) : regex := RClass (fun x => bool_decide (x = c)).

Fixpoint rlit_list (l : list ascii) : regex :=
  match l with [] => REmpty | c :: l' => RSeq (RChar c) (rlit_list l') end.

(** The characters of [s] one after the other. *)
Definition rlit (s : string) : regex := rlit_list (to_list s).

Definition orelse {A : Type} (x y : option A) : option A := match x with Some _ => x | None => y end.

Section Match.
(** What is kept of the groups, and how a group that closes is added to it. *)
Context {G : Type} (capture : list ascii -> G -> G).

(** What is left of the text after a match, and the groups. *)
Definition rest_group : Type := list ascii * G.

(** The first match of [r] at the start of [s] that [k] can complete. *)
Fixpoint rmatch (r : regex) (s : list ascii) (g : G) (k : list ascii -> G -> option rest_group) : option rest_group :=
  match r with
  | REmpty => k s g
  | RClass p => match s with c :: s' => if p c then k s' g else None | [] => None end
  | RSeq a b => rmatch a s g (fun s1 g1 => rmatch b s1 g1 k)
  | RAlt a b => orelse (rmatch a s g k) (rmatch b s g k)
  | ROpt a => orelse (rmatch a s g k) (k s g)
  | RStar greedy a =>
      (fix star (n : nat) (s : list ascii) (g : G) {struct n} : option rest_group :=
         let more := match n with
                     | O => None
                     | S n' => rmatch a s g (fun s1 g1 => if Nat.ltb (length s1) (length s) then star n' s1 g1 else None)
                     end in
         if greedy then orelse more (k s g) else orelse (k s g) more) (length s) s g
  | RGroup a => rmatch a s g (fun s1 g1 => k s1 (capture (take (length s - length s1) s) g1))
  end.

End Match.

(** The text of the one group of an expression. *)
Definition last_group (m : list ascii) (_ : option (list ascii)) : option (list ascii) := Some m.

Definition match_at (r : regex) (s : list ascii) : option rest_group := rmatch last_group r s None (fun s1 g => Some (s1, g)).

(** [re.FindStringSubmatch(s)], but for the whole match, of an expression
    between [^] and [$] none of whose groups is inside another or repeated. *)
Definition all_groups (m : list ascii) (g : list (list ascii)) : list (list ascii) := g ++ [m].

Definition at_end {G : Type} (s : list ascii) (g : G) : option (list ascii * G) :=
  match s with [] => Some ([], g) | _ => None end.

Definition FindStringSubmatch (r : regex) (s : string) : option (list string) :=
  option_map (fun m => map of_list m.2) (rmatch all_groups r (to_list s) [] at_end).

(** [re.ReplaceAllStringFunc(s, f)] for an expression that matches no empty
    text; [f] is given the match and its group.  [skip] bytes of a match remain
    to be dropped. *)
Fixpoint replace_func_go (r : regex) (f : list ascii -> list ascii -> list ascii) (skip : nat) (s : list ascii) : list ascii :=
  match s with
  | [] => []
  | c :: s' =>
      match skip with
      | S n => replace_func_go r f n s'
      | O =>
          match match_at r s with
          | Some (rest, g) =>
              let n := (length s - length rest)%nat in
              f (take n s) (default [] g) ++ replace_func_go r f (n - 1) s'
          | None => c :: replace_func_go r f 0 s'
          end
      end
  end.

Definition ReplaceAllStringFunc (r : regex) (f : string -> string -> string) (s : string) : string :=
  of_list (replace_func_go r (fun m g => to_list (f (of_list m) (of_list g))) 0 (to_list s)).

(** [\s] *)
Definition re_space (c : ascii) : bool := bool_decide (nat_of_ascii c ∈ [9; 10; 12; 13; 32]%nat).

(** ** Lemmas *)

(** The longest run of a class, and what follows it. *)
Fixpoint run (p : ascii -> bool) (s : list ascii) : list ascii :=
  match s with c :: s' => if p c then c :: run p s' else [] | [] => [] end.

Lemma run_forall p s : Forall (fun c => p c = true) (run p s).
Proof. induction s as [|c s IH]; cbn; [constructor|]. destruct (p c) eqn:E; by constructor. Qed.

Lemma run_drop p s : s = run p s ++ drop (length (run p s)) s.
Proof. induction s as [|c s IH]; cbn; [done|]. destruct (p c); [|done]. cbn. by rewrite <- IH. Qed.

Lemma run_stops p s c s' : drop (length (run p s)) s = c :: s' -> p c = false.
Proof. induction s as [|a s IH]; cbn; [done|]. destruct (p a) eqn:E; [done|]. cbn. by intros [= -> _]. Qed.

Lemma run_app p l s : Forall (fun c => p c = true) l -> run p (l ++ s) = l ++ run p s.
Proof. induction l as [|c l IH]; [done|]. intros [H HF]%Forall_cons. cbn. rewrite H. by rewrite IH. Qed.

(** A class repeated greedily goes back as far as it has to. *)
Fixpoint back_off {A : Type} (k : list ascii -> option A) (p : ascii -> bool) (s : list ascii) : option A :=
  match s with
  | c :: s' => if p c then orelse (back_off k p s') (k s) else k s
  | [] => k s
  end.

Lemma rmatch_star {G : Type} (capture : list ascii -> G -> G) p s g k :
  rmatch capture (RStar true (RClass p)) s g k = back_off (fun s => k s g) p s.
Proof.
  cbn [rmatch]. assert (Hn : forall n s, (length s <= n)%nat ->
    (fix star (n : nat) (s : list ascii) (g : G) {struct n} : option rest_group :=
       orelse match n with
              | O => None
              | S n' => match s with
                        | [] => None
                        | c :: s' => if p c then if Nat.ltb (length s') (length s) then star n' s' g else None else None
                        end
              end (k s g)) n s g = back_off (fun s => k s g) p s); [|by apply Hn].
  clear s. intros n. induction n as [|n IH]; intros s Hs; destruct s as [|c s]; cbn in Hs; try lia; [done|done|].
  cbn [back_off]. destruct (p c); [|done].
  assert (Nat.ltb (length s) (length (c :: s)) = true) as -> by (apply Nat.ltb_lt; cbn; lia).
  rewrite IH by lia. done.
Qed.

(** If what follows always matches, the run is taken whole. *)
Lemma back_off_total {A : Type} (k : list ascii -> option A) p s : (forall s, k s <> None) -> back_off k p s = k (drop (length (run p s)) s).
Proof.
  intros Hk. induction s as [|c s IH]; [done|]. cbn [back_off run]. destruct (p c); [|done]. rewrite IH.
  cbn [length drop]. destruct (k _) eqn:E; [done|by apply Hk in E].
Qed.

Lemma rmatch_lit {G : Type} (capture : list ascii -> G -> G) l s g k :
  rmatch capture (rlit_list l) s g k = if bool_decide (take (length l) s = l) then k (drop (length l) s) g else None.
Proof.
  revert s. induction l as [|a l IH]; intros s; cbn [rlit_list rmatch length]; [done|].
  destruct s as [|c s]; cbn; [done|].
  destruct (bool_decide (c = a)) eqn:E; [apply bool_decide_eq_true in E as ->|].
  - rewrite IH. destruct (decide (take (length l) s = l)) as [H|H].
    + rewrite !bool_decide_true; [done|by rewrite H|done].
    + rewrite !bool_decide_false; [done|congruence|done].
  - apply bool_decide_eq_false in E. rewrite bool_decide_false; [done|congruence].
Qed.
