(* ===== verification/GoUrl.v ===== *)
(** * [net/url]: [Parse] and [URL.String]

    As Go 1.26 has them.  The host of an address in brackets (an IPv6 literal)
    is a parameter. *)

From Stdlib Require Import Ascii.
From S2P Require Import Prelude GoStr Split.

(** ** Escaping *)

Inductive encoding : Type := EncPath | EncHost | EncUserPassword | EncFragment.

#[export] Instance encoding_eq_dec : EqDecision encoding.
Proof. solve_decision. Defined.

Definition alnum (c : ascii) : bool :=
  let n := nat_of_ascii c in
  (Nat.leb 97 n && Nat.leb n 122) || (Nat.leb 65 n && Nat.leb n 90) || is_digit c.

(** [c] is one of the characters of [s]. *)
Definition one_of (s : string) (c : ascii) : bool := existsb (fun x => bool_decide (x = c)) (to_list s).

Definition host_chars : string := "!$&'()*+,;=:[]<>" +:+ String (ascii_of_nat 34) "".

Definition shouldEscape (mode : encoding) (c : ascii) : bool :=
  if alnum c then false
  else if bool_decide (mode = EncHost) && one_of host_chars c then false
  else if one_of "-_.~" c then false
  else if one_of "$&+,/:;=?@" c && negb (bool_decide (mode = EncHost)) then
    match mode with
    | EncPath => bool_decide (c = "?"%char)
    | EncUserPassword => one_of "@/?:" c
    | _ => false
    end
  else if bool_decide (mode = EncFragment) && one_of "!()*" c then false
  else true.

Definition hex_digit (n : nat) : ascii := ascii_of_nat (if Nat.ltb n 10 then n + 48 else n + 55).

Fixpoint escape (mode : encoding) (s : string) : string :=
  match s with
  | EmptyString => EmptyString
  | String c s' =>
      if shouldEscape mode c then
        String "%" (String (hex_digit (nat_of_ascii c / 16)) (String (hex_digit (nat_of_ascii c mod 16)) (escape mode s')))
      else String c (escape mode s')
  end.

Definition unhex (c : ascii) : option nat :=
  let n := nat_of_ascii c in
  if is_digit c then Some (n - 48)%nat
  else if Nat.leb 97 n && Nat.leb n 102 then Some (n - 87)%nat
  else if Nat.leb 65 n && Nat.leb n 70 then Some (n - 55)%nat
  else None.

(** [None] is an error. *)
Fixpoint unescape (mode : encoding) (s : string) : option string :=
  match s with
  | EmptyString => Some EmptyString
  | String c s' =>
      if bool_decide (c = "%"%char) then
        match s' with
        | String a (String b s'') =>
            match unhex a, unhex b with
            | Some x, Some y =>
                if bool_decide (mode = EncHost) && Nat.ltb x 8 && negb (bool_decide (x = 2%nat /\ y = 5%nat)) then None
                else option_map (String (ascii_of_nat (x * 16 + y))) (unescape mode s'')
            | _, _ => None
            end
        | _ => None
        end
      else if bool_decide (mode = EncHost) && Nat.ltb (nat_of_ascii c) 128 && shouldEscape mode c then None
      else option_map (String c) (unescape mode s')
  end.

Definition validEncoded (mode : encoding) (s : string) : bool :=
  forallb (fun c => one_of "!$&'()*+,;=:@[]%" c || negb (shouldEscape mode c)) (to_list s).

(** ** URLs *)

Record Userinfo : Type := mkUserinfo { ui_name : string; ui_password : option string }.

Record URL : Type := mkUrl {
  u_scheme : string;
  u_opaque : string;
  u_user : option Userinfo;
  u_host : string;
  u_path : string;
  u_raw_path : string;
  u_omit_host : bool;
  u_force_query : bool;
  u_raw_query : string;
  u_fragment : string;
  u_raw_fragment : string
}.

#[export] Instance Userinfo_eq_dec : EqDecision Userinfo.
Proof. solve_decision. Defined.
#[export] Instance URL_eq_dec : EqDecision URL.
Proof. solve_decision. Defined.

(** ** [String] *)

(** [EscapedPath] and [EscapedFragment]: the raw text, if it still says the same. *)
Definition escaped (mode : encoding) (raw text : string) : string :=
  if negb (bool_decide (raw = "")) && validEncoded mode raw && bool_decide (unescape mode raw = Some text) then raw
  else if bool_decide (mode = EncPath) && bool_decide (text = "*") then "*"
  else escape mode text.

Definition Userinfo_String (ui : Userinfo) : string :=
  escape EncUserPassword (ui_name ui) +:+
  match ui_password ui with Some p => ":" +:+ escape EncUserPassword p | None => "" end.

Definition empty (s : string) : bool := bool_decide (s = "").

(** Scheme and authority. *)
Definition url_front (u : URL) : string :=
  let scheme := if empty (u_scheme u) then "" else u_scheme u +:+ ":" in
  let no_user := bool_decide (u_user u = None) in
  let authority :=
    if (empty (u_scheme u) && empty (u_host u) && no_user) || (u_omit_host u && empty (u_host u) && no_user) then ""
    else
      (if negb (empty (u_host u)) || negb (empty (u_path u)) || negb no_user then "//" else "") +:+
      match u_user u with Some ui => Userinfo_String ui +:+ "@" | None => "" end +:+
      escape EncHost (u_host u) in
  scheme +:+ authority.

Definition url_path (u : URL) : string :=
  let path := escaped EncPath (u_raw_path u) (u_path u) in
  let front := url_front u in
  (if negb (empty path) && negb (has_prefix path "/") && negb (empty (u_host u)) then "/" else
   if empty front && contains (fst (cut "/" path)) ":" then "./" else "") +:+ path.

Definition URL_String (u : URL) : string :=
  (if empty (u_opaque u) then url_front u +:+ url_path u
   else (if empty (u_scheme u) then "" else u_scheme u +:+ ":") +:+ u_opaque u) +:+
  (if u_force_query u || negb (empty (u_raw_query u)) then "?" +:+ u_raw_query u else "") +:+
  (if empty (u_fragment u) then "" else "#" +:+ escaped EncFragment (u_raw_fragment u) (u_fragment u)).

(** ** [Parse] *)

(** The scheme and the rest; [None] is an error. *)
Fixpoint getScheme_go (i : nat) (acc : string) (s whole : string) : option (string * string) :=
  match s with
  | EmptyString => Some ("", whole)
  | String c s' =>
      if alnum c && negb (is_digit c) then getScheme_go (S i) (acc +:+ String c "") s' whole
      else if is_digit c || one_of "+-." c then
        if Nat.eqb i 0 then Some ("", whole) else getScheme_go (S i) (acc +:+ String c "") s' whole
      else if bool_decide (c = ":"%char) then if Nat.eqb i 0 then None else Some (acc, s')
      else Some ("", whole)
  end.

Definition getScheme (s : string) : option (string * string) := getScheme_go 0 "" s s.

(** What is before and after the last [c]. *)
Fixpoint cut_last (c : ascii) (s : string) : option (string * string) :=
  match s with
  | EmptyString => None
  | String a s' =>
      match cut_last c s' with
      | Some (x, y) => Some (String a x, y)
      | None => if bool_decide (a = c) then Some ("", s') else None
      end
  end.

Definition validUserinfo (s : string) : bool := forallb (fun c => alnum c || one_of "-._:~!$&'()*+,;=%@" c) (to_list s).

Section Parse.
Context (bracket_host : string -> option string).

Definition parseHost (host : string) : option string :=
  if one_of host "[" then bracket_host host
  else if one_of host ":" then
    if forallb is_digit (to_list (snd (cut ":" host))) then unescape EncHost host else None
  else unescape EncHost host.

Definition parseAuthority (authority : string) : option (option Userinfo * string) :=
  match cut_last "@" authority with
  | None => option_map (fun h => (None, h)) (parseHost authority)
  | Some (userinfo, host) =>
      match parseHost host with
      | None => None
      | Some h =>
          if negb (validUserinfo userinfo) then None
          else
            let name := if one_of userinfo ":" then fst (cut ":" userinfo) else userinfo in
            match unescape EncUserPassword name with
            | None => None
            | Some n =>
                if one_of userinfo ":" then
                  option_map (fun p => (Some (mkUserinfo n (Some p)), h)) (unescape EncUserPassword (snd (cut ":" userinfo)))
                else Some (Some (mkUserinfo n None), h)
            end
      end
  end.

(** The raw text is kept when escaping does not give it back. *)
Definition set_escaped (mode : encoding) (p : string) : option (string * string) :=
  option_map (fun path => (path, if bool_decide (escape mode path = p) then "" else p)) (unescape mode p).

(** After scheme and query: the authority, if there is one, and the path. *)
Definition parse_rest (scheme rest : string) (force : bool) (query : string) : option URL :=
  if negb (has_prefix rest "/") && negb (empty scheme) then
    Some (mkUrl scheme rest None "" "" "" false force query "" "")
  else if negb (has_prefix rest "/") && contains (fst (cut "/" rest)) ":" then None
  else
    let with_authority := (negb (empty scheme) || negb (has_prefix rest "///")) && has_prefix rest "//" in
    let after := sdrop 2 rest in
    let authority := fst (cut "/" after) in
    let path := if with_authority then sdrop (String.length authority) after else rest in
    match (if with_authority then parseAuthority authority else Some (None, "")), set_escaped EncPath path with
    | Some (user, host), Some (path, raw) =>
        Some (mkUrl scheme "" user host path raw
                (negb with_authority && negb (empty scheme) && has_prefix rest "/") force query "" "")
    | _, _ => None
    end.

Definition parse (s : string) : option URL :=
  if existsb (fun c => Nat.ltb (nat_of_ascii c) 32 || Nat.eqb (nat_of_ascii c) 127) (to_list s) then None
  else if bool_decide (s = "*") then Some (mkUrl "" "" None "" "*" "" false false "" "" "")
  else
    match getScheme s with
    | None => None
    | Some (scheme, rest) =>
        let marks := length (List.filter (fun c => bool_decide (c = "?"%char)) (to_list rest)) in
        if has_suffix rest "?" && Nat.eqb marks 1 then parse_rest (to_lower scheme) (trim_suffix rest "?") true ""
        else let (rest, query) := cut "?" rest in parse_rest (to_lower scheme) rest false query
    end.

Definition set_fragment (u : URL) (fragment raw : string) : URL :=
  mkUrl (u_scheme u) (u_opaque u) (u_user u) (u_host u) (u_path u) (u_raw_path u) (u_omit_host u) (u_force_query u)
    (u_raw_query u) fragment raw.

Definition Parse (rawURL : string) : option URL :=
  let (s, frag) := cut "#" rawURL in
  match parse s with
  | None => None
  | Some u =>
      if empty frag then Some u
      else option_map (fun f => set_fragment u f.1 f.2) (set_escaped EncFragment frag)
  end.

End Parse.

Definition no_brackets (s : string) : option string := None.

Abbreviation parsed := (Parse no_brackets).

Example parse_samples :
  option_map URL_String (parsed "http://u:p@host:80/a%20b/c?q=1#f") = Some "http://u:p@host:80/a%20b/c?q=1#f" /\
  option_map URL_String (parsed "/%5Cevil.com") = Some "/%5Cevil.com" /\
  option_map (fun u => (u_host u, u_path u)) (parsed "//evil.com:8080/path") = Some ("evil.com:8080", "/path") /\
  option_map u_opaque (parsed "mailto:a@b") = Some "a@b" /\
  parsed "a:b/c" = Some (mkUrl "a" "b/c" None "" "" "" false false "" "" "") /\
  parsed "1:b/c" = None /\ parsed "http://a:b/" = None.
Proof. vm_compute. done. Qed.

(** ** A URL that is written is read back *)

(** ** Escaping *)

Lemma hex_roundtrip c :
  unhex (hex_digit (nat_of_ascii c / 16)) = Some (nat_of_ascii c / 16)%nat /\
  unhex (hex_digit (nat_of_ascii c mod 16)) = Some (nat_of_ascii c mod 16)%nat /\
  ascii_of_nat (nat_of_ascii c / 16 * 16 + nat_of_ascii c mod 16) = c /\
  alnum (hex_digit (nat_of_ascii c / 16)) = true /\ alnum (hex_digit (nat_of_ascii c mod 16)) = true.
Proof. destruct c as [[] [] [] [] [] [] [] []]; vm_compute; done. Qed.

Lemma percent_escaped mode : shouldEscape mode "%" = true.
Proof. by destruct mode. Qed.

Lemma unescape_escape mode s : mode <> EncHost -> unescape mode (escape mode s) = Some s.
Proof.
  intros Hm. induction s as [|c s IH]; [done|]. cbn [escape]. destruct (shouldEscape mode c) eqn:E.
  - cbn [unescape]. rewrite bool_decide_true by done. destruct (hex_roundtrip c) as (-> & -> & Hc & _).
    rewrite bool_decide_false by done. cbn [andb]. rewrite IH. cbn [option_map]. by rewrite Hc.
  - cbn [unescape]. rewrite bool_decide_false by (intros ->; by rewrite percent_escaped in E).
    rewrite bool_decide_false by done. cbn [andb]. by rewrite IH.
Qed.

Lemma alnum_plain mode c : alnum c = true -> shouldEscape mode c = false.
Proof. unfold shouldEscape. by intros ->. Qed.

(** A character that may stand in the encoded text. *)
Definition encoded_char (mode : encoding) (c : ascii) : bool := one_of "!$&'()*+,;=:@[]%" c || negb (shouldEscape mode c).

Lemma validEncoded_escape mode s : validEncoded mode (escape mode s) = true.
Proof.
  unfold validEncoded. induction s as [|c s IH]; [done|]. cbn [escape]. destruct (hex_roundtrip c) as (_ & _ & _ & H1 & H2).
  destruct (shouldEscape mode c) eqn:E; cbn [to_list forallb].
  - rewrite IH, (alnum_plain mode _ H1), (alnum_plain mode _ H2), !orb_true_r. done.
  - by rewrite IH, E, orb_true_r.
Qed.

Lemma escaped_ok mode raw text :
  mode <> EncHost -> unescape mode (escaped mode raw text) = Some text /\ validEncoded mode (escaped mode raw text) = true.
Proof.
  intros Hm. unfold escaped. destruct (negb _ && validEncoded mode raw && _) eqn:E.
  - apply andb_true_iff in E as [[_ Hv]%andb_true_iff Hu]. by apply bool_decide_eq_true in Hu.
  - destruct (bool_decide (mode = EncPath) && bool_decide (text = "*")) eqn:E2.
    + apply andb_true_iff in E2 as [->%bool_decide_eq_true ->%bool_decide_eq_true]. by vm_compute.
    + split; [by apply unescape_escape|apply validEncoded_escape].
Qed.

Lemma set_escaped_ok mode e text : unescape mode e = Some text -> exists raw, set_escaped mode e = Some (text, raw).
Proof. unfold set_escaped. intros ->. cbn. eauto. Qed.

(** ** Characters *)

Definition ctl (c : ascii) : bool := Nat.ltb (nat_of_ascii c) 32 || Nat.eqb (nat_of_ascii c) 127.

Definition none_of (bad : ascii -> bool) (s : string) : bool := forallb (fun c => negb (bad c)) (to_list s).

Lemma none_of_app bad a b : none_of bad (a +:+ b) = none_of bad a && none_of bad b.
Proof. unfold none_of. by rewrite to_list_app, forallb_app. Qed.

Lemma none_of_ctl s : existsb (fun c => Nat.ltb (nat_of_ascii c) 32 || Nat.eqb (nat_of_ascii c) 127) (to_list s) = negb (none_of ctl s).
Proof. unfold none_of. induction (to_list s) as [|c l IH]; [done|]. cbn [existsb forallb]. by rewrite IH, negb_andb, negb_involutive. Qed.

Lemma none_of_free c s : none_of (fun x => bool_decide (x = c)) s = true <-> free c s.
Proof.
  unfold none_of, free. rewrite forallb_forall. split.
  - intros H Hc. apply list_elem_of_In in Hc. specialize (H _ Hc). by rewrite bool_decide_true in H.
  - intros H x Hx. rewrite bool_decide_false; [done|]. intros ->. apply H. by apply list_elem_of_In.
Qed.

Lemma forallb_free p c s : forallb p (to_list s) = true -> p c = false -> free c s.
Proof. rewrite forallb_forall. intros H Hp Hc. apply list_elem_of_In in Hc. specialize (H _ Hc). congruence. Qed.

Lemma forallb_none p bad s : (forall c, p c = true -> bad c = false) -> forallb p (to_list s) = true -> none_of bad s = true.
Proof. unfold none_of. rewrite !forallb_forall. intros H Hs c Hc. by rewrite H by auto. Qed.

Lemma encoded_ctl mode c : encoded_char mode c = true -> ctl c = false.
Proof. destruct mode, c as [[] [] [] [] [] [] [] []]; vm_compute; congruence. Qed.

(** ** [strings.Cut] *)

Lemma cut_at c a b : free c a -> cut c (a +:+ String c b) = (a, b).
Proof.
  induction a as [|x a IH]; intros Hf; [rewrite sapp_nil_l; cbn [cut]; by rewrite bool_decide_true|].
  rewrite sapp_cons. cbn [cut]. unfold free in *. cbn in Hf.
  rewrite bool_decide_false by (intros ->; apply Hf; left). rewrite IH; [done|set_solver].
Qed.

Lemma cut_none c a : free c a -> cut c a = (a, "").
Proof.
  induction a as [|x a IH]; intros Hf; [done|]. cbn [cut cut_last]. unfold free in *. cbn in Hf.
  rewrite bool_decide_false by (intros ->; apply Hf; left). rewrite IH; [done|set_solver].
Qed.

Lemma cut_parts c s : none_of (fun x => bool_decide (x = c)) (fst (cut c s)) = true /\ exists t, s = fst (cut c s) +:+ t +:+ snd (cut c s).
Proof.
  induction s as [|x s [IH1 [t IH2]]]; [split; [done|by exists ""]|]. cbn [cut]. case_bool_decide as E.
  - split; [done|]. by exists (String x "").
  - destruct (cut c s) as [a b]. cbn in *. split; [unfold none_of in *; cbn; by rewrite bool_decide_false|].
    exists t. rewrite IH2 at 1. by rewrite sapp_cons.
Qed.

Lemma none_of_cut bad c s : none_of bad s = true -> none_of bad (fst (cut c s)) = true /\ none_of bad (snd (cut c s)) = true.
Proof.
  destruct (cut_parts c s) as [_ [t Ht]]. intros H. rewrite Ht in H.
  rewrite !none_of_app, !andb_true_iff in H. tauto.
Qed.

Lemma cut_last_none c s : free c s -> cut_last c s = None.
Proof.
  induction s as [|x s IH]; intros Hf; [done|]. cbn [cut cut_last]. unfold free in *. cbn in Hf. rewrite IH by set_solver.
  rewrite bool_decide_false; [done|]. intros ->. apply Hf. left.
Qed.

(** ** Hosts *)

(** A name or an IPv4 address, with or without a port. *)
Definition plain_host (host : string) : bool :=
  negb (empty host) && forallb (fun c => alnum c || one_of "-.:" c) (to_list host) &&
  negb (has_prefix host ":") && forallb is_digit (to_list (snd (cut ":" host))).

Lemma host_char_plain c : alnum c || one_of "-.:" c = true -> shouldEscape EncHost c = false /\ c <> "%"%char.
Proof. destruct c as [[] [] [] [] [] [] [] []]; vm_compute; intuition congruence. Qed.

Lemma unescape_host host : forallb (fun c => alnum c || one_of "-.:" c) (to_list host) = true ->
  unescape EncHost host = Some host /\ escape EncHost host = host.
Proof.
  induction host as [|c host IH]; [done|]. cbn [to_list forallb]. intros [Hc Hh]%andb_true_iff.
  destruct (host_char_plain c Hc) as [He Hp], (IH Hh) as [H1 H2]. cbn [unescape escape]. rewrite He, H2, H1.
  rewrite bool_decide_false by done. rewrite !andb_false_r. done.
Qed.

Lemma plain_parts host : plain_host host = true ->
  host <> "" /\ has_prefix host "/" = false /\ forallb (fun c => alnum c || one_of "-.:" c) (to_list host) = true /\
  forallb is_digit (to_list (snd (cut ":" host))) = true.
Proof.
  unfold plain_host. rewrite !andb_true_iff. intros [[[He Hc] _] Hd]. split_and!; try done.
  - intros ->. done.
  - destruct host as [|c host]; [done|]. cbn in Hc |- *. apply andb_true_iff in Hc as [Hc _].
    rewrite bool_decide_false; [done|]. by intros <-.
Qed.

Lemma parse_plain_host bracket_host host : plain_host host = true -> parseAuthority bracket_host host = Some (None, host).
Proof.
  intros H. destruct (plain_parts host H) as (_ & _ & Hc & Hd). unfold parseAuthority.
  rewrite cut_last_none by (by eapply forallb_free). unfold parseHost.
  assert (one_of host "[" = false) as ->.
  { unfold one_of. apply not_true_iff_false. rewrite existsb_exists. intros (x & Hx & ->%bool_decide_eq_true).
    rewrite forallb_forall in Hc. by specialize (Hc _ Hx). }
  rewrite Hd. destruct (unescape_host host Hc) as [-> _]. by destruct (one_of host ":").
Qed.

(** ** Queries *)

Lemma has_suffix_spec s c : has_suffix s (String c "") = true -> exists t, s = t +:+ String c "".
Proof.
  unfold has_suffix. intros [Hl H]%andb_true_iff. apply bool_decide_eq_true in H. exists (stake (String.length s - 1) s).
  cbn [String.length] in H. rewrite <- H. generalize (String.length s - 1)%nat. clear. intros n. revert n.
  induction s as [|a s IH]; intros [|n]; cbn [stake sdrop]; [done..|]. by rewrite sapp_cons, <- IH.
Qed.

Definition marks (s : string) : nat := length (List.filter (fun c => bool_decide (c = "?"%char)) (to_list s)).

Lemma marks_app a b : marks (a +:+ b) = (marks a + marks b)%nat.
Proof. unfold marks. by rewrite to_list_app, List.filter_app, length_app. Qed.

Lemma marks_free s : free "?" s <-> marks s = 0%nat.
Proof.
  unfold marks, free. induction s as [|c s IH]; cbn [to_list List.filter]; [split; [done|intros _ H; by apply elem_of_nil in H]|].
  case_bool_decide as E; cbn [length].
  - split; [|done]. intros H. exfalso. apply H. rewrite E. left.
  - rewrite <- IH. set_solver.
Qed.

(** The query of a text, and whether its mark stands alone. *)
Definition with_query {A : Type} (rest : string) (f : string -> bool -> string -> A) : A :=
  if has_suffix rest "?" && Nat.eqb (marks rest) 1 then f (trim_suffix rest "?") true ""
  else let (rest, query) := cut "?" rest in f rest false query.

Definition query_part (force : bool) (query : string) : string :=
  if force || negb (empty query) then "?" +:+ query else "".

Lemma with_query_ok {A : Type} r force query (f : string -> bool -> string -> A) :
  free "?" r -> (force = true -> query = "") -> with_query (r +:+ query_part force query) f = f r force query.
Proof.
  intros Hr Hf. unfold with_query, query_part, empty. pose proof (proj1 (marks_free r) Hr) as Hm. destruct force.
  - rewrite Hf by done. cbn [orb]. change ("?" +:+ "") with "?". rewrite marks_app, Hm, trim_suffix_app.
    assert (has_suffix (r +:+ "?") "?" = true) as ->; [|done].
    unfold has_suffix. rewrite slength_app. cbn [String.length]. replace (String.length r + 1 - 1)%nat with (String.length r) by lia.
    rewrite sdrop_app, bool_decide_true by done. assert (Nat.leb 1 (String.length r + 1) = true) as -> by (apply Nat.leb_le; lia). done.
  - cbn [orb]. case_bool_decide as Hq; cbn [negb].
    + rewrite Hq, sapp_nil_r, Hm, cut_none, andb_false_r by done. done.
    + change ("?" +:+ query) with (String "?" query). rewrite cut_at by done.
      destruct (has_suffix (r +:+ String "?" query) "?" && _) eqn:E; [|done]. exfalso. apply andb_true_iff in E as [Hs Hn].
      apply has_suffix_spec in Hs as [t Ht]. apply Nat.eqb_eq in Hn.
      rewrite marks_app, Hm in Hn. change (marks (String "?" query)) with (S (marks query)) in Hn.
      assert (marks query = 0%nat) as Hmq by lia. apply marks_free in Hmq. apply Hmq.
      apply (f_equal to_list) in Ht. rewrite !to_list_app in Ht. cbn [to_list] in Ht.
      destruct (exists_last (l := to_list query)) as (q & c & Hqc); [by destruct query|]. rewrite Hqc in Ht |- *.
      change (to_list r ++ "?"%char :: q ++ [c]) with (to_list r ++ ("?"%char :: q) ++ [c]) in Ht. rewrite app_assoc in Ht.
      apply app_inj_tail in Ht as [_ ->]. set_solver.
Qed.

Section ReadBack.
Context (bracket_host : string -> option string).

Lemma parse_rest_query scheme rest force query u :
  parse_rest bracket_host scheme rest force query = Some u -> u_force_query u = force /\ u_raw_query u = query.
Proof. unfold parse_rest. intros H. repeat case_match; simplify_eq; done. Qed.

Lemma getScheme_sub bad s a r : none_of bad s = true -> getScheme s = Some (a, r) -> none_of bad r = true.
Proof.
  unfold getScheme. intros Hs. assert (forall i acc t, none_of bad t = true -> getScheme_go i acc t s = Some (a, r) -> none_of bad r = true) as H;
    [|by apply H].
  intros i acc t. revert i acc. induction t as [|c t IH]; intros i acc Ht; cbn [getScheme_go]; [by intros [= _ <-]|].
  assert (none_of bad t = true) as Ht2 by (unfold none_of in *; cbn in Ht; by apply andb_true_iff in Ht as [_ Ht]).
  intros H. repeat case_match; simplify_eq; eauto.
Qed.

Lemma with_query_sub bad rest (f : string -> bool -> string -> option URL) u :
  (forall r force query u, f r force query = Some u -> u_force_query u = force /\ u_raw_query u = query) ->
  with_query rest f = Some u ->
  (none_of bad rest = true -> none_of bad (u_raw_query u) = true) /\ (u_force_query u = true -> u_raw_query u = "").
Proof.
  intros Hf. unfold with_query. destruct (_ && _).
  - intros H. apply Hf in H as [_ ->]. done.
  - destruct (cut "?" rest) as [r q] eqn:E. intros H. apply Hf in H as [-> ->]. split; [|done].
    intros H. apply (none_of_cut bad "?") in H as [_ H]. by rewrite E in H.
Qed.

Lemma Parse_query v u :
  Parse bracket_host v = Some u ->
  free "#" (u_raw_query u) /\ none_of ctl (u_raw_query u) = true /\ (u_force_query u = true -> u_raw_query u = "").
Proof.
  unfold Parse. pose proof (cut_parts "#" v) as [Hs _]. destruct (cut "#" v) as [s frag]. cbn [fst] in Hs.
  assert (forall u, parse bracket_host s = Some u -> free "#" (u_raw_query u) /\ none_of ctl (u_raw_query u) = true /\
    (u_force_query u = true -> u_raw_query u = "")) as H.
  { clear u. intros u. unfold parse. rewrite none_of_ctl. destruct (none_of ctl s) eqn:Hc; [cbn [negb]|done].
    case_bool_decide; [intros [= <-]; split_and!; [by intros ?%elem_of_nil|done|done]|]. destruct (getScheme s) as [[scheme rest]|] eqn:E; [|done].
    intros Hu. change (with_query rest (parse_rest bracket_host (to_lower scheme)) = Some u) in Hu.
    apply (getScheme_sub _ _ _ _ Hs) in E as Hs2. apply (getScheme_sub _ _ _ _ Hc) in E as Hc2.
    destruct (with_query_sub (fun x => bool_decide (x = "#"%char)) _ _ _ (parse_rest_query (to_lower scheme)) Hu) as [H1 _].
    destruct (with_query_sub ctl _ _ _ (parse_rest_query (to_lower scheme)) Hu) as [H2 H3].
    split; [apply none_of_free; auto|auto]. }
  destruct (parse bracket_host s) as [u0|]; [|done]. specialize (H u0 eq_refl). destruct (empty frag); [by intros [= <-]|].
  destruct (set_escaped EncFragment frag); [|done]. cbn. by intros [= <-].
Qed.

(** ** A URL with a host *)

Lemma parse_host_path scheme host path p force query :
  plain_host host = true -> (path = "" \/ has_prefix path "/" = true) -> unescape EncPath path = Some p ->
  exists raw, parse_rest bracket_host scheme ("//" +:+ host +:+ path) force query =
    Some (mkUrl scheme "" None host p raw false force query "" "").
Proof.
  intros Hh Hp Hu. destruct (plain_parts host Hh) as (Hne & Hslash & Hc & _).
  destruct (set_escaped_ok EncPath path p Hu) as [raw Hraw]. exists raw. unfold parse_rest.
  change ("//" +:+ host +:+ path) with (String "/" (String "/" (host +:+ path))).
  assert (has_prefix (String "/" (String "/" (host +:+ path))) "/" = true) as -> by done.
  assert (has_prefix (String "/" (String "/" (host +:+ path))) "//" = true) as -> by (cbn; by destruct (host +:+ path)).
  assert (has_prefix (String "/" (String "/" (host +:+ path))) "///" = false) as ->.
  { destruct host as [|c host]; [done|]. rewrite sapp_cons. cbn in Hslash |- *.
    destruct host; cbn in Hslash; rewrite andb_true_r in Hslash; by rewrite Hslash. }
  rewrite orb_true_r. cbn [negb andb]. change (sdrop 2 (String "/" (String "/" (host +:+ path)))) with (host +:+ path).
  assert (free "/" host) as Hf by (by eapply forallb_free).
  assert (cut "/" (host +:+ path) = (host, sdrop 1 path)) as ->.
  { destruct path as [|a path]; [by rewrite sapp_nil_r, cut_none|].
    destruct Hp as [|Hp]; [done|]. assert (a = "/"%char) as ->; [|by rewrite cut_at by done].
    destruct path; cbn in Hp; rewrite andb_true_r in Hp; by apply bool_decide_eq_true in Hp. }
  cbn [fst]. rewrite sdrop_app, (parse_plain_host _ _ Hh), Hraw. done.
Qed.

Definition known_scheme (scheme : string) : Prop := scheme ∈ [""; "http"; "https"].

Definition scheme_part (scheme : string) : string := if empty scheme then "" else scheme +:+ ":".

Definition fragment_part (f : string) : string := if empty f then "" else "#" +:+ f.

Lemma scheme_facts scheme : known_scheme scheme ->
  (forall rest, getScheme (scheme_part scheme +:+ String "/" rest) = Some (scheme, String "/" rest)) /\
  to_lower scheme = scheme /\
  none_of (fun c => negb (alnum c) && negb (bool_decide (c = ":"%char))) (scheme_part scheme) = true.
Proof.
  unfold known_scheme. rewrite !elem_of_cons, elem_of_nil. intros [->|[->|[->|[]]]]; done.
Qed.

(** Characters that stand nowhere in front of the query. *)
Definition stray (bad : ascii -> bool) : Prop :=
  bad "/"%char = false /\ bad ":"%char = false /\ (forall c, alnum c || one_of "-.:" c = true -> bad c = false) /\
  (forall c, encoded_char EncPath c = true -> bad c = false).

Lemma stray_hash : stray (fun x => bool_decide (x = "#"%char)).
Proof. split_and!; [done|done|..]; intros c; destruct c as [[] [] [] [] [] [] [] []]; vm_compute; congruence. Qed.

Lemma stray_mark : stray (fun x => bool_decide (x = "?"%char)).
Proof. split_and!; [done|done|..]; intros c; destruct c as [[] [] [] [] [] [] [] []]; vm_compute; congruence. Qed.

Lemma stray_ctl : stray ctl.
Proof. split_and!; [done|done|by intros c; destruct c as [[] [] [] [] [] [] [] []]|apply encoded_ctl]. Qed.

Lemma stray_front bad scheme host path :
  stray bad -> known_scheme scheme -> plain_host host = true -> validEncoded EncPath path = true ->
  none_of bad (scheme_part scheme) = true /\ none_of bad ("//" +:+ host +:+ path) = true.
Proof.
  intros (Hsl & Hco & Hh & He) Hs Hp Hv. destruct (plain_parts host Hp) as (_ & _ & Hc & _). split.
  - destruct (scheme_facts scheme Hs) as (_ & _ & H). revert H. unfold none_of. rewrite !forallb_forall. intros H c Hin.
    specialize (H c Hin). rewrite negb_andb, !negb_involutive in H. apply orb_true_iff in H as [H|H].
    + rewrite Hh; [done|by rewrite H].
    + apply bool_decide_eq_true in H as ->. by rewrite Hco.
  - rewrite !none_of_app. unfold none_of at 1. cbn. rewrite Hsl. cbn.
    by rewrite (forallb_none _ _ _ Hh Hc), (forallb_none _ _ _ He Hv).
Qed.

Lemma query_part_free force query : free "#" query -> free "#" (query_part force query).
Proof. unfold query_part. destruct (force || _); [|by intros _ ?%elem_of_nil]. unfold free. cbn. set_solver. Qed.

Lemma query_part_ctl force query : none_of ctl query = true -> none_of ctl (query_part force query) = true.
Proof. unfold query_part. destruct (force || _); [|done]. by rewrite none_of_app. Qed.

(** What is written in front of a fragment is read back. *)
Lemma parse_written scheme host path p force query :
  known_scheme scheme -> plain_host host = true ->
  (path = "" \/ has_prefix path "/" = true) -> unescape EncPath path = Some p -> validEncoded EncPath path = true ->
  none_of ctl query = true -> (force = true -> query = "") ->
  exists raw, parse bracket_host (scheme_part scheme +:+ ("//" +:+ host +:+ path) +:+ query_part force query) =
    Some (mkUrl scheme "" None host p raw false force query "" "").
Proof.
  intros Hs Hh Hp Hu Hv Hc Hf. destruct (parse_host_path scheme host path p force query Hh Hp Hu) as [raw Hraw]. exists raw.
  destruct (stray_front ctl scheme host path stray_ctl Hs Hh Hv) as [H1 H2].
  destruct (stray_front _ scheme host path stray_mark Hs Hh Hv) as [_ H3]. apply none_of_free in H3.
  destruct (scheme_facts scheme Hs) as (Hget & Hlow & _). set (r := "//" +:+ host +:+ path) in *.
  unfold parse. rewrite none_of_ctl, !none_of_app, H1, H2, query_part_ctl by done. cbn [negb andb].
  rewrite bool_decide_false.
  2: { intros H. apply (f_equal String.length) in H. unfold r in H. rewrite !slength_app in H. cbn in H. lia. }
  change (r +:+ query_part force query) with (String "/" (String "/" (host +:+ path) +:+ query_part force query)).
  rewrite Hget, Hlow. change (String "/" (String "/" (host +:+ path) +:+ query_part force query)) with (r +:+ query_part force query).
  change (with_query (r +:+ query_part force query) (parse_rest bracket_host scheme) = Some (mkUrl scheme "" None host p raw false force query "" "")).
  by rewrite with_query_ok.
Qed.

Lemma parse_back scheme host path p force query f frag :
  known_scheme scheme -> plain_host host = true ->
  (path = "" \/ has_prefix path "/" = true) -> unescape EncPath path = Some p -> validEncoded EncPath path = true ->
  free "#" query -> none_of ctl query = true -> (force = true -> query = "") ->
  (f = "" /\ frag = "" \/ f <> "" /\ unescape EncFragment f = Some frag) ->
  exists raw raw_f,
    Parse bracket_host ((scheme_part scheme +:+ ("//" +:+ host +:+ path) +:+ query_part force query) +:+ fragment_part f) =
    Some (mkUrl scheme "" None host p raw false force query frag raw_f).
Proof.
  intros Hs Hh Hp Hu Hv Hq Hc Hf Hfrag.
  destruct (parse_written scheme host path p force query Hs Hh Hp Hu Hv Hc Hf) as [raw Hraw]. exists raw.
  destruct (stray_front _ scheme host path stray_hash Hs Hh Hv) as [H1 H2].
  assert (Hfree : free "#" (scheme_part scheme +:+ ("//" +:+ host +:+ path) +:+ query_part force query)).
  { apply none_of_free. rewrite !none_of_app in *. rewrite H1, H2. by apply none_of_free, query_part_free. }
  unfold Parse, fragment_part, empty. destruct Hfrag as [[-> ->]|[Hf1 Hf2]].
  - rewrite bool_decide_true, sapp_nil_r, cut_none, Hraw by done. exists "". done.
  - rewrite (bool_decide_false (f = "")) by done. change ("#" +:+ f) with (String "#" f).
    rewrite cut_at, Hraw, (bool_decide_false (f = "")) by done. destruct (set_escaped_ok EncFragment f frag Hf2) as [rf ->].
    exists rf. done.
Qed.

End ReadBack.
