(* ===== verification/AspTransport.v ===== *)
(** * The App Service Proxy: the response on its way back

    [internal/server/transport.go]: the headers that are patched, and the pages
    whose links are turned to the proxy.  The tokens of a page and their text
    are golang.org/x/net/html's; compression is a parameter. *)

From Stdlib Require Import Ascii.
From S2P Require Import Prelude Prog GoMonad GoStr Types Vnc AspServer GoUrl Regex.

Definition in_quotes (s : string) : string := String quote (s +:+ String quote "").

(** ** The security policy *)

Definition frame_ancestors : string := "frame-ancestors".

(** [frame-ancestors\s+(\[^;\]+)] *)
Definition csp_regex : regex :=
  RSeq (rlit frame_ancestors)
    (RSeq (RPlus (RClass re_space)) (RGroup (RPlus (RClass (fun c => negb (bool_decide (c = ";"%char))))))).

Definition patch_match (m : string) : string :=
  match fields m with
  | _ :: first :: more =>
      if bool_decide (first = "'none'") then frame_ancestors +:+ " 'self'"
      else if existsb (fun v => bool_decide (v = "'self'")) (first :: more) then m
      else m +:+ " 'self'"
  | _ => frame_ancestors +:+ " 'self'"
  end.

Definition patch_csp (csp : string) : string := ReplaceAllStringFunc csp_regex (fun m _ => patch_match m) csp.

Definition CSP : string := "Content-Security-Policy".

Definition patch_headers (h : Header) : Header :=
  let h := match default [] (h !! CSP) with
           | [] => h
           | cspHeaders => Header_Set CSP (join (map patch_csp cspHeaders) "; ") (Header_Del CSP h)
           end in
  Header_Set "Cross-Origin-Embedder-Policy" "require-corp" h.

(** ** Links *)

Definition service_path (ci : CookieInfo) : string :=
  "/api/v1/namespaces/" +:+ ci_namespace ci +:+ "/services/" +:+ ci_service ci +:+ "/proxy".

Definition set_host_path (host path : string) (u : URL) : URL :=
  mkUrl (u_scheme u) (u_opaque u) (u_user u) host path (u_raw_path u) (u_omit_host u) (u_force_query u)
    (u_raw_query u) (u_fragment u) (u_raw_fragment u).

(** A link that is left as it is. *)
Definition keeps_url (u kubeapiAddr : URL) : bool :=
  let isDifferentHost := negb (empty (u_host u)) && negb (bool_decide (u_host u = u_host kubeapiAddr)) in
  let isRelative := negb (empty (u_path u)) && negb (has_prefix (u_path u) "/") in
  let isUnsafeAbsolute :=
    match u_path u with
    | String a (String b _) => bool_decide (a = "/"%char) && (bool_decide (b = "/"%char) || bool_decide (b = backslash))
    | _ => false
    end in
  isDifferentHost || isRelative || isUnsafeAbsolute.

Definition rewriteURL (u sourceURL : URL) (ci : CookieInfo) (kubeapiAddr : URL) : string :=
  if keeps_url u kubeapiAddr then URL_String u
  else URL_String (set_host_path (u_host sourceURL) (trim_prefix (u_path u) (service_path ci)) u).

Section Transport.
Context (bracket_host : string -> option string).

Abbreviation url_Parse := (Parse bracket_host).

Definition ModifyURL (u : string) (ci : CookieInfo) (srcURL kubeapiAddr : string) : string :=
  if has_prefix u kubeapiAddr then
    match url_Parse u with
    | None => u
    | Some ur => URL_String (set_host_path srcURL (trim_prefix (u_path ur) (service_path ci)) ur)
    end
  else u.

(** ** Scripts and styles *)

Definition not_newline (c : ascii) : bool := negb (Nat.eqb (nat_of_ascii c) 10).

(** ["appSubUrl"\s*:\s*"(.*?)"] *)
Definition appSubURLRe : regex :=
  RSeq (rlit (in_quotes "appSubUrl")) (RSeq (RStar true (RClass re_space)) (RSeq (RChar ":") (RSeq (RStar true (RClass re_space))
    (RSeq (RChar quote) (RSeq (RGroup (RStar false (RClass not_newline))) (RChar quote)))))).

(** The whole match is replaced, key and quotes included. *)
Definition processJavaScript (jsContent : string) (ci : CookieInfo) (srcURL kubeapiAddr : string) : string :=
  let modifiedJS := ReplaceAllStringFunc appSubURLRe (fun _ url => ModifyURL url ci srcURL kubeapiAddr) jsContent in
  match url_Parse kubeapiAddr with
  | None => modifiedJS
  | Some ur => replace_all modifiedJS (u_host ur) srcURL
  end.

(** An address as a part of an expression: a dot is any character, a plus a
    repetition.  [None] if it is no expression. *)
Fixpoint addr_regex (l : list ascii) : option regex :=
  match l with
  | [] => Some REmpty
  | c :: l' =>
      if bool_decide (c = "+"%char) then None
      else
        let a := if bool_decide (c = "."%char) then RClass not_newline else RChar c in
        match l' with
        | d :: l'' => if bool_decide (d = "+"%char) then option_map (RSeq (RPlus a)) (addr_regex l'')
                      else option_map (RSeq a) (addr_regex l')
        | [] => option_map (RSeq a) (addr_regex l')
        end
  end.

Definition quote_mark (c : ascii) : bool := bool_decide (c = "'"%char) || bool_decide (c = quote).

(** [url\(\s*Q?(ADDR/\[^Q)\s\]+)\s*Q?\)], with [Q] for a quotation mark of either kind. *)
Definition css_regex (kubeapiAddr : string) : option regex :=
  match addr_regex (to_list kubeapiAddr) with
  | None => None
  | Some addr =>
      let spaces := RStar true (RClass re_space) in
      let mark := ROpt (RClass quote_mark) in
      let inside := RClass (fun c => negb (quote_mark c || bool_decide (c = ")"%char) || re_space c)) in
      Some (RSeq (rlit "url(") (RSeq spaces (RSeq mark (RSeq (RGroup (RSeq addr (RSeq (RChar "/") (RPlus inside))))
              (RSeq spaces (RSeq mark (RChar ")")))))))
  end.

Definition processCSS (cssContent : string) (ci : CookieInfo) (srcURL kubeapiAddr : string) : string :=
  match css_regex kubeapiAddr with
  | None => cssContent
  | Some re => ReplaceAllStringFunc re (fun _ url => "url('" +:+ ModifyURL url ci srcURL kubeapiAddr +:+ "')") cssContent
  end.

(** ** Pages *)

(** A token: [raw] is the text of the page it was read from, [text] what
    [Text] makes of it, with the character references resolved. *)
Inductive token : Type :=
  | TStart (self_closing : bool) (tag : string) (attrs : list (string * string))
  | TText (raw text : string)
  | TEnd (tag : string)
  | TOther (raw : string).

Definition atomsToAttrs : list (string * list string) :=
  [("a", ["href"]); ("applet", ["codebase"]); ("area", ["href"]); ("audio", ["src"]); ("base", ["href"]);
   ("blockquote", ["cite"]); ("body", ["background"]); ("button", ["formaction"]); ("command", ["icon"]); ("del", ["cite"]);
   ("embed", ["src"]); ("form", ["action"]); ("frame", ["longdesc"; "src"]); ("head", ["profile"]); ("html", ["manifest"]);
   ("iframe", ["longdesc"; "src"]); ("img", ["longdesc"; "src"; "usemap"]); ("input", ["src"; "usemap"; "formaction"]);
   ("ins", ["cite"]); ("link", ["href"]); ("object", ["classid"; "codebase"; "data"; "usemap"]); ("q", ["cite"]);
   ("script", ["src"]); ("source", ["src"]); ("video", ["poster"; "src"])].

Definition url_attrs (tag : string) : list string :=
  match find_first (fun e => bool_decide (e.1 = tag)) atomsToAttrs with Some e => e.2 | None => [] end.

(** [render] is a token's [String]. *)
Context (render : token -> string).
Context (ci : CookieInfo) (kubeapiAddr sourceURL : URL).

Definition rewrite_attr (tag : string) (attr : string * string) : string * string :=
  if existsb (fun k => bool_decide (k = attr.1)) (url_attrs tag) then
    match url_Parse attr.2 with
    | None => attr
    | Some url => (attr.1, rewriteURL url sourceURL ci kubeapiAddr)
    end
  else attr.

(** Whether a style and a script are open, and the text read of each. *)
Record page_state : Type := mkPage {
  inStyleTag : bool;
  inScriptTag : bool;
  styleContent : string;
  scriptContent : string
}.

Definition page_start : page_state := mkPage false false "" "".

(** What a token writes.  An end tag does not reset the text. *)
Definition rewrite_token (st : page_state) (t : token) : page_state * string :=
  match t with
  | TStart closing tag attrs =>
      let style := bool_decide (tag = "style") in
      let script := bool_decide (tag = "script") in
      (mkPage (style || inStyleTag st) (script || inScriptTag st)
         (if style then "" else styleContent st) (if script then "" else scriptContent st),
       render (TStart closing tag (map (rewrite_attr tag) attrs)))
  | TText _ text =>
      if inStyleTag st then (mkPage true (inScriptTag st) (styleContent st +:+ text) (scriptContent st), "")
      else if inScriptTag st then (mkPage false true (styleContent st) (scriptContent st +:+ text), "")
      else (st, text)
  | TEnd tag =>
      let src := u_host sourceURL in
      let kube := URL_String kubeapiAddr in
      if bool_decide (tag = "style") then
        (mkPage false (inScriptTag st) (styleContent st) (scriptContent st),
         processCSS (styleContent st) ci src kube +:+ render t)
      else if bool_decide (tag = "script") then
        (mkPage (inStyleTag st) false (styleContent st) (scriptContent st),
         processJavaScript (scriptContent st) ci src kube +:+ render t)
      else (st, render t)
  | TOther raw => (st, raw)
  end.

Fixpoint rewrite_tokens (st : page_state) (l : list token) : string :=
  match l with
  | [] => ""
  | t :: l' => let (st, out) := rewrite_token st t in out +:+ rewrite_tokens st l'
  end.

End Transport.

(** ** Responses *)

Record Response : Type := mkResponse {
  rs_header : Header;
  rs_body : string;
  rs_length : Z                                  (* ContentLength *)
}.

#[export] Instance Response_eq_dec : EqDecision Response.
Proof. solve_decision. Defined.

(** What [RoundTrip] returns: the error of the transport, the response, or a
    400 with the error of the rewriting. *)
Inductive round_trip : Type := TransportError (e : gerror) | Passed (r : Response) | BadRequest (e : gerror).

(** The text of the reason is left out. *)
Definition url_error (s : string) : gerror := errorf ("parse " +:+ s).

Section Response.
Context (bracket_host : string -> option string) (render : token -> string).

(** The tokens of a body in its encoding, with the error that ended them if it
    is not the end of the body; whether a gzip reader can be made. *)
Context (tokenize : string -> string -> list token * option gerror) (gzip_error : string -> option gerror).
(** What is written is encoded in the end, and what of it is in the buffer
    before the writer is closed. *)
Context (encode flushed : string -> string -> string).

Abbreviation url_Parse := (Parse bracket_host).

Definition parse_url (s : string) : res URL := match url_Parse s with Some u => Ok u | None => Err (url_error s) end.

(** A redirection to the page's own service. *)
Definition fix_location (ci : CookieInfo) (kubeapiAddr sourceURL : URL) (h : Header) : res Header :=
  let origRedirPath := Header_Get h "Location" in
  if empty origRedirPath then Ok h
  else try redirectURL := parse_url origRedirPath in
       Ok (Header_Set "Location" (rewriteURL redirectURL sourceURL ci kubeapiAddr) h).

(** [req] are the headers of the request.  On return the body of the server is
    read to its end and closed, also if it is the body of the response. *)
Definition rewriteResponse (req : Header) (resp : Response) : res Response :=
  let encoding := Header_Get (rs_header resp) "Content-Encoding" in
  match (if bool_decide (encoding = "gzip") then gzip_error (rs_body resp) else None) with
  | Some e => Err (errorf ("errorf making gzip reader: " +:+ e_msg e))
  | None =>
      if negb (bool_decide (encoding ∈ ["gzip"; "deflate"; ""])) then
        Ok (mkResponse (rs_header resp) "" (rs_length resp))
      else
        let origProto := Header_Get req "X-Forwarded-Proto" in
        try sourceURL := parse_url (origProto +:+ "://" +:+ Header_Get req "X-Forwarded-Host") in
        try ci := extractCookieInfo req in
        try kubeapiAddr := parse_url (origProto +:+ "://" +:+ "kubernetes.default.svc") in
        let (tokens, e) := tokenize encoding (rs_body resp) in
        match e with
        | Some e => Err e
        | None =>
            let page := rewrite_tokens bracket_host render ci kubeapiAddr sourceURL page_start tokens in
            try h := fix_location ci kubeapiAddr sourceURL (Header_Del "Content-Length" (rs_header resp)) in
            Ok (mkResponse h (encode encoding page) (slen (flushed encoding page)))
        end
  end.

Definition content_type (h : Header) : string := trim_space (fst (cut ";" (Header_Get h "Content-Type"))).

Definition RoundTrip (req : Header) (upstream : res Response) : round_trip :=
  match upstream with
  | Err e => TransportError e
  | Ok resp =>
      let resp := mkResponse (patch_headers (rs_header resp)) (rs_body resp) (rs_length resp) in
      if negb (bool_decide (content_type (rs_header resp) = "text/html")) then Passed resp
      else match rewriteResponse req resp with
           | Ok r => Passed r
           | Err e => BadRequest e
           end
  end.

End Response.
