(* ===== verification/AspTransportFacts.v ===== *)
(** * What the proxy does to responses *)

From Stdlib Require Import Ascii.
From S2P Require Import Prelude Prog GoMonad GoStr Split Types Vnc AspServer Regex GoUrl AspTransport.

(** ** The words of a text *)

Lemma fields_space c l : is_space c = true -> fields_go [] (c :: l) = fields_go [] l.
Proof. intros H. cbn. by rewrite H. Qed.

Lemma fields_spaces ws l : Forall (fun c => is_space c = true) ws -> fields_go [] (ws ++ l) = fields_go [] l.
Proof. induction ws as [|c ws IH]; [done|]. intros [Hc Hw]%Forall_cons. cbn [app]. rewrite fields_space by done. by apply IH. Qed.

Lemma words_split acc l1 c l2 :
  is_space c = true -> fields_go acc (l1 ++ c :: l2) = fields_go acc l1 ++ fields_go [] l2.
Proof.
  intros Hc. revert acc. induction l1 as [|a l1 IH]; intros acc; cbn [app fields_go].
  - by rewrite Hc.
  - destruct (is_space a); [|apply IH]. by rewrite (IH []), app_assoc.
Qed.

(** A word that has begun. *)
Lemma fields_word acc l w more :
  acc <> [] -> fields_go acc l = w :: more ->
  exists word rest, l = word ++ rest /\ of_list (rev acc ++ word) = w /\ Forall (fun c => is_space c = false) word /\
    ((rest = [] /\ more = []) \/ exists c r, rest = c :: r /\ is_space c = true /\ fields_go [] r = more).
Proof.
  revert acc. induction l as [|a l IH]; intros acc Hacc H; cbn in H.
  - destruct acc; [done|]. injection H as <- <-. exists [], []. split_and!; [done|by rewrite app_nil_r|constructor|by left].
  - destruct (is_space a) eqn:Ha.
    + destruct acc; [done|]. injection H as <- <-. exists [], (a :: l).
      split_and!; [done|by rewrite app_nil_r|constructor|right; eauto].
    + destruct (IH (a :: acc) ltac:(done) H) as (word & rest & -> & <- & HF & Hr). exists (a :: word), rest.
      split; [done|]. split; [cbn; by rewrite <- app_assoc|]. split; [by constructor|done].
Qed.

Lemma fields_first l w more :
  fields_go [] l = w :: more ->
  exists ws rest, l = ws ++ to_list w ++ rest /\ Forall (fun c => is_space c = true) ws /\
    ((rest = [] /\ more = []) \/ exists c r, rest = c :: r /\ is_space c = true /\ fields_go [] r = more).
Proof.
  induction l as [|a l IH]; cbn [fields_go]; intros H; [done|]. destruct (is_space a) eqn:Ha.
  - cbn in H. destruct (IH H) as (ws & rest & -> & HF & Hr). exists (a :: ws), rest. split_and!; [done|by constructor|done].
  - apply fields_word in H as (word & rest & -> & <- & HF & Hr); [|done]. exists [], rest.
    rewrite to_of_list. split_and!; [done|constructor|done].
Qed.

(** ** The security policy *)

Definition not_semi (c : ascii) : bool := negb (bool_decide (c = ";"%char)).

Abbreviation name := (to_list frame_ancestors).

Lemma space_not_semi c : re_space c = true -> not_semi c = true.
Proof. unfold not_semi. intros H. destruct (decide (c = ";"%char)) as [->|E]; [done|]. by rewrite bool_decide_false. Qed.

(** The rest after the name is one run up to the next semicolon, if it begins
    with a space and has another character. *)

(** The name is followed by one run up to the next semicolon, which begins with
    a space and has another character. *)
Definition csp_rest (s : list ascii) : option (list ascii) :=
  if bool_decide (take (length name) s = name) then
    match drop (length name) s with
    | c :: s1 => if re_space c && negb (bool_decide (run not_semi s1 = [])) then Some (drop (length (run not_semi s1)) s1) else None
    | [] => None
    end
  else None.

Lemma csp_group s g :
  option_map fst (rmatch last_group (RGroup (RPlus (RClass not_semi))) s g (fun s1 g1 => Some (s1, g1))) =
  match s with c :: s1 => if not_semi c then Some (drop (length (run not_semi s1)) s1) else None | [] => None end.
Proof.
  unfold RPlus. change (rmatch last_group (RGroup ?a) s g ?k) with (rmatch last_group a s g (fun s1 _ => k s1 (Some (take (length s - length s1) s)))).
  change (rmatch last_group (RSeq ?a ?b) s g ?k) with (rmatch last_group a s g (fun s1 g1 => rmatch last_group b s1 g1 k)). destruct s as [|c s]; [done|].
  cbn [rmatch]. destruct (not_semi c); [|done]. change (option_map fst ?x) with (option_map fst x).
  pose proof (rmatch_star last_group not_semi s g (fun s1 _ => Some (s1, Some (take (length (c :: s) - length s1) (c :: s))))) as H.
  cbn [rmatch] in H. rewrite H, back_off_total by done. done.
Qed.

Lemma csp_spaces s g :
  option_map fst (back_off (fun s => rmatch last_group (RGroup (RPlus (RClass not_semi))) s g (fun s1 g1 => Some (s1, g1))) re_space s) =
  if bool_decide (run not_semi s = []) then None else Some (drop (length (run not_semi s)) s).
Proof.
  induction s as [|c s IH]; [done|]. cbn [back_off]. destruct (re_space c) eqn:Hc.
  - pose proof (csp_group (c :: s) g) as Hg. cbn beta iota in Hg. cbn [run]. rewrite (space_not_semi c Hc) in Hg |- *.
    rewrite bool_decide_false by done. cbn [length drop].
    destruct (back_off _ re_space s) as [[r g1]|]; cbn [orelse option_map] in *.
    + case_bool_decide; [done|]. done.
    + case_bool_decide as E; [|done]. rewrite E. cbn [length drop]. rewrite Hg, E. done.
  - rewrite csp_group. cbn [run]. destruct (not_semi c); [|done]. done.
Qed.

Lemma csp_match s : option_map fst (match_at csp_regex s) = csp_rest s.
Proof.
  unfold match_at, csp_regex, csp_rest, rlit.
  change (rmatch last_group (RSeq ?a ?b) s None ?k) with (rmatch last_group a s None (fun s1 g1 => rmatch last_group b s1 g1 k)). rewrite rmatch_lit.
  case_bool_decide; [|done]. generalize (drop (length name) s) as s1. clear. intros s1.
  change (rmatch last_group (RSeq ?a ?b) s1 None ?k) with (rmatch last_group a s1 None (fun s2 g2 => rmatch last_group b s2 g2 k)). unfold RPlus at 1.
  change (rmatch last_group (RSeq ?a ?b) s1 None ?k) with (rmatch last_group a s1 None (fun s2 g2 => rmatch last_group b s2 g2 k)).
  destruct s1 as [|c s1]; [done|].
  change (rmatch last_group (RClass re_space) (c :: s1) None ?k) with (if re_space c then k s1 None else None).
  destruct (re_space c); [|done]. etransitivity; [|etransitivity; [exact (csp_spaces s1 None)|]].
  - apply (f_equal (option_map fst)). exact (rmatch_star last_group re_space s1 None _).
  - by destruct (bool_decide _).
Qed.

(** ** One directive at a time *)

Definition patch_list : list ascii -> list ascii :=
  replace_func_go csp_regex (fun m _ => to_list (patch_match (of_list m))) 0.

Lemma patch_csp_list s : patch_csp s = of_list (patch_list (to_list s)).
Proof. done. Qed.

Lemma patch_skip f m s : replace_func_go csp_regex f (length m) (m ++ s) = replace_func_go csp_regex f 0 s.
Proof. induction m as [|c m IH]; [by destruct s|]. cbn. apply IH. Qed.

Lemma patch_list_cons c s :
  patch_list (c :: s) =
  match csp_rest (c :: s) with
  | Some rest =>
      let m := take (length (c :: s) - length rest) (c :: s) in
      to_list (patch_match (of_list m)) ++ replace_func_go csp_regex (fun m _ => to_list (patch_match (of_list m))) (length m - 1) s
  | None => c :: patch_list s
  end.
Proof.
  unfold patch_list. cbn [replace_func_go]. rewrite <- csp_match. destruct (match_at csp_regex (c :: s)) as [[rest g]|]; [|done].
  cbn [option_map fst]. cbv zeta. f_equal. f_equal. rewrite length_take. lia.
Qed.

(** The text up to a semicolon or the end. *)
Lemma run_here p s : Forall (fun c => not_semi c = true) p -> (s = [] \/ exists s', s = ";"%char :: s') -> run not_semi (p ++ s) = p.
Proof. intros Hp Hs. rewrite run_app by done. destruct Hs as [->|[s' ->]]; cbn; apply app_nil_r. Qed.

Definition csp_hit (p : list ascii) : bool :=
  bool_decide (take (length name) p = name) &&
  match drop (length name) p with c :: _ :: _ => re_space c | _ => false end.

Lemma csp_rest_part p s :
  Forall (fun c => not_semi c = true) p -> (s = [] \/ exists s', s = ";"%char :: s') ->
  csp_rest (p ++ s) = if csp_hit p then Some s else None.
Proof.
  intros Hp Hs. unfold csp_rest, csp_hit. destruct (decide (length name <= length p)%nat) as [Hl|Hl].
  - rewrite take_app_le, drop_app_le by done. destruct (bool_decide _); [|done]. cbn [andb].
    assert (Forall (fun c => not_semi c = true) (drop (length name) p)) as Hd by (by apply Forall_drop).
    destruct (drop (length name) p) as [|c [|d q]]; cbn [app].
    + destruct Hs as [->|[s' ->]]; done.
    + destruct Hs as [->|[s' ->]]; cbn; by destruct (re_space c).
    + destruct (re_space c); [|done]. apply Forall_cons in Hd as [_ Hd].
      change (d :: q ++ s) with ((d :: q) ++ s). rewrite run_here by done. cbn [andb]. rewrite bool_decide_false by done. cbn [negb].
      by rewrite drop_app_length.
  - rewrite !bool_decide_false; [done| |].
    + intros H. apply (f_equal length) in H. rewrite length_take in H. lia.
    + intros H. destruct Hs as [->|[s' ->]].
      * rewrite app_nil_r in H. apply (f_equal length) in H. rewrite length_take in H. lia.
      * assert (";"%char ∉ name) as Hno by (apply (bool_decide_unpack _); by vm_compute). apply Hno.
        rewrite <- H. rewrite take_app_ge by lia. apply elem_of_app. right.
        destruct (length name - length p)%nat eqn:E; [lia|]. cbn. left.
Qed.

Lemma csp_rest_alone p : Forall (fun c => not_semi c = true) p -> csp_rest p = if csp_hit p then Some [] else None.
Proof. intros Hp. rewrite <- (app_nil_r p) at 1. apply csp_rest_part; auto. Qed.

Lemma patch_skip_all f m : replace_func_go csp_regex f (length m) m = [].
Proof. rewrite <- (app_nil_r m) at 2. apply patch_skip. Qed.

(** What becomes of a directive. *)
Lemma patch_part p s :
  Forall (fun c => not_semi c = true) p -> (s = [] \/ exists s', s = ";"%char :: s') ->
  patch_list (p ++ s) = patch_list p ++ patch_list s.
Proof.
  revert s. induction p as [|c p IH]; intros s Hp Hs; [done|]. cbn [app]. rewrite !patch_list_cons.
  change (c :: p ++ s) with ((c :: p) ++ s). rewrite csp_rest_part by done.
  rewrite csp_rest_alone by done.
  destruct (csp_hit (c :: p)).
  - rewrite length_app. replace (length (c :: p) + length s - length s)%nat with (length (c :: p)) by lia.
    rewrite take_app_length. rewrite (take_ge (c :: p)) by (cbn; lia). cbn [length Nat.sub]. rewrite !Nat.sub_0_r.
    cbv zeta. rewrite <- app_assoc. f_equal. by rewrite patch_skip, patch_skip_all.
  - apply Forall_cons in Hp as [_ Hp]. cbn [app]. by rewrite IH.
Qed.

Lemma patch_semi s : patch_list (";"%char :: s) = ";"%char :: patch_list s.
Proof. done. Qed.

Lemma patch_miss p : Forall (fun c => not_semi c = true) p -> contains (of_list p) frame_ancestors = false -> patch_list p = p.
Proof.
  induction p as [|c p IH]; intros Hp Hc; [done|]. rewrite patch_list_cons, csp_rest_alone by done. cbn [of_list contains] in Hc. apply orb_false_iff in Hc as [Hc1 Hc2].
  assert (csp_hit (c :: p) = false) as ->; [|apply Forall_cons in Hp as [_ Hp]; by rewrite IH].
  apply not_true_iff_false. unfold csp_hit. rewrite andb_true_iff, bool_decide_eq_true. intros [Ht _].
  apply not_true_iff_false in Hc1. apply Hc1. apply has_prefix_spec. exists (of_list (drop (length name) (c :: p))).
  change (of_list (c :: p) = of_list name +:+ of_list (drop (length name) (c :: p))). rewrite <- of_list_app. f_equal.
  transitivity (take (length name) (c :: p) ++ drop (length name) (c :: p)); [by rewrite take_drop|by rewrite Ht].
Qed.

Lemma patch_hit p : Forall (fun c => not_semi c = true) p -> csp_hit p = true -> patch_list p = to_list (patch_match (of_list p)).
Proof.
  destruct p as [|c p]; [done|]. intros Hp Hh. rewrite patch_list_cons, csp_rest_alone by done. rewrite Hh. rewrite (take_ge (c :: p)) by (cbn; lia). cbn [length Nat.sub]. rewrite Nat.sub_0_r.
  cbv zeta. rewrite patch_skip_all. apply app_nil_r.
Qed.

(** ** Policies *)

Lemma free_not_semi s : free ";" s <-> Forall (fun c => not_semi c = true) (to_list s).
Proof.
  unfold free, not_semi. rewrite Forall_forall. split.
  - intros H c Hc. rewrite bool_decide_false; [done|]. by intros ->.
  - intros H Hc. specialize (H _ Hc). by rewrite bool_decide_true in H.
Qed.

Lemma patch_match_free m : free ";" m -> free ";" (patch_match m).
Proof.
  intros Hm. assert (free ";" (frame_ancestors +:+ " 'self'")) as Hs by (apply (bool_decide_unpack _); by vm_compute).
  unfold patch_match. destruct (fields m) as [|? [|first more]]; [done..|].
  destruct (bool_decide _); [done|]. destruct (existsb _ _); [done|]. unfold free in *. rewrite to_list_app.
  intros [H|H]%elem_of_app; [done|]. revert H. apply (bool_decide_unpack _). by vm_compute.
Qed.

Lemma patch_csp_free p : free ";" p -> free ";" (patch_csp p).
Proof.
  rewrite patch_csp_list. intros Hp. apply free_not_semi in Hp. apply free_not_semi. rewrite to_of_list.
  induction (to_list p) as [|c l IH]; [done|]. destruct (csp_hit (c :: l)) eqn:E.
  - rewrite patch_hit by done. apply free_not_semi, patch_match_free, free_not_semi. by rewrite to_of_list.
  - rewrite patch_list_cons, csp_rest_alone, E by done. apply Forall_cons in Hp as [Hc Hp]. constructor; [done|by apply IH].
Qed.

Lemma patch_csp_app p s : free ";" p -> patch_csp (p +:+ String ";" s) = patch_csp p +:+ String ";" (patch_csp s).
Proof.
  intros Hp. rewrite !patch_csp_list, to_list_app. cbn [to_list]. rewrite patch_part; [|by apply free_not_semi|eauto].
  rewrite patch_semi, of_list_app. done.
Qed.

(** A policy is patched directive by directive. *)
Lemma patch_parts s : split (patch_csp s) ";" = map patch_csp (split s ";").
Proof.
  rewrite <- (join_split ";" s) at 1. pose proof (split_free ";" s) as HF. pose proof (split_not_nil s ";") as Hn.
  induction (split s ";") as [|x l IH]; [done|]. apply Forall_cons in HF as [Hx HF]. destruct l as [|y l].
  - cbn [join map]. by rewrite split_whole by (by apply patch_csp_free).
  - change (join (x :: y :: l) ";") with (x +:+ String ";" (join (y :: l) ";")).
    rewrite patch_csp_app by done. rewrite split_prefix by (by apply patch_csp_free). rewrite IH by done. done.
Qed.

(** ** The words of a directive *)

(** The sources of a list of frame ancestors afterwards. *)
Definition patch_sources (sources : list string) : list string :=
  match sources with
  | [] => ["'self'"]
  | first :: _ =>
      if bool_decide (first = "'none'") then ["'self'"]
      else if bool_decide ("'self'" ∈ sources) then sources
      else sources ++ ["'self'"]
  end.

(** The first place at which the name is followed by a blank and at least one
    more character: what is before the name, and what after the blank. *)
Fixpoint ancestors_in (l : list ascii) : option (list ascii * list ascii) :=
  match l with
  | [] => None
  | c :: l' =>
      if csp_hit l then Some ([], drop (S (length name)) l)
      else option_map (fun p : list ascii * list ascii => (c :: p.1, p.2)) (ancestors_in l')
  end.

(** The words of a directive afterwards. *)
Definition patch_directive (part : string) : list string :=
  match ancestors_in (to_list part) with
  | Some (before, sources) => fields (of_list (before ++ name)) ++ patch_sources (fields (of_list sources))
  | None => fields part
  end.

Lemma csp_hit_spec l :
  csp_hit l = true -> exists c s, l = name ++ c :: s /\ re_space c = true /\ drop (S (length name)) l = s.
Proof.
  unfold csp_hit. intros [Ht Hd]%andb_true_iff. apply bool_decide_eq_true in Ht.
  pose proof (take_drop (length name) l) as Hl. rewrite Ht in Hl.
  destruct (drop (length name) l) as [|c [|d s]]; [done..|]. exists c, (d :: s). rewrite <- Hl. split_and!; [done..|].
  exact (drop_app_length (name ++ [c]) (d :: s)).
Qed.

Lemma existsb_self l : existsb (fun v => bool_decide (v = "'self'")) l = bool_decide ("'self'" ∈ l).
Proof.
  apply eq_iff_eq_true. rewrite existsb_exists, bool_decide_eq_true. setoid_rewrite bool_decide_eq_true. split.
  - intros (x & Hx & ->). by apply list_elem_of_In.
  - intros Hx. exists "'self'". split; [by apply list_elem_of_In|done].
Qed.

Lemma re_space_is_space c : re_space c = true -> is_space c = true.
Proof.
  unfold re_space, is_space. rewrite bool_decide_eq_true. repeat rewrite elem_of_cons. rewrite elem_of_nil.
  intros H. repeat rewrite ?orb_true_iff, ?andb_true_iff, ?Nat.leb_le, ?Nat.eqb_eq. lia.
Qed.

(** What replaces the match is the name, a blank, and the sources. *)
Lemma patch_match_words c s :
  re_space c = true ->
  exists c' r, to_list (patch_match (of_list (name ++ c :: s))) = name ++ c' :: r /\ is_space c' = true /\
    fields_go [] r = patch_sources (fields (of_list s)).
Proof.
  intros Hc%re_space_is_space. unfold patch_match.
  assert (fields (of_list (name ++ c :: s)) = frame_ancestors :: fields (of_list s)) as ->.
  { unfold fields. rewrite !to_of_list. by rewrite words_split by done. }
  destruct (fields (of_list s)) as [|first more] eqn:E; cbn [patch_sources]; [by exists " "%char, (to_list "'self'")|].
  destruct (bool_decide (first = "'none'")); [by exists " "%char, (to_list "'self'")|].
  rewrite existsb_self. unfold fields in E. rewrite to_of_list in E. destruct (bool_decide _).
  - exists c, s. by rewrite to_of_list.
  - exists c, (s ++ " "%char :: to_list "'self'").
    rewrite to_list_app, to_of_list, <- app_assoc. split; [done|]. split; [done|].
    rewrite words_split, E by done. done.
Qed.

(** A part of a policy, without a semicolon. *)
Lemma patch_part_words p :
  Forall (fun c => not_semi c = true) p ->
  fields_go [] (patch_list p) =
  match ancestors_in p with
  | Some (before, sources) => fields_go [] (before ++ name) ++ patch_sources (fields (of_list sources))
  | None => fields_go [] p
  end.
Proof.
  intros Hp.
  assert (H : match ancestors_in p with
    | Some (before, sources) => exists c, re_space c = true /\
        patch_list p = before ++ to_list (patch_match (of_list (name ++ c :: sources)))
    | None => patch_list p = p
    end).
  { induction p as [|c p IH]; [done|]. cbn [ancestors_in]. destruct (csp_hit (c :: p)) eqn:E.
    - rewrite patch_hit by done. apply csp_hit_spec in E as (d & s & Hl & Hd & ->). rewrite Hl. by exists d.
    - rewrite patch_list_cons, csp_rest_alone, E by done. apply Forall_cons in Hp as [_ Hp]. specialize (IH Hp).
      destruct (ancestors_in p) as [[before sources]|]; cbn [option_map fst snd]; [|by rewrite IH].
      destruct IH as (d & Hd & ->). by exists d. }
  destruct (ancestors_in p) as [[before sources]|]; [|by rewrite H].
  destruct H as (c & Hc & ->). destruct (patch_match_words c sources Hc) as (c' & r & -> & Hc' & <-).
  by rewrite app_assoc, words_split.
Qed.

Lemma patch_words part : free ";" part -> fields (patch_csp part) = patch_directive part.
Proof.
  intros Hs%free_not_semi. rewrite patch_csp_list. unfold fields at 1, patch_directive. rewrite to_of_list, patch_part_words by done.
  destruct (ancestors_in (to_list part)) as [[before sources]|]; [|done]. unfold fields at 2. by rewrite to_of_list.
Qed.

(** A directive that does not mention the name is kept. *)
Lemma patch_directive_other part : contains part frame_ancestors = false -> patch_directive part = fields part.
Proof.
  intros Hc. unfold patch_directive. rewrite <- (of_to_list part) in Hc.
  assert (ancestors_in (to_list part) = None) as ->; [|done]. induction (to_list part) as [|c l IH]; [done|].
  cbn [of_list contains] in Hc. apply orb_false_iff in Hc as [Hc1 Hc2]. cbn [ancestors_in].
  destruct (csp_hit (c :: l)) eqn:E; [|by rewrite IH].
  apply csp_hit_spec in E as (d & s & Hl & _). exfalso. apply not_true_iff_false in Hc1. apply Hc1. apply has_prefix_spec.
  exists (of_list (d :: s)). change (of_list (c :: l) = of_list name +:+ of_list (d :: s)). by rewrite <- of_list_app, <- Hl.
Qed.

(** A directive that is the name and its sources, written with blanks (a
    vertical tab is none for the expression). *)
Lemma patch_directive_ancestors part first more :
  fields part = frame_ancestors :: first :: more -> Forall (fun c => nat_of_ascii c <> 11%nat) (to_list part) ->
  patch_directive part = frame_ancestors :: patch_sources (first :: more).
Proof.
  intros E Hv. unfold patch_directive. unfold fields in E.
  apply fields_first in E as (ws & rest & E & Hw & [[_ ?]|(c & r & -> & Hc & Hr)]); [done|].
  rewrite E in Hv |- *. apply Forall_app in Hv as [_ Hv]. apply Forall_app in Hv as [_ Hv]. apply Forall_cons in Hv as [H11 _].
  assert (Hhit : csp_hit (name ++ c :: r) = true).
  { unfold csp_hit. rewrite take_app_length, drop_app_length, bool_decide_true by done. cbn [andb].
    destruct r as [|d r]; [done|]. unfold is_space in Hc. unfold re_space. apply bool_decide_eq_true.
    apply orb_true_iff in Hc. rewrite andb_true_iff, !Nat.leb_le, Nat.eqb_eq in Hc. repeat rewrite elem_of_cons. lia. }
  assert (Ha : ancestors_in (ws ++ name ++ c :: r) = Some (ws, r)).
  { clear E. induction ws as [|a ws IH].
    - cbn [app]. change (name ++ c :: r) with (hd "f"%char name :: tl name ++ c :: r) at 1. cbn [ancestors_in].
      change (hd "f"%char name :: tl name ++ c :: r) with (name ++ c :: r). rewrite Hhit.
      apply csp_hit_spec in Hhit as (d & s & Hl & _ & ->). by injection Hl as <- <-.
    - apply Forall_cons in Hw as [Ha Hw]. cbn [app ancestors_in]. rewrite (IH Hw).
      assert (csp_hit (a :: ws ++ name ++ c :: r) = false) as ->; [|done].
      unfold csp_hit. rewrite bool_decide_false; [done|]. intros H. cbn in H. injection H as -> _. done. }
  rewrite Ha. unfold fields. rewrite !to_of_list, fields_spaces by done. by rewrite Hr.
Qed.

(** ** The headers *)

(** The directives of all the policies of a response. *)
Definition directives (h : Header) : list string := concat (map (fun v => split v ";") (default [] (h !! CSP))).

Lemma directives_space s : map fields (split (String " " s) ";") = map fields (split s ";").
Proof. rewrite split_other by done. pose proof (split_not_nil s ";"). by destruct (split s ";"). Qed.

Lemma directives_join l : l <> [] -> map fields (split (join l "; ") ";") = concat (map (fun v => map fields (split v ";")) l).
Proof.
  induction l as [|x l IH]; [done|]. intros _. destruct l as [|y l]; [cbn; by rewrite app_nil_r|].
  change (join (x :: y :: l) "; ") with (x +:+ String ";" (String " " (join (y :: l) "; "))).
  rewrite split_append, map_app, directives_space, IH by done. done.
Qed.

Lemma patch_value v : map fields (split (patch_csp v) ";") = map patch_directive (split v ";").
Proof.
  rewrite patch_parts, map_map. pose proof (split_free ";" v) as HF.
  apply map_ext_in. intros p Hp. rewrite Forall_forall in HF. apply patch_words, HF. by apply list_elem_of_In.
Qed.

Lemma patch_values l :
  concat (map (fun v => map fields (split v ";")) (map patch_csp l)) =
  map patch_directive (concat (map (fun v => split v ";") l)).
Proof. induction l as [|x l IH]; [done|]. cbn [map concat]. by rewrite map_app, patch_value, IH. Qed.

(** The step every response takes. *)
Lemma patch_headers_spec (h : Header) :
  map fields (directives (patch_headers h)) = map patch_directive (directives h) /\
  (default [] (h !! CSP) <> [] -> exists v, patch_headers h !! CSP = Some [v]) /\
  patch_headers h !! "Cross-Origin-Embedder-Policy" = Some ["require-corp"] /\
  forall k, k <> CSP -> k <> "Cross-Origin-Embedder-Policy" -> patch_headers h !! k = h !! k.
Proof.
  unfold patch_headers, Header_Set, Header_Del, directives, Header in *. split; [|split; [|split]].
  - rewrite lookup_insert_ne by done. destruct (h !! CSP) as [[|v l]|] eqn:E; cbv [default id]; [by rewrite E| |by rewrite E].
    rewrite lookup_insert_eq. cbn [map concat]. rewrite app_nil_r, directives_join by done. by apply (patch_values (v :: l)).
  - intros Hn. rewrite lookup_insert_ne by done. destruct (default [] (h !! CSP)); [done|]. rewrite lookup_insert_eq. eauto.
  - by rewrite lookup_insert_eq.
  - intros k H1 H2. rewrite lookup_insert_ne by done. destruct (default [] (h !! CSP)); [done|].
    by rewrite lookup_insert_ne, lookup_delete_ne.
Qed.

Section Headers.
Context (bracket_host : string -> option string) (render : token -> string).
Context (tokenize : string -> string -> list token * option gerror) (gzip_error : string -> option gerror).
Context (encode flushed : string -> string -> string).

Lemma rewriteResponse_headers req resp r k :
  rewriteResponse bracket_host render tokenize gzip_error encode flushed req resp = Ok r ->
  k <> "Content-Length" -> k <> "Location" -> rs_header r !! k = rs_header resp !! k.
Proof.
  unfold rewriteResponse, fix_location, Header, Header_Set, Header_Del. intros H H1 H2. unfold Header in *.
  destruct (if bool_decide _ then _ else _); [done|]. destruct (negb _); [by injection H as <-|].
  destruct (parse_url _ _) as [sourceURL|]; [|done]. destruct (extractCookieInfo req) as [ci|]; [|done].
  destruct (parse_url _ _) as [kube|]; [|done]. cbn in H. destruct (tokenize _ _) as [tokens [e|]]; [done|].
  destruct (empty _); [injection H as <-; cbn; by rewrite lookup_delete_ne|].
  destruct (parse_url _ _); [|done]. injection H as <-. cbn. by rewrite lookup_insert_ne, lookup_delete_ne.
Qed.

(** C12: A response of a service that the proxy passes on has every directive of
    its security policies, in their order and word for word, but for one
    change: where a directive has the name frame-ancestors followed by a blank and at
    least one more character, a list of sources that begins with 'none', or
    consists of blanks, becomes 'self' alone, one that has
    'self' stays, and any other gets 'self' in addition. (A frame-ancestors
    without anything after it is therefore kept.) If there were policies, there is a single one
    afterwards. The embedder policy is set; of the other headers only
    Content-Length and Location may differ, and only if the content is text/html, the pages
    that are rewritten. *)
Theorem csp_patched (req : Header) (resp r : Response) :
  RoundTrip bracket_host render tokenize gzip_error encode flushed req (Ok resp) = Passed r ->
  map fields (directives (rs_header r)) = map patch_directive (directives (rs_header resp)) /\
  (default [] (rs_header resp !! CSP) <> [] -> exists v, rs_header r !! CSP = Some [v]) /\
  rs_header r !! "Cross-Origin-Embedder-Policy" = Some ["require-corp"] /\
  forall k, k <> CSP -> k <> "Cross-Origin-Embedder-Policy" ->
    rs_header r !! k = rs_header resp !! k \/
    content_type (rs_header resp) = "text/html" /\ (k = "Content-Length" \/ k = "Location").
Proof.
  intros H. destruct (patch_headers_spec (rs_header resp)) as (Hd & Hone & He & Ho).
  assert (Hk : forall k, k <> "Content-Length" -> k <> "Location" -> rs_header r !! k = patch_headers (rs_header resp) !! k).
  { intros k H1 H2. unfold RoundTrip in H. cbn [rs_header] in H. destruct (negb _); [by injection H as <-|].
    destruct (rewriteResponse _ _ _ _ _ _ _ _) as [r'|] eqn:E; [|done]. injection H as ->.
    by rewrite (rewriteResponse_headers _ _ _ k E). }
  unfold directives. rewrite !Hk by done. split; [exact Hd|]. split; [exact Hone|]. split; [exact He|].
  intros k H1 H2. destruct (decide (k = "Content-Length" \/ k = "Location")) as [Hl|Hl].
  - destruct (decide (content_type (rs_header resp) = "text/html")) as [Ht|Ht]; [by right|left].
    unfold RoundTrip in H. cbn [rs_header] in H. rewrite bool_decide_false in H; [by injection H as <-; apply Ho|].
    unfold content_type, Header_Get. by rewrite Ho.
  - left. rewrite Hk by tauto. by apply Ho.
Qed.

End Headers.

Definition framed : Header :=
  {[CSP := ["default-src 'self'; frame-ancestors  'none'"; "script-src a.com; frame-ancestors https://b.com;"];
    "Content-Type" := ["text/plain"]]}.

Definition plain_trip : round_trip :=
  RoundTrip (fun _ => None) (fun _ => "") (fun _ _ => ([], None)) (fun _ => None) (fun _ s => s) (fun _ s => s) ∅
    (Ok (mkResponse framed "hello" 5)).

Lemma csp_patched_witness :
  patch_headers framed !! CSP =
    Some ["default-src 'self'; frame-ancestors 'self'; script-src a.com; frame-ancestors https://b.com 'self';"] /\
  map fields (directives (patch_headers framed)) =
    [["default-src"; "'self'"]; ["frame-ancestors"; "'self'"]; ["script-src"; "a.com"];
     ["frame-ancestors"; "https://b.com"; "'self'"]; []].
Proof.
  split; [vm_compute; reflexivity|].
  etransitivity; [exact (proj1 (csp_patched (fun _ => None) (fun _ => "") (fun _ _ => ([], None)) (fun _ => None)
    (fun _ s => s) (fun _ s => s) ∅ (mkResponse framed "hello" 5) (mkResponse (patch_headers framed) "hello" 5)
    ltac:(vm_compute; reflexivity)))|vm_compute; reflexivity].
Defined.

(** A list without sources allows no ancestor either, but is left alone. *)
Example empty_ancestors : patch_csp "frame-ancestors; img-src a" = "frame-ancestors; img-src a".
Proof. vm_compute. reflexivity. Qed.

(** ** A link of a page leads back to where it pointed

    [rewriteURL] turns a link to a resource of the service, as the Kubernetes
    API writes it, to the proxy; the proxy's handler ([newPath]) turns the
    request that the browser makes of it back. *)

Lemma trim_prefix_app p s : trim_prefix (p +:+ s) p = s.
Proof.
  unfold trim_prefix. assert (has_prefix (p +:+ s) p = true) as -> by (apply has_prefix_spec; eauto). apply sdrop_app.
Qed.

Definition rooted (p : string) : Prop := p = "" \/ has_prefix p "/" = true.

Lemma has_slash s : has_prefix s "/" = true -> exists t, s = String "/" t.
Proof. intros [t ->]%has_prefix_spec. by exists t. Qed.

Lemma escaped_rooted raw p : rooted raw -> rooted p -> rooted (escaped EncPath raw p).
Proof.
  intros Hr Hp. unfold escaped. destruct (negb _ && _ && _); [done|]. destruct (bool_decide (EncPath = EncPath) && bool_decide (p = "*")) eqn:E.
  - apply andb_true_iff in E as [_ ->%bool_decide_eq_true]. by destruct Hp.
  - destruct Hp as [->|[t ->]%has_slash]; [by left|right]. cbn. by destruct (escape EncPath t).
Qed.

Lemma fragment_written raw frag :
  (if empty frag then "" else "#" +:+ escaped EncFragment raw frag) =
  fragment_part (if empty frag then "" else escaped EncFragment raw frag).
Proof.
  destruct (empty frag) eqn:E; [done|]. set (f := escaped _ _ _). unfold fragment_part.
  assert (empty f = false) as ->; [|done]. apply bool_decide_eq_false. intros Hf0.
  destruct (escaped_ok EncFragment raw frag ltac:(done)) as [Hun _]. fold f in Hun. rewrite Hf0 in Hun.
  injection Hun as Hun. apply bool_decide_eq_false in E. by apply E.
Qed.

(** A URL with a host, written. *)
Lemma String_with_host u :
  u_opaque u = "" -> u_user u = None -> plain_host (u_host u) = true -> rooted (u_raw_path u) -> rooted (u_path u) ->
  URL_String u =
  (scheme_part (u_scheme u) +:+ ("//" +:+ u_host u +:+ escaped EncPath (u_raw_path u) (u_path u)) +:+
     query_part (u_force_query u) (u_raw_query u)) +:+
  fragment_part (if empty (u_fragment u) then "" else escaped EncFragment (u_raw_fragment u) (u_fragment u)).
Proof.
  intros Ho Hu Hh Hr Hp. destruct (plain_parts _ Hh) as (Hne & _ & Hc & _). destruct (unescape_host _ Hc) as [_ Hesc].
  pose proof (escaped_rooted _ _ Hr Hp) as He. unfold URL_String. rewrite Ho. assert (empty "" = true) as -> by done.
  assert (url_front u = scheme_part (u_scheme u) +:+ "//" +:+ u_host u) as Hf.
  { unfold url_front. rewrite Hu, Hesc. assert (empty (u_host u) = false) as -> by (by apply bool_decide_eq_false).
    rewrite (bool_decide_true (None = None)) by done. rewrite !andb_false_r. cbn [negb orb andb]. done. }
  assert (url_path u = escaped EncPath (u_raw_path u) (u_path u)) as ->.
  { unfold url_path. rewrite Hf. set (e := escaped _ _ _) in *.
    assert (negb (empty e) && negb (has_prefix e "/") && negb (empty (u_host u)) = false) as ->.
    { destruct He as [->|He]; [done|]. rewrite He. by rewrite andb_false_r. }
    assert (empty (scheme_part (u_scheme u) +:+ "//" +:+ u_host u) = false) as ->; [|done].
    apply bool_decide_eq_false. intros E. apply (f_equal String.length) in E. rewrite !slength_app in E. cbn in E. lia. }
  rewrite Hf, <- fragment_written. fold (query_part (u_force_query u) (u_raw_query u)). rewrite !sapp_assoc. done.
Qed.

Section Links.
Context (bracket_host : string -> option string).

(** C11: A link of a page to a resource of the service behind the proxy, as the
    API server writes it, is turned into an address of the proxy's own host
    that reads back to the same scheme, query and fragment, and to the (decoded)
    path from which the proxy's handler makes the path of that resource again,
    whatever characters it has and however they were escaped. *)
Theorem links_come_back (ci : CookieInfo) (sourceURL kubeapiAddr u : URL) (v p clusterInfraName : string) :
  Parse bracket_host v = Some u -> known_scheme (u_scheme u) -> u_opaque u = "" -> u_user u = None ->
  (u_host u = "" \/ u_host u = u_host kubeapiAddr) -> rooted (u_raw_path u) ->
  u_path u = service_path ci +:+ p -> rooted p -> plain_host (u_host sourceURL) = true ->
  exists u', Parse bracket_host (rewriteURL u sourceURL ci kubeapiAddr) = Some u' /\
    u_scheme u' = u_scheme u /\ u_host u' = u_host sourceURL /\ u_user u' = None /\
    newPath ci clusterInfraName (u_path u') = "/kubernetes/" +:+ ci_project ci +:+ "-" +:+ clusterInfraName +:+ u_path u /\
    u_raw_query u' = u_raw_query u /\ u_fragment u' = u_fragment u.
Proof.
  intros Hparse Hs Ho Hu Hhost Hraw Hpath Hp Hsrc. destruct (Parse_query _ _ _ Hparse) as (Hq1 & Hq2 & Hq3).
  assert (keeps_url u kubeapiAddr = false) as Hk.
  { unfold keeps_url. rewrite Hpath. cbn. destruct Hhost as [-> | ->]; [done|].
    rewrite (bool_decide_true (u_host kubeapiAddr = u_host kubeapiAddr)) by done. by rewrite andb_false_r. }
  unfold rewriteURL. rewrite Hk, Hpath, trim_prefix_app.
  rewrite String_with_host by done. cbn [set_host_path u_scheme u_host u_path u_raw_path u_force_query u_raw_query u_fragment u_raw_fragment].
  destruct (escaped_ok EncPath (u_raw_path u) p ltac:(done)) as [He1 He2].
  destruct (parse_back bracket_host (u_scheme u) (u_host sourceURL) (escaped EncPath (u_raw_path u) p) p (u_force_query u) (u_raw_query u)
    (if empty (u_fragment u) then "" else escaped EncFragment (u_raw_fragment u) (u_fragment u)) (u_fragment u)) as (raw & rf & ->);
    [done|done|by apply escaped_rooted|done|done|done|done|done| |].
  - unfold empty. case_bool_decide as E; [by left|right].
    destruct (escaped_ok EncFragment (u_raw_fragment u) (u_fragment u) ltac:(done)) as [Hun _]. split; [|done]. intros E0. rewrite E0 in Hun.
    by injection Hun as Hun.
  - eexists. split; [reflexivity|]. cbn [u_scheme u_host u_user u_path u_raw_query u_fragment]. split_and!; try done.
    unfold newPath, service_path. by rewrite !sapp_assoc.
Qed.

End Links.

(** ** A link with an escaped blank, a query and a fragment *)

Definition shop_cookies : CookieInfo := mkCookieInfo "p1" "edge-1" "shop-ns" "shop:80".
Definition proxy_url : URL := mkUrl "https" "" None "asp.example.com" "" "" false false "" "" "".
Definition kube_url : URL := mkUrl "https" "" None "kubernetes.default.svc" "" "" false false "" "" "".

Definition shop_link : string :=
  "https://kubernetes.default.svc/api/v1/namespaces/shop-ns/services/shop:80/proxy/a%20b/%2Fc?x=1#top".

Definition shop_url : URL := default proxy_url (Parse no_brackets shop_link).

Lemma links_come_back_witness :
  rewriteURL shop_url proxy_url shop_cookies kube_url = "https://asp.example.com/a%20b//c?x=1#top" /\
  exists u', Parse no_brackets (rewriteURL shop_url proxy_url shop_cookies kube_url) = Some u' /\
    newPath shop_cookies "edge" (u_path u') = "/kubernetes/p1-edge/api/v1/namespaces/shop-ns/services/shop:80/proxy/a b//c".
Proof.
  split; [vm_compute; reflexivity|].
  destruct (links_come_back no_brackets shop_cookies proxy_url kube_url shop_url shop_link "/a b//c" "edge")
    as (u' & H1 & _ & _ & _ & H2 & _); try (vm_compute; reflexivity).
  - by apply (bool_decide_unpack _); vm_compute.
  - right. vm_compute. reflexivity.
  - right. vm_compute. reflexivity.
  - right. vm_compute. reflexivity.
  - exists u'. split; [exact H1|]. rewrite H2. vm_compute. reflexivity.
Defined.

(** ** Pages *)

(** Text with character references is written with the references resolved. *)
Example text_unescaped render :
  rewrite_tokens no_brackets render shop_cookies kube_url proxy_url page_start
    [TText "&lt;script&gt;alert(1)&lt;/script&gt;" "<script>alert(1)</script>"] = "<script>alert(1)</script>".
Proof. reflexivity. Qed.

(** The text of a script whose end tag is missing is lost; after a second end
    tag it is written again. *)
Example script_lost render attrs :
  rewrite_tokens no_brackets render shop_cookies kube_url proxy_url page_start [TStart false "script" attrs; TText "f()" "f()"] =
  render (TStart false "script" (map (rewrite_attr no_brackets shop_cookies kube_url proxy_url "script") attrs)).
Proof. apply sapp_nil_r. Qed.

(** A link to a place in the same page leads to the front page of the proxy. *)
Example fragment_link :
  option_map (fun u => rewriteURL u proxy_url shop_cookies kube_url) (Parse no_brackets "#top") = Some "//asp.example.com#top" /\
  option_map (fun u => rewriteURL u proxy_url shop_cookies kube_url) (Parse no_brackets "") = Some "//asp.example.com".
Proof. vm_compute. done. Qed.

(** The key of a setting in a script is lost with its quotes. *)
Example key_lost :
  processJavaScript no_brackets (String quote ("appSubUrl" +:+ String quote (":" +:+ String quote ("https://kubernetes.default.svc/x" +:+ String quote ""))))
    shop_cookies "asp.example.com" "https://kubernetes.default.svc" = "https://asp.example.com/x".
Proof. vm_compute. reflexivity. Qed.

(** A page in an encoding the proxy does not know arrives empty. *)
Example unknown_encoding_emptied tokenize gzip_error encode flushed req h body n :
  Header_Get h "Content-Encoding" = "br" ->
  rewriteResponse no_brackets (fun _ => "") tokenize gzip_error encode flushed req (mkResponse h body n) = Ok (mkResponse h "" n).
Proof. unfold rewriteResponse. cbn. intros ->. done. Qed.
