(* ===== verification/Fleet.v ===== *)
(** * [pkg/fleet/configgen.go]: the tree of files Fleet deploys from

    A file is written with the value that [yaml.Marshal] is given; a directory
    is the list of the arguments of [filepath.Join]. *)

From S2P Require Import Prelude Prog GoMonad GoStr Types K8sLib Utils Kube Env Reconcile.

(** ** The values of the files *)

Definition CredentialString : string := "%GeneratedDockerCredential%".
Definition PreHookString : string := "%PreHookCredential%".
Definition ImageRegistryURL : string := "%ImageRegistryURL%".
Definition OrgName : string := "%OrgName%".
Definition ProjectName : string := "%ProjectName%".
Definition NexusOrgLabel : string := "runtimeorgs.runtimeorg.edge-orchestrator.intel.com".
Definition FleetHostUuid : string := "edge-orchestrator.intel.com/host-uuid".

Record Operation : Type := mkOp { op_op : string; op_path : string }.

Definition IgnoreDataOp : list Operation := [mkOp "ignore" ""; mkOp "remove" "/metadata"; mkOp "remove" "/data"].
Definition IgnoreWHCOp : list Operation := [mkOp "ignore" ""; mkOp "remove" "/webhooks"].
Definition IgnoreSpecOp : list Operation := [mkOp "ignore" ""; mkOp "remove" "/spec"].

Record ComparePatch : Type := mkPatch {
  cp_kind : string;
  cp_api : string;
  cp_namespace : string;
  cp_name : string;
  cp_operations : list Operation
}.

Record DeployLabels : Type := mkDLabels {
  dl_deployment : string;
  dl_generation : string;
  dl_app : string;
  dl_bundle_type : string
}.

Record FleetHelm : Type := mkFleetHelm {
  fh_release : string;
  fh_repo : string;
  fh_chart : string;
  fh_version : string;
  fh_values : list string
}.

Record Config : Type := mkFleetConfig {
  fc_name : string;
  fc_labels : DeployLabels;
  fc_namespace : string;
  fc_delete_crd : bool;
  fc_helm : FleetHelm;
  fc_kustomize : string;
  fc_depends : list string;              (* a DependsOnItem by its name *)
  fc_diff : option (list ComparePatch);
  fc_ns_labels : gmap string string;
  fc_ns_annotations : gmap string string
}.

Definition empty_config : Config :=
  mkFleetConfig "" (mkDLabels "" "" "" "") "" false (mkFleetHelm "" "" "" "" []) "" [] None ∅ ∅.

(** A rule without peers; [true] is an ingress, [false] an egress policy. *)
Record NetworkPolicy : Type := mkPolicy { np_name : string; np_ingress : bool; np_rules : nat }.

(** The credentials of an image registry. *)
Record SecretArgs : Type := mkSecretArgs { sa_namespace : string; sa_name : string; sa_literals : list string }.

Record Kustomization : Type := mkKustomization { ku_resources : list string; ku_secrets : list SecretArgs }.

Record ExtraValues : Type := mkExtra { ev_generation : Z; ev_cluster_labels : gmap string string }.

Record SecretSpec : Type := mkSecretSpec { ss_name : string; ss_namespace : string; ss_data : gmap string string }.

Inductive document : Type :=
  | DocText (s : string)
  | DocFleet (c : Config)
  | DocPolicy (p : NetworkPolicy)
  | DocKustomization (k : Kustomization)
  | DocValues (e : ExtraValues)
  | DocSecret (s : SecretSpec)
  | DocEmpty.

#[export] Instance Operation_eq_dec : EqDecision Operation.
Proof. solve_decision. Defined.
#[export] Instance ComparePatch_eq_dec : EqDecision ComparePatch.
Proof. solve_decision. Defined.
#[export] Instance DeployLabels_eq_dec : EqDecision DeployLabels.
Proof. solve_decision. Defined.
#[export] Instance FleetHelm_eq_dec : EqDecision FleetHelm.
Proof. solve_decision. Defined.
#[export] Instance Config_eq_dec : EqDecision Config.
Proof. solve_decision. Defined.
#[export] Instance NetworkPolicy_eq_dec : EqDecision NetworkPolicy.
Proof. solve_decision. Defined.
#[export] Instance SecretArgs_eq_dec : EqDecision SecretArgs.
Proof. solve_decision. Defined.
#[export] Instance Kustomization_eq_dec : EqDecision Kustomization.
Proof. solve_decision. Defined.
#[export] Instance ExtraValues_eq_dec : EqDecision ExtraValues.
Proof. solve_decision. Defined.
#[export] Instance SecretSpec_eq_dec : EqDecision SecretSpec.
Proof. solve_decision. Defined.
#[export] Instance document_eq_dec : EqDecision document.
Proof. solve_decision. Defined.

(** ** Requests *)

Record RuntimeProject : Type := mkRuntimeProject { rp_uid : string; rp_display : string; rp_labels : gmap string string }.

Inductive feff : Type :=
  | FGenerateName                                        (* names.SimpleNameGenerator.GenerateName of no base *)
  | FProjects                                            (* RuntimeProjects().List *)
  | FSecret (ns name : string)                           (* kc.Get of a Secret, its Data *)
  | FWrite (dir : list string) (name : string) (d : document). (* yaml.Marshal, utils.WriteFile *)

#[export] Instance feff_eq_dec : EqDecision feff.
Proof. solve_decision. Defined.

Definition fresp (e : feff) : Type :=
  match e with
  | FGenerateName => string
  | FProjects => res (list RuntimeProject)
  | FSecret _ _ => res (gmap string string)
  | FWrite _ _ _ => option gerror
  end.

Abbreviation fp := (gp feff fresp).
Abbreviation fevent := (event feff fresp).
Abbreviation fcall e := (call (E:=feff) (R:=fresp) e).

(** The parts of a parsed [url.URL] that are read. *)
Record ParsedURL : Type := mkURL { url_scheme : string; url_host : string; url_path : string }.

Section Fleet.
(** The UUID made from the SHA-1 of a token, [url.Parse], [url.JoinPath] (whose
    error is dropped), the JSON of a registry's credentials, the environment. *)
Context (sha_uuid : string -> string).
Context (url_parse : string -> res ParsedURL) (url_join : string -> string -> string).
Context (docker_config : string -> string -> string -> res string).
Context (lookupenv : string -> option string).

Abbreviation bundle_name := (BundleName sha_uuid).

Definition write (dir : list string) (name : string) (d : document) : fp unit := ecall (fcall (FWrite dir name d)).

(** ** The project *)

Definition getNexusOrgAndProjectNames (d : Deployment) : fp (string * string) :=
  let projectID := mget (d_labels d) AppOrchActiveProjectID in
  if bool_decide (projectID = "") then fail (errorf "project-id not found in deployment labels")
  else
    do! runtimeProjects := rcall (fcall FProjects) in
    match find_first (fun p => bool_decide (rp_uid p = projectID)) runtimeProjects with
    | Some p =>
        let orgName := mget (rp_labels p) NexusOrgLabel in
        if bool_decide (orgName = "") then
          fail (errorf ("nexus project " +:+ rp_display p +:+ " has no label " +:+ NexusOrgLabel))
        else ok (orgName, rp_display p)
    | None => fail (errorf ("unable to find nexus runtime project with UID: " +:+ projectID))
    end.

(** ** [fleet.yaml] of an application *)

(** The diff options of a resource to ignore. *)
Definition compare_patch (app : Application) (r : IgnoreResource) : res ComparePatch :=
  let ns := if bool_decide (ig_namespace r = "") then app_namespace app else ig_namespace r in
  let cluster_scoped api ops :=
    if bool_decide (ig_namespace r = "") then Ok (mkPatch (ig_kind r) api "" (ig_name r) ops)
    else Err (errorf ("namespace is not supported for " +:+ ig_kind r +:+ " kind in diff configuration")) in
  let namespaced api ops := Ok (mkPatch (ig_kind r) api ns (ig_name r) ops) in
  if bool_decide (ig_kind r ∈ ["ConfigMap"; "Secret"]) then namespaced "v1" IgnoreDataOp
  else if bool_decide (ig_kind r ∈ ["ValidatingWebhookConfiguration"; "MutatingWebhookConfiguration"]) then
    cluster_scoped "admissionregistration.k8s.io/v1" IgnoreWHCOp
  else if bool_decide (ig_kind r = "CustomResourceDefinition") then cluster_scoped "apiextensions.k8s.io/v1" IgnoreSpecOp
  else if bool_decide (ig_kind r = "EnvoyFilter") then namespaced "networking.istio.io/v1beta1" IgnoreSpecOp
  else if bool_decide (ig_kind r = "Deployment") then namespaced "apps/v1" IgnoreSpecOp
  else if bool_decide (ig_kind r = "Job") then namespaced "batch/v1" IgnoreSpecOp
  else Err (errorf ("unsupported: Kind " +:+ ig_kind r +:+ " not supported in diff configuration")).

Definition compare_patches (app : Application) : res (list ComparePatch) :=
  fold_left (fun acc r => try l := acc in try p := compare_patch app r in Ok (l ++ [p])) (app_ignore app) (Ok []).

(** The zero value of an application. *)
Definition no_app : Application :=
  mkApp "" "" "" ∅ [] "" "" [] false [] (mkHelm "" "" "" "" "" "") ∅ false.

Definition newFleetConfig (appName : string) (appMap : gmap string Application) (depID depName : string)
    (generation : Z) (namespace : string) : res Config :=
  let app := default no_app (appMap !! appName) in
  let bundlename := bundle_name app depName in
  let helm := app_helm app in
  try u := url_parse (ha_repo helm) in
  let oci := bool_decide (url_scheme u = "oci") in
  try patches := compare_patches app in
  Ok (mkFleetConfig bundlename
        (mkDLabels depID (itoa generation) (app_name app) BundleTypeApp)
        namespace (DeleteCRDResources lookupenv)
        (mkFleetHelm bundlename (if oci then "" else ha_repo helm)
           (if oci then url_join (ha_repo helm) (ha_chart helm) else ha_chart helm) (ha_version helm) [])
        "" (map (fun dep => bundle_name (default no_app (appMap !! dep)) depName) (app_depends_on app))
        (Some patches) ∅ ∅).

Definition add_values (file : string) (c : Config) : Config :=
  let h := fc_helm c in
  mkFleetConfig (fc_name c) (fc_labels c) (fc_namespace c) (fc_delete_crd c)
    (mkFleetHelm (fh_release h) (fh_repo h) (fh_chart h) (fh_version h) (fh_values h ++ [file]))
    (fc_kustomize c) (fc_depends c) (fc_diff c) (fc_ns_labels c) (fc_ns_annotations c).

Definition add_depends (bundle : string) (c : Config) : Config :=
  mkFleetConfig (fc_name c) (fc_labels c) (fc_namespace c) (fc_delete_crd c) (fc_helm c)
    (fc_kustomize c) (fc_depends c ++ [bundle]) (fc_diff c) (fc_ns_labels c) (fc_ns_annotations c).

Definition set_kustomize (dir : string) (c : Config) : Config :=
  mkFleetConfig (fc_name c) (fc_labels c) (fc_namespace c) (fc_delete_crd c) (fc_helm c)
    dir (fc_depends c) (fc_diff c) (fc_ns_labels c) (fc_ns_annotations c).

(** ** Values *)

Definition valuesFromSecret (secretName namespace : string) : fp string :=
  if bool_decide (secretName = "") then ok ""
  else do! values := rcall (fcall (FSecret namespace secretName)) in ok (mget values "values").

(** [profile.yaml]: the placeholders are replaced one after the other. *)
Definition profile_text (hasImageCreds : bool) (bundleName : string) (registry : ParsedURL)
    (orgName projectName contents : string) : res string :=
  let contents := if hasImageCreds then replace_all contents CredentialString bundleName else contents in
  if contains contents CredentialString then Err (errorf "token string present without Docker credentials")
  else
    try contents :=
      (if contains contents ImageRegistryURL then
         if bool_decide (url_host registry = "") then
           Err (errorf ("imageRegistry not set but '" +:+ ImageRegistryURL +:+ "' tag is present"))
         else Ok (replace_all contents ImageRegistryURL (url_host registry +:+ url_path registry))
       else Ok contents) in
    let contents := replace_all contents OrgName orgName in
    Ok (replace_all contents ProjectName projectName).

(** Before the registry, organization and project are filled in. *)
Definition has_pre_hook (hasImageCreds : bool) (bundleName contents : string) : bool :=
  contains (if hasImageCreds then replace_all contents CredentialString bundleName else contents) PreHookString.

Definition extra_values (generation : Z) : ExtraValues :=
  mkExtra generation
    (if bool_decide (lookupenv "FLEET_ADD_GLOBAL_VARS" = Some "true") then
       {[ClusterName := "global.fleet.clusterLabels." +:+ ClusterName;
         FleetProjectID := "global.fleet.clusterLabels." +:+ FleetProjectID;
         FleetHostUuid := "global.fleet." +:+ FleetHostUuid]}
     else ∅).

(** ** Bundles of their own *)

Definition injectNamespaceToSubDir (ns : NamespaceRes) (fleetPath : list string) (bundleName : string) : fp unit :=
  let dir := fleetPath ++ [ns_name ns +:+ "-ns"] in
  do! _ := write dir "fleet.yaml" (DocFleet (mkFleetConfig bundleName (mkDLabels "" "" "" "") (ns_name ns) false
             (mkFleetHelm "" "" "" "" []) "" [] None (ns_labels ns) (ns_annotations ns))) in
  write dir "empty.yaml" DocEmpty.

Definition injectImageCredentialToKustomization (reg : ParsedURL) (regSecret secretNamespace appNamespace bundleName : string)
    (k : Kustomization) : fp Kustomization :=
  do! creds := rcall (fcall (FSecret secretNamespace regSecret)) in
  let username := mget creds "username" in
  let password := mget creds "password" in
  do! credjson := done (docker_config (url_host reg) username password) in
  ok (mkKustomization (ku_resources k) [mkSecretArgs appNamespace bundleName
        [".dockerconfigjson=" +:+ credjson; "accessKeyId=" +:+ username; "secretKey=" +:+ password]]).

Definition injectImageCredentialSecretToSubDir (reg : ParsedURL) (regSecret secretNamespace appNamespace bundleName : string)
    (fleetPath : list string) : fp unit :=
  do! creds := rcall (fcall (FSecret secretNamespace regSecret)) in
  let username := mget creds "username" in
  let password := mget creds "password" in
  do! credjson := done (docker_config (url_host reg) username password) in
  let dir := fleetPath ++ ["secret-dir"] in
  do! _ := write dir "fleet.yaml" (DocFleet (mkFleetConfig ("pre-install-secret-" +:+ bundleName) (mkDLabels "" "" "" "")
             appNamespace false (mkFleetHelm "" "" "" "" []) "" [] None ∅ ∅)) in
  write dir "image-reg-secret.yaml" (DocSecret (mkSecretSpec bundleName appNamespace
    {[".dockerconfigjson" := credjson; "accessKeyId" := username; "secretKey" := password]})).

(** ** The files of an application *)

Definition policy_name (d : Deployment) (app : Application) (suffix : string) : string :=
  app_name app +:+ "-" +:+ app_version app +:+ "-" +:+ replace_all (d_name d) "deployment-" "" +:+ suffix.

Definition add_namespace (fleetPath : list string) (initNsBundleName : string) (c : Config) (ns : NamespaceRes) : fp Config :=
  let nsBundleName := ns_name ns +:+ "-" +:+ initNsBundleName in
  do! _ := injectNamespaceToSubDir ns fleetPath nsBundleName in
  ok (add_depends nsBundleName c).

Definition generate_app (d : Deployment) (baseDir : string) (appMap : gmap string Application)
    (initNsBundleName orgName projectName : string) (app : Application) : fp unit :=
  let namespace := app_namespace app in
  let hasImageCreds := negb (bool_decide (ha_image_secret (app_helm app) = "")) in
  let bundleName := bundle_name app (d_name d) in
  do! registry := done (url_parse (ha_image_registry (app_helm app))) in
  do! fleetConf := done (newFleetConfig (app_name app) appMap (GetId d) (d_name d) (d_generation d) namespace) in
  let fleetPath := [baseDir; app_name app] in
  do! profile := valuesFromSecret (app_profile_secret app) (d_namespace d) in
  do! contents := done (profile_text hasImageCreds bundleName registry orgName projectName profile) in
  let hasPreHook := has_pre_hook hasImageCreds bundleName profile in
  do! _ := write fleetPath "profile.yaml" (DocText contents) in
  let fleetConf := add_values "profile.yaml" fleetConf in
  do! contents := valuesFromSecret (app_value_secret app) (d_namespace d) in
  let contents := if hasImageCreds then replace_all contents CredentialString bundleName else contents in
  do! _ := write fleetPath "overrides.yaml" (DocText contents) in
  let fleetConf := add_values "overrides.yaml" fleetConf in
  do! _ := write fleetPath "fleet-globals.yaml" (DocValues (extra_values (d_generation d))) in
  let fleetConf := add_values "fleet-globals.yaml" fleetConf in
  let kustomize := fleetPath ++ ["kustomize"] in
  do! _ := write kustomize "network-policy-ingress.yaml" (DocPolicy (mkPolicy (policy_name d app "-ingress") true 1)) in
  do! _ := write kustomize "network-policy-egress.yaml" (DocPolicy (mkPolicy (policy_name d app "-egress") false 1)) in
  let k := mkKustomization ["network-policy-ingress.yaml"; "network-policy-egress.yaml"] [] in
  do! fleetConf := nfold (add_namespace fleetPath initNsBundleName) fleetConf (dp_namespaces (sp_pkg (d_spec d))) in
  do! ck := (if hasPreHook then
               do! _ := injectImageCredentialSecretToSubDir registry (ha_image_secret (app_helm app)) (d_namespace d)
                          namespace bundleName fleetPath in
               ok (add_depends ("pre-install-secret-" +:+ bundleName) fleetConf, k)
             else if hasImageCreds then
               do! k := injectImageCredentialToKustomization registry (ha_image_secret (app_helm app)) (d_namespace d)
                          namespace bundleName k in
               ok (fleetConf, k)
             else ok (fleetConf, k)) in
  let (fleetConf, k) := ck : Config * Kustomization in
  do! _ := write kustomize "kustomization.yaml" (DocKustomization k) in
  write fleetPath "fleet.yaml" (DocFleet (set_kustomize "./kustomize" fleetConf)).

(** The applications by name: of two with the same name the last one stays. *)
Definition app_map (apps : list Application) : gmap string Application :=
  fold_left (fun m app => <[app_name app := app]> m) apps ∅.

Definition GenerateFleetConfigs (d : Deployment) (baseDir : string) : fp unit :=
  let appMap := app_map (sp_apps (d_spec d)) in
  do! initNsBundleName := (if bool_decide (dp_namespaces (sp_pkg (d_spec d)) = []) then ok ""
                           else pbind (fcall FGenerateName) (fun name => ok name)) in
  do! names := getNexusOrgAndProjectNames d in
  let (orgName, projectName) := names : string * string in
  nfold (fun _ app => generate_app d baseDir appMap initNsBundleName orgName projectName app) tt (sp_apps (d_spec d)).

End Fleet.

(** ** What Fleet is given to deploy *)

Section Facts.
Context (sha_uuid : string -> string).
Context (url_parse : string -> res ParsedURL) (url_join : string -> string -> string).
Context (docker_config : string -> string -> string -> res string).
Context (lookupenv : string -> option string).

Abbreviation bundle_name := (BundleName sha_uuid).
Abbreviation new_config := (newFleetConfig sha_uuid url_parse url_join lookupenv).
Abbreviation gen_app := (generate_app sha_uuid url_parse url_join docker_config lookupenv).
Abbreviation generate := (GenerateFleetConfigs sha_uuid url_parse url_join docker_config lookupenv).

(** The document was written. *)
Definition written (t : list fevent) (dir : list string) (name : string) (doc : document) : Prop :=
  ev (R:=fresp) (FWrite dir name doc) None ∈ t.

Lemma write_trace dir name doc t :
  traces (write dir name doc) t (Done (Ok tt)) -> written t dir name doc.
Proof. unfold write. intros H. nunfold H. match goal with r : fresp _ |- _ => destruct r end; simplify_eq. left. Qed.

Lemma written_app t1 t2 dir name doc : written (t1 ++ t2) dir name doc <-> written t1 dir name doc \/ written t2 dir name doc.
Proof. unfold written. apply elem_of_app. Qed.

(** A bundle: a directory with its [fleet.yaml]. *)
Definition bundle (t : list fevent) (name : string) : Prop :=
  exists dir c, written t dir "fleet.yaml" (DocFleet c) /\ fc_name c = name.

Lemma bundle_app t1 t2 name : bundle (t1 ++ t2) name <-> bundle t1 name \/ bundle t2 name.
Proof. unfold bundle. setoid_rewrite written_app. naive_solver. Qed.

(** Both ways of getting along with more steps: *)
Ltac later := rewrite ?written_app, ?bundle_app; tauto.

Lemma written_sub t t' dir name doc : written t dir name doc -> t ⊆ t' -> written t' dir name doc.
Proof. intros H Hs. by apply Hs. Qed.

(** One of the writes above. *)
Ltac somewhere := eexists; eapply written_sub; [eassumption|set_solver].

Lemma inject_namespace ns path name t :
  traces (injectNamespaceToSubDir ns path name) t (Done (Ok tt)) -> bundle t name.
Proof.
  unfold injectNamespaceToSubDir. intros H. apply nbind_ok in H as (t1 & t2 & [] & -> & H & _).
  apply write_trace in H. rewrite bundle_app. left. eexists _, _. by split.
Qed.

Lemma inject_secret reg secret ns app_ns name path t :
  traces (injectImageCredentialSecretToSubDir docker_config reg secret ns app_ns name path) t (Done (Ok tt)) ->
  bundle t ("pre-install-secret-" +:+ name).
Proof.
  unfold injectImageCredentialSecretToSubDir. intros H.
  apply nbind_ok in H as (t1 & t2 & creds & -> & _ & H). apply nbind_ok in H as (t3 & t4 & json & -> & _ & H).
  apply nbind_ok in H as (t5 & t6 & [] & -> & H & _). apply write_trace in H.
  rewrite !bundle_app. right; right; left. eexists _, _. by split.
Qed.

(** The bundle of a namespace. *)
Definition ns_bundle (init : string) (ns : NamespaceRes) : string := ns_name ns +:+ "-" +:+ init.

Lemma add_namespaces_trace path init l c c' t :
  traces (nfold (add_namespace path init) c l) t (Done (Ok c')) ->
  fc_name c' = fc_name c /\ fc_labels c' = fc_labels c /\ fc_helm c' = fc_helm c /\
  fc_depends c' = fc_depends c ++ map (ns_bundle init) l /\ Forall (bundle t) (map (ns_bundle init) l).
Proof.
  revert c t. induction l as [|ns l IH]; cbn [nfold]; intros c t H.
  - destruct H as [-> H]. injection H as ->. split_and!; try done. by rewrite app_nil_r.
  - apply nbind_ok in H as (t1 & t2 & c1 & -> & H1 & H). apply IH in H as (Hn & Hl & Hh & Hd & HF).
    unfold add_namespace in H1. apply nbind_ok in H1 as (t3 & t4 & [] & -> & H1 & [-> H4]). injection H4 as ->.
    apply inject_namespace in H1. split_and!; try done.
    + rewrite Hd. cbn [add_depends fc_depends map]. by rewrite <- app_assoc.
    + constructor; [later|]. eapply Forall_impl; [exact HF|]. intros b Hb. later.
Qed.

(** The application of a name, as [newFleetConfig] looks it up. *)
Definition app_named (m : gmap string Application) (name : string) : Application := default no_app (m !! name).

Lemma new_config_fields name m id dep gen ns c :
  new_config name m id dep gen ns = Ok c ->
  fc_name c = bundle_name (app_named m name) dep /\
  fc_labels c = mkDLabels id (itoa gen) (app_name (app_named m name)) BundleTypeApp /\
  fh_values (fc_helm c) = [] /\
  fc_depends c = map (fun x => bundle_name (app_named m x) dep) (app_depends_on (app_named m name)).
Proof.
  unfold newFleetConfig, app_named. destruct (url_parse _) as [u|e]; [|done]. cbn.
  destruct (compare_patches _) as [l|e]; [|done]. intros [= <-]. done.
Qed.

(** The files of an application's directory. *)
Definition files_of (t : list fevent) (dir : list string) (c : Config) : Prop :=
  written t dir "fleet.yaml" (DocFleet c) /\
  fh_values (fc_helm c) = ["profile.yaml"; "overrides.yaml"; "fleet-globals.yaml"] /\
  Forall (fun file => exists doc, written t dir file doc) (fh_values (fc_helm c)) /\
  fc_kustomize c = "./kustomize" /\
  exists k, written t (dir ++ ["kustomize"]) "kustomization.yaml" (DocKustomization k) /\
    Forall (fun file => exists doc, written t (dir ++ ["kustomize"]) file doc) (ku_resources k).

Lemma generate_app_trace d base m init org project app t :
  traces (gen_app d base m init org project app) t (Done (Ok tt)) ->
  exists c0 c more, new_config (app_name app) m (GetId d) (d_name d) (d_generation d) (app_namespace app) = Ok c0 /\
    files_of t [base; app_name app] c /\
    fc_name c = fc_name c0 /\ fc_labels c = fc_labels c0 /\
    fc_depends c = fc_depends c0 ++ more /\ Forall (bundle t) more /\
    map (ns_bundle init) (dp_namespaces (sp_pkg (d_spec d))) ⊆ more.
Proof.
  unfold generate_app. intros H.
  apply nbind_ok in H as (? & t1 & reg & -> & [-> _] & H). apply nbind_ok in H as (? & t2 & c0 & -> & [-> Hc0] & H).
  injection Hc0 as Hc0.
  apply nbind_ok in H as (t3 & t4 & profile & -> & _ & H). apply nbind_ok in H as (? & t5 & text & -> & [-> _] & H).
  apply nbind_ok in H as (t6 & t7 & [] & -> & H6 & H). apply nbind_ok in H as (t8 & t9 & values & -> & _ & H).
  apply nbind_ok in H as (t10 & t11 & [] & -> & H10 & H). apply nbind_ok in H as (t12 & t13 & [] & -> & H12 & H).
  apply nbind_ok in H as (t14 & t15 & [] & -> & H14 & H). apply nbind_ok in H as (t16 & t17 & [] & -> & H16 & H).
  apply nbind_ok in H as (t18 & t19 & c1 & -> & H18 & H). apply nbind_ok in H as (t20 & t21 & [c2 k] & -> & H20 & H).
  apply nbind_ok in H as (t22 & t23 & [] & -> & H22 & H).
  apply add_namespaces_trace in H18 as (Hn & Hl & Hh & Hd & HF). set (more := map _ _) in *.
  apply write_trace in H6, H10, H12, H14, H16, H22, H.
  assert (exists more', fc_name c2 = fc_name c1 /\ fc_labels c2 = fc_labels c1 /\ fc_helm c2 = fc_helm c1 /\
    fc_depends c2 = fc_depends c1 ++ more' /\ Forall (bundle t20) more' /\
    ku_resources k = ["network-policy-ingress.yaml"; "network-policy-egress.yaml"]) as (more' & Hn2 & Hl2 & Hh2 & Hd2 & HF2 & Hk).
  { destruct (has_pre_hook _ _ _); [|destruct (negb _)].
    - apply nbind_ok in H20 as (ta & tb & [] & -> & Ha & [-> Hb]). injection Hb as -> ->. apply inject_secret in Ha.
      eexists [_]. split_and!; try done. constructor; [later|done].
    - apply nbind_ok in H20 as (ta & tb & k' & -> & Ha & [-> Hb]). injection Hb as -> ->. exists []. rewrite app_nil_r. split_and!; try done.
      unfold injectImageCredentialToKustomization in Ha.
      apply nbind_ok in Ha as (? & ? & ? & -> & _ & Ha). apply nbind_ok in Ha as (? & ? & ? & -> & _ & [_ Ha]). by injection Ha as ->.
    - destruct H20 as [-> H20]. injection H20 as -> ->. exists []. by rewrite app_nil_r. }
  exists c0, (set_kustomize "./kustomize" c2), (more ++ more').
  split; [done|]. split; [|split; [by cbn; rewrite Hn2, Hn|]; split; [by cbn; rewrite Hl2, Hl|]; split; [|split]].
  - unfold files_of. cbn [set_kustomize fc_helm fc_kustomize]. rewrite Hh2, Hh. cbn [add_values fc_helm fh_values].
    destruct (new_config_fields _ _ _ _ _ _ _ (eq_sym Hc0)) as (_ & _ & -> & _). split; [later|]. split; [done|].
    split; [repeat (constructor; [somewhere|]); constructor|]. split; [done|]. exists k. split; [later|].
    rewrite Hk. repeat (constructor; [somewhere|]). constructor.
  - cbn. by rewrite Hd2, Hd, <- app_assoc.
  - apply Forall_app. split; (eapply Forall_impl; [eassumption|]); intros b Hb; later.
  - set_solver.
Qed.

(** The application found under the name of one of them has that name; it is that
    one when no two have the same name. *)
Lemma app_map_fold_other apps (m : gmap string Application) name :
  name ∉ map app_name apps ->
  fold_left (fun m app => <[app_name app := app]> m) apps m !! name = m !! name.
Proof.
  revert m. induction apps as [|x apps IH]; intros m Hno; cbn; [done|].
  rewrite IH by set_solver. apply lookup_insert_ne. set_solver.
Qed.

Lemma app_map_fold apps (m : gmap string Application) name :
  name ∈ map app_name apps ->
  exists x pre post, apps = pre ++ x :: post /\ name ∉ map app_name post /\ app_name x = name /\
    fold_left (fun m app => <[app_name app := app]> m) apps m !! name = Some x.
Proof.
  revert m. induction apps as [|y apps IH]; intros m Hin; [by apply elem_of_nil in Hin|]. cbn [fold_left].
  destruct (decide (name ∈ map app_name apps)) as [Hn|Hn].
  - destruct (IH (<[app_name y := y]> m) Hn) as (x & pre & post & -> & Hpost & Hxn & Hl).
    by exists x, (y :: pre), post.
  - cbn [map] in Hin. apply elem_of_cons in Hin as [->|Hin]; [|done].
    exists y, [], apps. split; [done|]. split; [done|]. split; [done|]. rewrite app_map_fold_other by done. apply lookup_insert_eq.
Qed.

Lemma app_named_last apps app :
  app ∈ apps -> exists pre post, apps = pre ++ app_named (app_map apps) (app_name app) :: post /\
    app_name app ∉ map app_name post /\ app_name (app_named (app_map apps) (app_name app)) = app_name app.
Proof.
  intros Hin. destruct (app_map_fold apps ∅ (app_name app)) as (x & pre & post & Happs & Hpost & Hn & Hl);
    [by apply list_elem_of_fmap_2|].
  exists pre, post. unfold app_named, app_map. by rewrite Hl.
Qed.

Lemma app_named_in apps app :
  app ∈ apps -> app_named (app_map apps) (app_name app) ∈ apps /\
    app_name (app_named (app_map apps) (app_name app)) = app_name app.
Proof.
  intros Hin. destruct (app_named_last apps app Hin) as (pre & post & Happs & _ & Hn). split; [|done].
  revert Happs. generalize (app_named (app_map apps) (app_name app)). intros x ->. set_solver.
Qed.

Lemma app_named_distinct apps app :
  NoDup (map app_name apps) -> app ∈ apps -> app_named (app_map apps) (app_name app) = app.
Proof.
  intros Hnd Hin. destruct (app_named_in apps app Hin) as [Hx Hn]. revert Hnd Hin Hx Hn.
  generalize (app_named (app_map apps) (app_name app)). induction apps as [|y apps IH]; intros x Hnd Hin Hx Hn;
    [by apply elem_of_nil in Hin|].
  cbn [map] in Hnd. apply NoDup_cons in Hnd as [Hy Hnd].
  apply elem_of_cons in Hin as [->|Hin], Hx as [->|Hx]; [done| | |by apply IH]; destruct Hy;
    [rewrite <- Hn|rewrite Hn]; by apply list_elem_of_fmap_2.
Qed.

Lemma generate_apps_trace d base m init org project apps t :
  traces (nfold (fun _ app => gen_app d base m init org project app) tt apps) t (Done (Ok tt)) ->
  forall app, app ∈ apps -> exists t', t' ⊆ t /\ traces (gen_app d base m init org project app) t' (Done (Ok tt)).
Proof.
  revert t. induction apps as [|x apps IH]; cbn [nfold]; intros t H app Hin; [by apply elem_of_nil in Hin|].
  apply nbind_ok in H as (t1 & t2 & [] & -> & H1 & H). apply elem_of_cons in Hin as [->|Hin].
  - exists t1. split; [set_solver|done].
  - destruct (IH t2 H app Hin) as (t' & Hs & Ht). exists t'. split; [set_solver|done].
Qed.

Lemma bundle_sub t t' name : bundle t name -> t ⊆ t' -> bundle t' name.
Proof. intros (dir & c & H & Hn) Hs. exists dir, c. split; [by apply Hs|done]. Qed.

Lemma files_of_sub t t' dir c : files_of t dir c -> t ⊆ t' -> files_of t' dir c.
Proof.
  intros (H1 & H2 & H3 & H4 & k & H5 & H6) Hs. split; [by apply Hs|]. split; [done|].
  split; [eapply Forall_impl; [exact H3|]; intros f [doc Hf]; exists doc; by apply Hs|]. split; [done|].
  exists k. split; [by apply Hs|]. eapply Forall_impl; [exact H6|]. intros f [doc Hf]. exists doc. by apply Hs.
Qed.

(** C13: A generation that reports success has written, for every application of
    the package, a bundle in the application's directory: under the bundle
    name and labels of the application of that name (of two versions of an application,
    which nothing excludes, the last in the package; when no two applications have
    the same name, the application itself), with every values file and
    every resource that its files list.  It depends on the bundles of the
    applications that one declares and of the namespaces of the package, and if the
    declared ones are applications of the package, then every bundle depended
    on is itself among those written: the tree is closed, and no bundle waits
    for one that is not there. *)
Theorem fleet_tree_closed (d : Deployment) (base : string) (t : list fevent) (app : Application) :
  traces (generate d base) t (Done (Ok tt)) -> app ∈ sp_apps (d_spec d) ->
  let apps := sp_apps (d_spec d) in
  let named := app_named (app_map apps) in
  let app' := named (app_name app) in
  (exists pre post, apps = pre ++ app' :: post /\ app_name app ∉ map app_name post /\ app_name app' = app_name app) /\
  (NoDup (map app_name apps) -> app' = app) /\
  exists c init, files_of t [base; app_name app] c /\
    fc_name c = bundle_name app' (d_name d) /\
    fc_labels c = mkDLabels (GetId d) (itoa (d_generation d)) (app_name app) BundleTypeApp /\
    map (fun dep => bundle_name (named dep) (d_name d)) (app_depends_on app') ⊆ fc_depends c /\
    map (ns_bundle init) (dp_namespaces (sp_pkg (d_spec d))) ⊆ fc_depends c /\
    (app_depends_on app' ⊆ map app_name apps -> Forall (bundle t) (fc_depends c)).
Proof.
  unfold GenerateFleetConfigs. intros H Hin. cbv zeta. split; [by apply app_named_last|].
  split; [intros Hnd; by apply app_named_distinct|].
  apply nbind_ok in H as (t1 & t2 & init & -> & _ & H). apply nbind_ok in H as (t3 & t4 & [org project] & -> & _ & H).
  assert (Hall : forall app, app ∈ sp_apps (d_spec d) -> exists c more, files_of (t1 ++ t3 ++ t4) [base; app_name app] c /\
    let app' := app_named (app_map (sp_apps (d_spec d))) (app_name app) in
    fc_name c = bundle_name app' (d_name d) /\
    fc_labels c = mkDLabels (GetId d) (itoa (d_generation d)) (app_name app) BundleTypeApp /\
    fc_depends c = map (fun dep => bundle_name (app_named (app_map (sp_apps (d_spec d))) dep) (d_name d)) (app_depends_on app') ++ more /\
    Forall (bundle (t1 ++ t3 ++ t4)) more /\ map (ns_bundle init) (dp_namespaces (sp_pkg (d_spec d))) ⊆ more).
  { intros x Hx. destruct (generate_apps_trace _ _ _ _ _ _ _ _ H x Hx) as (t' & Hs & Ht).
    apply generate_app_trace in Ht as (c0 & c & more & Hc0 & Hfiles & Hn & Hl & Hd & HF & Hns).
    destruct (new_config_fields _ _ _ _ _ _ _ Hc0) as (Hn0 & Hl0 & _ & Hd0).
    rewrite (proj2 (app_named_in _ _ Hx)) in Hl0.
    exists c, more. split; [eapply files_of_sub; [exact Hfiles|set_solver]|]. split; [by rewrite Hn|]. split; [by rewrite Hl|].
    split; [by rewrite Hd, Hd0|]. split; [|done].
    eapply Forall_impl; [exact HF|]. intros b Hb. eapply bundle_sub; [exact Hb|set_solver]. }
  destruct (Hall app Hin) as (c & more & Hfiles & Hn & Hl & Hd & HF & Hns). exists c, init.
  split_and!; try done; [rewrite Hd; set_solver|rewrite Hd; set_solver|]. intros Hdeps. rewrite Hd. apply Forall_app. split; [|done].
  apply Forall_forall. intros b Hb. apply list_elem_of_In, in_map_iff in Hb as (dep & <- & Hdep).
  apply list_elem_of_In, Hdeps, list_elem_of_In, in_map_iff in Hdep as (dapp & <- & Hdapp). apply list_elem_of_In in Hdapp.
  destruct (Hall dapp Hdapp) as (dc & _ & (Hw & _) & Hdn & _). by exists [base; app_name dapp], dc.
Qed.

End Facts.

(** ** A package of two applications *)

Definition fleet_answer (e : feff) : fresp e :=
  match e with
  | FGenerateName => "x7k2p"
  | FProjects => Ok [mkRuntimeProject "p1" "retail" {[NexusOrgLabel := "acme"]}]
  | FSecret _ "registry" => Ok {["username" := "robot"; "password" := "pw"]}
  | FSecret _ _ => Ok {["values" := "image: %ImageRegistryURL%, pull: %GeneratedDockerCredential%, hook: %PreHookCredential%, org: %OrgName%"]}
  | FWrite _ _ _ => None
  end.

Definition fleet_env (e : feff) (w : unit) : fresp e * unit := (fleet_answer e, w).

Definition shop : Application :=
  mkApp "shop" "1.0" "shop-ns" ∅ [] "profile" "values" ["db"] false [mkIgnore "cfg" "ConfigMap" ""]
    (mkHelm "shop-chart" "1.0" "oci://registry" "" "https://harbor" "registry") ∅ false.
Definition db : Application := mkApp "db" "2.0" "db-ns" ∅ [] "" "" [] true [] (mkHelm "db-chart" "2.0" "https://repo" "" "" "") ∅ false.

Definition packaged : Deployment :=
  mkDeployment "deployment-7" "p1" "uid-7" {[AppOrchActiveProjectID := "p1"]} 3 "" 0 None []
    (mkSpec "shop" "" (mkDPRef "shop" "1.0" "" false [mkNs "shop-ns" ∅ ∅]) [shop; db] AutoScaling ∅ (mkNet "" "" ""))
    (mkStatus [] "" "" "" (mkSummary 0 0 0 0) false "" 0 ∅).

Definition sample_parse (s : string) : res ParsedURL :=
  Ok (mkURL (if has_prefix s "oci" then "oci" else "https") (if bool_decide (s = "") then "" else "harbor") "").

Definition fleet_sample : fp unit :=
  GenerateFleetConfigs (fun token => token +:+ "-uuid-0123456789") sample_parse (fun a b => a +:+ "/" +:+ b)
    (fun host user password => Ok (host +:+ user +:+ password)) (fun _ => None) packaged "/tmp/d".

Definition fleet_log : list fevent := (run_log fleet_env tt fleet_sample).2.

(** The names of the bundles of the run, and what they wait for. *)
Example fleet_bundles :
  omap (fun x => match projT1 x with FWrite _ _ (DocFleet c) => Some (fc_name c, fc_depends c) | _ => None end) fleet_log =
  [("shop-ns-x7k2p", []); ("pre-install-secret-b-shopdeployment-7", []);
   ("b-shopdeployment-7", ["b-db2.0deployment-"; "shop-ns-x7k2p"; "pre-install-secret-b-shopdeployment-7"]);
   ("shop-ns-x7k2p", []); ("b-db2.0deployment-", ["shop-ns-x7k2p"])].
Proof. vm_compute. reflexivity. Qed.

Example fleet_profile :
  omap (fun x => match projT1 x with FWrite _ "profile.yaml" (DocText s) => Some s | _ => None end) fleet_log =
  ["image: harbor, pull: b-shopdeployment-7, hook: %PreHookCredential%, org: acme"; ""].
Proof. vm_compute. reflexivity. Qed.

Lemma fleet_tree_closed_witness :
  (run_log fleet_env tt fleet_sample).1.1 = Done (Ok tt) /\
  exists c, written fleet_log ["/tmp/d"; "shop"] "fleet.yaml" (DocFleet c) /\ "b-db2.0deployment-" ∈ fc_depends c /\
    Forall (bundle fleet_log) (fc_depends c).
Proof.
  split; [vm_compute; reflexivity|].
  destruct (fleet_tree_closed (fun token => token +:+ "-uuid-0123456789") sample_parse (fun a b => a +:+ "/" +:+ b)
    (fun host user password => Ok (host +:+ user +:+ password)) (fun _ => None) packaged "/tmp/d" fleet_log shop
    (run_log_traces fleet_env fleet_sample tt) ltac:(by left))
    as (_ & _ & c & init & (Hw & _) & _ & _ & Hd & _ & HF).
  exists c. split; [exact Hw|]. split; [|apply HF; by apply (bool_decide_unpack _); vm_compute].
  apply Hd. left.
Defined.
