(* ===== verification/GitClient.v ===== *)
(** * [pkg/vault/manager.go] and [pkg/gitclient/gitclient.go]

    The secrets of the orchestrator, and the client of a deployment's Git
    repository. *)

From S2P Require Import Prelude Prog GoMonad GoStr Types Env.

(** ** Requests *)

(** A value of a secret of the vault. *)
Inductive kv_value : Type := KvString (s : string) | KvOther.

#[export] Instance kv_value_eq_dec : EqDecision kv_value.
Proof. solve_decision. Defined.

Inductive push_result : Type := Pushed | AlreadyUpToDate | PushFailed (e : gerror).

(** What a call of the Git server authenticates with. *)
Record Credentials : Type := mkCreds { cr_user : string; cr_password : string; cr_ca : string; cr_proxy : string }.

#[export] Instance Credentials_eq_dec : EqDecision Credentials.
Proof. solve_decision. Defined.

Inductive geff : Type :=
  | VNewClient (endpoint : string)
  | VKubernetesAuth (account : string)
  | VLogin                                             (* whether there is an authInfo *)
  | VGet (mount path : string)
  | VRevoke                                            (* RevokeSelfWithContext *)
  | GRemoteList (url : string) (c : Credentials)
  | GMkdir (dir : string)
  | GPlainInit (dir : string)
  | GCreateRemote (dir url : string)
  | GPlainClone (dir url : string) (c : Credentials)
  | GWorktree (dir : string)
  | GStatus (dir : string)                             (* the number of changed files *)
  | GAddAll (dir : string)
  | GCommit (dir msg : string)
  | GPush (dir : string) (c : Credentials)
  | GiteaNew (server user password ca : string)
  | GiteaDelete (user repo : string).

#[export] Instance geff_eq_dec : EqDecision geff.
Proof. solve_decision. Defined.

Definition gresp (e : geff) : Type :=
  match e with
  | VLogin => res bool
  | VGet _ _ => res (gmap string kv_value)
  | GStatus _ => res Z
  | GPush _ _ => push_result
  | _ => option gerror
  end.

Abbreviation gitp := (gp geff gresp).
Abbreviation gevent := (event geff gresp).
Abbreviation gcall e := (call (E:=geff) (R:=gresp) e).

Section Git.
Context (lookupenv : string -> option string).

(** ** [pkg/vault] *)

(** The fields of [manager]. *)
Record VaultManager : Type := mkVault { vm_endpoint : string; vm_account : string; vm_mount : string }.

Definition Logout : gitp unit :=
  map_err (fun e => mkErr KInternal ("failed to revoke token: " +:+ e_msg e)) (ecall (gcall VRevoke)).

Definition GetVaultClient (m : VaultManager) : gitp unit :=
  do! _ := ecall (gcall (VNewClient (vm_endpoint m))) in
  do! _ := ecall (gcall (VKubernetesAuth (vm_account m))) in
  do! authInfo := rcall (gcall VLogin) in
  if authInfo : bool then ok tt else fail (mkErr KInvalid "kubernetes authorization failed for Vault service").

Definition GetKVSecret (m : VaultManager) (path : string) : gitp (gmap string kv_value) :=
  rcall (gcall (VGet (vm_mount m) path)).

Definition GetSecretValueString (m : VaultManager) (path key : string) : gitp string :=
  do! kvSecret := GetKVSecret m path in
  match kvSecret !! key with
  | None => fail (mkErr KNotFound ("could not found value for key " +:+ key +:+ " in path " +:+ path))
  | Some (KvString v) => ok v
  | Some KvOther => fail (mkErr KInvalid ("value for key " +:+ key +:+ " in path " +:+ path +:+ " is not string"))
  end.

(** The deferred logout; its error is only logged. *)
Definition with_session {A : Type} (m : VaultManager) (p : gitp A) : gitp A :=
  do! _ := GetVaultClient m in with_defer (pbind Logout (fun _ => Ret tt)) p.

(** ** [pkg/gitclient] *)

(** The vault as the environment sets it up; [account] is [utils.GetServiceAccount]. *)
Context (account : string).

Definition vault : VaultManager := mkVault (GetSecretServiceEndpoint lookupenv) account (GetSecretServiceMount lookupenv).

(** [gc_repo] is the directory of the repository that was initialized or cloned. *)
Record GitClient : Type := mkGitClient {
  gc_server : string;
  gc_creds : Credentials;
  gc_name : string;
  gc_url : string;
  gc_repo : option string
}.

Definition getRemoteURL (server user repoName : string) : string := server +:+ "/" +:+ user +:+ "/" +:+ repoName +:+ ".git".

Definition new_client (server user password repoName gitProxy gitCaCert : string) : GitClient :=
  mkGitClient server (mkCreds user password gitCaCert gitProxy) repoName (getRemoteURL server user repoName) None.

Definition git_user : gitp string :=
  GetSecretValueString vault (GetSecretServiceGitServicePath lookupenv) (GetSecretServiceGitServiceKVKeyUsername lookupenv).

Definition git_password : gitp string :=
  GetSecretValueString vault (GetSecretServiceGitServicePath lookupenv) (GetSecretServiceGitServiceKVKeyPassword lookupenv).

Definition getGitClientWithSecretService (repoName server gitProxy gitCaCert : string) : gitp GitClient :=
  with_session vault (do! user := git_user in
                      do! password := git_password in
                      ok (new_client server user password repoName gitProxy gitCaCert)).

Definition getGitClientWithoutSecretService (repoName server gitProxy gitCaCert : string) : gitp GitClient :=
  do! user := done (GetGitUser lookupenv) in
  do! password := done (GetGitPassword lookupenv) in
  ok (new_client server user password repoName gitProxy gitCaCert).

Definition provider_required : gitp string :=
  map_err (fun _ => mkErr KUnavailable "GIT_PROVIDER env var not set") (done (GetGitProvider lookupenv)).

(** [gitCaCert] is what [utils.GetGitCaCert] holds. *)
Definition NewGitClient (gitCaCert repoName : string) : gitp GitClient :=
  do! server := done (GetGitServer lookupenv) in
  do! _ := provider_required in
  do! flag := done (IsSecretServiceEnabled lookupenv) in
  (if flag : bool then getGitClientWithSecretService else getGitClientWithoutSecretService)
    repoName server (GetGitProxy lookupenv) gitCaCert.

Definition getRemoteURLWithSecretService (repoName server : string) : gitp string :=
  with_session vault (do! user := git_user in ok (getRemoteURL server user repoName)).

Definition getRemoteURLWithoutSecretService (repoName server : string) : gitp string :=
  do! user := done (GetGitUser lookupenv) in ok (getRemoteURL server user repoName).

Definition GetRemoteURL (repoName : string) : gitp string :=
  do! server := done (GetGitServer lookupenv) in
  do! _ := provider_required in
  do! flag := done (IsSecretServiceEnabled lookupenv) in
  (if flag : bool then getRemoteURLWithSecretService else getRemoteURLWithoutSecretService) repoName server.

(** The URL Fleet is given; [hostname] is [url.Parse] and [Hostname]. *)
Definition fleet_url (hostname : string -> res string) (remoteType gitProvider remoteURL user deploymentID : string) : gitp string :=
  if bool_decide (remoteType = "ssh") then
    do! host := done (hostname remoteURL) in
    if bool_decide (gitProvider = "gitea") then ok ("git@" +:+ host +:+ ":" +:+ user +:+ "/" +:+ deploymentID +:+ ".git")
    else fail (mkErr KUnavailable "unsupported git provider type")
  else ok remoteURL.

Definition GetRemoteURLWithCreds (hostname : string -> res string) (deploymentID : string) : gitp string :=
  do! remoteURL := GetRemoteURL deploymentID in
  do! gitProvider := done (GetGitProvider lookupenv) in
  match lookupenv "FLEET_GIT_REMOTE_TYPE" with
  | None => fail (mkErr KUnavailable "FLEET_GIT_REMOTE_TYPE is not set")
  | Some remoteType =>
      do! secretServiceEnabled := done (IsSecretServiceEnabled lookupenv) in
      if secretServiceEnabled : bool then
        with_session vault (do! user := git_user in fleet_url hostname remoteType gitProvider remoteURL user deploymentID)
      else
        do! user := done (GetGitUser lookupenv) in
        fleet_url hostname remoteType gitProvider remoteURL user deploymentID
  end.

End Git.

(** ** [Repository] *)

(** A repository that asks for authentication counts as missing. *)
Definition ExistsOnRemote (g : GitClient) : gitp bool :=
  do! r := catch (ecall (gcall (GRemoteList (gc_url g) (gc_creds g)))) in
  match r with
  | Ok _ => ok true
  | Err e =>
      if contains (e_msg e) "repository not found" then ok false
      else if contains (e_msg e) "authentication required" then ok false
      else fail e
  end.

Definition opened (dir : string) (g : GitClient) : GitClient :=
  mkGitClient (gc_server g) (gc_creds g) (gc_name g) (gc_url g) (Some dir).

Definition already : gerror := mkErr KUnavailable "GitClient already initialized".
Definition not_yet : gerror := mkErr KUnavailable "git repo not yet initialized or cloned".

(** The client is changed only by a success. *)
Definition Initialize (g : GitClient) (basedir : string) : gitp GitClient :=
  if bool_decide (is_Some (gc_repo g)) then fail already
  else
    do! _ := ecall (gcall (GMkdir basedir)) in
    do! _ := ecall (gcall (GPlainInit basedir)) in
    do! _ := ecall (gcall (GCreateRemote basedir (gc_url g))) in
    ok (opened basedir g).

Definition Clone (g : GitClient) (basedir : string) : gitp GitClient :=
  if bool_decide (is_Some (gc_repo g)) then fail already
  else
    do! _ := ecall (gcall (GMkdir basedir)) in
    do! _ := ecall (gcall (GPlainClone basedir (gc_url g) (gc_creds g))) in
    ok (opened basedir g).

Definition CommitFiles (g : GitClient) : gitp unit :=
  match gc_repo g with
  | None => fail not_yet
  | Some dir =>
      do! _ := ecall (gcall (GWorktree dir)) in
      do! status := rcall (gcall (GStatus dir)) in
      if bool_decide (status = 0) then ok tt
      else
        do! _ := ecall (gcall (GAddAll dir)) in
        ecall (gcall (GCommit dir "Generated Fleet configs"))
  end.

Definition PushToRemote (g : GitClient) : gitp unit :=
  match gc_repo g with
  | None => fail not_yet
  | Some dir =>
      pbind (gcall (GPush dir (gc_creds g))) (fun r =>
      match r with
      | Pushed | AlreadyUpToDate => ok tt
      | PushFailed e => fail e
      end)
  end.

(** A CA bundle that cannot be read refuses the deletion: [ca_ok]. *)
Definition DeleteGitea (ca_ok : string -> bool) (g : GitClient) : gitp unit :=
  let ca := cr_ca (gc_creds g) in
  if negb (bool_decide (ca = "")) && negb (ca_ok ca) then fail (mkErr KInvalid "invalid ca bundle")
  else
    do! _ := ecall (gcall (GiteaNew (gc_server g) (cr_user (gc_creds g)) (cr_password (gc_creds g)) ca)) in
    ecall (gcall (GiteaDelete (cr_user (gc_creds g)) (gc_name g))).

Definition Delete (ca_ok : string -> bool) (g : GitClient) : gitp unit := DeleteGitea ca_ok g.

(** ** A client in use *)

Inductive git_op : Type := OpExists | OpInitialize (dir : string) | OpClone (dir : string) | OpCommit | OpPush | OpDelete.

(** One method call: the client afterwards, and the error. *)
Definition git_step (ca_ok : string -> bool) (g : GitClient) (op : git_op) : gitp GitClient :=
  let keep {A : Type} (p : gitp A) : gitp GitClient := do! _ := catch p in ok g in
  let change (p : gitp GitClient) : gitp GitClient :=
    do! r := catch p in ok (match r with Ok g' => g' | Err _ => g end) in
  match op with
  | OpExists => keep (ExistsOnRemote g)
  | OpInitialize dir => change (Initialize g dir)
  | OpClone dir => change (Clone g dir)
  | OpCommit => keep (CommitFiles g)
  | OpPush => keep (PushToRemote g)
  | OpDelete => keep (Delete ca_ok g)
  end.

Definition git_session (ca_ok : string -> bool) (g : GitClient) (ops : list git_op) : gitp GitClient :=
  nfold (git_step ca_ok) g ops.

(** ** Sessions of the vault and working copies *)

(** ** Sessions *)

(** The state of the session ([true] is open) after an event; [None] once a
    secret was read or a session closed without one being open, or a second one
    was opened. *)
Definition session_step (s : option bool) (x : gevent) : option bool :=
  match x with
  | existT VLogin (Ok true) => if s is Some false then Some true else None
  | existT (VGet _ _) _ => if s is Some true then Some true else None
  | existT VRevoke _ => if s is Some true then Some false else None
  | _ => s
  end.

Definition session_after (t : list gevent) (s : bool) : option bool := fold_left session_step t (Some s).

(** [p], run in the session state [s], keeps the rules and ends in a state
    that [Q] relates to its outcome. *)
Definition sess {A : Type} (s : bool) (p : gitp A) (Q : outcome A -> bool -> Prop) : Prop :=
  forall t o, traces p t o -> exists s', session_after t s = Some s' /\ Q o s'.

Abbreviation stays s := (fun _ s' => s' = s).

Lemma session_app t1 t2 s s1 : session_after t1 s = Some s1 -> session_after (t1 ++ t2) s = session_after t2 s1.
Proof. unfold session_after. rewrite fold_left_app. by intros ->. Qed.

Lemma sess_bind {A B : Type} s (p : gitp A) (f : outcome A -> gitp B) Q Q' :
  sess s p Q -> (forall o s1, Q o s1 -> sess s1 (f o) Q') -> sess s (pbind p f) Q'.
Proof.
  intros Hp Hf t o H. apply traces_bind in H as (t1 & t2 & o1 & -> & H1 & H2).
  destruct (Hp t1 o1 H1) as (s1 & Hs1 & HQ). rewrite (session_app t1 t2 s s1 Hs1). by apply (Hf o1 s1).
Qed.

Lemma sess_weaken {A : Type} s (p : gitp A) (Q Q' : outcome A -> bool -> Prop) :
  sess s p Q -> (forall o s', Q o s' -> Q' o s') -> sess s p Q'.
Proof. intros Hp HQ t o H. destruct (Hp t o H) as (s' & ? & ?). eauto. Qed.

Lemma sess_ret {A : Type} s (o : outcome A) (Q : outcome A -> bool -> Prop) : Q o s -> sess s (Ret o) Q.
Proof. intros HQ t o' [-> ->]. by exists s. Qed.

Lemma sess_nbind {A B : Type} s (p : gitp A) (f : A -> gitp B) :
  sess s p (stays s) -> (forall a, sess s (f a) (stays s)) -> sess s (nbind p f) (stays s).
Proof.
  intros Hp Hf. eapply sess_bind; [exact Hp|]. intros o s1 ->. destruct o as [[a|e]| |]; [apply Hf|by apply sess_ret..].
Qed.

Lemma sess_done {A : Type} s (r : res A) : sess s (done r) (stays s).
Proof. by apply sess_ret. Qed.

Lemma sess_map_err {A : Type} s g (p : gitp A) : sess s p (stays s) -> sess s (map_err g p) (stays s).
Proof. intros Hp. eapply sess_bind; [exact Hp|]. intros o s1 ->. by apply sess_ret. Qed.

(** A call with no part in a session. *)
Definition neutral (e : geff) : bool := match e with VLogin | VGet _ _ | VRevoke => false | _ => true end.

Lemma sess_call {A : Type} s e (k : gresp e -> gitp A) Q :
  neutral e = true -> (forall r, sess s (k r) Q) -> sess s (Vis e k) Q.
Proof. intros He Hk t o (r & t' & -> & H). destruct (Hk r t' o H) as (s' & Hs & HQ). exists s'. by destruct e. Qed.

Section Sessions.
Context (lookupenv : string -> option string) (account : string).

Lemma sess_GetVaultClient m :
  sess false (GetVaultClient m) (fun o s => s = match o with Done (Ok _) => true | _ => false end).
Proof.
  intros t o H. unfold GetVaultClient in H. nunfold H; try (eexists; done).
  all: repeat match goal with r : gresp _ |- _ => destruct r end; simplify_eq; eexists; done.
Qed.

(** The session is closed however the body ends. *)
Lemma sess_with_session {A : Type} m (p : gitp A) :
  sess true p (fun o s => s = true /\ o <> OutOfStack) -> sess false (with_session m p) (stays false).
Proof.
  intros Hp. unfold with_session, nbind. eapply sess_bind; [apply sess_GetVaultClient|].
  intros [[[]|e]| |] s ->; [|by apply sess_ret..]. unfold with_defer.
  eapply sess_bind; [exact Hp|]. intros o s [-> Ho].
  assert (sess true (pbind (pbind Logout (fun _ => Ret tt)) (fun _ => Ret o)) (stays false)).
  { intros t o' H. unfold Logout in H. nunfold H; by eexists. }
  by destruct o.
Qed.

Lemma sess_GetSecretValueString m path key :
  sess true (GetSecretValueString m path key) (fun o s => s = true /\ o <> OutOfStack).
Proof.
  unfold GetSecretValueString, GetKVSecret. intros t o (r & t' & -> & H). destruct r as [kv|e]; [|by destruct H as [-> ->]; eexists].
  cbn in H. destruct (kv !! key) as [[]|]; destruct H as [-> ->]; by eexists.
Qed.

Lemma sess_in {A B : Type} (p : gitp A) (f : A -> gitp B) :
  sess true p (fun o s => s = true /\ o <> OutOfStack) -> (forall a, sess true (f a) (fun o s => s = true /\ o <> OutOfStack)) ->
  sess true (nbind p f) (fun o s => s = true /\ o <> OutOfStack).
Proof.
  intros Hp Hf. eapply sess_bind; [exact Hp|]. intros o s1 [-> Ho]. destruct o as [[a|e]| |]; [apply Hf|by apply sess_ret..|done].
Qed.

Lemma sess_fleet_url hostname remoteType provider url user id s :
  sess s (fleet_url hostname remoteType provider url user id) (fun o s' => s' = s /\ o <> OutOfStack).
Proof.
  unfold fleet_url. case_bool_decide; [|by apply sess_ret]. destruct (hostname url); [|by apply sess_ret].
  cbn. case_bool_decide; by apply sess_ret.
Qed.

Lemma sess_GetRemoteURL repo : sess false (GetRemoteURL lookupenv account repo) (stays false).
Proof.
  unfold GetRemoteURL. apply sess_nbind; [apply sess_done|]. intros server.
  apply sess_nbind; [apply sess_map_err, sess_done|]. intros _. apply sess_nbind; [apply sess_done|]. intros [].
  - apply sess_with_session, sess_in; [apply sess_GetSecretValueString|]. intros user. by apply sess_ret.
  - apply sess_nbind; [apply sess_done|]. intros user. apply sess_done.
Qed.

(** C15: Whatever fails on the way, every session of the vault that the Git
    client opens is closed before the function returns, no secret is read
    outside a session, and no two are open at once. *)
Theorem sessions_closed (hostname : string -> res string) (ca repo : string) (t : list gevent) :
  (exists o, traces (NewGitClient lookupenv account ca repo) t o) \/
  (exists o, traces (GetRemoteURL lookupenv account repo) t o) \/
  (exists o, traces (GetRemoteURLWithCreds lookupenv account hostname repo) t o) ->
  session_after t false = Some false.
Proof.
  intros [[o H]|[[o H]|[o H]]].
  - enough (sess false (NewGitClient lookupenv account ca repo) (stays false)) as Hs by (by destruct (Hs t o H) as (s & ? & ->)).
    unfold NewGitClient. apply sess_nbind; [apply sess_done|]. intros server.
    apply sess_nbind; [apply sess_map_err, sess_done|]. intros _. apply sess_nbind; [apply sess_done|]. intros [].
    + apply sess_with_session, sess_in; [apply sess_GetSecretValueString|]. intros user.
      apply sess_in; [apply sess_GetSecretValueString|]. intros password. by apply sess_ret.
    + apply sess_nbind; [apply sess_done|]. intros user. apply sess_nbind; [apply sess_done|]. intros password. apply sess_done.
  - by destruct (sess_GetRemoteURL repo t o H) as (s & ? & ->).
  - enough (sess false (GetRemoteURLWithCreds lookupenv account hostname repo) (stays false)) as Hs by (by destruct (Hs t o H) as (s & ? & ->)).
    unfold GetRemoteURLWithCreds. apply sess_nbind; [apply sess_GetRemoteURL|]. intros url.
    apply sess_nbind; [apply sess_done|]. intros provider. destruct (lookupenv "FLEET_GIT_REMOTE_TYPE"); [|apply sess_done].
    apply sess_nbind; [apply sess_done|]. intros [].
    + apply sess_with_session, sess_in; [apply sess_GetSecretValueString|]. intros user. apply sess_fleet_url.
    + apply sess_nbind; [apply sess_done|]. intros user. eapply sess_weaken; [apply sess_fleet_url|]. by intros ? ? [-> _].
Qed.

End Sessions.

(** ** Working copies *)

(** The working copy a request reads or changes. *)
Definition works_on (e : geff) : option string :=
  match e with
  | GWorktree dir | GStatus dir | GAddAll dir | GCommit dir _ | GPush dir _ => Some dir
  | _ => None
  end.

(** An event that leaves a usable working copy behind. *)
Definition opens (x : gevent) : option string :=
  match x with
  | existT (GCreateRemote dir _) None | existT (GPlainClone dir _ _) None => Some dir
  | _ => None
  end.

(** What one method call does: the copies it opens and works on. *)
Lemma git_step_trace ca_ok g op t g' :
  traces (git_step ca_ok g op) t (Done (Ok g')) ->
  gc_creds g' = gc_creds g /\ gc_url g' = gc_url g /\
  ((gc_repo g' = gc_repo g /\ omap opens t = []) \/ (gc_repo g = None /\ exists dir, gc_repo g' = Some dir /\ omap opens t = [dir])) /\
  Forall (fun x => forall dir, works_on (projT1 x) = Some dir -> gc_repo g = Some dir) t.
Proof.
  unfold git_step. destruct op as [|dir|dir| | |].
  all: unfold ExistsOnRemote, Initialize, Clone, CommitFiles, PushToRemote, Delete, DeleteGitea; intros Ht; repeat case_match; nunfold Ht; simplify_eq.
  all: try (split_and!; [done|done|by left|repeat constructor; cbn; congruence]).
  all: repeat match goal with r : gresp _ |- _ => destruct r end; simplify_eq.
  all: destruct (gc_repo g) as [d|] eqn:Hg; [done|].
  all: split_and!; [done|done|first [by left|by right; split; [|eexists]]|repeat constructor; cbn; congruence].
Qed.

(** A client has one working copy.  However its methods are called and
    whatever fails, it is initialized or cloned successfully at most once, every
    status, commit and push is of that one copy and comes after it was opened,
    and the remote and the credentials stay the client's own. *)
Theorem one_working_copy (ca_ok : string -> bool) (g : GitClient) (ops : list git_op) (t : list gevent) (g' : GitClient) :
  gc_repo g = None -> traces (git_session ca_ok g ops) t (Done (Ok g')) ->
  gc_creds g' = gc_creds g /\ gc_url g' = gc_url g /\
  omap opens t = option_list (gc_repo g') /\
  forall t1 x t2 dir, t = t1 ++ x :: t2 -> works_on (projT1 x) = Some dir ->
    gc_repo g' = Some dir /\ omap opens t1 = [dir].
Proof.
  intros Hg H.
  enough (gc_creds g' = gc_creds g /\ gc_url g' = gc_url g /\
    (forall dir, gc_repo g = Some dir -> gc_repo g' = Some dir) /\
    option_list (gc_repo g) ++ omap opens t = option_list (gc_repo g') /\
    forall t1 x t2 dir, t = t1 ++ x :: t2 -> works_on (projT1 x) = Some dir ->
      gc_repo g' = Some dir /\ option_list (gc_repo g) ++ omap opens t1 = [dir]) as (H1 & H2 & _ & H3 & H4) by (by rewrite Hg in *).
  clear Hg. revert g t H. unfold git_session. induction ops as [|op ops IH]; cbn [nfold]; intros g t H.
  - destruct H as [-> H]. injection H as ->. split_and!; try done; [by rewrite app_nil_r|]. intros t1 x t2 dir Ht. by destruct t1.
  - apply nbind_ok in H as (ta & tb & g1 & -> & Ha & Hb). destruct (IH g1 tb Hb) as (Hc & Hu & Hk & Ho & Hw).
    apply git_step_trace in Ha as (Hc1 & Hu1 & Hopen & HF).
    assert (option_list (gc_repo g) ++ omap opens ta = option_list (gc_repo g1)) as Hoa.
    { destruct Hopen as [[-> ->]|(Hn & dir & -> & ->)]; [by rewrite app_nil_r|by rewrite Hn]. }
    assert (forall dir, gc_repo g = Some dir -> gc_repo g1 = Some dir /\ omap opens ta = []) as Hk1.
    { intros dir Hd. destruct Hopen as [[-> ?]|(Hn & _)]; [done|congruence]. }
    split; [congruence|]. split; [congruence|]. split; [intros dir Hd; apply Hk; by apply Hk1|].
    split; [by rewrite omap_app, app_assoc, Hoa|]. intros t1 x t2 dir Ht Hx.
    apply app_eq_inv in Ht as [([|y k] & Hta & Htb)|(k & -> & ->)].
    + rewrite app_nil_r in Hta. cbn in Htb. subst ta. destruct (Hw [] x t2 dir (eq_sym Htb) Hx) as [Hd Hl]. split; [done|].
      rewrite Hoa. by rewrite app_nil_r in Hl.
    + injection Htb as <- ->. subst ta. rewrite Forall_forall in HF. assert (gc_repo g = Some dir) as Hd by (apply (HF x); [set_solver|done]).
      destruct (Hk1 dir Hd) as [Hd1 Hnil]. split; [by apply Hk|]. rewrite omap_app in Hnil. apply app_eq_nil in Hnil as [-> _]. by rewrite Hd.
    + destruct (Hw k x t2 dir eq_refl Hx) as [Hd Hl]. split; [done|]. by rewrite omap_app, app_assoc, Hoa.
Qed.

(** ** A client in use *)

Definition git_sample_env : list (string * string) :=
  [("GIT_SERVER", "https://gitea"); ("GIT_PROVIDER", "gitea"); ("SECRET_SERVICE_ENABLED", "true");
   ("FLEET_GIT_REMOTE_TYPE", "ssh")].

Definition git_lookupenv (key : string) : option string :=
  snd <$> find_first (fun kv => bool_decide (kv.1 = key)) git_sample_env.

(** A vault that has the user name but not the password, and a Git server
    whose first push fails. *)
Definition git_answer (e : geff) (pushes : nat) : gresp e * nat :=
  match e with
  | VLogin => (Ok true, pushes)
  | VGet _ _ => (Ok {[GetSecretServiceGitServiceKVKeyUsername git_lookupenv := KvString "robot"]}, pushes)
  | GStatus _ => (Ok 2, pushes)
  | GPush _ _ => (if decide (pushes = 0%nat) then PushFailed (mkErr KUnavailable "remote hung up") else Pushed, S pushes)
  | _ => (None, pushes)
  end.

Definition git_host (url : string) : res string := Ok "gitea".

Definition git_url_run : outcome string * list gevent :=
  let r := run_log git_answer 0%nat (GetRemoteURLWithCreds git_lookupenv "account" git_host "d-7") in (r.1.1, r.2).

Lemma sessions_closed_witness :
  git_url_run.1 = Done (Ok "git@gitea:robot/d-7.git") /\
  length (filter (fun x => x.1 = VRevoke) (map (fun x => (projT1 x, tt)) git_url_run.2)) = 2%nat /\
  session_after git_url_run.2 false = Some false.
Proof.
  split; [vm_compute; reflexivity|]. split; [vm_compute; reflexivity|].
  apply (sessions_closed git_lookupenv "account" git_host "" "d-7"). right; right. eexists.
  exact (run_log_traces git_answer (GetRemoteURLWithCreds git_lookupenv "account" git_host "d-7") 0%nat).
Defined.

(** Without the password there is no client; the session is closed all the same. *)
Example no_password :
  let r := run_log git_answer 0%nat (NewGitClient git_lookupenv "account" "" "d-7") in
  (exists e, r.1.1 = Done (Err e)) /\ projT1 <$> last r.2 = Some VRevoke.
Proof. split; [eexists|]; vm_compute; reflexivity. Qed.

Definition git_fresh : GitClient := new_client "https://gitea" "robot" "pw" "d-7" "" "".
Definition git_ops : list git_op := [OpPush; OpInitialize "/tmp/d"; OpClone "/tmp/e"; OpCommit; OpPush; OpPush].

Definition git_run : outcome GitClient * list gevent :=
  let r := run_log git_answer 0%nat (git_session (fun _ => true) git_fresh git_ops) in (r.1.1, r.2).

Lemma one_working_copy_witness :
  git_run.1 = Done (Ok (opened "/tmp/d" git_fresh)) /\ omap opens git_run.2 = ["/tmp/d"] /\
  omap (fun x => works_on (projT1 x)) git_run.2 = replicate 6 "/tmp/d".
Proof.
  split; [vm_compute; reflexivity|]. split; [|vm_compute; reflexivity].
  exact (proj1 (proj2 (proj2 (one_working_copy (fun _ => true) git_fresh git_ops git_run.2 (opened "/tmp/d" git_fresh)
    eq_refl (run_log_traces git_answer (git_session (fun _ => true) git_fresh git_ops) 0%nat))))).
Defined.
