(* ===== verification/Gateway.v ===== *)
(** * The REST gateways: what both of them share

    A gateway turns an HTTP request into a call of a gRPC method.  The generated
    files (api/nbi/v2/.../*.pb.gw.go) register, for every method, patterns of
    paths and a function that builds the request message from the path, the
    query and the body; internal/restproxy sets the gateway up.  The grpc-gateway
    runtime is a third party: its multiplexer and converters are the class [GatewayRuntime], with
    the laws its documentation gives. *)

From Stdlib Require Import Ascii.
From S2P Require Import Prelude GoStr Split Types Prog GoMonad AspServer.

(** ** HTTP requests *)

(** [h_form] is what [req.ParseForm] finds in the query and the body, and
    [h_body] what reading the body to its end gives. *)
Record http_request : Type := mkHttp {
  h_method : string;
  h_path : string;
  h_header : Header;
  h_form : res (gmap string (list string));
  h_body : res string
}.

Definition with_path (path : string) (r : http_request) : http_request :=
  mkHttp (h_method r) path (h_header r) (h_form r) (h_body r).

(** A path of segments. *)
Fixpoint path_of (l : list string) : string :=
  match l with [] => "" | c :: l' => "/" +:+ c +:+ path_of l' end.

(** A segment.  The multiplexer splits paths at slashes and takes the segments as they
    are: in its default mode nothing is unescaped after net/http has done so,
    and a verb is looked for in patterns that have one only. *)
Definition plain (c : string) : Prop := "/"%char ∉ to_list c.

(** A POST of a form may be taken for another method: the one that its header
    X-HTTP-Method-Override names, or GET if there is a handler for that alone. *)
Definition form_post (m : string) (h : Header) : bool :=
  bool_decide (m = "POST") && bool_decide (Header_Get h "Content-Type" = "application/x-www-form-urlencoded").

(** ** Patterns *)

(** [runtime.NewPattern(1, ops, pool, verb)], the verb empty. *)
Record pattern : Type := mkPattern { p_ops : list nat; p_pool : list string }.

Inductive segment : Type :=
  | Lit (text : string)
  | Var (name : string).

(** What the operations mean (utilities.OpCode): [2, i] takes a segment equal to
    the pool's i-th string; [1, 0] takes any segment, [4, 1] joins the one on the
    stack, and [5, i] binds it to the i-th name. *)
Fixpoint decode (ops : list nat) (pool : list string) : option (list segment) :=
  match ops with
  | [] => Some []
  | 2%nat :: i :: ops => match pool !! i, decode ops pool with Some s, Some l => Some (Lit s :: l) | _, _ => None end
  | 1%nat :: 0%nat :: 4%nat :: 1%nat :: 5%nat :: i :: ops =>
      match pool !! i, decode ops pool with Some s, Some l => Some (Var s :: l) | _, _ => None end
  | _ => None
  end.

Definition segments (p : pattern) : option (list segment) := decode (p_ops p) (p_pool p).

(** The variables of a path that has the pattern. *)
Fixpoint bind (segs : list segment) (comps : list string) : option (gmap string string) :=
  match segs, comps with
  | [], [] => Some ∅
  | Lit s :: segs, c :: comps => if bool_decide (s = c) then bind segs comps else None
  | Var n :: segs, c :: comps => option_map (insert n c) (bind segs comps)
  | _, _ => None
  end.

(** The runtime.  [serve_mux] is [runtime.ServeMux]: handlers registered for methods and patterns, and the
    one that a request is given to, with its variables.  Which of several that
    match is not said.  [runtime_String] is [runtime.String]. *)
Class GatewayRuntime : Type := {
  serve_mux : forall {B : Type}, list (string * pattern * B) -> Header -> string -> string -> option (B * gmap string string);
  serve_hit : forall B (hs : list (string * pattern * B)) h m comps b params,
    Forall plain comps -> comps <> [] ->
    serve_mux hs h m (path_of comps) = Some (b, params) ->
    exists m' p segs, (m', p, b) ∈ hs /\ segments p = Some segs /\ bind segs comps = Some params /\
      (form_post m h = false -> m' = m);
  serve_miss : forall B (hs : list (string * pattern * B)) h m comps,
    form_post m h = false -> Forall plain comps -> comps <> [] ->
    serve_mux hs h m (path_of comps) = None ->
    forall p b segs, (m, p, b) ∈ hs -> segments p = Some segs -> bind segs comps = None;
  runtime_String : string -> res string;
  runtime_String_id : forall val, runtime_String val = Ok val
}.

(** ** Building a message *)

(** [status.Errorf(codes.InvalidArgument, ...)] *)
Definition invalid_argument (msg : string) : gerror := mkErr KInvalid msg.

(** A parameter of the path. *)
Definition path_param {rt : GatewayRuntime} (params : gmap string string) (name : string) : res string :=
  match params !! name with
  | None => Err (invalid_argument ("missing parameter " +:+ name))
  | Some val =>
      match runtime_String val with
      | Err e => Err (invalid_argument ("type mismatch, parameter: " +:+ name +:+ ", error: " +:+ e_msg e))
      | Ok v => Ok v
      end
  end.

Section Message.
Context {M : Type}.
(** [runtime.PopulateQueryParameters(&protoReq, form, filter)]: sets the fields
    the form names, those of [filter] excepted. *)
Context (PopulateQueryParameters : M -> gmap string (list string) -> list string -> res M).

Definition query_params (req : http_request) (m : M) (filter : list string) : res M :=
  match h_form req with
  | Err e => Err (invalid_argument (e_msg e))
  | Ok form =>
      match PopulateQueryParameters m form filter with
      | Err e => Err (invalid_argument (e_msg e))
      | Ok m => Ok m
      end
  end.
End Message.

(** [marshaler.NewDecoder(newReader()).Decode(&field)] of the body.  An empty
    one, [None], leaves the field as it is. *)
Definition body_field {A : Type} (decode_body : string -> res (option A)) (req : http_request) (unset : A) : res A :=
  match h_body req with
  | Err berr => Err (invalid_argument (e_msg berr))
  | Ok text =>
      match decode_body text with
      | Err e => Err (invalid_argument (e_msg e))
      | Ok None => Ok unset
      | Ok (Some a) => Ok a
      end
  end.

(** ** The set-up in internal/restproxy *)

Definition ActiveProjectID : string := "Activeprojectid".  (* in canonical form *)

Definition allowedHeaders : list string := ["x-request-id"].

Definition upper (c : ascii) : ascii :=
  let n := nat_of_ascii c in if Nat.leb 97 n && Nat.leb n 122 then ascii_of_nat (n - 32) else c.

(** [strings.ToUpper] of ASCII text. *)
Definition ToUpper (s : string) : string := of_list (map upper (to_list s)).

Definition isHeaderAllowed (s : string) : string * bool :=
  if bool_decide (s ∈ allowedHeaders) then (ToUpper s, true) else (s, false).

(** The origins that the CORS middleware is set up with. *)
Definition cors_origins (allowedCorsOrigins : string) : option (list string) :=
  let corsOrigins := split allowedCorsOrigins "," in
  if (1 <? Z.of_nat (length corsOrigins))%Z then Some corsOrigins else None.

(** A handler: the method, the pattern, and the function that builds the message
    and calls the client with it.  The generated function of a handler makes the
    context, calls that function and writes its reply or its error. *)
Record binding (A : Type) : Type := mkBinding {
  b_method : string;
  b_pattern : pattern;
  b_request : context -> http_request -> gmap string string -> A
}.
Arguments mkBinding {A}.
Arguments b_method {A}.
Arguments b_pattern {A}.
Arguments b_request {A}.

Section Serve.
Context {E : Type} {R : E -> Type} {A : Type} {rt : GatewayRuntime}.
(** [projectcontext.ResolveAndValidateProjectID] of the path, the authorization
    and the project of the headers. *)
Context (ResolveAndValidateProjectID : string -> string -> string -> res string).
(** [runtime.AnnotateContext]: the metadata of the headers and the pairs of the
    option [WithMetadata]; the name of the method and the pattern's template go
    where nothing here reads them. *)
Context (AnnotateContext : Header -> gmap string (list string) -> res (gmap string (list string))).
(** [ginmiddleware.HandleRoutingError]: 404, or 405 when another method is served. *)
Context (HandleRoutingError : string -> string -> gerror).

(** The function given to [runtime.WithMetadata]. *)
Definition project_metadata (req : http_request) : gmap string (list string) :=
  let authHeader := Header_Get (h_header req) "Authorization" in
  let projectIDHeader := Header_Get (h_header req) ActiveProjectID in
  let projectIDHeader :=
    match ResolveAndValidateProjectID (h_path req) authHeader projectIDHeader with
    | Err _ => projectIDHeader
    | Ok projectUUID => if bool_decide (projectUUID = "") then projectIDHeader else projectUUID
    end in
  {["auth" := [authHeader]; "activeprojectid" := [projectIDHeader]]}.

Definition handlers (bs : list (binding (gp E R A))) : list (string * pattern * (context -> http_request -> gmap string string -> gp E R A)) :=
  map (fun b => (b_method b, b_pattern b, b_request b)) bs.

Definition gateway (bs : list (binding (gp E R A))) (req : http_request) : gp E R A :=
  match serve_mux (handlers bs) (h_header req) (h_method req) (h_path req) with
  | None => fail (HandleRoutingError (h_method req) (h_path req))
  | Some (request, params) =>
      do! md := done (AnnotateContext (h_header req) (project_metadata req)) in
      request (Some md) req params
  end.
End Serve.

(** ** Lemmas *)

(** Every path that begins with a slash is one of segments. *)
Lemma path_segments path : has_prefix path "/" = true -> exists comps, path = path_of comps /\ Forall plain comps /\ comps <> [].
Proof.
  intros [t ->]%has_prefix_spec. exists (split t "/"). split; [|split; [apply split_free|apply split_not_nil]].
  rewrite <- (join_split "/" t) at 1. pose proof (split_not_nil t "/") as Hn.
  induction (split t "/") as [|x l IH]; [done|]. destruct l as [|y l]; [cbn; by rewrite !sapp_nil_r|].
  change (join (x :: y :: l) "/") with (x +:+ String "/" (join (y :: l) "/")).
  cbn [path_of] in *. change (String "/" (join (y :: l) "/")) with ("/" +:+ join (y :: l) "/"). by rewrite IH.
Qed.

(** A request is given to a handler that matches, if there is one; only a form
    may be given to one for another method. *)
Lemma gateway_cases {E : Type} {R : E -> Type} {A : Type} {rt : GatewayRuntime} resolve annotate routing_error
    (bs : list (binding (gp E R A))) req comps :
  h_path req = path_of comps -> Forall plain comps -> comps <> [] ->
  (exists b segs params, b ∈ bs /\ segments (b_pattern b) = Some segs /\ bind segs comps = Some params /\
     (form_post (h_method req) (h_header req) = false -> b_method b = h_method req) /\
     gateway resolve annotate routing_error bs req =
       (do! md := done (annotate (h_header req) (project_metadata resolve req)) in b_request b (Some md) req params)) \/
  ((form_post (h_method req) (h_header req) = false ->
    forall b segs, b ∈ bs -> b_method b = h_method req -> segments (b_pattern b) = Some segs -> bind segs comps = None) /\
   gateway resolve annotate routing_error bs req = fail (routing_error (h_method req) (h_path req))).
Proof.
  intros Hpath Hplain Hne. unfold gateway. rewrite Hpath. destruct (serve_mux _ _ _ _) as [[request params]|] eqn:Hmux.
  - left. apply serve_hit in Hmux as (m & p & segs & (b & [= -> -> ->] & Hin)%list_elem_of_fmap & Hsegs & Hbind & Hm); [|done..].
    by exists b, segs, params.
  - right. split; [|done]. intros Hpost b segs Hin Hm Hsegs. refine (serve_miss _ _ _ _ _ Hpost Hplain Hne Hmux _ (b_request b) _ _ Hsegs).
    apply list_elem_of_fmap. exists b. by rewrite <- Hm.
Qed.

(** *** Variables *)

Lemma path_param_insert {rt : GatewayRuntime} params n v : path_param (<[n := v]> params) n = Ok v.
Proof. unfold path_param. by rewrite lookup_insert_eq, runtime_String_id. Qed.

Lemma path_param_other {rt : GatewayRuntime} params n n' v : n' <> n -> path_param (<[n' := v]> params) n = path_param params n.
Proof. intros H. unfold path_param. by rewrite lookup_insert_ne. Qed.

Lemma bind_lit s segs c comps params : bind (Lit s :: segs) (c :: comps) = Some params -> c = s /\ bind segs comps = Some params.
Proof. cbn. case_bool_decide; [|done]. by subst. Qed.

Lemma bind_var n segs c comps params :
  bind (Var n :: segs) (c :: comps) = Some params -> exists m, bind segs comps = Some m /\ params = <[n := c]> m.
Proof. cbn. destruct (bind segs comps) as [m|]; [|done]. intros [= <-]. by exists m. Qed.

(** The segments of a path with a pattern, one after the other. *)
Ltac binds H :=
  repeat match type of H with
  | bind [] ?comps = _ => destruct comps; [injection H as <-|discriminate H]
  | bind (Lit _ :: _) ?comps = _ => destruct comps as [|? ?]; [discriminate H|apply bind_lit in H as [-> H]]
  | bind (Var _ :: _) ?comps = _ =>
      destruct comps as [|? ?]; [discriminate H|apply bind_var in H as (? & H & ->)]
  end.

Lemma bind_more_lit s segs comps : bind segs comps <> None -> bind (Lit s :: segs) (s :: comps) <> None.
Proof. cbn. by rewrite bool_decide_true. Qed.

Lemma bind_more_var n c segs comps : bind segs comps <> None -> bind (Var n :: segs) (c :: comps) <> None.
Proof. cbn. by destruct (bind segs comps). Qed.

(** *** A runtime with the laws: the first handler that matches *)

Lemma split_path comps : Forall plain comps -> comps <> [] -> split (path_of comps) "/" = "" :: comps.
Proof.
  intros Hp Hne. destruct comps as [|c comps]; [done|]. clear Hne. cbn [path_of].
  change ("/" +:+ ?s) with (String "/" s). rewrite (split_sep "/"). f_equal. revert c Hp.
  induction comps as [|c' comps IH]; intros c [Hc Hp]%Forall_cons.
  - cbn [path_of]. rewrite sapp_nil_r. apply split_whole, Hc.
  - cbn [path_of]. change ("/" +:+ ?s) with (String "/" s). rewrite (split_prefix "/") by apply Hc.
    f_equal. by apply IH.
Qed.

Definition match_path (comps : list string) (p : pattern) : option (gmap string string) :=
  match segments p with Some segs => bind segs comps | None => None end.

Fixpoint first_match {B : Type} (m : string) (comps : list string) (hs : list (string * pattern * B)) : option (B * gmap string string) :=
  match hs with
  | [] => None
  | (m', p, b) :: hs =>
      match (if bool_decide (m' = m) then match_path comps p else None) with
      | Some params => Some (b, params)
      | None => first_match m comps hs
      end
  end.

Lemma first_match_hit {B : Type} m comps (hs : list (string * pattern * B)) b params :
  first_match m comps hs = Some (b, params) ->
  exists p segs, (m, p, b) ∈ hs /\ segments p = Some segs /\ bind segs comps = Some params.
Proof.
  induction hs as [|[[m' p] b'] hs IH]; cbn; [done|]. case_bool_decide as Hm.
  - unfold match_path. destruct (segments p) as [segs|] eqn:Hs; [destruct (bind segs comps) eqn:Hb|];
      [intros [= -> ->]; exists p, segs; subst; split; [left|done]| |];
      intros (q & segs' & Hin & H)%IH; exists q, segs'; (split; [by right|done]).
  - intros (q & segs' & Hin & H)%IH. exists q, segs'. split; [by right|done].
Qed.

Lemma first_match_miss {B : Type} m comps (hs : list (string * pattern * B)) p b segs :
  first_match m comps hs = None -> (m, p, b) ∈ hs -> segments p = Some segs -> bind segs comps = None.
Proof.
  induction hs as [|[[m' p'] b'] hs IH]; cbn; intros Hf Hin Hs; [by apply elem_of_nil in Hin|].
  apply elem_of_cons in Hin as [[= <- <- <-]|Hin].
  - rewrite bool_decide_true in Hf by done. unfold match_path in Hf. rewrite Hs in Hf. by destruct (bind segs comps).
  - apply IH; [|done..]. by destruct (if bool_decide (m' = m) then _ else _).
Qed.

#[program]
Definition first_runtime : GatewayRuntime := {|
  serve_mux := fun B hs _ m path => first_match m (tail (split path "/")) hs;
  runtime_String := Ok
|}.
Next Obligation.
  cbn. intros B hs h m comps b params Hp Hne. rewrite split_path by done.
  intros (p & segs & Hin & Hs & Hb)%first_match_hit. by exists m, p, segs.
Qed.
Next Obligation. cbn. intros B hs h m comps _ Hp Hne. rewrite split_path by done. intros ????. by eapply first_match_miss. Qed.
Next Obligation. done. Qed.
