(* ===== verification/ArmRest.v ===== *)
(** * The REST gateway of the App Resource Manager

    internal/restproxy/rest-proxy.go with the generated gateways of the four
    services (api/nbi/v2/resource/v2/*.pb.gw.go).  The API has three spellings of
    a path: the canonical one, the one the UI uses, and the one without a
    project of earlier versions.  The proxy rewrites the UI's to the canonical
    one; the gateways know all three. *)

From Stdlib Require Import Ascii.
From S2P Require Import Prelude GoStr Split Types Prog GoMonad NbEff AspServer ArmEff ArmKube ArmVirt ArmFacts Regex Gateway.

(** ** The UI's paths *)

Definition not_slash (c : ascii) : bool := negb (bool_decide (c = "/"%char)).

(** [[^/]+] *)
Definition RSegment : regex := RPlus (RClass not_slash).

Fixpoint rseq (l : list regex) : regex := match l with [] => REmpty | [r] => r | r :: l' => RSeq r (rseq l') end.

Fixpoint ralt (l : list string) : regex := match l with [] => REmpty | [x] => rlit x | x :: l' => RAlt (rlit x) (ralt l') end.

Definition reArmVMUI : regex :=
  rseq [RGroup (rseq [rlit "/v1/projects/"; RSegment; rlit "/resource/workloads"]);
        rlit "/applications/"; RGroup RSegment; rlit "/clusters/"; RGroup RSegment;
        rlit "/virtual-machines/"; RGroup RSegment; rlit "/";
        RGroup (ralt ["start"; "stop"; "restart"; "vnc"])].

Definition reArmWorkloadEndpointUI : regex :=
  rseq [RGroup (rseq [rlit "/v1/projects/"; RSegment; rlit "/resource/"; ralt ["workloads"; "endpoints"]]);
        rlit "/applications/"; RGroup RSegment; rlit "/clusters/"; RGroup RSegment].

Definition reArmPodUI : regex :=
  rseq [RGroup (rseq [rlit "/v1/projects/"; RSegment; rlit "/resource/workloads/pods"]);
        rlit "/clusters/"; RGroup RSegment; rlit "/namespaces/"; RGroup RSegment;
        rlit "/pods/"; RGroup RSegment; rlit "/delete"].

(** The path the middleware leaves in the request. *)
Definition armUIPathRewriter (path : string) : string :=
  match FindStringSubmatch reArmVMUI path with
  | Some [m1; m2; m3; m4; m5] => m1 +:+ "/virtual-machines/" +:+ m2 +:+ "/" +:+ m3 +:+ "/" +:+ m4 +:+ "/" +:+ m5
  | _ =>
  match FindStringSubmatch reArmWorkloadEndpointUI path with
  | Some [m1; m2; m3] => m1 +:+ "/" +:+ m2 +:+ "/" +:+ m3
  | _ =>
  match FindStringSubmatch reArmPodUI path with
  | Some [m1; m2; m3; m4] => m1 +:+ "/" +:+ m2 +:+ "/" +:+ m3 +:+ "/" +:+ m4 +:+ "/delete"
  | _ => path
  end end end.

(** ** The gateways *)

(** A request message: [ProjectName] and the rest. *)
Definition arm_msg : Type := string * arpc.

Definition pattern_ListAppEndpoints_0 : pattern := mkPattern
  [2; 0; 2; 1; 1; 0; 4; 1; 5; 2; 2; 3; 2; 4; 1; 0; 4; 1; 5; 5; 1; 0; 4; 1; 5; 6]%nat
  ["v1"; "projects"; "projectName"; "resource"; "endpoints"; "app_id"; "cluster_id"].
Definition pattern_ListAppEndpoints_1 : pattern := mkPattern
  [2; 0; 2; 1; 2; 2; 1; 0; 4; 1; 5; 3; 1; 0; 4; 1; 5; 4]%nat
  ["resource.orchestrator.apis"; "v2"; "endpoints"; "app_id"; "cluster_id"].
Definition pattern_ListAppEndpoints_2 : pattern := mkPattern
  [2; 0; 2; 1; 1; 0; 4; 1; 5; 2; 2; 3; 2; 4; 2; 5; 1; 0; 4; 1; 5; 6; 2; 7; 1; 0; 4; 1; 5; 8]%nat
  ["v1"; "projects"; "projectName"; "resource"; "endpoints"; "applications"; "app_id"; "clusters"; "cluster_id"].
Definition pattern_ListAppWorkloads_0 : pattern := mkPattern
  [2; 0; 2; 1; 1; 0; 4; 1; 5; 2; 2; 3; 2; 4; 1; 0; 4; 1; 5; 5; 1; 0; 4; 1; 5; 6]%nat
  ["v1"; "projects"; "projectName"; "resource"; "workloads"; "app_id"; "cluster_id"].
Definition pattern_ListAppWorkloads_1 : pattern := mkPattern
  [2; 0; 2; 1; 2; 2; 1; 0; 4; 1; 5; 3; 1; 0; 4; 1; 5; 4]%nat
  ["resource.orchestrator.apis"; "v2"; "workloads"; "app_id"; "cluster_id"].
Definition pattern_ListAppWorkloads_2 : pattern := mkPattern
  [2; 0; 2; 1; 1; 0; 4; 1; 5; 2; 2; 3; 2; 4; 2; 5; 1; 0; 4; 1; 5; 6; 2; 7; 1; 0; 4; 1; 5; 8]%nat
  ["v1"; "projects"; "projectName"; "resource"; "workloads"; "applications"; "app_id"; "clusters"; "cluster_id"].
Definition pattern_DeletePod_0 : pattern := mkPattern
  [2; 0; 2; 1; 1; 0; 4; 1; 5; 2; 2; 3; 2; 4; 2; 5; 1; 0; 4; 1; 5; 6; 1; 0; 4; 1; 5; 7; 1; 0; 4; 1; 5; 8; 2; 9]%nat
  ["v1"; "projects"; "projectName"; "resource"; "workloads"; "pods"; "cluster_id"; "namespace"; "pod_name"; "delete"].
Definition pattern_DeletePod_1 : pattern := mkPattern
  [2; 0; 2; 1; 2; 2; 2; 3; 1; 0; 4; 1; 5; 4; 1; 0; 4; 1; 5; 5; 1; 0; 4; 1; 5; 6; 2; 7]%nat
  ["resource.orchestrator.apis"; "v2"; "workloads"; "pods"; "cluster_id"; "namespace"; "pod_name"; "delete"].
Definition pattern_DeletePod_2 : pattern := mkPattern
  [2; 0; 2; 1; 1; 0; 4; 1; 5; 2; 2; 3; 2; 4; 2; 5; 2; 6; 1; 0; 4; 1; 5; 7; 2; 8; 1; 0; 4; 1; 5; 9; 2; 5; 1; 0; 4; 1; 5; 10; 2; 11]%nat
  ["v1"; "projects"; "projectName"; "resource"; "workloads"; "pods"; "clusters"; "cluster_id"; "namespaces"; "namespace"; "pod_name"; "delete"].
Definition pattern_StartVirtualMachine_0 : pattern := mkPattern
  [2; 0; 2; 1; 1; 0; 4; 1; 5; 2; 2; 3; 2; 4; 2; 5; 1; 0; 4; 1; 5; 6; 1; 0; 4; 1; 5; 7; 1; 0; 4; 1; 5; 8; 2; 9]%nat
  ["v1"; "projects"; "projectName"; "resource"; "workloads"; "virtual-machines"; "app_id"; "cluster_id"; "virtual_machine_id"; "start"].
Definition pattern_StartVirtualMachine_1 : pattern := mkPattern
  [2; 0; 2; 1; 2; 2; 2; 3; 1; 0; 4; 1; 5; 4; 1; 0; 4; 1; 5; 5; 1; 0; 4; 1; 5; 6; 2; 7]%nat
  ["resource.orchestrator.apis"; "v2"; "workloads"; "virtual-machines"; "app_id"; "cluster_id"; "virtual_machine_id"; "start"].
Definition pattern_StartVirtualMachine_2 : pattern := mkPattern
  [2; 0; 2; 1; 1; 0; 4; 1; 5; 2; 2; 3; 2; 4; 2; 5; 1; 0; 4; 1; 5; 6; 2; 7; 1; 0; 4; 1; 5; 8; 2; 9; 1; 0; 4; 1; 5; 10; 2; 11]%nat
  ["v1"; "projects"; "projectName"; "resource"; "workloads"; "applications"; "app_id"; "clusters"; "cluster_id"; "virtual-machines"; "virtual_machine_id"; "start"].
Definition pattern_StopVirtualMachine_0 : pattern := mkPattern
  [2; 0; 2; 1; 1; 0; 4; 1; 5; 2; 2; 3; 2; 4; 2; 5; 1; 0; 4; 1; 5; 6; 1; 0; 4; 1; 5; 7; 1; 0; 4; 1; 5; 8; 2; 9]%nat
  ["v1"; "projects"; "projectName"; "resource"; "workloads"; "virtual-machines"; "app_id"; "cluster_id"; "virtual_machine_id"; "stop"].
Definition pattern_StopVirtualMachine_1 : pattern := mkPattern
  [2; 0; 2; 1; 2; 2; 2; 3; 1; 0; 4; 1; 5; 4; 1; 0; 4; 1; 5; 5; 1; 0; 4; 1; 5; 6; 2; 7]%nat
  ["resource.orchestrator.apis"; "v2"; "workloads"; "virtual-machines"; "app_id"; "cluster_id"; "virtual_machine_id"; "stop"].
Definition pattern_StopVirtualMachine_2 : pattern := mkPattern
  [2; 0; 2; 1; 1; 0; 4; 1; 5; 2; 2; 3; 2; 4; 2; 5; 1; 0; 4; 1; 5; 6; 2; 7; 1; 0; 4; 1; 5; 8; 2; 9; 1; 0; 4; 1; 5; 10; 2; 11]%nat
  ["v1"; "projects"; "projectName"; "resource"; "workloads"; "applications"; "app_id"; "clusters"; "cluster_id"; "virtual-machines"; "virtual_machine_id"; "stop"].
Definition pattern_RestartVirtualMachine_0 : pattern := mkPattern
  [2; 0; 2; 1; 1; 0; 4; 1; 5; 2; 2; 3; 2; 4; 2; 5; 1; 0; 4; 1; 5; 6; 1; 0; 4; 1; 5; 7; 1; 0; 4; 1; 5; 8; 2; 9]%nat
  ["v1"; "projects"; "projectName"; "resource"; "workloads"; "virtual-machines"; "app_id"; "cluster_id"; "virtual_machine_id"; "restart"].
Definition pattern_RestartVirtualMachine_1 : pattern := mkPattern
  [2; 0; 2; 1; 2; 2; 2; 3; 1; 0; 4; 1; 5; 4; 1; 0; 4; 1; 5; 5; 1; 0; 4; 1; 5; 6; 2; 7]%nat
  ["resource.orchestrator.apis"; "v2"; "workloads"; "virtual-machines"; "app_id"; "cluster_id"; "virtual_machine_id"; "restart"].
Definition pattern_RestartVirtualMachine_2 : pattern := mkPattern
  [2; 0; 2; 1; 1; 0; 4; 1; 5; 2; 2; 3; 2; 4; 2; 5; 1; 0; 4; 1; 5; 6; 2; 7; 1; 0; 4; 1; 5; 8; 2; 9; 1; 0; 4; 1; 5; 10; 2; 11]%nat
  ["v1"; "projects"; "projectName"; "resource"; "workloads"; "applications"; "app_id"; "clusters"; "cluster_id"; "virtual-machines"; "virtual_machine_id"; "restart"].
Definition pattern_GetVNC_0 : pattern := mkPattern
  [2; 0; 2; 1; 1; 0; 4; 1; 5; 2; 2; 3; 2; 4; 2; 5; 1; 0; 4; 1; 5; 6; 1; 0; 4; 1; 5; 7; 1; 0; 4; 1; 5; 8; 2; 9]%nat
  ["v1"; "projects"; "projectName"; "resource"; "workloads"; "virtual-machines"; "app_id"; "cluster_id"; "virtual_machine_id"; "vnc"].
Definition pattern_GetVNC_1 : pattern := mkPattern
  [2; 0; 2; 1; 2; 2; 2; 3; 1; 0; 4; 1; 5; 4; 1; 0; 4; 1; 5; 5; 1; 0; 4; 1; 5; 6; 2; 7]%nat
  ["resource.orchestrator.apis"; "v2"; "workloads"; "virtual-machines"; "app_id"; "cluster_id"; "virtual_machine_id"; "vnc"].
Definition pattern_GetVNC_2 : pattern := mkPattern
  [2; 0; 2; 1; 1; 0; 4; 1; 5; 2; 2; 3; 2; 4; 2; 5; 1; 0; 4; 1; 5; 6; 2; 7; 1; 0; 4; 1; 5; 8; 2; 9; 1; 0; 4; 1; 5; 10; 2; 11]%nat
  ["v1"; "projects"; "projectName"; "resource"; "workloads"; "applications"; "app_id"; "clusters"; "cluster_id"; "virtual-machines"; "virtual_machine_id"; "vnc"].

Section Gateways.
Context {E : Type} {R : E -> Type} {A : Type} {rt : GatewayRuntime}.
Context (PopulateQueryParameters : arm_msg -> gmap string (list string) -> list string -> res arm_msg).
(** The methods of the gRPC clients. *)
Context (client : context -> arm_msg -> gp E R A).

Definition project_list_request (mk : string -> string -> arpc) (ctx : context) (req : http_request) (params : gmap string string) : gp E R A :=
  do! projectName := done (path_param params "projectName") in
  do! app_id := done (path_param params "app_id") in
  do! cluster_id := done (path_param params "cluster_id") in
  client ctx (projectName, mk app_id cluster_id).

Definition filter_list : list string := ["app_id"; "appId"; "cluster_id"; "clusterId"].

Definition list_request (mk : string -> string -> arpc) (ctx : context) (req : http_request) (params : gmap string string) : gp E R A :=
  do! app_id := done (path_param params "app_id") in
  do! cluster_id := done (path_param params "cluster_id") in
  do! protoReq := done (query_params PopulateQueryParameters req ("", mk app_id cluster_id) filter_list) in
  client ctx protoReq.

Definition request_ListAppWorkloads_0 := project_list_request ListAppWorkloads.
Definition request_ListAppWorkloads_1 := list_request ListAppWorkloads.
Definition request_ListAppWorkloads_2 := project_list_request ListAppWorkloads.
Definition request_ListAppEndpoints_0 := project_list_request ListAppEndpoints.
Definition request_ListAppEndpoints_1 := list_request ListAppEndpoints.
Definition request_ListAppEndpoints_2 := project_list_request ListAppEndpoints.

Definition request_DeletePod_0 (ctx : context) (req : http_request) (params : gmap string string) : gp E R A :=
  do! projectName := done (path_param params "projectName") in
  do! cluster_id := done (path_param params "cluster_id") in
  do! namespace := done (path_param params "namespace") in
  do! pod_name := done (path_param params "pod_name") in
  client ctx (projectName, DeletePodRpc cluster_id namespace pod_name).

Definition filter_DeletePod_1 : list string := ["cluster_id"; "clusterId"; "namespace"; "pod_name"; "podName"].

Definition request_DeletePod_1 (ctx : context) (req : http_request) (params : gmap string string) : gp E R A :=
  do! cluster_id := done (path_param params "cluster_id") in
  do! namespace := done (path_param params "namespace") in
  do! pod_name := done (path_param params "pod_name") in
  do! protoReq := done (query_params PopulateQueryParameters req ("", DeletePodRpc cluster_id namespace pod_name) filter_DeletePod_1) in
  client ctx protoReq.

Definition request_DeletePod_2 := request_DeletePod_0.

Definition project_vm_request (mk : string -> string -> string -> arpc) (ctx : context) (req : http_request) (params : gmap string string) : gp E R A :=
  do! projectName := done (path_param params "projectName") in
  do! app_id := done (path_param params "app_id") in
  do! cluster_id := done (path_param params "cluster_id") in
  do! virtual_machine_id := done (path_param params "virtual_machine_id") in
  client ctx (projectName, mk app_id cluster_id virtual_machine_id).

Definition filter_vm : list string :=
  ["app_id"; "appId"; "cluster_id"; "clusterId"; "virtual_machine_id"; "virtualMachineId"].

Definition plain_vm_request (mk : string -> string -> string -> arpc) (ctx : context) (req : http_request) (params : gmap string string) : gp E R A :=
  do! app_id := done (path_param params "app_id") in
  do! cluster_id := done (path_param params "cluster_id") in
  do! virtual_machine_id := done (path_param params "virtual_machine_id") in
  do! protoReq := done (query_params PopulateQueryParameters req ("", mk app_id cluster_id virtual_machine_id) filter_vm) in
  client ctx protoReq.

Definition request_StartVirtualMachine_0 := project_vm_request (VirtualMachineRpc Start).
Definition request_StartVirtualMachine_1 := plain_vm_request (VirtualMachineRpc Start).
Definition request_StartVirtualMachine_2 := project_vm_request (VirtualMachineRpc Start).
Definition request_StopVirtualMachine_0 := project_vm_request (VirtualMachineRpc Stop).
Definition request_StopVirtualMachine_1 := plain_vm_request (VirtualMachineRpc Stop).
Definition request_StopVirtualMachine_2 := project_vm_request (VirtualMachineRpc Stop).
Definition request_RestartVirtualMachine_0 := project_vm_request (VirtualMachineRpc Restart).
Definition request_RestartVirtualMachine_1 := plain_vm_request (VirtualMachineRpc Restart).
Definition request_RestartVirtualMachine_2 := project_vm_request (VirtualMachineRpc Restart).
Definition request_GetVNC_0 := project_vm_request GetVNC.
Definition request_GetVNC_1 := plain_vm_request GetVNC.
Definition request_GetVNC_2 := project_vm_request GetVNC.

Definition handle_ListAppEndpoints : list (binding (gp E R A)) := [
  mkBinding "GET" pattern_ListAppEndpoints_0 request_ListAppEndpoints_0;
  mkBinding "GET" pattern_ListAppEndpoints_1 request_ListAppEndpoints_1;
  mkBinding "GET" pattern_ListAppEndpoints_2 request_ListAppEndpoints_2].

Definition RegisterEndpointsServiceHandlerClient : list (binding (gp E R A)) :=
  handle_ListAppEndpoints.

Definition handle_ListAppWorkloads : list (binding (gp E R A)) := [
  mkBinding "GET" pattern_ListAppWorkloads_0 request_ListAppWorkloads_0;
  mkBinding "GET" pattern_ListAppWorkloads_1 request_ListAppWorkloads_1;
  mkBinding "GET" pattern_ListAppWorkloads_2 request_ListAppWorkloads_2].

Definition RegisterAppWorkloadServiceHandlerClient : list (binding (gp E R A)) :=
  handle_ListAppWorkloads.

Definition handle_DeletePod : list (binding (gp E R A)) := [
  mkBinding "PUT" pattern_DeletePod_0 request_DeletePod_0;
  mkBinding "PUT" pattern_DeletePod_1 request_DeletePod_1;
  mkBinding "PUT" pattern_DeletePod_2 request_DeletePod_2].

Definition RegisterPodServiceHandlerClient : list (binding (gp E R A)) :=
  handle_DeletePod.

Definition handle_StartVirtualMachine : list (binding (gp E R A)) := [
  mkBinding "PUT" pattern_StartVirtualMachine_0 request_StartVirtualMachine_0;
  mkBinding "PUT" pattern_StartVirtualMachine_1 request_StartVirtualMachine_1;
  mkBinding "PUT" pattern_StartVirtualMachine_2 request_StartVirtualMachine_2].

Definition handle_StopVirtualMachine : list (binding (gp E R A)) := [
  mkBinding "PUT" pattern_StopVirtualMachine_0 request_StopVirtualMachine_0;
  mkBinding "PUT" pattern_StopVirtualMachine_1 request_StopVirtualMachine_1;
  mkBinding "PUT" pattern_StopVirtualMachine_2 request_StopVirtualMachine_2].

Definition handle_RestartVirtualMachine : list (binding (gp E R A)) := [
  mkBinding "PUT" pattern_RestartVirtualMachine_0 request_RestartVirtualMachine_0;
  mkBinding "PUT" pattern_RestartVirtualMachine_1 request_RestartVirtualMachine_1;
  mkBinding "PUT" pattern_RestartVirtualMachine_2 request_RestartVirtualMachine_2].

Definition handle_GetVNC : list (binding (gp E R A)) := [
  mkBinding "GET" pattern_GetVNC_0 request_GetVNC_0;
  mkBinding "GET" pattern_GetVNC_1 request_GetVNC_1;
  mkBinding "GET" pattern_GetVNC_2 request_GetVNC_2].

Definition RegisterVirtualMachineServiceHandlerClient : list (binding (gp E R A)) :=
  handle_StartVirtualMachine ++ handle_StopVirtualMachine ++ handle_RestartVirtualMachine ++ handle_GetVNC.

(** What [RunWithOptions] registers. *)
Definition arm_bindings : list (binding (gp E R A)) :=
  RegisterEndpointsServiceHandlerClient ++ RegisterAppWorkloadServiceHandlerClient ++ RegisterPodServiceHandlerClient ++
  RegisterVirtualMachineServiceHandlerClient.

End Gateways.

(** ** The server *)

(** The groups of routes that gin gives to the gateway. *)
Inductive arm_group : Type := LegacyGroup | ProjectsGroup.

Section Server.
Context {E : Type} {R : E -> Type} {A : Type} {rt : GatewayRuntime}.
Context (PopulateQueryParameters : arm_msg -> gmap string (list string) -> list string -> res arm_msg).
Context (client : context -> arm_msg -> gp E R A).
Context (ResolveAndValidateProjectID : string -> string -> string -> res string).
Context (AnnotateContext : Header -> gmap string (list string) -> res (gmap string (list string))).
Context (HandleRoutingError : string -> string -> gerror).
(** The middlewares for all routes, of other libraries: the error of one that
    does not let the request pass. *)
Context (middlewares : http_request -> option gerror).
(** gin: the group for a method and a path, of those registered below [basePath],
    or the error for a request it does not route. *)
Context (gin : string -> string -> string -> res arm_group).

Definition arm_serve (basePath : string) (req : http_request) : gp E R A :=
  let mux := gateway ResolveAndValidateProjectID AnnotateContext HandleRoutingError (arm_bindings PopulateQueryParameters client) in
  match middlewares req with
  | Some e => fail e
  | None =>
      match gin basePath (h_method req) (h_path req) with
      | Err e => fail e
      | Ok LegacyGroup => mux req
      | Ok ProjectsGroup => mux (with_path (armUIPathRewriter (h_path req)) req)
      end
  end.

End Server.

(** ** The API, for reference *)

Inductive spelling : Type := Canonical | UI | Legacy.

#[export] Instance spelling_eq_dec : EqDecision spelling.
Proof. solve_decision. Defined.

Definition vm_verb (r : vm_action) : string := match r with Start => "start" | Stop => "stop" | Restart => "restart" end.

Definition arm_method (r : arpc) : string :=
  match r with ListAppWorkloads _ _ | ListAppEndpoints _ _ | GetVNC _ _ _ => "GET" | _ => "PUT" end.

(** The segments below the project, or below the version. *)
Definition short_form (r : arpc) : list string :=
  match r with
  | ListAppWorkloads a c => ["workloads"; a; c]
  | ListAppEndpoints a c => ["endpoints"; a; c]
  | DeletePodRpc c ns pod => ["workloads"; "pods"; c; ns; pod; "delete"]
  | GetVNC a c v => ["workloads"; "virtual-machines"; a; c; v; "vnc"]
  | VirtualMachineRpc act a c v => ["workloads"; "virtual-machines"; a; c; v; vm_verb act]
  end.

Definition long_form (r : arpc) : list string :=
  match r with
  | ListAppWorkloads a c => ["workloads"; "applications"; a; "clusters"; c]
  | ListAppEndpoints a c => ["endpoints"; "applications"; a; "clusters"; c]
  | DeletePodRpc c ns pod => ["workloads"; "pods"; "clusters"; c; "namespaces"; ns; "pods"; pod; "delete"]
  | GetVNC a c v => ["workloads"; "applications"; a; "clusters"; c; "virtual-machines"; v; "vnc"]
  | VirtualMachineRpc act a c v => ["workloads"; "applications"; a; "clusters"; c; "virtual-machines"; v; vm_verb act]
  end.

Definition spelled (sp : spelling) (project : string) (r : arpc) : list string :=
  match sp with
  | Canonical => "v1" :: "projects" :: project :: "resource" :: short_form r
  | UI => "v1" :: "projects" :: project :: "resource" :: long_form r
  | Legacy => "resource.orchestrator.apis" :: "v2" :: short_form r
  end.

(** The names of the fields that the path gives. *)
Definition path_fields (r : arpc) : list string :=
  match r with
  | ListAppWorkloads _ _ | ListAppEndpoints _ _ => filter_list
  | DeletePodRpc _ _ _ => filter_DeletePod_1
  | GetVNC _ _ _ | VirtualMachineRpc _ _ _ _ => filter_vm
  end.

(** ** The expressions, on paths of segments *)

Definition PL (comps : list string) : list ascii := to_list (path_of comps).

Lemma PL_cons c cs : PL (c :: cs) = "/"%char :: to_list c ++ PL cs.
Proof. unfold PL. cbn [path_of]. change ("/" +:+ ?s) with (String "/" s). cbn. by rewrite to_list_app. Qed.

Lemma PL_app l1 l2 : PL (l1 ++ l2) = PL l1 ++ PL l2.
Proof. induction l1 as [|c l1 IH]; [done|]. cbn [app]. rewrite !PL_cons, IH, <- app_comm_cons. by rewrite <- app_assoc. Qed.

(** The text of a group. *)
Lemma take_group (l1 l2 : list ascii) : take (length (l1 ++ l2) - length l2) (l1 ++ l2) = l1.
Proof. rewrite length_app, Nat.add_sub. apply take_app_length. Qed.

(** A continuation that needs a slash, or the end. *)
Definition guarded {G B : Type} (k : list ascii -> G -> option B) : Prop := forall c s g, c <> "/"%char -> k (c :: s) g = None.

Section Steps.
Context {G : Type} (capture : list ascii -> G -> G).

Lemma rmatch_seq a b s g k : rmatch capture (RSeq a b) s g k = rmatch capture a s g (fun s1 g1 => rmatch capture b s1 g1 k).
Proof. done. Qed.

Lemma rmatch_group a s g k :
  rmatch capture (RGroup a) s g k = rmatch capture a s g (fun s1 g1 => k s1 (capture (take (length s - length s1) s) g1)).
Proof. done. Qed.

Lemma rmatch_app x y s g k :
  rmatch capture (rlit (x +:+ y)) s g k = rmatch capture (rlit x) s g (fun s1 g1 => rmatch capture (rlit y) s1 g1 k).
Proof.
  revert s. induction x as [|a x IH]; intros s; [done|]. rewrite sapp_cons. unfold rlit. cbn [to_list rlit_list].
  rewrite !rmatch_seq. cbn [rmatch RChar]. destruct s as [|c s]; [done|]. destruct (bool_decide (c = a)); [apply IH|done].
Qed.

(** A slash takes the text to the next segment. *)
Lemma rmatch_slash comps g k :
  rmatch capture (rlit "/") (PL comps) g k = match comps with c :: cs => k (to_list c ++ PL cs) g | [] => None end.
Proof. destruct comps as [|c cs]; [done|]. rewrite PL_cons. cbn. done. Qed.

(** A text takes a whole segment, if what follows needs a slash. *)
Lemma rmatch_text x c cs g k :
  plain x -> plain c -> guarded k ->
  rmatch capture (rlit x) (to_list c ++ PL cs) g k = if bool_decide (c = x) then k (PL cs) g else None.
Proof.
  unfold plain. intros Hx Hc Hk. revert c Hc. induction x as [|b x IH]; intros c Hc.
  - destruct c as [|a c]; [done|]. apply Hk. set_solver.
  - destruct c as [|a c].
    + cbn. destruct cs as [|c cs]; [done|]. rewrite PL_cons. rewrite bool_decide_false; [done|]. set_solver.
    + cbn. case_bool_decide as Hab.
      * subst a. change (rlit_list (to_list x)) with (rlit x). cbn in Hc, Hx. rewrite IH by set_solver.
        repeat case_bool_decide; congruence.
      * rewrite bool_decide_false; [done|congruence].
Qed.

Lemma rmatch_choice xs c cs g k :
  xs <> [] -> Forall plain xs -> plain c -> guarded k ->
  rmatch capture (ralt xs) (to_list c ++ PL cs) g k = if bool_decide (c ∈ xs) then k (PL cs) g else None.
Proof.
  intros Hne Hxs Hc Hk. induction xs as [|x xs IH]; [done|]. apply Forall_cons in Hxs as [Hx Hxs].
  destruct xs as [|y xs].
  - cbn [ralt]. rewrite rmatch_text by done. repeat case_bool_decide; set_solver.
  - change (ralt (x :: y :: xs)) with (RAlt (rlit x) (ralt (y :: xs))).
    change (rmatch capture (RAlt ?a ?b) ?s g k) with (orelse (rmatch capture a s g k) (rmatch capture b s g k)).
    rewrite rmatch_text, IH by done. destruct (k (PL cs) g); repeat case_bool_decide; set_solver.
Qed.

Lemma not_slash_run c cs : plain c -> run not_slash (to_list c ++ PL cs) = to_list c.
Proof.
  unfold plain. intros Hc. rewrite run_app.
  - destruct cs as [|c' cs]; [apply app_nil_r|]. rewrite PL_cons. apply app_nil_r.
  - apply Forall_forall. intros a Ha. unfold not_slash. rewrite bool_decide_false; [done|]. by intros ->.
Qed.

Lemma back_off_guarded {B : Type} (k : list ascii -> G -> option B) s g :
  guarded k -> back_off (fun s => k s g) not_slash s = k (drop (length (run not_slash s)) s) g.
Proof.
  intros Hk. induction s as [|c s IH]; [done|]. cbn. destruct (not_slash c) eqn:E; [|done]. cbn. rewrite IH.
  rewrite Hk; [by destruct (k _ g)|]. unfold not_slash in E. by destruct (bool_decide_reflect (c = "/"%char)).
Qed.

Lemma rmatch_segment c cs g k :
  plain c -> guarded k ->
  rmatch capture RSegment (to_list c ++ PL cs) g k = if bool_decide (c = "") then None else k (PL cs) g.
Proof.
  intros Hc Hk. unfold RSegment, RPlus. rewrite rmatch_seq.
  assert (Hstar : forall l, plain (of_list l) -> rmatch capture (RStar true (RClass not_slash)) (l ++ PL cs) g k = k (PL cs) g).
  { intros l Hl. rewrite rmatch_star, back_off_guarded by done. pose proof (not_slash_run _ cs Hl) as H.
    rewrite to_of_list in H. by rewrite H, drop_app_length. }
  destruct c as [|a c].
  - destruct cs as [|c cs]; [done|]. by rewrite PL_cons.
  - rewrite bool_decide_false by done. cbn [to_list app]. cbn [rmatch]. unfold not_slash at 1.
    pose proof Hc as Ha. unfold plain in Ha. cbn in Ha. rewrite bool_decide_false by set_solver. cbn [negb]. apply Hstar.
    rewrite of_to_list. unfold plain in *. cbn in Hc. set_solver.
Qed.
End Steps.

(** What a path is read as: texts, segments, and one of some texts.  The
    segments and the choices are returned. *)
Inductive piece : Type := PText (x : string) | PSeg | POne (l : list string).

Fixpoint parse (ps : list piece) (comps : list string) : option (list string) :=
  match ps, comps with
  | [], [] => Some []
  | PText x :: ps, c :: cs => if bool_decide (c = x) then parse ps cs else None
  | PSeg :: ps, c :: cs => if bool_decide (c = "") then None else option_map (cons c) (parse ps cs)
  | POne l :: ps, c :: cs => if bool_decide (c ∈ l) then option_map (cons c) (parse ps cs) else None
  | _, _ => None
  end.

Definition vm_ui : list piece :=
  [PText "v1"; PText "projects"; PSeg; PText "resource"; PText "workloads"; PText "applications"; PSeg; PText "clusters"; PSeg;
   PText "virtual-machines"; PSeg; POne ["start"; "stop"; "restart"; "vnc"]].
Definition list_ui : list piece :=
  [PText "v1"; PText "projects"; PSeg; PText "resource"; POne ["workloads"; "endpoints"]; PText "applications"; PSeg;
   PText "clusters"; PSeg].
Definition pod_ui : list piece :=
  [PText "v1"; PText "projects"; PSeg; PText "resource"; PText "workloads"; PText "pods"; PText "clusters"; PSeg;
   PText "namespaces"; PSeg; PText "pods"; PSeg; PText "delete"].

Lemma guarded_slash {G : Type} (capture : list ascii -> G -> G) x k :
  guarded (fun s g => rmatch capture (rlit ("/" +:+ x)) s g k).
Proof.
  intros c s g Hc. rewrite rmatch_app. unfold rlit. cbn. by rewrite bool_decide_false by congruence.
Qed.

Lemma guarded_one {G : Type} (capture : list ascii -> G -> G) k : guarded (fun s g => rmatch capture (rlit "/") s g k).
Proof. exact (guarded_slash capture "" k). Qed.

(** The steps of a match on a path. *)
#[local] Opaque RSegment rlit ralt.
Ltac segs :=
  repeat match goal with
  | H : Forall plain (_ :: _) |- _ => apply Forall_cons in H as [? H]
  end.
Ltac by_guard :=
  let c := fresh in let Hc := fresh in
  intros c ? ? Hc; cbv beta; repeat first [rewrite rmatch_seq | rewrite rmatch_group];
  first [reflexivity | apply guarded_slash, Hc | apply guarded_one, Hc].
Ltac plain_text := by (apply (bool_decide_unpack _); vm_compute).
Ltac mstep :=
  repeat first [rewrite rmatch_seq | rewrite rmatch_group];
  first
    [ rewrite rmatch_slash; match goal with |- context [match ?l with [] => None | _ => _ end] => destruct l; [reflexivity|]; segs end
    | rewrite rmatch_app
    | rewrite rmatch_segment by (assumption || by_guard); cbn [parse]; case_bool_decide; [reflexivity|]
    | rewrite rmatch_text by (assumption || by_guard || plain_text); cbn [parse]; case_bool_decide; [subst|reflexivity]
    | rewrite rmatch_choice by (done || assumption || by_guard || plain_text); cbn [parse]; case_bool_decide; [|reflexivity] ].

(** A group over the first five segments, or six. *)
Lemma take_five a b c d e rest :
  take (length (PL (a :: b :: c :: d :: e :: rest)) - length (PL rest)) (PL (a :: b :: c :: d :: e :: rest)) = PL [a; b; c; d; e].
Proof. change (a :: b :: c :: d :: e :: rest) with ([a; b; c; d; e] ++ rest). rewrite PL_app. apply take_group. Qed.

Lemma take_six a b c d e f rest :
  take (length (PL (a :: b :: c :: d :: e :: f :: rest)) - length (PL rest)) (PL (a :: b :: c :: d :: e :: f :: rest)) =
  PL [a; b; c; d; e; f].
Proof. change (a :: b :: c :: d :: e :: f :: rest) with ([a; b; c; d; e; f] ++ rest). rewrite PL_app. apply take_group. Qed.

Ltac submatch :=
  unfold FindStringSubmatch; change (to_list (path_of ?comps)) with (PL comps); cbn [rseq];
  change "/v1/projects/" with ("/" +:+ ("v1" +:+ ("/" +:+ ("projects" +:+ "/"))));
  change "/resource/workloads" with ("/" +:+ ("resource" +:+ ("/" +:+ "workloads")));
  change "/resource/workloads/pods" with ("/" +:+ ("resource" +:+ ("/" +:+ ("workloads" +:+ ("/" +:+ "pods")))));
  change "/resource/" with ("/" +:+ ("resource" +:+ "/"));
  change "/applications/" with ("/" +:+ ("applications" +:+ "/"));
  change "/clusters/" with ("/" +:+ ("clusters" +:+ "/"));
  change "/virtual-machines/" with ("/" +:+ ("virtual-machines" +:+ "/"));
  change "/namespaces/" with ("/" +:+ ("namespaces" +:+ "/"));
  change "/pods/" with ("/" +:+ ("pods" +:+ "/"));
  change "/delete" with ("/" +:+ "delete");
  repeat mstep;
  cbn [parse];
  match goal with |- context [at_end (PL ?l) _] => destruct l; [|rewrite PL_cons; reflexivity] end;
  change (at_end (PL []) ?g) with (Some ([] : list ascii, g));
  rewrite !take_group;
  first [rewrite take_five | rewrite take_six];
  unfold all_groups, PL; cbn [option_map snd map app]; rewrite !of_to_list; reflexivity.

Lemma vm_submatch comps :
  Forall plain comps ->
  FindStringSubmatch reArmVMUI (path_of comps) =
  match parse vm_ui comps with
  | Some [p; a; c; v; act] => Some [path_of ["v1"; "projects"; p; "resource"; "workloads"]; a; c; v; act]
  | _ => None
  end.
Proof. intros Hp. unfold vm_ui, reArmVMUI. submatch. Qed.

Lemma list_submatch comps :
  Forall plain comps ->
  FindStringSubmatch reArmWorkloadEndpointUI (path_of comps) =
  match parse list_ui comps with
  | Some [p; kind; a; c] => Some [path_of ["v1"; "projects"; p; "resource"; kind]; a; c]
  | _ => None
  end.
Proof. intros Hp. unfold list_ui, reArmWorkloadEndpointUI. submatch. Qed.

Lemma pod_submatch comps :
  Forall plain comps ->
  FindStringSubmatch reArmPodUI (path_of comps) =
  match parse pod_ui comps with
  | Some [p; c; ns; pod] => Some [path_of ["v1"; "projects"; p; "resource"; "workloads"; "pods"]; c; ns; pod]
  | _ => None
  end.
Proof. intros Hp. unfold pod_ui, reArmPodUI. submatch. Qed.

(** The rewriting of paths, on segments. *)
Definition rewritten (comps : list string) : list string :=
  match parse vm_ui comps with
  | Some [p; a; c; v; act] => ["v1"; "projects"; p; "resource"; "workloads"; "virtual-machines"; a; c; v; act]
  | _ =>
  match parse list_ui comps with
  | Some [p; kind; a; c] => ["v1"; "projects"; p; "resource"; kind; a; c]
  | _ =>
  match parse pod_ui comps with
  | Some [p; c; ns; pod] => ["v1"; "projects"; p; "resource"; "workloads"; "pods"; c; ns; pod; "delete"]
  | _ => comps
  end end end.

Lemma path_of_app l1 l2 : path_of (l1 ++ l2) = path_of l1 +:+ path_of l2.
Proof. induction l1 as [|c l1 IH]; [done|]. cbn [app path_of]. rewrite IH. by rewrite !sapp_assoc. Qed.

Ltac join_path :=
  cbn [path_of app]; change "/virtual-machines/" with ("/" +:+ "virtual-machines" +:+ "/"); change "/delete" with ("/" +:+ "delete");
  rewrite ?sapp_nil_r, ?sapp_assoc; reflexivity.

Lemma rewriter_spec comps : Forall plain comps -> armUIPathRewriter (path_of comps) = path_of (rewritten comps).
Proof.
  intros Hp. unfold armUIPathRewriter, rewritten. rewrite vm_submatch, list_submatch, pod_submatch by done.
  destruct (parse vm_ui comps) as [[|p [|a [|c [|v [|act [|]]]]]]|]; try join_path;
  (destruct (parse list_ui comps) as [[|p' [|k [|a' [|c' [|]]]]]|]; try join_path);
  (destruct (parse pod_ui comps) as [[|p'' [|c'' [|ns [|pod [|]]]]]|]; join_path).
Qed.

(** What a path was read as. *)
Fixpoint fill (ps : list piece) (l : list string) : list string :=
  match ps, l with
  | PText x :: ps, l => x :: fill ps l
  | _ :: ps, c :: l => c :: fill ps l
  | _, _ => []
  end.

Lemma parse_fill ps comps l : parse ps comps = Some l -> comps = fill ps l.
Proof.
  revert comps l. induction ps as [|[x| |xs] ps IH]; intros [|c comps] l; cbn; try done; case_bool_decide; try done.
  - intros H'. subst. f_equal. by apply IH.
  - destruct (parse ps comps) eqn:E; [|done]. intros [= <-]. f_equal. by apply IH.
  - destruct (parse ps comps) eqn:E; [|done]. intros [= <-]. f_equal. by apply IH.
Qed.

Lemma vm_call_of v : v ∈ ["start"; "stop"; "restart"; "vnc"] ->
  exists mk, forall p a c vm,
    (["v1"; "projects"; p; "resource"; "workloads"; "applications"; a; "clusters"; c; "virtual-machines"; vm; v] = spelled UI p (mk a c vm)) /\
    (["v1"; "projects"; p; "resource"; "workloads"; "virtual-machines"; a; c; vm; v] = spelled Canonical p (mk a c vm)).
Proof.
  intros H. rewrite !elem_of_cons in H. destruct H as [->|[->|[->|[->|H]]]]; [..|by apply elem_of_nil in H].
  - by exists (VirtualMachineRpc Start).
  - by exists (VirtualMachineRpc Stop).
  - by exists (VirtualMachineRpc Restart).
  - by exists GetVNC.
Qed.

Lemma list_call_of k : k ∈ ["workloads"; "endpoints"] ->
  exists mk, forall p a c,
    (["v1"; "projects"; p; "resource"; k; "applications"; a; "clusters"; c] = spelled UI p (mk a c)) /\
    (["v1"; "projects"; p; "resource"; k; a; c] = spelled Canonical p (mk a c)).
Proof.
  intros H. rewrite !elem_of_cons in H. destruct H as [->|[->|H]]; [..|by apply elem_of_nil in H].
  - by exists ListAppWorkloads.
  - by exists ListAppEndpoints.
Qed.

(** Only the UI's paths are rewritten, to the canonical ones of the same calls. *)
Lemma rewritten_cases comps :
  rewritten comps = comps \/ exists p r, comps = spelled UI p r /\ rewritten comps = spelled Canonical p r.
Proof.
  unfold rewritten.
  assert (Hpod : forall l, match parse pod_ui comps with
                           | Some [p; c; ns; pod] => ["v1"; "projects"; p; "resource"; "workloads"; "pods"; c; ns; pod; "delete"]
                           | _ => comps end = l -> l = comps \/ exists p r, comps = spelled UI p r /\ l = spelled Canonical p r).
  { intros l <-. destruct (parse pod_ui comps) as [[|p [|c [|ns [|pod [|]]]]]|] eqn:H; try by left.
    right. apply parse_fill in H as ->. by exists p, (DeletePodRpc c ns pod). }
  assert (Hlist : forall l, match parse list_ui comps with
                            | Some [p; kind; a; c] => ["v1"; "projects"; p; "resource"; kind; a; c]
                            | _ => match parse pod_ui comps with
                                   | Some [p; c; ns; pod] => ["v1"; "projects"; p; "resource"; "workloads"; "pods"; c; ns; pod; "delete"]
                                   | _ => comps end end = l -> l = comps \/ exists p r, comps = spelled UI p r /\ l = spelled Canonical p r).
  { intros l <-. destruct (parse list_ui comps) as [[|p [|k [|a [|c [|]]]]]|] eqn:H; try (by eapply Hpod).
    right. pose proof (parse_fill _ _ _ H) as ->. assert (k ∈ ["workloads"; "endpoints"]) as Hk.
    { cbn in H. by repeat (case_bool_decide; try done). }
    apply list_call_of in Hk as [mk Hmk]. exists p, (mk a c). apply Hmk. }
  destruct (parse vm_ui comps) as [[|p [|a [|c [|v [|act [|]]]]]]|] eqn:H; try (by eapply Hlist).
  right. pose proof (parse_fill _ _ _ H) as ->. assert (act ∈ ["start"; "stop"; "restart"; "vnc"]) as Hact.
  { cbn in H. by repeat (case_bool_decide; try done). }
  apply vm_call_of in Hact as [mk Hmk]. exists p, (mk a c v). apply Hmk.
Qed.

Lemma spelled_plain sp sp' p r : sp <> Legacy -> Forall plain (spelled sp p r) -> Forall plain (spelled sp' p r).
Proof.
  intros Hsp H. assert (Hlit : forall x, bool_decide (plain x) = true -> plain x) by (intros x; apply bool_decide_eq_true_1).
  destruct sp; [| |done]; destruct r; cbn in H; segs; destruct sp'; cbn;
    repeat (apply Forall_cons; split; [first [assumption | by apply Hlit; vm_compute]|]); constructor.
Qed.

Lemma spelled_inj sp sp' p p' r r' : spelled sp p r = spelled sp' p' r' -> sp = sp' /\ r = r' /\ (sp = Legacy \/ p = p').
Proof.
  intros H. destruct sp, sp'; try discriminate H; destruct r as [| | | |[]], r' as [| | | |[]]; cbn in H; simplify_eq; split_and!; auto.
Qed.

Section Routes.
Context {E : Type} {R : E -> Type} {A : Type} {rt : GatewayRuntime}.
Context (PopulateQueryParameters : arm_msg -> gmap string (list string) -> list string -> res arm_msg).
Context (client : context -> arm_msg -> gp E R A).

(** The call that a path asks for: without a project in the path, the query may
    give one. *)
Definition arm_call (sp : spelling) (project : string) (r : arpc) (ctx : context) (req : http_request) : gp E R A :=
  match sp with
  | Legacy => do! protoReq := done (query_params PopulateQueryParameters req ("", r) (path_fields r)) in client ctx protoReq
  | _ => client ctx (project, r)
  end.

Ltac calls :=
  intros ctx req; cbn [b_request]; cbv [request_ListAppWorkloads_0 request_ListAppWorkloads_1 request_ListAppWorkloads_2 request_ListAppEndpoints_0 request_ListAppEndpoints_1 request_ListAppEndpoints_2 request_DeletePod_0 request_DeletePod_1 request_DeletePod_2 request_StartVirtualMachine_0 request_StartVirtualMachine_1 request_StartVirtualMachine_2 request_StopVirtualMachine_0 request_StopVirtualMachine_1 request_StopVirtualMachine_2 request_RestartVirtualMachine_0 request_RestartVirtualMachine_1 request_RestartVirtualMachine_2 request_GetVNC_0 request_GetVNC_1 request_GetVNC_2
    arm_call project_list_request list_request project_vm_request plain_vm_request];
  repeat (rewrite ?path_param_insert, ?path_param_other by done; cbn [nbind pbind done]); reflexivity.

Ltac spell sp :=
  exists sp; eexists;
  first [ eexists (ListAppWorkloads _ _); split; [reflexivity|]
        | eexists (ListAppEndpoints _ _); split; [reflexivity|]
        | eexists (DeletePodRpc _ _ _); split; [reflexivity|]
        | eexists (GetVNC _ _ _); split; [reflexivity|]
        | eexists (VirtualMachineRpc Start _ _ _); split; [reflexivity|]
        | eexists (VirtualMachineRpc Stop _ _ _); split; [reflexivity|]
        | eexists (VirtualMachineRpc Restart _ _ _); split; [reflexivity|] ].

Lemma binding_call m b segs comps params :
  b ∈ arm_bindings PopulateQueryParameters client -> b_method b = m -> segments (b_pattern b) = Some segs ->
  bind segs comps = Some params ->
  exists sp p r, comps = spelled sp p r /\ arm_method r = m /\ forall ctx req, b_request b ctx req params = arm_call sp p r ctx req.
Proof.
  intros Hin <- Hs Hb. apply list_elem_of_lookup in Hin as [i Hi].
  do 21 (destruct i as [|i];
    [injection Hi as <-; vm_compute in Hs; injection Hs as <-; binds Hb;
     first [spell Canonical | spell UI | spell Legacy]; (split; [reflexivity|calls])|]).
  discriminate Hi.
  Unshelve. all: exact "".
Qed.

(** The place of a spelling's handler. *)
Definition place (sp : spelling) (r : arpc) : nat :=
  (3 * match r with
      | ListAppEndpoints _ _ => 0 | ListAppWorkloads _ _ => 1 | DeletePodRpc _ _ _ => 2
      | VirtualMachineRpc Start _ _ _ => 3 | VirtualMachineRpc Stop _ _ _ => 4 | VirtualMachineRpc Restart _ _ _ => 5
      | GetVNC _ _ _ => 6
      end + match sp with Canonical => 0 | Legacy => 1 | UI => 2 end)%nat.

Lemma spelled_bound sp p r :
  exists b segs, b ∈ arm_bindings PopulateQueryParameters client /\ b_method b = arm_method r /\
    segments (b_pattern b) = Some segs /\ bind segs (spelled sp p r) <> None.
Proof.
  destruct (arm_bindings PopulateQueryParameters client !! place sp r) as [b|] eqn:Hb;
    [|by destruct sp, r as [| | | |[]]].
  exists b. apply list_elem_of_lookup_2 in Hb as Hin.
  destruct sp, r as [| | | |[]]; injection Hb as <-; eexists; (split; [exact Hin|split; [reflexivity|split; [vm_compute; reflexivity|]]]);
    cbn [spelled short_form long_form vm_verb]; repeat first [apply bind_more_lit | apply bind_more_var]; done.
Qed.

Context (ResolveAndValidateProjectID : string -> string -> string -> res string).
Context (AnnotateContext : Header -> gmap string (list string) -> res (gmap string (list string))).
Context (HandleRoutingError : string -> string -> gerror) (middlewares : http_request -> option gerror).
Context (gin : string -> string -> string -> res arm_group).

(** The call with the context that the gateway makes for the request. *)
Definition arm_forward (sp : spelling) (project : string) (r : arpc) (req : http_request) : gp E R A :=
  do! md := done (AnnotateContext (h_header req) (project_metadata ResolveAndValidateProjectID req)) in
  arm_call sp project r (Some md) req.

Abbreviation mux := (gateway ResolveAndValidateProjectID AnnotateContext HandleRoutingError (arm_bindings PopulateQueryParameters client)).

(** The gateway serves the three spellings and nothing else. *)
Lemma arm_gateway req comps :
  h_path req = path_of comps -> Forall plain comps -> comps <> [] -> form_post (h_method req) (h_header req) = false ->
  (forall sp p r, comps = spelled sp p r -> arm_method r = h_method req -> mux req = arm_forward sp p r req) /\
  ((forall sp p r, comps = spelled sp p r -> arm_method r <> h_method req) -> exists e, mux req = fail e).
Proof.
  intros Hpath Hplain Hne Hpost.
  edestruct (gateway_cases ResolveAndValidateProjectID AnnotateContext HandleRoutingError (arm_bindings PopulateQueryParameters client) req comps)
    as [(b & segs & params & Hin & Hs & Hb & Hm & ->)|[Hnone ->]]; [done..|specialize (Hm Hpost)|specialize (Hnone Hpost)].
  - destruct (binding_call _ _ _ _ _ Hin Hm Hs Hb) as (sp & p & r & -> & Hr & Hcall). split.
    + intros sp' p' r' (<- & <- & Hp)%spelled_inj _. unfold arm_forward.
      assert (arm_call sp p r = arm_call sp p' r) as <- by (destruct Hp as [->| ->]; done).
      destruct (AnnotateContext _ _) as [md|e]; [apply Hcall|done].
    + intros H. by destruct (H sp p r).
  - split; [|by eexists]. intros sp p r -> Hr. destruct (spelled_bound sp p r) as (b & segs & Hin & Hm & Hs & Hb).
    destruct Hb. apply (Hnone b); [done|congruence|done].
Qed.

(** A path is a spelling of a method's path for an HTTP method, or not. *)
Lemma spelled_or_not m comps :
  (exists sp p r, comps = spelled sp p r /\ arm_method r = m) \/ (forall sp p r, comps = spelled sp p r -> arm_method r <> m).
Proof.
  set (hit := fun b : binding (gp E R A) => b_method b = m /\ is_Some (segments (b_pattern b) ≫= fun segs => bind segs comps)).
  destruct (decide (Exists hit (arm_bindings PopulateQueryParameters client))) as [H|H].
  - left. apply Exists_exists in H as (b & Hin & Hm & params & Hb). destruct (segments (b_pattern b)) as [segs|] eqn:Hs; [|done].
    destruct (binding_call _ _ _ _ _ Hin Hm Hs Hb) as (sp & p & r & ? & ? & _). by exists sp, p, r.
  - right. intros sp p r -> Hr. destruct (spelled_bound sp p r) as (b & segs & Hin & Hm & Hs & Hb).
    apply H, Exists_exists. exists b. split; [done|]. split; [congruence|]. rewrite Hs. simpl. by destruct (bind segs _).
Qed.

(** The methods of the specification of the API (api/nbi/v2/spec/v2/openapi.yaml),
    which [RunWithOptions] registers with gin. *)
Definition allowedMethodsV2 : list string := ["GET"; "PUT"].

(** gin gives the gateway requests of the methods registered only; and the paths below
    the two prefixes go to the two groups, when nothing is put before them. *)
Record gin_groups : Prop := {
  gin_registered base m path g : gin base m path = Ok g -> m ∈ allowedMethodsV2;
  gin_prefixes m l : m ∈ allowedMethodsV2 -> l <> [] ->
    gin "" m (path_of ("v1" :: "projects" :: l)) = Ok ProjectsGroup /\
    gin "" m (path_of ("resource.orchestrator.apis" :: "v2" :: l)) = Ok LegacyGroup
}.

(** Of a path below a project, the resolver reads the project. *)
Definition resolves_project : Prop := forall p l1 l2 auth header, l1 <> [] -> l2 <> [] ->
  ResolveAndValidateProjectID (path_of ("v1" :: "projects" :: p :: l1)) auth header =
  ResolveAndValidateProjectID (path_of ("v1" :: "projects" :: p :: l2)) auth header.

Abbreviation served := (arm_serve PopulateQueryParameters client ResolveAndValidateProjectID AnnotateContext HandleRoutingError middlewares gin).

Lemma served_projects base req comps :
  middlewares req = None -> gin base (h_method req) (h_path req) = Ok ProjectsGroup ->
  h_path req = path_of comps -> Forall plain comps ->
  served base req = mux (with_path (path_of (rewritten comps)) req).
Proof. intros Hm Hg Hpath Hp. unfold arm_serve. rewrite Hm, Hg, Hpath. by rewrite rewriter_spec. Qed.

Lemma rewritten_spelled sp p r :
  sp <> Legacy -> exists sp', sp' <> Legacy /\ rewritten (spelled sp p r) = spelled sp' p r.
Proof.
  intros Hsp. destruct (rewritten_cases (spelled sp p r)) as [->|(p' & r' & (-> & <- & [|<-])%spelled_inj & ->)]; [by exists sp|done|by exists Canonical].
Qed.

Lemma forward_again sp sp' p r req l :
  resolves_project -> sp <> Legacy -> sp' <> Legacy -> h_path req = path_of (spelled sp p r) -> l = spelled sp' p r ->
  arm_forward sp' p r (with_path (path_of l) req) = arm_forward sp p r req.
Proof.
  intros Hres Hsp Hsp' Hpath ->. unfold arm_forward.
  assert (project_metadata ResolveAndValidateProjectID (with_path (path_of (spelled sp' p r)) req) =
          project_metadata ResolveAndValidateProjectID req) as ->; [|by destruct sp, sp'].
  unfold project_metadata. cbn [h_path h_header with_path]. rewrite Hpath.
  destruct sp, sp'; try done; cbn [spelled]; by erewrite (Hres p).
Qed.

Lemma rewritten_plain comps : Forall plain comps -> comps <> [] -> Forall plain (rewritten comps) /\ rewritten comps <> [].
Proof.
  intros Hp Hne. destruct (rewritten_cases comps) as [->|(p & r & -> & ->)]; [done|]. split; [|done]. by eapply (spelled_plain UI).
Qed.

Lemma not_form comps sp p r h : comps = spelled sp p r -> form_post (arm_method r) h = false.
Proof. by destruct r. Qed.

Lemma spelled_served sp p r req :
  resolves_project -> gin_groups -> middlewares req = None -> h_path req = path_of (spelled sp p r) ->
  Forall plain (spelled sp p r) -> arm_method r = h_method req -> served "" req = arm_forward sp p r req.
Proof.
  intros Hres Hgin Hmw Hpath Hplain Hm. assert (h_method req ∈ ["GET"; "PUT"]) as Hin by (rewrite <- Hm; by destruct r; set_solver).
  assert (form_post (h_method req) (h_header req) = false) as Hpost by (rewrite <- Hm; by destruct r).
  destruct (decide (sp = Legacy)) as [->|Hsp].
  - destruct (gin_prefixes Hgin _ (short_form r) Hin) as [_ Hg]; [by destruct r|]. unfold arm_serve. rewrite Hmw, Hpath.
    change (spelled Legacy p r) with ("resource.orchestrator.apis" :: "v2" :: short_form r) at 1. rewrite Hg.
    by apply (arm_gateway req (spelled Legacy p r)).
  - assert (gin "" (h_method req) (h_path req) = Ok ProjectsGroup) as Hg.
    { rewrite Hpath. destruct sp; [| |done]; by apply (gin_prefixes Hgin). }
    erewrite served_projects by done. destruct (rewritten_spelled sp p r Hsp) as (sp' & Hsp' & Hrw). rewrite <- (forward_again sp sp' p r req _ Hres Hsp Hsp' Hpath Hrw).
    destruct (rewritten_plain _ Hplain) as [Hp' Hne']; [by destruct sp|].
    by apply (arm_gateway (with_path _ req) (rewritten (spelled sp p r))).
Qed.

(** No registered method can be a form's. *)
Lemma registered_no_form base req g :
  gin_groups -> gin base (h_method req) (h_path req) = Ok g -> form_post (h_method req) (h_header req) = false.
Proof.
  intros Hgin Hg%(gin_registered Hgin). unfold form_post. rewrite bool_decide_false; [done|].
  intros He. rewrite He in Hg. unfold allowedMethodsV2 in Hg. set_solver.
Qed.

Lemma unspelled_unserved base req comps :
  gin_groups -> h_path req = path_of comps -> Forall plain comps -> comps <> [] ->
  (forall sp p r, comps = spelled sp p r -> arm_method r <> h_method req) -> exists e, served base req = fail e.
Proof.
  intros Hgin Hpath Hplain Hne Hno. destruct (middlewares req) as [e|] eqn:Hmw; [exists e; unfold arm_serve; by rewrite Hmw|].
  destruct (gin base (h_method req) (h_path req)) as [g|e] eqn:Hg; [|unfold arm_serve; rewrite Hmw, Hg; by exists e].
  pose proof (registered_no_form _ _ _ Hgin Hg) as Hpost. destruct g.
  - unfold arm_serve. rewrite Hmw, Hg. by apply (arm_gateway req comps).
  - erewrite served_projects by done. destruct (rewritten_plain _ Hplain Hne) as [Hp' Hne'].
    apply (arm_gateway (with_path _ req) (rewritten comps)); [done..|]. intros sp p r Hrw.
    destruct (rewritten_cases comps) as [Hc|(p' & r' & -> & Hc)]; rewrite Hc in Hrw; [by eapply Hno|].
    apply spelled_inj in Hrw as (_ & -> & _). by eapply Hno.
Qed.

(** With a base path, gin routes what is below it, but the gateway knows the
    paths without it: nothing is served. *)
Lemma base_path_unserved base prefix sp p r req :
  gin_groups -> prefix <> "v1" -> prefix <> "resource.orchestrator.apis" -> plain prefix -> Forall plain (spelled sp p r) ->
  h_method req = arm_method r -> h_path req = path_of (prefix :: spelled sp p r) -> exists e, served base req = fail e.
Proof.
  intros Hgin H1 H2 Hp Hps Hm Hpath. apply (unspelled_unserved base req (prefix :: spelled sp p r)); [done|done|by constructor|done|].
  intros sp' p' r' H. by destruct sp'; injection H.
Qed.

End Routes.

(** *** From the request to the machine

    The gateway with the resource manager behind it. *)

Section Guarded.
Context {rt : GatewayRuntime}.
Context (PopulateQueryParameters : arm_msg -> gmap string (list string) -> list string -> res arm_msg).
Context (ResolveAndValidateProjectID : string -> string -> string -> res string).
Context (AnnotateContext : Header -> gmap string (list string) -> res (gmap string (list string))).
Context (HandleRoutingError : string -> string -> gerror) (middlewares : http_request -> option gerror).
Context (gin : string -> string -> string -> res arm_group).
Context (sort_by_id : list AppWorkload -> list AppWorkload) (oidcURL domainName : string) (parse_int_error : string -> string) (room : nat).

(** The call is made of the manager, which has a client of OPA. *)
Definition manager_call (ctx : context) (m : arm_msg) : ap areply :=
  aserve sort_by_id oidcURL domainName parse_int_error room true ctx false m.2.

(** A query does not set the fields that the path gives. *)
Definition keeps_path : Prop := forall m form m',
  PopulateQueryParameters m form (path_fields m.2) = Ok m' -> m'.2 = m.2.

(** [metadata.Join]: what a request's headers add goes next to what is there. *)
Definition adds_metadata : Prop := forall h md md' k vs,
  AnnotateContext h md = Ok md' -> md !! k = Some vs -> exists l1 l2, md' !! k = Some (l1 ++ vs ++ l2).

Lemma active_project (md : gmap string (list string)) (project id : string) :
  (exists l1 l2, md !! "activeprojectid" = Some (l1 ++ [project] ++ l2)) ->
  opa.GetActiveProjectID (Some md) = Ok id -> id = project.
Proof.
  intros (l1 & l2 & H) Hid. unfold opa.GetActiveProjectID in Hid. rewrite H in Hid. simpl in Hid.
  destruct l1 as [|x [|y l1]], l2 as [|z l2]; simpl in Hid; congruence.
Qed.

Lemma arm_call_manager sp p r ctx req t o e :
  keeps_path -> traces (arm_call PopulateQueryParameters manager_call sp p r ctx req) t o -> requested t e ->
  traces (aserve sort_by_id oidcURL domainName parse_int_error room true ctx false r) t o.
Proof.
  intros Hk H Hr. destruct sp; [exact H..|]. unfold arm_call, query_params in H.
  destruct (h_form req) as [form|err]; [|destruct H as [-> _]; by apply requested_nil in Hr].
  destruct (PopulateQueryParameters _ _ _) as [m|err] eqn:Hm; [|destruct H as [-> _]; by apply requested_nil in Hr].
  apply Hk in Hm. cbn in Hm, H. unfold manager_call in H. by rewrite Hm in H.
Qed.

(** C24: A virtual machine is acted upon through the REST gateway, which gin gives the
    methods of the API's specification only and which is deployed without a base path, by no request but a PUT of
    one of the three spellings of that action's path, which OPA allowed; it is the
    machine that the path names, of the application that the path names; and
    cluster and namespace are those of the project that the gateway takes the
    request for, which a query or further headers cannot change (the
    runtime does not set from a query what the path gives, and it only adds to the metadata). *)
Theorem rest_vm_guarded req comps t o action ns name project :
  resolves_project ResolveAndValidateProjectID -> gin_groups gin -> keeps_path -> adds_metadata ->
  h_path req = path_of comps -> Forall plain comps -> comps <> [] ->
  project_metadata ResolveAndValidateProjectID req !! "activeprojectid" = Some [project] ->
  traces (arm_serve PopulateQueryParameters manager_call ResolveAndValidateProjectID AnnotateContext HandleRoutingError middlewares gin "" req) t o ->
  requested t (vm_request action ns name) ->
  exists sp p a c v kubeConfig appns vms vm,
    comps = spelled sp p (VirtualMachineRpc action a c v) /\ h_method req = "PUT" /\
    (let rule := rule_of (arequest_name (VirtualMachineRpc action a c v)) in
     ev (R:=aresp) (AOpa rule.1 rule.2) (Ok (OpaBool true)) ∈ t) /\
    ev (R:=aresp) (AKubeConfig project c) (Ok (Some kubeConfig)) ∈ t /\
    ev (R:=aresp) (AAppNamespace project a) (Ok appns) ∈ t /\ ev (R:=aresp) (AListVMs appns) (Ok vms) ∈ t /\
    vm ∈ vms /\ vm_of_app a vm = true /\ om_uid (vmo_meta vm) = v /\
    om_namespace (vmo_meta vm) = ns /\ om_name (vmo_meta vm) = name.
Proof.
  intros Hres Hgin Hkp Ham Hpath Hplain Hne Hproj H Hr.
  assert (Hfail : forall e, ~ traces (fail e : ap areply) t o) by (intros e [-> _]; by apply requested_nil in Hr).
  destruct (middlewares req) as [e|] eqn:Hmw; [unfold arm_serve in H; rewrite Hmw in H; by apply Hfail in H|].
  destruct (spelled_or_not PopulateQueryParameters manager_call (h_method req) comps) as [(sp & p & r & -> & Hm)|Hno].
  2: { eapply (unspelled_unserved PopulateQueryParameters manager_call ResolveAndValidateProjectID AnnotateContext HandleRoutingError middlewares gin "" req comps)
         in Hno as [e He]; [|done..]. rewrite He in H. by apply Hfail in H. }
  rewrite (spelled_served PopulateQueryParameters manager_call ResolveAndValidateProjectID AnnotateContext HandleRoutingError middlewares gin sp p r req) in H by done.
  unfold arm_forward in H. destruct (AnnotateContext _ _) as [md|e] eqn:Hmd; [|by apply Hfail in H]. cbn in H.
  apply arm_call_manager with (e := vm_request action ns name) in H; [|done..].
  destruct (serve_acts_on_vm _ _ _ _ _ _ _ _ _ _ _ _ _ H Hr) as (act & a & c & v & t' & o' & -> & Hopa & Hs & Ha & Hr').
  destruct (act_on_vm_trace _ _ _ _ _ _ _ _ _ _ Ha Hr') as (-> & kubeConfig & appns & vms & vm & (p1 & Hp1 & Hk) & (p2 & Hp2 & Hn) & Hl & Hvm).
  pose proof (Ham _ _ _ _ _ Hmd Hproj) as Hact.
  rewrite (active_project _ _ _ Hact Hp1) in Hk. rewrite (active_project _ _ _ Hact Hp2) in Hn.
  exists sp, p, a, c, v, kubeConfig, appns, vms, vm. split_and!; try tauto; try (by apply Hs); try exact Hopa; by rewrite <- Hm.
Qed.

End Guarded.

(** *** The project of a call *)

(** When the resolver fails, the project that the client claims is taken. *)
Lemma unresolved_header_taken resolve req e :
  resolve (h_path req) (Header_Get (h_header req) "Authorization") (Header_Get (h_header req) ActiveProjectID) = Err e ->
  project_metadata resolve req !! "activeprojectid" = Some [Header_Get (h_header req) ActiveProjectID].
Proof. intros H. unfold project_metadata. by rewrite H. Qed.

(** The CORS middleware is not set up for a single origin. *)
Lemma single_origin_ignored origin : free ","%char origin -> cors_origins origin = None.
Proof. intros H. unfold cors_origins. by rewrite split_whole. Qed.

(** *** At work, with the manager behind it *)

Definition sample_resolve (path auth header : string) : res string := Ok (nth 3 (split path "/") "").

Definition sample_gin (base m path : string) : res arm_group :=
  if negb (bool_decide (m ∈ allowedMethodsV2)) then Err (mkErr KNotFound "405")
  else if has_prefix path "/v1/projects/" then Ok ProjectsGroup
  else if has_prefix path "/resource.orchestrator.apis/v2/" then Ok LegacyGroup
  else Err (mkErr KNotFound "404").

Lemma sample_resolves : resolves_project sample_resolve.
Proof.
  intros p [|c1 l1] [|c2 l2] auth header; [done..|]. intros _ _. unfold sample_resolve. f_equal. cbn [path_of].
  change ("/" +:+ "v1" +:+ "/" +:+ "projects" +:+ "/" +:+ ?s) with (String "/" ("v1" +:+ String "/" ("projects" +:+ String "/" s))).
  change (p +:+ "/" +:+ ?s) with (p +:+ String "/" s).
  rewrite !(split_sep "/"), !(split_append "/" "v1"), !(split_append "/" "projects"), !split_append.
  destruct (split p "/") eqn:H; [by apply split_not_nil in H|done].
Qed.

Lemma sample_gin_groups : gin_groups sample_gin.
Proof.
  split.
  { intros base m path g. unfold sample_gin. by case_bool_decide. }
  intros m [|c l] Hm Hl; [done|]. unfold sample_gin. rewrite bool_decide_true by done. cbn [path_of negb]. set (rest := c +:+ path_of l).
  assert (has_prefix ("/" +:+ "v1" +:+ "/" +:+ "projects" +:+ "/" +:+ rest) "/v1/projects/" = true) as ->
    by (apply has_prefix_spec; by exists rest).
  assert (has_prefix ("/" +:+ "resource.orchestrator.apis" +:+ "/" +:+ "v2" +:+ "/" +:+ rest) "/resource.orchestrator.apis/v2/" = true) as ->
    by (apply has_prefix_spec; by exists rest).
  done.
Qed.

Definition rest_request (method path : string) : http_request :=
  mkHttp method path {["Authorization" := ["Bearer t"]]} (Ok ∅) (Ok "").

Definition arm_client (ctx : context) (m : arm_msg) : ap areply :=
  aserve (fun l => l) "oidc" "example.org" (fun s => s) 3 true ctx false m.2.

Definition sample_served (base : string) (req : http_request) : ap areply :=
  arm_serve (rt := first_runtime) (fun m _ _ => Ok m) arm_client sample_resolve (fun _ md => Ok md) (fun _ _ => mkErr KNotFound "404")
    (fun _ => None) sample_gin base req.

Definition restart_path : list string :=
  ["v1"; "projects"; "p1"; "resource"; "workloads"; "applications"; "app"; "clusters"; "c1"; "virtual-machines"; "vm"; "restart"].


(** The gateway of the deployment in [ArmFacts]: the machine of its cluster. *)
Definition restart_machine : list string :=
  ["v1"; "projects"; "project-1"; "resource"; "workloads"; "applications"; "app-1"; "clusters"; "cluster-1"; "virtual-machines";
   "0f8fad5b-d9cb-469f-a165-70867728950e"; "restart"].

Definition restart_request : ap areply :=
  arm_serve (rt := first_runtime) (fun m _ _ => Ok m) (manager_call (fun l => l) "" "" (fun s => s) 5) sample_resolve (fun _ md => Ok md)
    (fun _ _ => mkErr KNotFound "404") (fun _ => None) sample_gin "" (rest_request "PUT" (path_of restart_machine)).

Lemma restart_asked : requested (arm_log restart_request) (vm_request Restart "app-ns" "vm-1").
Proof. exists no_gerror. vm_compute. repeat (first [by left | right]). Qed.

Lemma rest_vm_guarded_witness :
  arm_result restart_request = Done (Ok EmptyReply) /\
  exists sp p a c v kubeConfig appns vms vm,
    restart_machine = spelled sp p (VirtualMachineRpc Restart a c v) /\ "PUT" = "PUT" /\
    (let rule := rule_of (arequest_name (VirtualMachineRpc Restart a c v)) in
     ev (R:=aresp) (AOpa rule.1 rule.2) (Ok (OpaBool true)) ∈ arm_log restart_request) /\
    ev (R:=aresp) (AKubeConfig "project-1" c) (Ok (Some kubeConfig)) ∈ arm_log restart_request /\
    ev (R:=aresp) (AAppNamespace "project-1" a) (Ok appns) ∈ arm_log restart_request /\
    ev (R:=aresp) (AListVMs appns) (Ok vms) ∈ arm_log restart_request /\
    vm ∈ vms /\ vm_of_app a vm = true /\ om_uid (vmo_meta vm) = v /\
    om_namespace (vmo_meta vm) = "app-ns" /\ om_name (vmo_meta vm) = "vm-1".
Proof.
  split; [vm_compute; reflexivity|].
  apply (rest_vm_guarded (rt := first_runtime) (fun m _ _ => Ok m) sample_resolve (fun _ md => Ok md) (fun _ _ => mkErr KNotFound "404")
    (fun _ => None) sample_gin (fun l => l) "" "" (fun s => s) 5 (rest_request "PUT" (path_of restart_machine)) restart_machine
    (arm_log restart_request) (arm_result restart_request) Restart "app-ns" "vm-1" "project-1" sample_resolves sample_gin_groups).
  - by intros m form m' [= <-].
  - intros h md md' k vs [= <-] Hk. exists [], []. by rewrite app_nil_r.
  - reflexivity.
  - apply (bool_decide_unpack _). by vm_compute.
  - discriminate.
  - vm_compute. reflexivity.
  - exact (arm_traces restart_request).
  - exact restart_asked.
Defined.
