(* ===== verification/AdmRest.v ===== *)
(** * The REST gateway of the deployment manager

    internal/restproxy/rest-proxy.go with the generated gateways of the two
    services (api/nbi/v2/deployment/v1/*.pb.gw.go).  Every path has two
    spellings, with a project and, as in earlier versions, without. *)

From Stdlib Require Import Ascii.
From S2P Require Import Prelude GoStr Split Types Pb Prog Nbi GoMonad InitDeployment Handlers Service AspServer Gateway.

(** ** The patterns *)

Definition pattern_ListDeployments_0 : pattern := mkPattern
  [2; 0; 2; 1; 1; 0; 4; 1; 5; 2; 2; 3; 2; 4]%nat
  ["v1"; "projects"; "projectName"; "appdeployment"; "deployments"].
Definition pattern_ListDeployments_1 : pattern := mkPattern
  [2; 0; 2; 1; 2; 2]%nat
  ["deployment.orchestrator.apis"; "v1"; "deployments"].
Definition pattern_ListDeploymentsPerCluster_0 : pattern := mkPattern
  [2; 0; 2; 1; 1; 0; 4; 1; 5; 2; 2; 3; 2; 4; 2; 5; 1; 0; 4; 1; 5; 6]%nat
  ["v1"; "projects"; "projectName"; "appdeployment"; "deployments"; "clusters"; "cluster_id"].
Definition pattern_ListDeploymentsPerCluster_1 : pattern := mkPattern
  [2; 0; 2; 1; 2; 2; 2; 3; 1; 0; 4; 1; 5; 4]%nat
  ["deployment.orchestrator.apis"; "v1"; "deployments"; "clusters"; "cluster_id"].
Definition pattern_CreateDeployment_0 : pattern := mkPattern
  [2; 0; 2; 1; 1; 0; 4; 1; 5; 2; 2; 3; 2; 4]%nat
  ["v1"; "projects"; "projectName"; "appdeployment"; "deployments"].
Definition pattern_CreateDeployment_1 : pattern := mkPattern
  [2; 0; 2; 1; 2; 2]%nat
  ["deployment.orchestrator.apis"; "v1"; "deployments"].
Definition pattern_GetDeployment_0 : pattern := mkPattern
  [2; 0; 2; 1; 1; 0; 4; 1; 5; 2; 2; 3; 2; 4; 1; 0; 4; 1; 5; 5]%nat
  ["v1"; "projects"; "projectName"; "appdeployment"; "deployments"; "depl_id"].
Definition pattern_GetDeployment_1 : pattern := mkPattern
  [2; 0; 2; 1; 2; 2; 1; 0; 4; 1; 5; 3]%nat
  ["deployment.orchestrator.apis"; "v1"; "deployments"; "depl_id"].
Definition pattern_UpdateDeployment_0 : pattern := mkPattern
  [2; 0; 2; 1; 1; 0; 4; 1; 5; 2; 2; 3; 2; 4; 1; 0; 4; 1; 5; 5]%nat
  ["v1"; "projects"; "projectName"; "appdeployment"; "deployments"; "depl_id"].
Definition pattern_UpdateDeployment_1 : pattern := mkPattern
  [2; 0; 2; 1; 2; 2; 1; 0; 4; 1; 5; 3]%nat
  ["deployment.orchestrator.apis"; "v1"; "deployments"; "depl_id"].
Definition pattern_DeleteDeployment_0 : pattern := mkPattern
  [2; 0; 2; 1; 1; 0; 4; 1; 5; 2; 2; 3; 2; 4; 1; 0; 4; 1; 5; 5]%nat
  ["v1"; "projects"; "projectName"; "appdeployment"; "deployments"; "depl_id"].
Definition pattern_DeleteDeployment_1 : pattern := mkPattern
  [2; 0; 2; 1; 2; 2; 1; 0; 4; 1; 5; 3]%nat
  ["deployment.orchestrator.apis"; "v1"; "deployments"; "depl_id"].
Definition pattern_GetDeploymentsStatus_0 : pattern := mkPattern
  [2; 0; 2; 1; 1; 0; 4; 1; 5; 2; 2; 3; 2; 4; 2; 5]%nat
  ["v1"; "projects"; "projectName"; "appdeployment"; "summary"; "deployments_status"].
Definition pattern_GetDeploymentsStatus_1 : pattern := mkPattern
  [2; 0; 2; 1; 2; 2; 2; 3]%nat
  ["deployment.orchestrator.apis"; "v1"; "summary"; "deployments_status"].
Definition pattern_ListDeploymentClusters_0 : pattern := mkPattern
  [2; 0; 2; 1; 1; 0; 4; 1; 5; 2; 2; 3; 2; 4; 1; 0; 4; 1; 5; 5; 2; 6]%nat
  ["v1"; "projects"; "projectName"; "appdeployment"; "deployments"; "depl_id"; "clusters"].
Definition pattern_ListDeploymentClusters_1 : pattern := mkPattern
  [2; 0; 2; 1; 2; 2; 1; 0; 4; 1; 5; 3; 2; 4]%nat
  ["deployment.orchestrator.apis"; "v1"; "deployments"; "depl_id"; "clusters"].
Definition pattern_ListClusters_0 : pattern := mkPattern
  [2; 0; 2; 1; 1; 0; 4; 1; 5; 2; 2; 3; 2; 4]%nat
  ["v1"; "projects"; "projectName"; "appdeployment"; "clusters"].
Definition pattern_ListClusters_1 : pattern := mkPattern
  [2; 0; 2; 1; 2; 2]%nat
  ["deployment.orchestrator.apis"; "v1"; "clusters"].
Definition pattern_GetCluster_0 : pattern := mkPattern
  [2; 0; 2; 1; 1; 0; 4; 1; 5; 2; 2; 3; 2; 4; 1; 0; 4; 1; 5; 5]%nat
  ["v1"; "projects"; "projectName"; "appdeployment"; "clusters"; "cluster_id"].
Definition pattern_GetCluster_1 : pattern := mkPattern
  [2; 0; 2; 1; 2; 2; 1; 0; 4; 1; 5; 3]%nat
  ["deployment.orchestrator.apis"; "v1"; "clusters"; "cluster_id"].

(** ** The gateways *)

Section Gateways.
Context {num E : Type} {R : E -> Type} {A : Type} {rt : GatewayRuntime}.

(** A request message: [ProjectName] and the rest. *)
Definition adm_msg : Type := string * rpc num.

Definition no_page : ListRequest := mkListRequest 0 0 "" "".

Context (PopulateQueryParameters : adm_msg -> gmap string (list string) -> list string -> res adm_msg).
(** [marshaler.NewDecoder(...).Decode(&protoReq.Deployment)]; [None] is io.EOF. *)
Context (decode_body : string -> res (option (option (Request num) * store))).
Context (client : context -> adm_msg -> gp E R A).

Definition no_deployment : option (Request num) * store := (None, []).

Definition filter_ListDeployments_0 : list string := ["projectName"].

Definition request_ListDeployments_0 (ctx : context) (req : http_request) (params : gmap string string) : gp E R A :=
  do! projectName := done (path_param params "projectName") in
  do! protoReq := done (query_params PopulateQueryParameters req (projectName, RpcListDeployments no_page []) filter_ListDeployments_0) in
  client ctx protoReq.

Definition filter_ListDeployments_1 : list string := [].

Definition request_ListDeployments_1 (ctx : context) (req : http_request) (params : gmap string string) : gp E R A :=
  do! protoReq := done (query_params PopulateQueryParameters req ("", RpcListDeployments no_page []) filter_ListDeployments_1) in
  client ctx protoReq.

Definition filter_ListDeploymentsPerCluster_0 : list string := ["projectName"; "cluster_id"; "clusterId"].

Definition request_ListDeploymentsPerCluster_0 (ctx : context) (req : http_request) (params : gmap string string) : gp E R A :=
  do! projectName := done (path_param params "projectName") in
  do! cluster_id := done (path_param params "cluster_id") in
  do! protoReq := done (query_params PopulateQueryParameters req (projectName, RpcListDeploymentsPerCluster cluster_id) filter_ListDeploymentsPerCluster_0) in
  client ctx protoReq.

Definition filter_ListDeploymentsPerCluster_1 : list string := ["cluster_id"; "clusterId"].

Definition request_ListDeploymentsPerCluster_1 (ctx : context) (req : http_request) (params : gmap string string) : gp E R A :=
  do! cluster_id := done (path_param params "cluster_id") in
  do! protoReq := done (query_params PopulateQueryParameters req ("", RpcListDeploymentsPerCluster cluster_id) filter_ListDeploymentsPerCluster_1) in
  client ctx protoReq.

Definition request_CreateDeployment_0 (ctx : context) (req : http_request) (params : gmap string string) : gp E R A :=
  do! deployment := done (body_field decode_body req no_deployment) in
  do! projectName := done (path_param params "projectName") in
  client ctx (projectName, RpcCreateDeployment deployment.1 deployment.2).

Definition filter_CreateDeployment_1 : list string := ["deployment"].

Definition request_CreateDeployment_1 (ctx : context) (req : http_request) (params : gmap string string) : gp E R A :=
  do! deployment := done (body_field decode_body req no_deployment) in
  do! protoReq := done (query_params PopulateQueryParameters req ("", RpcCreateDeployment deployment.1 deployment.2) filter_CreateDeployment_1) in
  client ctx protoReq.

Definition request_GetDeployment_0 (ctx : context) (req : http_request) (params : gmap string string) : gp E R A :=
  do! projectName := done (path_param params "projectName") in
  do! depl_id := done (path_param params "depl_id") in
  client ctx (projectName, RpcGetDeployment depl_id).

Definition filter_GetDeployment_1 : list string := ["depl_id"; "deplId"].

Definition request_GetDeployment_1 (ctx : context) (req : http_request) (params : gmap string string) : gp E R A :=
  do! depl_id := done (path_param params "depl_id") in
  do! protoReq := done (query_params PopulateQueryParameters req ("", RpcGetDeployment depl_id) filter_GetDeployment_1) in
  client ctx protoReq.

Definition request_UpdateDeployment_0 (ctx : context) (req : http_request) (params : gmap string string) : gp E R A :=
  do! deployment := done (body_field decode_body req no_deployment) in
  do! projectName := done (path_param params "projectName") in
  do! depl_id := done (path_param params "depl_id") in
  client ctx (projectName, RpcUpdateDeployment depl_id deployment.1 deployment.2).

Definition filter_UpdateDeployment_1 : list string := ["deployment"; "depl_id"; "deplId"].

Definition request_UpdateDeployment_1 (ctx : context) (req : http_request) (params : gmap string string) : gp E R A :=
  do! deployment := done (body_field decode_body req no_deployment) in
  do! depl_id := done (path_param params "depl_id") in
  do! protoReq := done (query_params PopulateQueryParameters req ("", RpcUpdateDeployment depl_id deployment.1 deployment.2) filter_UpdateDeployment_1) in
  client ctx protoReq.

Definition filter_DeleteDeployment_0 : list string := ["projectName"; "depl_id"; "deplId"].

Definition request_DeleteDeployment_0 (ctx : context) (req : http_request) (params : gmap string string) : gp E R A :=
  do! projectName := done (path_param params "projectName") in
  do! depl_id := done (path_param params "depl_id") in
  do! protoReq := done (query_params PopulateQueryParameters req (projectName, RpcDeleteDeployment depl_id PARENT_ONLY) filter_DeleteDeployment_0) in
  client ctx protoReq.

Definition filter_DeleteDeployment_1 : list string := ["depl_id"; "deplId"].

Definition request_DeleteDeployment_1 (ctx : context) (req : http_request) (params : gmap string string) : gp E R A :=
  do! depl_id := done (path_param params "depl_id") in
  do! protoReq := done (query_params PopulateQueryParameters req ("", RpcDeleteDeployment depl_id PARENT_ONLY) filter_DeleteDeployment_1) in
  client ctx protoReq.

Definition filter_GetDeploymentsStatus_0 : list string := ["projectName"].

Definition request_GetDeploymentsStatus_0 (ctx : context) (req : http_request) (params : gmap string string) : gp E R A :=
  do! projectName := done (path_param params "projectName") in
  do! protoReq := done (query_params PopulateQueryParameters req (projectName, RpcGetDeploymentsStatus []) filter_GetDeploymentsStatus_0) in
  client ctx protoReq.

Definition filter_GetDeploymentsStatus_1 : list string := [].

Definition request_GetDeploymentsStatus_1 (ctx : context) (req : http_request) (params : gmap string string) : gp E R A :=
  do! protoReq := done (query_params PopulateQueryParameters req ("", RpcGetDeploymentsStatus []) filter_GetDeploymentsStatus_1) in
  client ctx protoReq.

Definition filter_ListDeploymentClusters_0 : list string := ["projectName"; "depl_id"; "deplId"].

Definition request_ListDeploymentClusters_0 (ctx : context) (req : http_request) (params : gmap string string) : gp E R A :=
  do! projectName := done (path_param params "projectName") in
  do! depl_id := done (path_param params "depl_id") in
  do! protoReq := done (query_params PopulateQueryParameters req (projectName, RpcListDeploymentClusters depl_id no_page) filter_ListDeploymentClusters_0) in
  client ctx protoReq.

Definition filter_ListDeploymentClusters_1 : list string := ["depl_id"; "deplId"].

Definition request_ListDeploymentClusters_1 (ctx : context) (req : http_request) (params : gmap string string) : gp E R A :=
  do! depl_id := done (path_param params "depl_id") in
  do! protoReq := done (query_params PopulateQueryParameters req ("", RpcListDeploymentClusters depl_id no_page) filter_ListDeploymentClusters_1) in
  client ctx protoReq.

Definition filter_ListClusters_0 : list string := ["projectName"].

Definition request_ListClusters_0 (ctx : context) (req : http_request) (params : gmap string string) : gp E R A :=
  do! projectName := done (path_param params "projectName") in
  do! protoReq := done (query_params PopulateQueryParameters req (projectName, RpcListClusters no_page) filter_ListClusters_0) in
  client ctx protoReq.

Definition filter_ListClusters_1 : list string := [].

Definition request_ListClusters_1 (ctx : context) (req : http_request) (params : gmap string string) : gp E R A :=
  do! protoReq := done (query_params PopulateQueryParameters req ("", RpcListClusters no_page) filter_ListClusters_1) in
  client ctx protoReq.

Definition request_GetCluster_0 (ctx : context) (req : http_request) (params : gmap string string) : gp E R A :=
  do! projectName := done (path_param params "projectName") in
  do! cluster_id := done (path_param params "cluster_id") in
  client ctx (projectName, RpcGetCluster cluster_id).

Definition filter_GetCluster_1 : list string := ["cluster_id"; "clusterId"].

Definition request_GetCluster_1 (ctx : context) (req : http_request) (params : gmap string string) : gp E R A :=
  do! cluster_id := done (path_param params "cluster_id") in
  do! protoReq := done (query_params PopulateQueryParameters req ("", RpcGetCluster cluster_id) filter_GetCluster_1) in
  client ctx protoReq.

Definition handle_ListDeployments : list (binding (gp E R A)) := [
  mkBinding "GET" pattern_ListDeployments_0 request_ListDeployments_0;
  mkBinding "GET" pattern_ListDeployments_1 request_ListDeployments_1].

Definition handle_ListDeploymentsPerCluster : list (binding (gp E R A)) := [
  mkBinding "GET" pattern_ListDeploymentsPerCluster_0 request_ListDeploymentsPerCluster_0;
  mkBinding "GET" pattern_ListDeploymentsPerCluster_1 request_ListDeploymentsPerCluster_1].

Definition handle_CreateDeployment : list (binding (gp E R A)) := [
  mkBinding "POST" pattern_CreateDeployment_0 request_CreateDeployment_0;
  mkBinding "POST" pattern_CreateDeployment_1 request_CreateDeployment_1].

Definition handle_GetDeployment : list (binding (gp E R A)) := [
  mkBinding "GET" pattern_GetDeployment_0 request_GetDeployment_0;
  mkBinding "GET" pattern_GetDeployment_1 request_GetDeployment_1].

Definition handle_UpdateDeployment : list (binding (gp E R A)) := [
  mkBinding "PUT" pattern_UpdateDeployment_0 request_UpdateDeployment_0;
  mkBinding "PUT" pattern_UpdateDeployment_1 request_UpdateDeployment_1].

Definition handle_DeleteDeployment : list (binding (gp E R A)) := [
  mkBinding "DELETE" pattern_DeleteDeployment_0 request_DeleteDeployment_0;
  mkBinding "DELETE" pattern_DeleteDeployment_1 request_DeleteDeployment_1].

Definition handle_GetDeploymentsStatus : list (binding (gp E R A)) := [
  mkBinding "GET" pattern_GetDeploymentsStatus_0 request_GetDeploymentsStatus_0;
  mkBinding "GET" pattern_GetDeploymentsStatus_1 request_GetDeploymentsStatus_1].

Definition handle_ListDeploymentClusters : list (binding (gp E R A)) := [
  mkBinding "GET" pattern_ListDeploymentClusters_0 request_ListDeploymentClusters_0;
  mkBinding "GET" pattern_ListDeploymentClusters_1 request_ListDeploymentClusters_1].

Definition RegisterDeploymentServiceHandlerClient : list (binding (gp E R A)) :=
  handle_ListDeployments ++ handle_ListDeploymentsPerCluster ++ handle_CreateDeployment ++ handle_GetDeployment ++ handle_UpdateDeployment ++ handle_DeleteDeployment ++ handle_GetDeploymentsStatus ++ handle_ListDeploymentClusters.

Definition handle_ListClusters : list (binding (gp E R A)) := [
  mkBinding "GET" pattern_ListClusters_0 request_ListClusters_0;
  mkBinding "GET" pattern_ListClusters_1 request_ListClusters_1].

Definition handle_GetCluster : list (binding (gp E R A)) := [
  mkBinding "GET" pattern_GetCluster_0 request_GetCluster_0;
  mkBinding "GET" pattern_GetCluster_1 request_GetCluster_1].

Definition RegisterClusterServiceHandlerClient : list (binding (gp E R A)) :=
  handle_ListClusters ++ handle_GetCluster.

(** What [RunWithOptions] registers. *)
Definition adm_bindings : list (binding (gp E R A)) :=
  RegisterDeploymentServiceHandlerClient ++ RegisterClusterServiceHandlerClient.

(** ** The server *)

Context (ResolveAndValidateProjectID : string -> string -> string -> res string).
Context (AnnotateContext : Header -> gmap string (list string) -> res (gmap string (list string))).
Context (HandleRoutingError : string -> string -> gerror).
(** The middlewares for all routes, of other libraries: the error of one that
    does not let the request pass. *)
Context (middlewares : http_request -> option gerror).
(** gin: whether a method and a path belong to one of the two groups of routes
    registered below [basePath], or the error. *)
Context (gin : string -> string -> string -> option gerror).

Definition adm_serve (basePath : string) (req : http_request) : gp E R A :=
  match middlewares req with
  | Some e => fail e
  | None =>
      match gin basePath (h_method req) (h_path req) with
      | Some e => fail e
      | None => gateway ResolveAndValidateProjectID AnnotateContext HandleRoutingError adm_bindings req
      end
  end.

End Gateways.
Arguments adm_msg : clear implicits.

(** ** The API, for reference *)

Inductive adm_route : Type :=
  | RtListDeployments
  | RtListDeploymentsPerCluster (clusterId : string)
  | RtCreateDeployment
  | RtGetDeployment (deplId : string)
  | RtUpdateDeployment (deplId : string)
  | RtDeleteDeployment (deplId : string)
  | RtGetDeploymentsStatus
  | RtListDeploymentClusters (deplId : string)
  | RtListClusters
  | RtGetCluster (clusterId : string).

Definition adm_method (r : adm_route) : string :=
  match r with RtCreateDeployment => "POST" | RtUpdateDeployment _ => "PUT" | RtDeleteDeployment _ => "DELETE" | _ => "GET" end.

(** The segments below the project, or below the version. *)
Definition below (r : adm_route) : list string :=
  match r with
  | RtListDeployments | RtCreateDeployment => ["deployments"]
  | RtListDeploymentsPerCluster c => ["deployments"; "clusters"; c]
  | RtGetDeployment d | RtUpdateDeployment d | RtDeleteDeployment d => ["deployments"; d]
  | RtGetDeploymentsStatus => ["summary"; "deployments_status"]
  | RtListDeploymentClusters d => ["deployments"; d; "clusters"]
  | RtListClusters => ["clusters"]
  | RtGetCluster c => ["clusters"; c]
  end.

Definition adm_path (legacy : bool) (project : string) (r : adm_route) : list string :=
  if legacy then "deployment.orchestrator.apis" :: "v1" :: below r
  else "v1" :: "projects" :: project :: "appdeployment" :: below r.

(** The names of the fields that the path and the body give. *)
Definition given_fields (r : adm_route) : list string :=
  match r with
  | RtListDeployments | RtGetDeploymentsStatus | RtListClusters => []
  | RtListDeploymentsPerCluster _ | RtGetCluster _ => ["cluster_id"; "clusterId"]
  | RtCreateDeployment => ["deployment"]
  | RtGetDeployment _ | RtDeleteDeployment _ | RtListDeploymentClusters _ => ["depl_id"; "deplId"]
  | RtUpdateDeployment _ => ["deployment"; "depl_id"; "deplId"]
  end.

(** Whether the query is read: there are fields left that the path and the body
    do not give. *)
Definition reads_query (legacy : bool) (r : adm_route) : bool :=
  legacy || match r with RtCreateDeployment | RtGetDeployment _ | RtUpdateDeployment _ | RtGetCluster _ => false | _ => true end.

Lemma not_both (l : bool) p r l' p' r' :
  adm_path l p r = adm_path l' p' r' -> adm_method r = adm_method r' ->
  l = l' /\ (r = r' \/ (r = RtListDeploymentsPerCluster "clusters" /\ r' = RtListDeploymentClusters "clusters") \/
                       (r' = RtListDeploymentsPerCluster "clusters" /\ r = RtListDeploymentClusters "clusters")) /\ (l = true \/ p = p').
Proof.
  intros H Hm. destruct l, l'; try discriminate H; destruct r, r'; cbn in H, Hm; simplify_eq; split_and!; auto.
Qed.

Section Routes.
Context {num E : Type} {R : E -> Type} {A : Type} {rt : GatewayRuntime}.
Context (PopulateQueryParameters : adm_msg num -> gmap string (list string) -> list string -> res (adm_msg num)).
Context (decode_body : string -> res (option (option (Request num) * store))).
Context (client : context -> adm_msg num -> gp E R A).
Context (ResolveAndValidateProjectID : string -> string -> string -> res string).
Context (AnnotateContext : Header -> gmap string (list string) -> res (gmap string (list string))).
Context (HandleRoutingError : string -> string -> gerror) (middlewares : http_request -> option gerror).
Context (gin : string -> string -> string -> option gerror).

(** The message of a route, before the query is read. *)
Definition adm_message (r : adm_route) (req : http_request) : res (rpc num) :=
  match r with
  | RtListDeployments => Ok (RpcListDeployments no_page [])
  | RtListDeploymentsPerCluster c => Ok (RpcListDeploymentsPerCluster c)
  | RtCreateDeployment =>
      try deployment := body_field decode_body req no_deployment in Ok (RpcCreateDeployment deployment.1 deployment.2)
  | RtGetDeployment d => Ok (RpcGetDeployment d)
  | RtUpdateDeployment d =>
      try deployment := body_field decode_body req no_deployment in Ok (RpcUpdateDeployment d deployment.1 deployment.2)
  | RtDeleteDeployment d => Ok (RpcDeleteDeployment d PARENT_ONLY)
  | RtGetDeploymentsStatus => Ok (RpcGetDeploymentsStatus [])
  | RtListDeploymentClusters d => Ok (RpcListDeploymentClusters d no_page)
  | RtListClusters => Ok (RpcListClusters no_page)
  | RtGetCluster c => Ok (RpcGetCluster c)
  end.

(** The call that a path asks for. *)
Definition adm_call (legacy : bool) (project : string) (r : adm_route) (ctx : context) (req : http_request) : gp E R A :=
  do! message := done (adm_message r req) in
  if reads_query legacy r then
    do! protoReq := done (query_params PopulateQueryParameters req (if legacy then "" else project, message)
                            (if legacy then given_fields r else "projectName" :: given_fields r)) in
    client ctx protoReq
  else client ctx (project, message).

Definition adm_forward (legacy : bool) (project : string) (r : adm_route) (req : http_request) : gp E R A :=
  do! md := done (AnnotateContext (h_header req) (project_metadata ResolveAndValidateProjectID req)) in
  adm_call legacy project r (Some md) req.

Ltac calls :=
  intros ctx req; cbn [b_request];
  cbv [adm_call adm_message reads_query orb given_fields
    request_ListDeployments_0 request_ListDeployments_1 request_ListDeploymentsPerCluster_0 request_ListDeploymentsPerCluster_1 request_CreateDeployment_0 request_CreateDeployment_1 request_GetDeployment_0 request_GetDeployment_1 request_UpdateDeployment_0 request_UpdateDeployment_1 request_DeleteDeployment_0 request_DeleteDeployment_1 request_GetDeploymentsStatus_0 request_GetDeploymentsStatus_1 request_ListDeploymentClusters_0 request_ListDeploymentClusters_1 request_ListClusters_0 request_ListClusters_1 request_GetCluster_0 request_GetCluster_1
    filter_ListDeployments_0 filter_ListDeployments_1 filter_ListDeploymentsPerCluster_0 filter_ListDeploymentsPerCluster_1 filter_CreateDeployment_1 filter_GetDeployment_1 filter_UpdateDeployment_1 filter_DeleteDeployment_0 filter_DeleteDeployment_1 filter_GetDeploymentsStatus_0 filter_GetDeploymentsStatus_1 filter_ListDeploymentClusters_0 filter_ListDeploymentClusters_1 filter_ListClusters_0 filter_ListClusters_1 filter_GetCluster_1];
  try (destruct (body_field decode_body req no_deployment); [|reflexivity]);
  repeat (rewrite ?path_param_insert, ?path_param_other by done; cbn [res_bind nbind pbind done]); reflexivity.

Ltac route l :=
  exists l; eexists;
  first [ eexists RtListDeployments; split; [reflexivity|split; [reflexivity|]]
        | eexists (RtListDeploymentsPerCluster _); split; [reflexivity|split; [reflexivity|]]
        | eexists RtCreateDeployment; split; [reflexivity|split; [reflexivity|]]
        | eexists (RtGetDeployment _); split; [reflexivity|split; [reflexivity|]]
        | eexists (RtUpdateDeployment _); split; [reflexivity|split; [reflexivity|]]
        | eexists (RtDeleteDeployment _); split; [reflexivity|split; [reflexivity|]]
        | eexists RtGetDeploymentsStatus; split; [reflexivity|split; [reflexivity|]]
        | eexists (RtListDeploymentClusters _); split; [reflexivity|split; [reflexivity|]]
        | eexists RtListClusters; split; [reflexivity|split; [reflexivity|]]
        | eexists (RtGetCluster _); split; [reflexivity|split; [reflexivity|]] ].

Lemma route_call m b segs comps params :
  b ∈ adm_bindings PopulateQueryParameters decode_body client -> b_method b = m -> segments (b_pattern b) = Some segs ->
  bind segs comps = Some params ->
  exists l p r, comps = adm_path l p r /\ adm_method r = m /\ forall ctx req, b_request b ctx req params = adm_call l p r ctx req.
Proof.
  intros Hin <- Hs Hb. apply list_elem_of_lookup in Hin as [i Hi].
  do 20 (destruct i as [|i];
    [injection Hi as <-; vm_compute in Hs; injection Hs as <-; binds Hb; first [route false | route true]; calls|]).
  discriminate Hi.
  Unshelve. all: exact "".
Qed.

(** The place of a path's handler. *)
Definition place (l : bool) (r : adm_route) : nat :=
  (2 * match r with
       | RtListDeployments => 0 | RtListDeploymentsPerCluster _ => 1 | RtCreateDeployment => 2 | RtGetDeployment _ => 3
       | RtUpdateDeployment _ => 4 | RtDeleteDeployment _ => 5 | RtGetDeploymentsStatus => 6 | RtListDeploymentClusters _ => 7
       | RtListClusters => 8 | RtGetCluster _ => 9
       end + if l then 1 else 0)%nat.

Lemma route_bound l p r :
  exists b segs, b ∈ adm_bindings PopulateQueryParameters decode_body client /\ b_method b = adm_method r /\
    segments (b_pattern b) = Some segs /\ bind segs (adm_path l p r) <> None.
Proof.
  destruct (adm_bindings PopulateQueryParameters decode_body client !! place l r) as [b|] eqn:Hb; [|by destruct l, r].
  exists b. apply list_elem_of_lookup_2 in Hb as Hin.
  destruct l, r; injection Hb as <-; eexists; (split; [exact Hin|split; [reflexivity|split; [vm_compute; reflexivity|]]]);
    cbn [adm_path below]; repeat first [apply bind_more_lit | apply bind_more_var]; done.
Qed.

(** gin gives the paths below the two prefixes to the gateway, when nothing is
    put before them. *)
Definition adm_gin : Prop := forall m l, m ∈ ["GET"; "POST"; "PUT"; "DELETE"] -> l <> [] ->
  gin "" m (path_of ("v1" :: "projects" :: l)) = None /\
  gin "" m (path_of ("deployment.orchestrator.apis" :: "v1" :: l)) = None.

Abbreviation served := (adm_serve PopulateQueryParameters decode_body client ResolveAndValidateProjectID AnnotateContext HandleRoutingError
  middlewares gin).

Lemma adm_unspelled base req comps :
  h_path req = path_of comps -> Forall plain comps -> comps <> [] ->
  (forall l p r, comps = adm_path l p r -> adm_method r = h_method req -> form_post (h_method req) (h_header req) = true) ->
  (exists e, served base req = fail e) \/
  form_post (h_method req) (h_header req) = true /\ exists l p r, comps = adm_path l p r /\ served base req = adm_forward l p r req.
Proof.
  intros Hpath Hplain Hne Hno. unfold adm_serve.
  destruct (middlewares req) as [e|]; [left; by exists e|]. destruct (gin _ _ _) as [e|]; [left; by exists e|].
  edestruct (gateway_cases ResolveAndValidateProjectID AnnotateContext HandleRoutingError
    (adm_bindings PopulateQueryParameters decode_body client) req) as [(b & segs & params & Hin & Hs & Hb & Hm & ->)|[Hnone ->]]; [done..| |left; by eexists].
  destruct (route_call _ _ _ _ _ Hin eq_refl Hs Hb) as (l & p & r & -> & Hr & Hcall). right. split.
  - destruct (form_post _ _) eqn:Hf; [done|]. apply (Hno l p r eq_refl). rewrite Hr. by apply Hm.
  - exists l, p, r. split; [done|]. unfold adm_forward. destruct (AnnotateContext _ _); [apply Hcall|done].
Qed.

(** The one path that two methods share. *)
Definition rival (r : adm_route) : adm_route :=
  match r with
  | RtListDeploymentsPerCluster c => if bool_decide (c = "clusters") then RtListDeploymentClusters "clusters" else r
  | RtListDeploymentClusters d => if bool_decide (d = "clusters") then RtListDeploymentsPerCluster "clusters" else r
  | _ => r
  end.

Lemma adm_spelled l p r req :
  adm_gin -> middlewares req = None -> h_path req = path_of (adm_path l p r) -> Forall plain (adm_path l p r) ->
  form_post (h_method req) (h_header req) = false -> adm_method r = h_method req ->
  served "" req = adm_forward l p r req \/ served "" req = adm_forward l p (rival r) req.
Proof.
  intros Hgin Hmw Hpath Hplain Hpost Hm. unfold adm_serve. rewrite Hmw.
  assert (gin "" (h_method req) (h_path req) = None) as ->.
  { rewrite Hpath, <- Hm. assert (adm_method r ∈ ["GET"; "POST"; "PUT"; "DELETE"]) as Hin by (destruct r; cbn; set_solver).
    destruct l; [apply (Hgin _ (below r) Hin); by destruct r|by apply (Hgin _ (p :: "appdeployment" :: below r) Hin)]. }
  edestruct (gateway_cases ResolveAndValidateProjectID AnnotateContext HandleRoutingError
    (adm_bindings PopulateQueryParameters decode_body client) req) as [(b & segs & params & Hin & Hs & Hbind & Hb & ->)|[Hnone _]];
    [exact Hpath|exact Hplain|by destruct l|specialize (Hb Hpost)|specialize (Hnone Hpost)].
  - destruct (route_call _ _ _ _ _ Hin Hb Hs Hbind) as (l' & p' & r' & Heq & Hr & Hcall).
    apply not_both in Heq as (<- & Hr' & Hp); [|congruence].
    assert (forall r'', adm_call l p r'' = adm_call l p' r'') as Hsame by (intros r''; by destruct Hp as [->| ->]; [destruct r''|]).
    assert (forall r'', r' = r'' -> (do! md := done (AnnotateContext (h_header req) (project_metadata ResolveAndValidateProjectID req)) in
              b_request b (Some md) req params) = adm_forward l p r'' req) as Hfwd.
    { intros r'' <-. unfold adm_forward. rewrite Hsame. destruct (AnnotateContext _ _); [apply Hcall|done]. }
    destruct Hr' as [->|[[-> ->]|[-> ->]]]; [by left; apply Hfwd|right; by apply Hfwd..].
  - destruct (route_bound l p r) as (b & segs & Hin & Hb & Hs & Hbind). destruct Hbind. apply (Hnone b); [done|congruence|done].
Qed.

End Routes.

(** *** At work *)

Definition adm_sample_gin (base m path : string) : option gerror := None.

Definition adm_request (method path : string) : http_request := mkHttp method path ∅ (Ok ∅) (Ok "").

Definition echo (ctx : context) (m : adm_msg Z) : gp Empty_set (fun _ => unit) (adm_msg Z) := ok m.

Definition echo_served (req : http_request) : gp Empty_set (fun _ => unit) (adm_msg Z) :=
  adm_serve (rt := first_runtime) (fun m _ _ => Ok m) (fun _ => Ok None) echo (fun _ _ h => Ok h) (fun _ md => Ok md)
    (fun _ _ => mkErr KNotFound "404") (fun _ => None) adm_sample_gin "" req.

