(* ===== verification/CertWatch.v ===== *)
(** * The certificate of the Git server: [WatchGitCaCertFile] and [GetGitCaCert]
    ([pkg/utils/utils.go])

    The controllers clone with a certificate that a goroutine keeps up to date
    with a file.  What [WatchGitCaCertFile] and its goroutine do, one action at
    a time, and the changes to the file by others, are the steps of [step];
    [hstep] is the goroutine alone.  The theorems are about every reachable
    state. *)

From stdpp Require Import relations.
From S2P Require Import Prelude.

(** Where [WatchGitCaCertFile] is. *)
Inductive Phase : Type :=
  | PStat                        (* os.Stat *)
  | PRead                        (* os.ReadFile *)
  | PSet (cert : string)         (* SetGitCaCert(cert) *)
  | PNewWatcher                  (* fsnotify.NewWatcher *)
  | PAdd                         (* the goroutine runs; watcher.Add *)
  | PWait                        (* <-done *)
  | PReturned.                   (* watcher.Close *)

(** Where its goroutine is. *)
Inductive Loop : Type :=
  | LNone                        (* not started *)
  | LSelect                      (* select *)
  | LReload                      (* os.ReadFile, after an event *)
  | LSet (cert : string)         (* SetGitCaCert(cert) *)
  | LDone                        (* done <- true *)
  | LReturned.

#[export] Instance Phase_eq_dec : EqDecision Phase.
Proof. solve_decision. Defined.
#[export] Instance Loop_eq_dec : EqDecision Loop.
Proof. solve_decision. Defined.

Record watch : Type := mkWatch {
  w_file : option string;        (* the file; [None]: it does not exist *)
  w_cert : string;               (* gitCaCert *)
  w_phase : Phase;
  w_loop : Loop;
  w_events : list Z;             (* watcher.Events: the [Op] of each *)
  w_cancelled : bool;            (* ctx *)
  w_killed : bool                (* log.Fatal *)
}.

Definition set_file (f : option string) (w : watch) : watch :=
  mkWatch f (w_cert w) (w_phase w) (w_loop w) (w_events w) (w_cancelled w) (w_killed w).
Definition SetGitCaCert (cert : string) (w : watch) : watch :=
  mkWatch (w_file w) cert (w_phase w) (w_loop w) (w_events w) (w_cancelled w) (w_killed w).
Definition set_phase (p : Phase) (w : watch) : watch :=
  mkWatch (w_file w) (w_cert w) p (w_loop w) (w_events w) (w_cancelled w) (w_killed w).
Definition set_loop (l : Loop) (w : watch) : watch :=
  mkWatch (w_file w) (w_cert w) (w_phase w) l (w_events w) (w_cancelled w) (w_killed w).
Definition set_events (q : list Z) (w : watch) : watch :=
  mkWatch (w_file w) (w_cert w) (w_phase w) (w_loop w) q (w_cancelled w) (w_killed w).
Definition cancel (w : watch) : watch :=
  mkWatch (w_file w) (w_cert w) (w_phase w) (w_loop w) (w_events w) true (w_killed w).
Definition fatal (w : watch) : watch :=
  mkWatch (w_file w) (w_cert w) (w_phase w) (w_loop w) (w_events w) (w_cancelled w) true.

Definition GetGitCaCert (w : watch) : string := w_cert w.

(** The directory is watched from [watcher.Add] to [watcher.Close]. *)
Definition watching (w : watch) : bool := bool_decide (w_phase w = PWait).

Definition notify (op : Z) (w : watch) : watch :=
  if watching w then set_events (w_events w ++ [op]) w else w.

Definition start (file : option string) : watch := mkWatch file "" PStat LNone [] false false.

Section Watch.
(** [fsnotify.Write] and [fsnotify.Create] *)
Context (Write Create : Z).

Definition is_update (op : Z) : bool :=
  bool_decide (Z.land op Write = Write) || bool_decide (Z.land op Create = Create).

(** [os.Stat]: only an error that says that the file does not exist ends the
    function.  A read may fail even if the file exists. *)
Inductive main_step : watch -> watch -> Prop :=
  | stat_absent w : w_phase w = PStat -> w_file w = None -> main_step w (set_phase PReturned w)
  | stat_other w : w_phase w = PStat -> main_step w (set_phase PRead w)
  | read_ok w c : w_phase w = PRead -> w_file w = Some c -> main_step w (set_phase (PSet c) w)
  | read_failed w : w_phase w = PRead -> main_step w (fatal w)
  | set_cert w c : w_phase w = PSet c -> main_step w (set_phase PNewWatcher (SetGitCaCert c w))
  | new_watcher w : w_phase w = PNewWatcher -> main_step w (set_loop LSelect (set_phase PAdd w))
  | new_watcher_failed w : w_phase w = PNewWatcher -> main_step w (fatal w)
  | add_ok w : w_phase w = PAdd -> main_step w (set_phase PWait w)
  | add_failed w : w_phase w = PAdd -> main_step w (fatal w)
  | done_received w : w_phase w = PWait -> w_loop w = LDone ->
      main_step w (set_loop LReturned (set_phase PReturned w)).

Inductive loop_step : watch -> watch -> Prop :=
  | event_received w op q : w_loop w = LSelect -> w_events w = op :: q ->
      loop_step w (set_loop (if is_update op then LReload else LSelect) (set_events q w))
  | error_received w : w_loop w = LSelect -> loop_step w w
  | watcher_closed w : w_loop w = LSelect -> w_phase w = PReturned -> loop_step w (set_loop LDone w)
  | ctx_done w : w_loop w = LSelect -> w_cancelled w = true -> loop_step w (set_loop LDone w)
  | reload_ok w c : w_loop w = LReload -> w_file w = Some c -> loop_step w (set_loop (LSet c) w)
  | reload_failed w : w_loop w = LReload -> loop_step w (fatal w)
  | reload_set w c : w_loop w = LSet c -> loop_step w (set_loop LSelect (SetGitCaCert c w)).

(** What others do.  fsnotify reports a file that is written or put in its
    place as a write or a creation, and reports what happens to the other files
    of the directory. *)
Inductive env_step : watch -> watch -> Prop :=
  | file_written w c op : Z.land op Write = Write \/ Z.land op Create = Create ->
      env_step w (notify op (set_file (Some c) w))
  | file_removed w op : env_step w (notify op (set_file None w))
  | other_file w op : env_step w (notify op w)
  | ctx_cancelled w : env_step w (cancel w).

Inductive step (w : watch) : watch -> Prop :=
  | step_main w' : w_killed w = false -> main_step w w' -> step w w'
  | step_loop w' : w_killed w = false -> loop_step w w' -> step w w'
  | step_env w' : w_killed w = false -> env_step w w' -> step w w'.

Definition reachable (w : watch) : Prop := exists file, rtc step (start file) w.

(** The goroutine on its own, if its reads succeed. *)
Definition hstep (w : watch) : watch :=
  match w_loop w with
  | LSelect =>
      match w_events w with
      | op :: q => set_loop (if is_update op then LReload else LSelect) (set_events q w)
      | [] => w
      end
  | LReload =>
      match w_file w with Some c => set_loop (LSet c) w | None => fatal w end
  | LSet c => set_loop LSelect (SetGitCaCert c w)
  | _ => w
  end.

Lemma hstep_step (w : watch) : hstep w = w \/ loop_step w (hstep w).
Proof.
  unfold hstep. destruct (w_loop w) eqn:Hl; auto.
  - destruct (w_events w) eqn:Hq; [auto|right; by constructor].
  - destruct (w_file w) eqn:Hf; right; by constructor.
  - right. by constructor.
Qed.

End Watch.

(** ** Facts about the certificate *)

Section Facts.
Context (Write Create : Z).

#[local] Abbreviation step := (step Write Create).
#[local] Abbreviation is_update := (is_update Write Create).
#[local] Abbreviation reachable := (reachable Write Create).
#[local] Abbreviation hstep := (hstep Write Create).

Definition live (w : watch) : bool :=
  match w_loop w with LSelect | LReload | LSet _ => true | _ => false end.

(** The certificate is that of the file, is about to be, or the file is gone. *)
Definition synced (w : watch) : Prop :=
  existsb is_update (w_events w) = true \/ w_loop w = LReload \/ w_file w = None \/
  match w_loop w with LSet c => w_file w = Some c | _ => w_file w = Some (w_cert w) end.

(** Watched and live, in step with the file; or the goroutine has ended. *)
Definition follows (w : watch) : Prop :=
  (w_phase w = PWait /\ synced w) \/ (live w = false /\ (w_phase w = PWait \/ w_phase w = PReturned)).

Lemma synced_notify (op : Z) (w : watch) : synced w -> synced (notify op w).
Proof.
  unfold notify. destruct (watching w); [|done]. intros [H|H]; [left|by right].
  simpl. by rewrite existsb_app, H.
Qed.

Lemma watching_notify (op : Z) (w : watch) :
  w_phase w = PWait -> notify op w = set_events (w_events w ++ [op]) w.
Proof. unfold notify, watching. intros H. by rewrite bool_decide_true. Qed.

Lemma update_notified (op : Z) (w : watch) :
  w_phase w = PWait -> Z.land op Write = Write \/ Z.land op Create = Create -> synced (notify op w).
Proof.
  intros Hw Hop. rewrite watching_notify by done. left. simpl. rewrite existsb_app. simpl.
  assert (is_update op = true) as ->; [|by rewrite orb_true_r].
  unfold CertWatch.is_update. apply orb_true_iff. by rewrite !bool_decide_eq_true.
Qed.

Lemma phase_notify (op : Z) (w : watch) : w_phase (notify op w) = w_phase w.
Proof. unfold notify. by destruct (watching w). Qed.

Lemma loop_notify (op : Z) (w : watch) : w_loop (notify op w) = w_loop w.
Proof. unfold notify. by destruct (watching w). Qed.

Lemma follows_env (w w' : watch) : env_step Write Create w w' -> follows w -> follows w'.
Proof.
  intros Hs [[Hw Hy]|[Hl Hp]]; [left|right].
  - destruct Hs as [? c op Hop|? op|? op|?]; rewrite ?phase_notify; (split; [done|]).
    + by apply update_notified.
    + rewrite watching_notify by done. by right; right; left.
    + by apply synced_notify.
    + exact Hy.
  - destruct Hs; unfold live in *; by rewrite ?phase_notify, ?loop_notify.
Qed.

Lemma follows_loop (w w' : watch) : loop_step Write Create w w' -> follows w -> follows w'.
Proof.
  intros Hs [[Hw Hy]|[Hl Hp]].
  - destruct Hs as [? op q HL Hq|?|? HL|? HL|? c HL Hf|? HL|? c HL]; unfold follows, synced, live in *; simpl in *;
      rewrite ?HL, ?Hq in *; simpl in *; try (by auto).
    + left. split; [done|]. destruct (is_update op); simpl; [by auto|].
      destruct Hy as [Hy|[Hy|Hy]]; [by auto|done|by auto].
    + left. split; [done|]. by auto.
    + left. split; [done|]. destruct Hy as [Hy|[Hy|[Hy|Hy]]]; by auto.
  - unfold live in Hl. destruct Hs as [? ? ? HL|? HL|? HL|? HL|? ? HL|? HL|? ? HL]; by rewrite HL in Hl.
Qed.

Lemma follows_main (w w' : watch) : main_step w w' -> follows w -> follows w'.
Proof.
  intros Hs H. assert (w_phase w = PWait \/ w_phase w = PReturned) as Hp by (destruct H as [[? _]|[_ ?]]; auto).
  destruct Hs; try (by destruct Hp; congruence). right. split; [done|]. by right.
Qed.

Lemma follows_step (w w' : watch) : step w w' -> follows w -> follows w'.
Proof. intros [w0 _ H|w0 _ H|w0 _ H]; [by apply follows_main|by apply follows_loop|by apply follows_env]. Qed.

Lemma follows_steps (w w' : watch) : rtc step w w' -> follows w -> follows w'.
Proof. induction 1; [done|]. intros Hf. apply IHrtc. by eapply follows_step. Qed.

(** *** The goroutine catches up *)

(** At most how many steps the goroutine has to take. *)
Definition work (w : watch) : nat :=
  3 * length (w_events w) + match w_loop w with LReload => 2 | LSet _ => 1 | _ => 0 end.

Lemma hstep_work (w : watch) (c : string) :
  live w = true -> w_file w = Some c -> synced w ->
  live (hstep w) = true /\ w_file (hstep w) = Some c /\ synced (hstep w) /\ (work (hstep w) <= pred (work w))%nat.
Proof.
  unfold live, synced, work, CertWatch.hstep. intros Hl Hf Hy.
  destruct (w_loop w) eqn:HL; try done.
  - destruct (w_events w) as [|op q] eqn:Hq; simpl; rewrite ?HL, ?Hq; simpl; [split_and!; auto; lia|].
    simpl in Hy. destruct (is_update op); simpl; (split_and!; [done|done| |lia]); [by auto|].
    destruct Hy as [Hy|[Hy|[Hy|Hy]]]; by auto.
  - rewrite Hf. simpl. split_and!; auto; lia.
  - simpl. split_and!; auto; [|lia]. destruct Hy as [Hy|[Hy|[Hy|Hy]]]; by auto.
Qed.

Lemma idle_synced (w : watch) (c : string) :
  live w = true -> w_file w = Some c -> synced w -> work w = 0%nat -> GetGitCaCert w = c /\ w_events w = [].
Proof.
  unfold live, synced, work, GetGitCaCert. intros Hl Hf Hy Hw.
  destruct (w_events w); [|simpl in Hw; lia]. split; [|done].
  destruct (w_loop w); try done. destruct Hy as [Hy|[Hy|[Hy|Hy]]]; try done; congruence.
Qed.

Lemma hsteps_settle (n : nat) : forall (w : watch) (c : string),
  live w = true -> w_file w = Some c -> synced w -> (work w <= n)%nat ->
  GetGitCaCert (Nat.iter n hstep w) = c /\ w_events (Nat.iter n hstep w) = [].
Proof.
  induction n as [|n IH]; intros w c Hl Hf Hy Hn; [apply (idle_synced w c Hl Hf Hy); lia|].
  rewrite Nat.iter_succ_r. destruct (hstep_work w c Hl Hf Hy) as (Hl' & Hf' & Hy' & Hw'). apply IH; auto. lia.
Qed.

Lemma hsteps_steps (n : nat) : forall (w : watch) (c : string),
  live w = true -> w_file w = Some c -> synced w -> w_killed w = false -> rtc step w (Nat.iter n hstep w).
Proof.
  induction n as [|n IH]; intros w c Hl Hf Hy Hk; [done|].
  rewrite Nat.iter_succ_r. destruct (hstep_work w c Hl Hf Hy) as (Hl' & Hf' & Hy' & _).
  assert (w_killed (hstep w) = false) as Hk'.
  { unfold CertWatch.hstep. destruct (w_loop w); try done; [by destruct (w_events w)|by rewrite Hf]. }
  transitivity (hstep w); [|by eapply IH].
  destruct (hstep_step Write Create w) as [->|Hs]; [done|]. by apply rtc_once, step_loop.
Qed.

(** *** What is served was in the file *)

(** The contents that the functions hold are contents the file has had. *)
Definition had (file : option string) (w : watch) (c : string) : Prop :=
  exists w0, rtc step (start file) w0 /\ rtc step w0 w /\ w_file w0 = Some c.

Definition from_file (file : option string) (w : watch) : Prop :=
  (w_cert w = "" \/ had file w (w_cert w)) /\
  (forall c, w_phase w = PSet c -> had file w c) /\ (forall c, w_loop w = LSet c -> had file w c).

Lemma had_mono (file : option string) (w w' : watch) (c : string) : step w w' -> had file w c -> had file w' c.
Proof. intros Hs (w0 & H0 & Hw & Hc). exists w0. split_and!; auto. by eapply rtc_r. Qed.

Lemma had_now (file : option string) (w : watch) (c : string) : rtc step (start file) w -> w_file w = Some c -> had file w c.
Proof. intros H Hc. by exists w. Qed.

Lemma from_file_step (file : option string) (w w' : watch) :
  rtc step (start file) w -> step w w' -> from_file file w -> from_file file w'.
Proof.
  intros Hr Hs (Hc & Hp & Hl).
  assert (Hm : forall c, had file w c -> had file w' c) by (intros c; by apply had_mono).
  assert (Hn : forall c, w_file w = Some c -> had file w' c) by (intros c ?; by apply Hm, had_now).
  assert (Hcm : w_cert w = "" \/ had file w' (w_cert w)) by (destruct Hc; auto).
  destruct Hs as [w' _ Hs|w' _ Hs|w' _ Hs]; unfold from_file in *.
  - destruct Hs; simpl in *; split_and!; try congruence; try (intros c0 [= ->]); auto; intros; congruence.
  - destruct Hs as [? op ? ? ?|?|?|?|?|?|?]; simpl in *; split_and!; try congruence; try (intros c0 Hc0); auto;
      try destruct (is_update op); try congruence; try (injection Hc0 as ->); auto.
  - destruct Hs; unfold notify in *; try destruct (watching _); simpl in *; split_and!; auto.
Qed.

Lemma reachable_from_file (file : option string) (w : watch) : rtc step (start file) w -> from_file file w.
Proof.
  revert w. apply rtc_ind_r; [by split_and!; [left|..]|]. intros w w' Hr Hs IH. by eapply from_file_step.
Qed.

(** The directory has just been added and the file is the one that was read, or
    the file has just been written. *)
Definition caught (w : watch) : Prop :=
  (w_loop w = LSelect /\ w_file w = Some (w_cert w)) \/
  exists v c op, w = notify op (set_file (Some c) v) /\ w_phase v = PWait /\ (Z.land op Write = Write \/ Z.land op Create = Create).

Lemma caught_follows (w : watch) : w_phase w = PWait -> caught w -> follows w.
Proof.
  intros Hw [[HL Hf]|(v & c & op & -> & Hv & Hop)]; left; (split; [done|]).
  - unfold synced. rewrite HL. auto.
  - by apply update_notified.
Qed.

(** C32: The certificate follows the file.  Once the directory is watched and
    the file is the one that was read, or from the first write after that on,
    whatever others do to the file and the directory: as long as the goroutine
    runs and the file exists, the goroutine needs three steps an event at most
    to serve the file's content; and at any time what is served is nothing or a
    content that the file has had. *)
Theorem cert_follows_file (file : option string) (w w' : watch) (c : string) :
  rtc step (start file) w -> w_phase w = PWait -> caught w -> rtc step w w' ->
  live w' = true -> w_killed w' = false -> w_file w' = Some c ->
  rtc step w' (Nat.iter (work w') hstep w') /\
  GetGitCaCert (Nat.iter (work w') hstep w') = c /\ w_events (Nat.iter (work w') hstep w') = [] /\
  (GetGitCaCert w' = "" \/ had file w' (GetGitCaCert w')).
Proof.
  intros Hr Hw Hc Hs Hl Hk Hf.
  assert (Hy : synced w').
  { destruct (follows_steps w w' Hs (caught_follows w Hw Hc)) as [[_ H]|[H _]]; [done|congruence]. }
  destruct (hsteps_settle (work w') w' c Hl Hf Hy) as [Hg Hq]; [lia|]. split_and!; [|done|done|].
  - by eapply hsteps_steps.
  - apply (reachable_from_file file w'). by transitivity w.
Qed.

(** What was written between the first read and [watcher.Add] is not served: the
    goroutine has nothing to do. *)
Lemma update_missed (op : Z) (c1 c2 : string) :
  Z.land op Write = Write -> c1 <> c2 ->
  exists w, rtc step (start (Some c1)) w /\ w_phase w = PWait /\ w_file w = Some c2 /\
    forall n, Nat.iter n hstep w = w /\ GetGitCaCert w = c1.
Proof.
  intros Hop Hc. exists (mkWatch (Some c2) c1 PWait LSelect [] false false). split_and!; [|done|done|].
  - eapply rtc_l; [apply step_main; [done|by apply stat_other]|].
    eapply rtc_l; [apply step_main; [done|by eapply (read_ok _ c1)]|].
    eapply rtc_l; [apply step_main; [done|by eapply (set_cert _ c1)]|].
    eapply rtc_l; [apply step_main; [done|by apply new_watcher]|].
    eapply rtc_l; [apply step_env; [done|by apply (file_written _ _ _ c2 op); left]|].
    by eapply rtc_l; [apply step_main; [done|by apply add_ok]|].
  - intros n. split; [|done]. induction n as [|n IH]; [done|]. by rewrite Nat.iter_succ, IH.
Qed.

(** A file that is written anywhere in the directory while the certificate is
    missing ends the process: the only step of the goroutine left is fatal. *)
Lemma other_file_kills (w w' : watch) (op : Z) :
  w_loop w = LSelect -> w_events w = [op] -> w_file w = None -> is_update op = true ->
  loop_step Write Create (hstep w) w' -> w_killed w' = true.
Proof.
  intros HL Hq Hf Hop. unfold CertWatch.hstep. rewrite HL, Hq, Hop. intros Hs.
  inversion Hs; simpl in *; congruence.
Qed.

End Facts.

(** A rotation: the file is removed and put back; two events are handled. *)
Definition rotated : watch :=
  notify 1 (set_file (Some "new") (notify 4 (set_file None (mkWatch (Some "old") "old" PWait LSelect [] false false)))).

Lemma old_reached : rtc (step 2 1) (start (Some "old")) (mkWatch (Some "old") "old" PWait LSelect [] false false).
Proof.
  eapply rtc_l; [apply step_main; [done|by apply stat_other]|].
  eapply rtc_l; [apply step_main; [done|by eapply (read_ok _ "old")]|].
  eapply rtc_l; [apply step_main; [done|by eapply (set_cert _ "old")]|].
  eapply rtc_l; [apply step_main; [done|by apply new_watcher]|].
  by eapply rtc_l; [apply step_main; [done|by apply add_ok]|].
Qed.

Lemma cert_follows_file_witness :
  w_cert rotated = "old" /\ GetGitCaCert (Nat.iter (work rotated) (hstep 2 1) rotated) = "new".
Proof.
  split; [reflexivity|].
  refine (proj1 (proj2 (cert_follows_file 2 1 (Some "old") _ rotated "new" old_reached eq_refl _ _ eq_refl eq_refl eq_refl))).
  - left. split; reflexivity.
  - eapply rtc_l; [apply step_env; [reflexivity|apply (file_removed _ _ _ 4)]|].
    eapply rtc_l; [apply step_env; [reflexivity|apply (file_written _ _ _ "new" 1); right; reflexivity]|].
    apply rtc_refl.
Defined.
