(* ===== verification/Startup.v ===== *)
(** * Starting the programs

    The managers of the deployment manager's API ([internal/manager]), of its
    controllers ([main.go]), of the resource manager and of its console proxy,
    and the service proxy's server: what they read of the environment, which
    clients they create in which order, and what they serve with.  A client, a
    configuration or a connection of a library is known by a number.

    The two managers serve in a goroutine and wait on a channel: [rstep] is
    that. *)

From stdpp Require Import relations.
From S2P Require Import AspServer Prelude Prog GoMonad GoStr Env Migration.

(** [rest.Config]: what client-go returned, and the limits set on it ([F]: a
    float32). *)
Record RestConfig (F : Type) : Type := mkRestConfig { rc_loaded : nat; rc_limits : option (F * Z) }.
Arguments mkRestConfig {F}.
Arguments rc_loaded {F}.
Arguments rc_limits {F}.

(** The libraries a client is made with. *)
Inductive api : Type := ApiDynamic | ApiAppDeployment | ApiFleetBundle | ApiKubernetes | ApiNexus.

Record SecurityConfig : Type := mkSecurity { AuthenticationEnabled : bool; AuthorizationEnabled : bool }.

(** The service of the deployment manager, and that of the resource manager. *)
Inductive service : Type :=
  | DeploymentSvc (crClient : nat) (opaClient : option nat) (k8sClient fleetBundleClient catalogClient vaultAuthClient protoValidator : nat)
  | ResourceSvc (admClient : nat) (opaClient : option nat).

(** What [AddProjectWatchers] answers. *)
Inductive watcher_answer : Type := WatcherCreated | WatcherExists | WatcherFailed (e : gerror).

Inductive seff (F : Type) : Type :=
  | SFatal (format : string) (e : gerror)          (* log.Fatal, os.Exit(1) *)
  | SInClusterConfig
  | SBuildConfigFromFlags (masterUrl kubeconfigPath : string)
  | SNewForConfig (a : api) (c : RestConfig F)
  | SNewOPAClient (addr : string)
  | SDial (addr : string)
  | SNewValidator
  | SNewVaultAuth (keycloak secrets account : string)
  | SReadConfig (path : string)                    (* model.GetConfigModel: the endpoint *)
  | SMigration (e : meff)
  | SServe (port : Z) (sec : SecurityConfig) (s : service) (limit : Z)   (* go s.Serve *)
  | SAddProjectWatcher (name : string)
  | SSubscribeAll
  | SRegister (callback : string)
  | SDone                                          (* <-doneCh *)
  | SListen (addr : string)                        (* ListenAndServe *)
  | SSetup (what : string)                         (* a step of the set-up of controller-runtime *)
  | SWatchCert.                                    (* go utils.WatchGitCaCertFile *)

Arguments SFatal {F}.
Arguments SInClusterConfig {F}.
Arguments SBuildConfigFromFlags {F}.
Arguments SNewForConfig {F}.
Arguments SNewOPAClient {F}.
Arguments SDial {F}.
Arguments SNewValidator {F}.
Arguments SNewVaultAuth {F}.
Arguments SReadConfig {F}.
Arguments SMigration {F}.
Arguments SServe {F}.
Arguments SAddProjectWatcher {F}.
Arguments SSubscribeAll {F}.
Arguments SRegister {F}.
Arguments SDone {F}.
Arguments SListen {F}.
Arguments SSetup {F}.
Arguments SWatchCert {F}.

Definition sresp {F : Type} (e : seff F) : Type :=
  match e with
  | SFatal _ _ | SServe _ _ _ _ | SSubscribeAll | SWatchCert => unit
  | SInClusterConfig | SBuildConfigFromFlags _ _ | SNewForConfig _ _ | SNewOPAClient _ | SDial _
  | SNewValidator | SNewVaultAuth _ _ _ => res nat
  | SReadConfig _ => res string
  | SMigration e => mresp e
  | SAddProjectWatcher _ => watcher_answer
  | SRegister _ | SDone | SListen _ | SSetup _ => option gerror
  end.

Section Startup.
Context {F : Type}.
(** [os.LookupEnv]; the errors of [strconv]; [strconv.ParseFloat(s, 32)]. *)
Context (lookupenv : string -> option string) (num_error : string -> string -> gerror) (ParseFloat32 : string -> res F).

Definition sprog : Type -> Type := gp (seff F) sresp.
Definition scall (e : seff F) : prog (seff F) sresp (sresp e) := call e.

(** [log.Fatal]: the process ends, and nothing after it runs. *)
Definition exit_with {A : Type} (format : string) (e : gerror) : sprog A :=
  pbind (scall (SFatal format e)) (fun _ => panic).

(** [if err != nil { log.Fatalf(format, err) }] *)
Definition or_exit {A : Type} (format : string) (p : sprog A) : sprog A :=
  do! r := catch p in
  match r with Ok a => ok a | Err e => exit_with format e end.

Definition env (k : string) : string := getenv lookupenv k.

Definition not_set (msg : string) : gerror := errorf msg.

(** ** [pkg/utils/ratelimiter], the same in both services *)

Definition GetRateLimiterParams : res (F * Z) :=
  try qps := ParseFloat32 (env "RATE_LIMITER_QPS") in
  match parse_int64 (env "RATE_LIMITER_BURST") with
  | Some burst => if (-2^31 <=? burst) && (burst <? 2^31) then Ok (qps, burst)
                  else Err (num_error "ParseInt" (env "RATE_LIMITER_BURST"))
  | None => Err (num_error "ParseInt" (env "RATE_LIMITER_BURST"))
  end.

Definition set_limits (limits : F * Z) (c : RestConfig F) : RestConfig F := mkRestConfig (rc_loaded c) (Some limits).

(** ** Clients *)

(** [utils.CreateRestConfig] *)
Definition CreateRestConfig (kubeConfig : string) : sprog (RestConfig F) :=
  do! config := rcall (if bool_decide (kubeConfig = "") then scall SInClusterConfig
                       else scall (SBuildConfigFromFlags "" kubeConfig)) in
  do! limits := done GetRateLimiterParams in
  ok (set_limits limits (mkRestConfig config None)).

(** [utils.CreateClient] *)
Definition CreateClient (kubeconfig : string) : sprog nat :=
  do! config := rcall (if bool_decide (kubeconfig = "") then scall SInClusterConfig
                       else scall (SBuildConfigFromFlags "" kubeconfig)) in
  do! limits := done GetRateLimiterParams in
  rcall (scall (SNewForConfig ApiAppDeployment (set_limits limits (mkRestConfig config None)))).

(** [fleet.NewBundleClient] *)
Definition NewBundleClient (kubeConfig : string) : sprog nat :=
  do! config := CreateRestConfig kubeConfig in
  rcall (scall (SNewForConfig ApiFleetBundle config)).

(** [k8sclient.NewClient] reads the limits a second time. *)
Definition k8sclient_NewClient (kubeConfig : string) : sprog nat :=
  do! config := CreateRestConfig kubeConfig in
  do! limits := done GetRateLimiterParams in
  rcall (scall (SNewForConfig ApiKubernetes (set_limits limits config))).

Definition NewCatalogClient : sprog nat :=
  match lookupenv "CATALOG_SERVICE_ADDRESS" with
  | None => fail (not_set "catalog service address is not set")
  | Some addr => rcall (scall (SDial addr))
  end.

(** [auth.NewVaultAuth] with the end points of [pkg/utils]. *)
Definition NewVaultAuth : sprog nat :=
  rcall (scall (SNewVaultAuth (GetKeycloakServiceEndpoint lookupenv) (GetSecretServiceEndpoint lookupenv) (GetServiceAccount lookupenv))).

(** ** The service *)

Definition NewDeployment (crClient : nat) (opaClient : option nat) (k8sClient fleetBundleClient catalogClient vaultAuthClient : nat)
    (protoValidator : option nat) : sprog service :=
  do! validator := (match protoValidator with
                    | Some v => ok v
                    | None => map_err (fun e => errorf ("failed to create protobuf validator: " +:+ e_msg e)) (rcall (scall SNewValidator))
                    end) in
  ok (DeploymentSvc crClient opaClient k8sClient fleetBundleClient catalogClient vaultAuthClient validator).

(** ** [internal/tenant]: [NexusHook.Subscribe] *)

Definition setupConfigADMWatcherConfig : sprog unit :=
  pbind (scall (SAddProjectWatcher "app-deployment-manager")) (fun a =>
    match a with
    | WatcherCreated | WatcherExists => ok tt
    | WatcherFailed e => fail e
    end).

Definition Subscribe : sprog unit :=
  do! cfg := rcall (scall SInClusterConfig) in
  do! _ := rcall (scall (SNewForConfig ApiNexus (mkRestConfig cfg None))) in
  do! _ := setupConfigADMWatcherConfig in
  pbind (scall SSubscribeAll) (fun _ =>
  do! _ := ecall (scall (SRegister "projectCreated")) in
  ecall (scall (SRegister "projectUpdated"))).

(** ** [internal/manager] of the deployment manager *)

(** The requests of the migration, in a program of this file. *)
Fixpoint migration_requests {A : Type} (p : mprog A) : prog (seff F) sresp A :=
  match p with
  | Ret a => Ret a
  | Vis e k => Vis (SMigration e) (fun r => migration_requests (k r))
  end.

Definition run_of (project : string) : sprog unit :=
  pbind (migration_requests (run_migration project)) (fun o =>
    match o with
    | Panics => panic
    | Returns (Some e) => fail e
    | Returns None => ok tt
    end).

(** What [NewInsecureServerConfig] has for the security. *)
Context (insecure : SecurityConfig).

Definition security_of : SecurityConfig :=
  if bool_decide (env "OIDC_SERVER_URL" <> "") then mkSecurity true true else insecure.

(** [strconv.Atoi] *)
Definition port_of (s : string) : res Z :=
  match parse_int64 s with Some n => Ok n | None => Err (num_error "Atoi" s) end.

Definition opa_address (port : Z) : string := "http://localhost:" +:+ itoa port.

Definition opa_client : sprog nat :=
  do! opaPort := or_exit "OPA Port is no valid %v" (done (port_of (env "OPA_PORT"))) in
  or_exit "OPA client cannot be created %v" (rcall (scall (SNewOPAClient (opa_address opaPort)))).

Definition migrate_project (kubeconfig : string) : sprog unit :=
  if bool_decide (env "MT_UPGRADE_PROJECT_ID" <> "") then
    do! kConfig := or_exit "Failed to create dynamic k8s client %f" (rcall (scall (SBuildConfigFromFlags kubeconfig ""))) in
    do! _ := or_exit "Failed to create dynamic k8s client %f" (rcall (scall (SNewForConfig ApiDynamic (mkRestConfig kConfig None)))) in
    or_exit "Failed to migrate project: %v" (run_of (env "MT_UPGRADE_PROJECT_ID"))
  else ok tt.

(** The clients, and the service they are for. *)
Definition create_service (kubeconfig : string) (opaClient : option nat) : sprog service :=
  do! crClient := or_exit "Failed to create k8s client %v" (CreateClient kubeconfig) in
  do! fleetBundleClient := or_exit "Failed to create fleet bundle client %f" (NewBundleClient kubeconfig) in
  do! k8sClient := or_exit "Failed to create k8s client %f" (k8sclient_NewClient kubeconfig) in
  do! catalogClient := or_exit "Failed to create catalog client %f" NewCatalogClient in
  do! protoValidator := or_exit "Failed to initialize protobuf validator %f" (rcall (scall SNewValidator)) in
  do! vaultAuthClient := or_exit "Failed to create M2M auth client %f" NewVaultAuth in
  or_exit "Failed to create deployment service: %v"
    (NewDeployment crClient opaClient k8sClient fleetBundleClient catalogClient vaultAuthClient (Some protoValidator)).

Definition Start (port : Z) (kubeconfig : string) : sprog unit :=
  let sec := security_of in
  do! opaClient := (if AuthorizationEnabled sec && IsOPAEnabled lookupenv
                    then do! c := opa_client in ok (Some c) else ok None) in
  do! _ := migrate_project kubeconfig in
  do! deploymentService := create_service kubeconfig opaClient in
  do! msgSizeLimitBytes := or_exit "Failed to get msg size limit %v" (done (GetMessageSizeLimit lookupenv num_error)) in
  pbind (scall (SServe port sec deploymentService msgSizeLimitBytes)) (fun _ =>
  do! _ := or_exit "Failed to subscribe to tenant events %v" Subscribe in
  ecall (scall SDone)).

Definition Run (port : Z) (kubeconfig : string) : sprog unit :=
  or_exit "Unable to start manager" (Start port kubeconfig).

End Startup.

Arguments sprog : clear implicits.

(** ** The resource manager and its console proxy

    [internal/opa], [internal/adm], [internal/manager] and [internal/vncproxy]. *)

Module Arm.

Section Programs.
Context {F : Type} (lookupenv : string -> option string) (num_error : string -> string -> gerror) (insecure : SecurityConfig).

#[local] Abbreviation sprog := (sprog F).
#[local] Abbreviation env := (env lookupenv).
#[local] Abbreviation port_of := (port_of num_error).
#[local] Abbreviation security_of := (security_of lookupenv insecure).

Definition NewOPAClient : sprog (option nat) :=
  if bool_decide (env "OIDC_SERVER_URL" = "") || negb (IsOPAEnabled lookupenv) then ok None
  else
    do! opaPort := or_exit "OPA Port is no valid" (done (port_of (env "OPA_PORT"))) in
    do! opaClient := or_exit "OPA client cannot be created" (rcall (scall (SNewOPAClient (opa_address opaPort)))) in
    ok (Some opaClient).

(** [envutils.GetMessageSizeLimit]: nothing checks the products. *)
Definition GetMessageSizeLimit : res Z :=
  match parse_int64 (env "MSG_SIZE_LIMIT") with
  | None => Err (num_error "ParseInt" (env "MSG_SIZE_LIMIT"))
  | Some msgSizeLimit => Ok (wrap64 (wrap64 (msgSizeLimit * 1024) * 1024))
  end.

Definition NewClient (configPath : string) : sprog nat :=
  do! endpoint := rcall (scall (SReadConfig configPath)) in
  do! conn := rcall (scall (SDial endpoint)) in
  do! _ := rcall (scall (SNewVaultAuth (env "KEYCLOAK_SERVER") (env "VAULT_SERVER") (env "SERVICE_ACCOUNT"))) in
  ok conn.

Definition startNorthboundServer (port : Z) (admClient : nat) (opaClient : option nat) : sprog unit :=
  let sec := security_of in
  let opaClient := if AuthorizationEnabled sec then opaClient else None in
  do! msgSizeLimitBytes := done GetMessageSizeLimit in
  pbind (scall (SServe port sec (ResourceSvc admClient opaClient) msgSizeLimitBytes)) (fun _ =>
  ecall (scall SDone)).

Definition Start (port : Z) (configPath : string) : sprog unit :=
  do! opaClient := NewOPAClient in
  do! admClient := NewClient configPath in
  startNorthboundServer port admClient opaClient.

Definition Run (port : Z) (configPath : string) : sprog unit :=
  or_exit "Unable to start manager" (Start port configPath).

(** [start] of the console proxy: whether the handlers have an OPA client, and
    that the server listens. *)
Definition vnc_start (wsPort : Z) (configPath : string) : sprog bool :=
  do! opaClient := NewOPAClient in
  do! _ := NewClient configPath in
  do! _ := ecall (scall (SListen (":" +:+ itoa wsPort))) in
  ok (bool_decide (is_Some opaClient)).

End Programs.

End Arm.

(** ** The service proxy: [internal/server] and [internal/admclient] *)

Module Asp.

Record Server : Type := mkServer {
  addr : string;
  ccgAddress : string;
  authNenabled : bool;
  authZenabled : bool;
  body_limit : Z            (* of SizeLimitMiddleware *)
}.

Section Programs.
Context {F : Type} (lookupenv : string -> option string) (num_error : string -> string -> gerror) (ParseFloat32 : string -> res F).

#[local] Abbreviation sprog := (sprog F).
#[local] Abbreviation env := (env lookupenv).
#[local] Abbreviation NewVaultAuth := (NewVaultAuth (F := F) lookupenv).
#[local] Abbreviation CreateClient := (CreateClient lookupenv num_error ParseFloat32).

Definition MaxBodySizeBytesLimit : string := "MAX_BODY_SIZE_BYTES_LIMIT".

(** [known_level]: [logrus.ParseLevel] has no error. *)
Definition NewServer (known_level : string -> bool) (address : string) : res Server :=
  if bool_decide (env "CCG_ADDRESS" = "") then Err (not_set "CCG_ADDRESS is not set")
  else if match lookupenv "ASP_LOG_LEVEL" with Some l => negb (known_level l) | None => false end
  then Err (not_set "ASP_LOG_LEVEL is not set to a valid logrus level")
  else Ok (mkServer address (env "CCG_ADDRESS") (bool_decide (env "OIDC_SERVER_URL" <> ""))
                    (IsOPAEnabled lookupenv) (AspServer.maxBodySizeBytesLimit (env MaxBodySizeBytesLimit))).

Definition NewClient : sprog nat :=
  if bool_decide (env "ADM_ADDRESS" = "") then fail (not_set "ADM_ADDRESS is not set")
  else
    do! _ := rcall (scall (SDial (env "ADM_ADDRESS"))) in
    do! _ := NewVaultAuth in
    CreateClient "".

(** An error of the client is dropped. *)
Definition Run (a : Server) : sprog unit :=
  do! r := catch NewClient in
  match r with
  | Err _ => ok tt
  | Ok _ => ecall (scall (SListen (addr a)))
  end.

End Programs.

End Asp.

(** ** The controllers: [main.go] and the [SetupWithManager] of each *)

Module Ctl.

(** What [SetupWithManager] sets of the Deployment controller, and
    [SetupWebhookWithManager] of the webhook. *)
Record Deployer : Type := mkDeployer {
  catalogclient : nat;
  vaultAuthClient : nat;
  deleteGitRepo : bool;
  fleetGitPollingInterval : Z;
  nexusclient : nat
}.

Section Programs.
Context {F : Type} (lookupenv : string -> option string) (num_error : string -> string -> gerror).

#[local] Abbreviation sprog := (sprog F).
#[local] Abbreviation env := (env lookupenv).
#[local] Abbreviation NewVaultAuth := (NewVaultAuth (F := F) lookupenv).
#[local] Abbreviation NewCatalogClient := (NewCatalogClient (F := F) lookupenv).

Definition setup (what : string) : sprog unit := ecall (scall (SSetup what)).

Definition deletes_repo : bool :=
  match lookupenv "GITEA_DELETE_REPO_ON_TERMINATE" with
  | None => true
  | Some deleteRepo => bool_decide (deleteRepo = "true")
  end.

Definition setup_deployment : sprog Deployer :=
  do! catalog := NewCatalogClient in
  do! vault := NewVaultAuth in
  do! pollingInterval := done (GetFleetGitPollingInterval lookupenv) in
  do! _ := setup "index GitRepo owner" in
  do! _ := setup "index Job owner" in
  do! _ := map_err (fun e => errorf ("failed to setup deployment controller (" +:+ e_msg e +:+ ")")) (setup "Deployment") in
  do! cfg := map_err (fun e => errorf ("failed to get in-cluster config: " +:+ e_msg e)) (rcall (scall SInClusterConfig)) in
  do! nexus := map_err (fun e => errorf ("failed to create nexus client: " +:+ e_msg e))
                 (rcall (scall (SNewForConfig ApiNexus (mkRestConfig cfg None)))) in
  ok (mkDeployer catalog vault deletes_repo pollingInterval nexus).

Definition setup_webhook : sprog bool :=
  do! _ := NewCatalogClient in
  do! _ := NewVaultAuth in
  do! _ := setup "index Deployment package" in
  do! _ := setup "Deployment webhook" in
  ok deletes_repo.

Definition setup_deploymentcluster : sprog unit :=
  do! _ := setup "index DeploymentCluster cluster" in
  setup "DeploymentCluster".

(** [time.Minute], in nanoseconds *)
Definition minute : Z := 60 * second.

Definition defaultFleetCheckinTimeMinute : Z := 15.

(** The interval after which a cluster that has not checked in is lost. *)
Definition setup_cluster : sprog Z :=
  let fleetCheckinTime := wrap64 ((GetIntegerFromEnv lookupenv num_error "FLEET_AGENT_CHECKIN" defaultFleetCheckinTimeMinute).1 * minute) in
  do! _ := setup "Cluster" in
  ok fleetCheckinTime.

(** The whole of [main], to the end of [mgr.Start]. *)
Definition main : sprog unit :=
  do! _ := or_exit "unable to start manager" (setup "manager") in
  do! _ := or_exit "unable to create controller" setup_deployment in
  pbind (scall SWatchCert) (fun _ =>
  do! _ := or_exit "unable to create webhook" setup_webhook in
  do! _ := or_exit "unable to create controller" setup_deploymentcluster in
  do! _ := or_exit "unable to create controller" setup_cluster in
  do! capiEnabled := or_exit "CAPI" (done (GetCAPIEnabled lookupenv)) in
  do! _ := (if bool_decide (capiEnabled = "true") then or_exit "unable to create controller" (setup "Cluster API") else ok tt) in
  do! _ := or_exit "unable to set up health check" (setup "healthz") in
  do! _ := or_exit "unable to set up ready check" (setup "readyz") in
  do! _ := or_exit "unable to set up extra metrics handler" (setup "/status") in
  do! _ := or_exit "unable to set up extra metrics handler" (setup "/measure") in
  or_exit "problem running manager" (setup "start")).

End Programs.

End Ctl.

(** ** Waiting for the server

    [doneCh] of both managers: the goroutine closes it when the server is ready
    and sends the server's error on it; [Start] reads it once.  A server that
    ends without an error before it is ready leaves [Start] waiting. *)

(** What [s.Serve] does: [started] is its callback. *)
Inductive goroutine : Type :=
  | GServing (started : bool)
  | GSending (e : gerror)        (* doneCh <- err *)
  | GFinished.

Inductive waiter : Type :=
  | WBusy                        (* what Start does before it waits *)
  | WWaiting                     (* <-doneCh *)
  | WReturned (err : option gerror)
  | WFatal.                      (* log.Fatal *)

Record ready : Type := mkReady { r_server : goroutine; r_closed : bool; r_start : waiter; r_panicked : bool }.

Definition serving : ready := mkReady (GServing false) false WBusy false.

(** [log.Fatal] and a panic end the process. *)
Definition ended (s : ready) : bool := match r_start s with WFatal => true | _ => r_panicked s end.

Inductive rstep : ready -> ready -> Prop :=
  | serve_started s : ended s = false -> r_server s = GServing false ->
      rstep s (mkReady (GServing true) true (r_start s) false)
  | serve_error s b e : ended s = false -> r_server s = GServing b ->
      rstep s (mkReady (GSending e) (r_closed s) (r_start s) false)
  | serve_end s b : ended s = false -> r_server s = GServing b ->
      rstep s (mkReady GFinished (r_closed s) (r_start s) false)
  | send_closed s e : ended s = false -> r_server s = GSending e -> r_closed s = true ->
      rstep s (mkReady GFinished true (r_start s) true)
  | send_received s e : ended s = false -> r_server s = GSending e -> r_closed s = false -> r_start s = WWaiting ->
      rstep s (mkReady GFinished false (WReturned (Some e)) false)
  | busy_end s : ended s = false -> r_start s = WBusy ->
      rstep s (mkReady (r_server s) (r_closed s) WWaiting false)
  | busy_fatal s : ended s = false -> r_start s = WBusy ->
      rstep s (mkReady (r_server s) (r_closed s) WFatal false)
  | recv_closed s : ended s = false -> r_start s = WWaiting -> r_closed s = true ->
      rstep s (mkReady (r_server s) true (WReturned None) false).

(** ** Requests that fail *)

(** Traces in which no request failed, and those in which only the last may
    have; and programs that stop at the first failure. *)
Section Clean.
Context {E : Type} {R : E -> Type} (failed : event E R -> bool).

Definition all_good (t : list (event E R)) : Prop := Forall (fun x => failed x = false) t.
Definition good_but_last (t : list (event E R)) : Prop := exists t1 t2, t = t1 ++ t2 /\ all_good t1 /\ (length t2 <= 1)%nat.

Lemma all_good_nil : all_good [].
Proof. constructor. Qed.

Lemma all_good_singleton x : failed x = false -> all_good [x].
Proof. intros H. by constructor. Qed.

Lemma all_good_app t1 t2 : all_good t1 -> all_good t2 -> all_good (t1 ++ t2).
Proof. intros H1 H2. by apply Forall_app. Qed.

Lemma all_good_elem t1 x t2 : all_good (t1 ++ x :: t2) -> failed x = false.
Proof. intros H. apply Forall_app in H as [_ H]. by apply Forall_cons in H as [? _]. Qed.

Lemma good_but_last_good t : all_good t -> good_but_last t.
Proof. intros H. exists t, []. rewrite app_nil_r. split_and!; [done|done|simpl; lia]. Qed.

Lemma good_but_last_singleton x : good_but_last [x].
Proof. exists [], [x]. split_and!; [done|constructor|done]. Qed.

Lemma good_but_last_app t1 t2 : all_good t1 -> good_but_last t2 -> good_but_last (t1 ++ t2).
Proof.
  intros H1 (t3 & t4 & -> & H3 & H4). exists (t1 ++ t3), t4. rewrite <- app_assoc.
  split_and!; [done|by apply all_good_app|done].
Qed.

(** After a failure there is only what ends the trace. *)
Lemma good_but_last_end t z t1 x t2 :
  good_but_last t -> failed z = false -> t1 ++ x :: t2 = t ++ [z] -> failed x = true -> t2 = [z].
Proof.
  intros (ta & tb & -> & Ha & Hb) Hz Heq Hx. destruct t2 as [|y t2 _] using rev_ind.
  - apply app_inj_tail in Heq as [_ ->]. congruence.
  - rewrite app_comm_cons, app_assoc in Heq. apply app_inj_tail in Heq as [Heq ->].
    apply app_eq_inv in Heq as [(k & -> & Hk)|(k & -> & Hk)].
    + destruct tb as [|b [|b' tb]]; simpl in Hb; [|destruct k; simplify_eq/=; [done|by destruct k]|lia]. by destruct k.
    + destruct k as [|c k]; simpl in Hk; [|injection Hk as <- _; apply all_good_elem in Ha; congruence].
      rewrite app_nil_r in Ha. destruct tb as [|b [|b' tb]]; simplify_eq/=; [done|lia].
Qed.

(** [bad a]: the result says that a request failed. *)
Definition clean {A : Type} (bad : A -> bool) (p : prog E R A) : Prop :=
  forall t a, traces p t a -> if bad a then good_but_last t else all_good t.

Lemma clean_ret {A : Type} (bad : A -> bool) a : clean bad (Ret a).
Proof. intros t b [-> ->]. destruct (bad a); [apply good_but_last_good|]; apply all_good_nil. Qed.

Lemma clean_bind {A B : Type} (bad : A -> bool) (bad' : B -> bool) (p : prog E R A) (f : A -> prog E R B) :
  clean bad p -> (forall a, bad a = false -> clean bad' (f a)) ->
  (forall a t b, bad a = true -> traces (f a) t b -> t = [] /\ bad' b = true) -> clean bad' (pbind p f).
Proof.
  intros Hp Hf Hs t b H. split_trace H t1 t2 a H1. apply Hp in H1. destruct (bad a) eqn:Ha.
  - destruct (Hs _ _ _ Ha H) as [-> ->]. by rewrite app_nil_r.
  - apply Hf in H; [|done]. destruct (bad' b); [by apply good_but_last_app|by apply all_good_app].
Qed.

Lemma clean_cons {A : Type} (bad : A -> bool) (p : prog E R A) x :
  failed x = false -> clean bad p -> forall t a, traces p t a -> if bad a then good_but_last (x :: t) else all_good (x :: t).
Proof.
  intros Hx Hp t a H%Hp. destruct (bad a); [by apply (good_but_last_app [x]); [apply all_good_singleton|]|by constructor].
Qed.

Lemma clean_pfor_ret {A B : Type} (bad : option B -> bool) (l : list A) (f : A -> prog E R (option B)) :
  bad None = false -> (forall x, clean bad (f x)) -> clean bad (pfor_ret l f).
Proof.
  intros Hn Hf. induction l as [|x l IH]; cbn [pfor_ret]; [apply clean_ret|]. eapply clean_bind; [apply Hf| |].
  - intros [b|] _; [apply clean_ret|done].
  - intros [b|] t b' Hb; [by intros [-> ->]|congruence].
Qed.
End Clean.

Section CleanMap.
Context {E : Type} {R : E -> Type} {E' : Type} {R' : E' -> Type}.
Context (failed : event E R -> bool) (failed' : event E' R' -> bool) (f : event E R -> event E' R').
Context (Hf : forall x, failed' (f x) = failed x).

Lemma all_good_map t : all_good failed t -> all_good failed' (map f t).
Proof using Hf. intros H. apply Forall_fmap. eapply Forall_impl; [exact H|]. intros x. simpl. by rewrite Hf. Qed.

Lemma good_but_last_map t : good_but_last failed t -> good_but_last failed' (map f t).
Proof using Hf.
  intros (t1 & t2 & -> & H1 & H2). exists (map f t1), (map f t2). rewrite map_app, length_map.
  split_and!; [done|by apply all_good_map|done].
Qed.
End CleanMap.

(** ** Facts about what is served *)

Section Facts.
Context {F : Type} (lookupenv : string -> option string) (num_error : string -> string -> gerror)
  (ParseFloat32 : string -> res F) (insecure : SecurityConfig).

#[local] Abbreviation sevent := (event (seff F) sresp).
#[local] Abbreviation sprog := (sprog F).
#[local] Abbreviation env := (env lookupenv).
#[local] Abbreviation security := (security_of lookupenv insecure).
#[local] Abbreviation Start := (Start lookupenv num_error ParseFloat32 insecure).
#[local] Abbreviation Run := (Run lookupenv num_error ParseFloat32 insecure).

(** *** The parts of a successful start *)

Lemma done_ok_trace {A : Type} (r : res A) (t : list sevent) (a : A) :
  traces (done (E := seff F) (R := sresp) r) t (Done (Ok a)) -> t = [] /\ r = Ok a.
Proof. intros [-> [= <-]]. done. Qed.

Lemma or_exit_ok {A : Type} (format : string) (p : sprog A) (t : list sevent) (a : A) :
  traces (or_exit format p) t (Done (Ok a)) -> traces p t (Done (Ok a)).
Proof.
  unfold or_exit, catch. intros H. apply nbind_ok in H as (t1 & t2 & r & -> & H1 & H2).
  split_trace H1 t3 t4 o H3. destruct o as [r'| |]; [|by destruct H1 as [_ [=]]..].
  destruct H1 as [-> [= ->]]. destruct r' as [a'|e].
  - destruct H2 as [-> [= ->]]. by rewrite !app_nil_r.
  - destruct H2 as ([] & t5 & -> & [_ [=]]).
Qed.

(** What does not start a server or the controllers. *)
Definition quiet (e : seff F) : Prop :=
  match e with SServe _ _ _ _ => False | SSetup what => what <> "start" | _ => True end.

Lemma serve_loud port sec s limit : ~ quiet (SServe port sec s limit).
Proof. by intros []. Qed.

Abbreviation silent p := (nwps True (fun _ _ => True) quiet (fun _ => True) p).

Lemma silent_or_exit {A : Type} (format : string) (p : sprog A) : silent p -> silent (or_exit format p).
Proof.
  intros H. unfold or_exit. apply nwp_seq; [by apply nwp_catch_true|].
  intros [a|e]; [by apply nwp_ok|]. split; [done|]. by intros [] _.
Qed.

Lemma silent_request {A B : Type} (p : sprog A) (f : A -> sprog B) (t : list sevent) (o : outcome B) (e : seff F) :
  ~ quiet e -> silent p -> traces (nbind p f) t o -> requested t e ->
  exists t1 t2 a, t = t1 ++ t2 /\ traces p t1 (Done (Ok a)) /\ traces (f a) t2 o /\ requested t2 e.
Proof.
  intros He H. apply nbind_request. unfold nwps in *. eapply wp_mono; [|intros o' Ho'; exact Ho'|exact H].
  by intros e' Hq ->.
Qed.


Lemma silent_no_request {A : Type} (p : sprog A) (t : list sevent) (o : outcome A) (e : seff F) :
  ~ quiet e -> silent p -> traces p t o -> ~ requested t e.
Proof.
  intros He Hp Ht [r Hr]. assert (Forall (fun x : sevent => True) t) as HT by by apply Forall_forall.
  destruct (nwp_traces _ _ _ p t o Hp Ht HT) as [HF _]. rewrite Forall_forall in HF. exact (He (HF _ Hr)).
Qed.

Lemma serve_request {A : Type} port sec s limit port' sec' s' limit' (f : unit -> sprog A) (t : list sevent) (o : outcome A) :
  (forall r, silent (f r)) -> traces (pbind (scall (SServe port sec s limit)) f) t o ->
  requested t (SServe port' sec' s' limit') -> port' = port /\ sec' = sec /\ s' = s /\ limit' = limit.
Proof.
  intros Hf (r & t' & -> & H) Hr. apply requested_cons in Hr as [Hr|Hr]; [by injection Hr as <- <- <- <-|].
  by apply (silent_no_request _ _ _ _ (serve_loud _ _ _ _) (Hf r) H) in Hr.
Qed.

Lemma silent_ecall (p : prog (seff F) sresp (option gerror)) : issues quiet p -> silent (ecall p).
Proof.
  intros Hi. apply nwp_ecall. induction p as [a|e' k IH]; [done|]. destruct Hi as [He Hk]. split; [done|].
  intros r _. by apply IH.
Qed.

Lemma silent_rcall {A : Type} (p : prog (seff F) sresp (res A)) : issues quiet p -> silent (rcall p).
Proof.
  intros Hi. apply nwp_rcall. induction p as [a|e' k IH]; [by destruct a|]. destruct Hi as [He Hk]. split; [done|].
  intros r _. by apply IH.
Qed.

Lemma silent_done {A : Type} (r : res A) : silent (done (E := seff F) (R := sresp) r).
Proof. by apply nwp_done. Qed.

Lemma silent_migration {A : Type} (p : mprog A) : issues quiet (migration_requests (F := F) p).
Proof. induction p as [a|e k IH]; [done|]. split; [done|]. auto. Qed.

Lemma silent_run_of (project : string) : silent (run_of (F := F) project).
Proof.
  unfold run_of. eapply wp_bind with (Q := fun _ => True).
  - generalize (silent_migration (run_migration project)). generalize (migration_requests (F := F) (run_migration project)).
    intros p. induction p as [a|e k IH]; [done|]. intros [He Hk]. split; [done|]. auto.
  - by intros [[e|]|] _.
Qed.

Lemma silent_scall {A : Type} (e : seff F) (f : sresp e -> sprog A) :
  quiet e -> (forall r, silent (f r)) -> silent (pbind (scall e) f).
Proof. intros Hq Hf. split; [done|]. intros r _. apply Hf. Qed.

(** One step of a proof that a part starts nothing. *)
Ltac silent_step :=
  match goal with
  | |- nwps _ _ _ _ (ok _) => by apply nwp_ok
  | |- nwps _ _ _ _ (fail _) => by apply nwp_fail
  | |- nwps _ _ _ _ (done _) => apply silent_done
  | |- nwps _ _ _ _ (or_exit _ _) => apply silent_or_exit
  | |- nwps _ _ _ _ (map_err _ _) => apply nwp_map_err
  | |- nwps _ _ _ _ (rcall _) => apply silent_rcall; repeat case_match; by repeat split
  | |- nwps _ _ _ _ (ecall _) => apply silent_ecall; by repeat split
  | |- nwps _ _ _ _ (Ctl.setup _) => apply silent_ecall; by repeat split
  | |- nwps _ _ _ _ (run_of _) => apply silent_run_of
  | |- nwps _ _ _ _ (nbind _ _) => apply nwp_seq; [|intros ?]
  | |- nwps _ _ _ _ (pbind (scall _) _) => apply silent_scall; [exact I|intros ?]
  | |- nwps _ _ _ _ (if ?b then _ else _) => destruct b
  | |- nwps _ _ _ _ (match ?x with _ => _ end) => destruct x
  end.

Lemma silent_create_service (kubeconfig : string) (opaClient : option nat) :
  silent (create_service lookupenv num_error ParseFloat32 kubeconfig opaClient).
Proof.
  unfold create_service, CreateClient, NewBundleClient, k8sclient_NewClient, CreateRestConfig, NewCatalogClient,
    NewVaultAuth, NewDeployment. repeat silent_step.
Qed.

Lemma silent_migrate (kubeconfig : string) : silent (migrate_project (F := F) lookupenv kubeconfig).
Proof. unfold migrate_project. repeat silent_step. Qed.

Lemma silent_opa_client : silent (opa_client (F := F) lookupenv num_error).
Proof. unfold opa_client. repeat silent_step. Qed.

Lemma silent_Subscribe : silent (Subscribe (F := F)).
Proof. unfold Subscribe, setupConfigADMWatcherConfig. repeat silent_step. Qed.

(** *** What the migration asked for *)

Definition migration_event (x : sevent) : option mevent :=
  match x with
  | existT e r =>
      match e return sresp e -> option mevent with
      | SMigration e => fun r => Some (ev (R := mresp) e r)
      | _ => fun _ => None
      end r
  end.

Definition migration_events (t : list sevent) : list mevent := omap migration_event t.

Lemma migration_trace {A : Type} (p : mprog A) : forall t a,
  traces (migration_requests (F := F) p) t a -> traces p (migration_events t) a.
Proof.
  induction p as [b|e k IH]; intros t a; simpl; [by intros [-> ->]|].
  intros (r & t' & -> & H). exists r, (migration_events t'). split; [done|]. by apply IH.
Qed.

(** The kinds of resources that the migration is for. *)
Definition migrated_kind (gvr : GVR) : Prop :=
  (gvr_group gvr = "app.edge-orchestrator.intel.com" /\ gvr_version gvr = "v1beta1" /\ gvr_resource gvr ∈ appOrchResources) \/
  (gvr_group gvr = "fleet.cattle.io" /\ gvr_version gvr = "v1alpha1" /\ gvr_resource gvr ∈ rancherResources).

Definition all_migrated (project : string) (t : list mevent) : Prop :=
  forall gvr, migrated_kind gvr ->
  exists items, ev (R := mresp) (MList gvr) (Ok items) ∈ t /\ Forall (migrated project t gvr) items.

Lemma all_migrated_mono (project : string) (t t' : list mevent) : t ⊆ t' -> all_migrated project t -> all_migrated project t'.
Proof.
  intros Hs H gvr Hg. destruct (H gvr Hg) as (items & Hi & HF). exists items. split; [set_solver|].
  eapply Forall_impl; [exact HF|]. intros cr. by apply migrated_mono.
Qed.

Lemma run_of_trace (project : string) (t : list sevent) :
  traces (run_of project) t (Done (Ok tt)) -> all_migrated project (migration_events t).
Proof.
  unfold run_of. intros H. split_trace H t1 t2 o H1. apply migration_trace in H1.
  destruct o as [[e|]|]; [by destruct H as [_ [=]]| |by destruct H as [_ [=]]].
  destruct H as [-> _]. rewrite app_nil_r. exact (migration_complete project _ H1).
Qed.

Lemma migrate_project_trace (kubeconfig : string) (t : list sevent) :
  env "MT_UPGRADE_PROJECT_ID" <> "" -> traces (migrate_project lookupenv kubeconfig) t (Done (Ok tt)) ->
  all_migrated (env "MT_UPGRADE_PROJECT_ID") (migration_events t).
Proof.
  intros Hp. unfold migrate_project. rewrite bool_decide_true by done. intros H.
  apply nbind_ok in H as (t1 & t2 & k & -> & _ & H). apply nbind_ok in H as (t3 & t4 & k' & -> & _ & H).
  apply or_exit_ok, run_of_trace in H. eapply all_migrated_mono; [|exact H].
  unfold migration_events. rewrite !omap_app. set_solver.
Qed.

(** *** The client of OPA *)

Definition svc_opa (s : service) : option nat :=
  match s with DeploymentSvc _ opaClient _ _ _ _ _ => opaClient | ResourceSvc _ opaClient => opaClient end.

(** It was made for the port of the environment. *)
Definition opa_made (t : list sevent) (opaClient : option nat) : Prop :=
  exists port c, opaClient = Some c /\ parse_int64 (env "OPA_PORT") = Some port /\
    ev (SNewOPAClient (opa_address port) : seff F) (Ok c) ∈ t.

Lemma opa_made_trace (f1 f2 : string) (t1 t2 : list sevent) (port : Z) (c : nat) :
  traces (or_exit f1 (done (port_of num_error (env "OPA_PORT")))) t1 (Done (Ok port)) ->
  traces (or_exit f2 (rcall (scall (SNewOPAClient (opa_address port))))) t2 (Done (Ok c)) -> opa_made (t1 ++ t2) (Some c).
Proof.
  intros H1 H2. apply or_exit_ok, done_ok_trace in H1 as [-> H1]. apply or_exit_ok in H2.
  destruct H2 as (r & t3 & -> & H2). cbn in H2. destruct H2 as [-> [= <-]].
  exists port, c. unfold port_of in H1. destruct (parse_int64 _); [|done]. injection H1 as ->. split_and!; [done|done|left].
Qed.

Lemma opa_made_mono (t t' : list sevent) (opaClient : option nat) : t ⊆ t' -> opa_made t opaClient -> opa_made t' opaClient.
Proof. intros Hs (p & c & ? & ? & ?). exists p, c. set_solver. Qed.

Lemma opa_client_trace (t : list sevent) (c : nat) :
  traces (opa_client lookupenv num_error) t (Done (Ok c)) -> opa_made t (Some c).
Proof.
  unfold opa_client. intros H. apply nbind_ok in H as (t1 & t2 & port & -> & H1 & H2). by eapply opa_made_trace.
Qed.

Lemma create_service_opa (kubeconfig : string) (opaClient : option nat) (t : list sevent) (s : service) :
  traces (create_service lookupenv num_error ParseFloat32 kubeconfig opaClient) t (Done (Ok s)) -> svc_opa s = opaClient.
Proof.
  unfold create_service. intros H. do 6 (apply nbind_ok in H as (? & ? & ? & -> & _ & H)).
  apply or_exit_ok, nbind_ok in H as (? & ? & ? & -> & _ & H). by destruct H as [_ [= ->]].
Qed.

(** C20: When the deployment manager serves, it serves on its port, with the
    limit on messages that the environment sets; with authentication and
    authorization if there is an OIDC server; with a client of OPA, made for the
    port of the environment, exactly if there is authorization and OPA is enabled;
    and, if there is a project to migrate to, after every resource of the six
    kinds that has no project has been given it. *)
Theorem start_guarded (port port' : Z) (kubeconfig : string) (t : list sevent) (o : outcome unit)
    (sec : SecurityConfig) (s : service) (limit : Z) :
  traces (Start port kubeconfig) t o -> requested t (SServe port' sec s limit) ->
  port' = port /\ GetMessageSizeLimit lookupenv num_error = Ok limit /\
  sec = (if decide (env "OIDC_SERVER_URL" = "") then insecure else mkSecurity true true) /\
  (if AuthorizationEnabled sec && IsOPAEnabled lookupenv then opa_made t (svc_opa s) else svc_opa s = None) /\
  (env "MT_UPGRADE_PROJECT_ID" <> "" -> all_migrated (env "MT_UPGRADE_PROJECT_ID") (migration_events t)).
Proof.
  unfold Startup.Start. intros H Hr. cbv zeta in H.
  apply (silent_request _ _ _ _ (SServe port' sec s limit) (serve_loud _ _ _ _)) in H as (t1 & t2 & opa & -> & H1 & H & Hr1);
    [|case_match; [apply nwp_seq; [apply silent_opa_client|intros ?]|]; by apply nwp_ok|exact Hr].
  apply (silent_request _ _ _ _ (SServe port' sec s limit) (serve_loud _ _ _ _)) in H as (t3 & t4 & [] & -> & H3 & H & Hr3); [|apply silent_migrate|exact Hr1].
  apply (silent_request _ _ _ _ (SServe port' sec s limit) (serve_loud _ _ _ _)) in H as (t5 & t6 & s' & -> & H5 & H & Hr5); [|apply silent_create_service|exact Hr3].
  apply (silent_request _ _ _ _ (SServe port' sec s limit) (serve_loud _ _ _ _)) in H as (t7 & t8 & lim & -> & H7 & H & Hr7); [|apply silent_or_exit, silent_done|exact Hr5].
  apply (serve_request _ _ _ _ port' sec s limit) in H as (-> & -> & -> & ->); [|intros ?; apply nwp_seq; [apply silent_or_exit, silent_Subscribe|intros ?; repeat silent_step]|exact Hr7].
  apply or_exit_ok, done_ok_trace in H7 as [_ H7]. apply create_service_opa in H5.
  split_and!; [done|done| | |].
  - unfold security_of. case_decide; [by rewrite bool_decide_false by tauto|by rewrite bool_decide_true].
  - rewrite H5. destruct (AuthorizationEnabled security && IsOPAEnabled lookupenv).
    + apply nbind_ok in H1 as (ta & tb & c & -> & H1 & H2). destruct H2 as [-> [= ->]].
      apply opa_client_trace in H1. eapply opa_made_mono; [|exact H1]. set_solver.
    + by destruct H1 as [_ [= ->]].
  - intros Hp. eapply all_migrated_mono; [|by eapply migrate_project_trace].
    unfold migration_events. rewrite !omap_app. set_solver.
Qed.


(** *** How a start ends *)

(** Whether the answer to a request of the migration is an error. *)
Definition mfailed (x : mevent) : bool :=
  match x with
  | existT e r =>
      match e return mresp e -> bool with
      | MList _ => fun r => negb (is_ok r)
      | MUpdate _ _ _ => fun r => bool_decide (is_Some r)
      end r
  end.

(** Whether the answer to a request is an error. *)
Definition failed (x : sevent) : bool :=
  match x with
  | existT e r =>
      match e return sresp e -> bool with
      | SInClusterConfig | SBuildConfigFromFlags _ _ | SNewForConfig _ _ | SNewOPAClient _ | SDial _
      | SNewValidator | SNewVaultAuth _ _ _ | SReadConfig _ => fun r => negb (is_ok r)
      | SMigration e => fun r => mfailed (ev (R := mresp) e r)
      | SAddProjectWatcher _ => fun r => match r with WatcherFailed _ => true | _ => false end
      | SRegister _ | SDone | SListen _ | SSetup _ => fun r => bool_decide (is_Some r)
      | SFatal _ _ | SServe _ _ _ _ | SSubscribeAll | SWatchCert => fun _ => false
      end r
  end.

Abbreviation sound := (all_good failed).
Abbreviation but_last := (good_but_last failed).

(** The program has ended with a message, after the request that failed if one did. *)
Definition died (t : list sevent) : Prop :=
  exists t' format e, t = t' ++ [ev (SFatal format e) tt] /\ but_last t'.

(** It has died in the migration, all of whose requests were answered. *)
Definition died_migrating (t : list sevent) : Prop :=
  sound t /\ exists e r, last t = Some (ev (SMigration e) r).

Definition ends {A : Type} (t : list sevent) (o : outcome A) : Prop :=
  match o with
  | Done (Ok _) => sound t
  | Done (Err _) => but_last t
  | Panicked => died t \/ died_migrating t
  | OutOfStack => False
  end.

(** An error that a part is given is one that it returns, or ends the process with. *)
Definition ending {A : Type} (p : sprog A) : Prop := forall t o, traces p t o -> ends t o.

Lemma ends_after {A : Type} (t1 t2 : list sevent) (o : outcome A) : sound t1 -> ends t2 o -> ends (t1 ++ t2) o.
Proof.
  intros H1. destruct o as [[a|e]| |]; simpl; [by apply all_good_app|by apply good_but_last_app| |done].
  intros [(t' & f & e & -> & Ht)|(Ht & e & r & Hl)]; [left|right].
  - exists (t1 ++ t'), f, e. rewrite <- app_assoc. split; [done|by apply good_but_last_app].
  - split; [by apply all_good_app|]. exists e, r. by rewrite last_app, Hl.
Qed.

Lemma ending_bind {A B : Type} (p : sprog A) (f : A -> sprog B) : ending p -> (forall a, ending (f a)) -> ending (nbind p f).
Proof.
  intros Hp Hf t o H. split_trace H t1 t2 o1 H1. apply Hp in H1.
  destruct o1 as [[a|e]| |]; [by eapply ends_after, Hf|by destruct H as [-> ->]; rewrite app_nil_r| |done].
  destruct H as [-> ->]. by rewrite app_nil_r.
Qed.

(** A request whose answer is no error. *)
Lemma ending_scall {A : Type} (e : seff F) (f : sresp e -> sprog A) :
  (forall r, failed (ev e r) = false) -> (forall r, ending (f r)) -> ending (pbind (scall e) f).
Proof. intros Hg Hf t o (r & t' & -> & H). apply (ends_after [_]); [by apply all_good_singleton|by eapply Hf]. Qed.

(** What makes no request. *)
Lemma ending_done {A : Type} (r : res A) : ending (done (E := seff F) (R := sresp) r).
Proof. intros t o [-> ->]. destruct r; [apply all_good_nil|apply good_but_last_good, all_good_nil]. Qed.

(** A request whose error is the result. *)
Lemma ending_call {A : Type} (e : seff F) (f : sresp e -> res A) :
  (forall r, failed (ev e r) = true -> is_ok (f r) = false) -> ending (pbind (scall e) (fun r => done (f r))).
Proof.
  intros Hf t o (r & t' & -> & [-> ->]). specialize (Hf r). simpl. destruct (f r) as [a|err].
  - apply all_good_singleton. destruct (failed (ev e r)); [by discriminate Hf|done].
  - apply good_but_last_singleton.
Qed.

Lemma ending_or_exit {A : Type} (format : string) (p : sprog A) : ending p -> ending (or_exit format p).
Proof.
  intros Hp t o H. unfold or_exit, catch in H. split_trace H t1 t2 o1 H1. split_trace H1 t3 t4 o2 H3. apply Hp in H3.
  destruct o2 as [[a|e]| |]; [| | |done]; destruct H1 as [-> ->]; rewrite app_nil_r; simpl in H.
  - destruct H as [-> ->]. by rewrite app_nil_r.
  - destruct H as ([] & t' & -> & [-> ->]). left. by exists t3, format, e.
  - destruct H as [-> ->]. by rewrite app_nil_r.
Qed.

Lemma ending_map_err {A : Type} (g : gerror -> gerror) (p : sprog A) : ending p -> ending (map_err g p).
Proof.
  intros Hp t o H. split_trace H t1 t2 o1 H1. apply Hp in H1.
  destruct o1 as [[a|e]| |]; destruct H as [-> ->]; by rewrite app_nil_r.
Qed.

(** *** The migration *)

(** What stops the loops of the migration with an error. *)
Definition stops (o : option (maypanic (option gerror))) : bool :=
  match o with Some (Returns (Some _)) => true | _ => false end.

Lemma clean_migrate_cr (project : string) gvr cr : clean mfailed stops (migrate_cr project gvr cr).
Proof.
  unfold migrate_cr. destruct (gmlookup _ _); [by apply clean_ret|]. destruct (cr_labels cr); [|by apply clean_ret].
  intros t o (r & t' & -> & [-> ->]). destruct r as [e|]; [apply good_but_last_singleton|by apply all_good_singleton].
Qed.

Lemma clean_migrate (project : string) gvr r : clean mfailed (fun o => stops (Some o)) (migrate project gvr r).
Proof.
  intros t o (l & t' & -> & H). cbn in H. destruct l as [items|e]; [|destruct H as [-> ->]; apply good_but_last_singleton].
  revert t' o H. apply clean_cons; [done|].
  apply clean_bind with (bad := stops); [apply clean_pfor_ret; [done|intros cr; apply clean_migrate_cr]| |].
  - intros [o|] Ho; by apply clean_ret.
  - intros [o|] t b Ho [-> ->]; [done|discriminate Ho].
Qed.

Lemma clean_migrate_all (project : string) gvr l : clean mfailed stops (migrate_all project gvr l).
Proof.
  unfold migrate_all. apply clean_pfor_ret; [done|]. intros r. eapply clean_bind; [apply clean_migrate| |].
  - intros [[e|]|] Ho; by apply clean_ret.
  - intros [[e|]|] t b Ho [-> ->]; try discriminate Ho; done.
Qed.

Lemma clean_run_migration (project : string) : clean mfailed (fun o => stops (Some o)) (run_migration project).
Proof.
  unfold run_migration, start. eapply clean_bind; [apply clean_migrate_all| |].
  - intros [o|] Ho; [by apply clean_ret|]. eapply clean_bind; [apply clean_migrate_all| |].
    + intros [o|] Ho'; by apply clean_ret.
    + intros [o|] t b Ho' [-> ->]; [done|discriminate Ho'].
  - intros [o|] t b Ho; [by intros [-> ->]|discriminate Ho].
Qed.

Definition as_request (x : mevent) : sevent := match x with existT e r => ev (SMigration e : seff F) r end.

Lemma failed_request x : failed (as_request x) = mfailed x.
Proof. by destruct x. Qed.

Lemma migration_map {A : Type} (p : mprog A) : forall t a,
  traces (migration_requests (F := F) p) t a -> exists t', t = map as_request t' /\ traces p t' a.
Proof.
  induction p as [b|e k IH]; intros t a; simpl; [intros [-> ->]; by exists []|].
  intros (r & t' & -> & H). apply IH in H as (u & -> & H). exists (ev (R := mresp) e r :: u). split; [done|]. eauto.
Qed.

Lemma ending_run_of (project : string) : ending (run_of (F := F) project).
Proof.
  intros t o H. unfold run_of in H. split_trace H t1 t2 o1 H1. apply migration_map in H1 as (u & -> & H1).
  pose proof (clean_run_migration project u o1 H1) as Hc.
  destruct o1 as [[e|]|]; destruct H as [-> ->]; rewrite app_nil_r; simpl in Hc |- *.
  - by apply (good_but_last_map mfailed failed), Hc; apply failed_request.
  - by apply (all_good_map mfailed failed), Hc; apply failed_request.
  - right. split; [by apply (all_good_map mfailed failed), Hc; apply failed_request|].
    assert (u <> []) as Hu by (intros ->; by destruct H1 as (? & ? & ? & _)).
    destruct u as [|x u _] using rev_ind; [done|]. rewrite map_app, last_app. destruct x as [e r]. by exists e, r.
Qed.

Ltac no_answer := intros ?; repeat case_match; done.

Ltac ending_step :=
  match goal with
  | |- ending (ok ?a) => apply (ending_done (Ok a))
  | |- ending (fail ?e) => apply (ending_done (Err e))
  | |- ending (done _) => apply ending_done
  | |- ending (or_exit _ _) => apply ending_or_exit
  | |- ending (map_err _ _) => apply ending_map_err
  | |- ending (rcall (if ?b then _ else _)) => destruct b
  | |- ending (rcall (scall _)) => apply ending_call; intros [?|?]; done
  | |- ending (ecall (scall _)) =>
      let r := fresh in intros ? ? (r & ? & -> & ?); destruct r;
      match goal with H : traces _ _ _ |- _ => destruct H as [-> ->] end;
      [apply good_but_last_singleton|by apply all_good_singleton]
  | |- ending (run_of _) => apply ending_run_of
  | |- ending (nbind _ _) => apply ending_bind; [|intros ?]
  | |- ending (pbind (scall _) _) => apply ending_scall; [done|intros ?]
  | |- ending (if ?b then _ else _) => destruct b
  | |- ending (match ?x with _ => _ end) => destruct x
  end.

Lemma ending_watcher : ending (setupConfigADMWatcherConfig (F := F)).
Proof.
  intros t o (r & t' & -> & H). destruct r; destruct H as [-> ->];
    [by apply all_good_singleton..|apply good_but_last_singleton].
Qed.

Lemma ending_create_service (kubeconfig : string) (opaClient : option nat) :
  ending (create_service lookupenv num_error ParseFloat32 kubeconfig opaClient).
Proof.
  unfold create_service, CreateClient, NewBundleClient, k8sclient_NewClient, CreateRestConfig, NewCatalogClient,
    NewVaultAuth, NewDeployment. repeat ending_step.
Qed.

Lemma ending_Start (port : Z) (kubeconfig : string) : ending (Start port kubeconfig).
Proof.
  unfold Startup.Start, opa_client, migrate_project, Subscribe. cbv zeta.
  repeat first [ending_step | apply ending_watcher | apply ending_create_service].
Qed.

(** What a service cannot be made without. *)
Lemma service_configured (kubeconfig : string) (opaClient : option nat) (t : list sevent) (s : service) :
  traces (create_service lookupenv num_error ParseFloat32 kubeconfig opaClient) t (Done (Ok s)) ->
  is_ok (GetRateLimiterParams lookupenv num_error ParseFloat32) = true /\ is_Some (lookupenv "CATALOG_SERVICE_ADDRESS").
Proof.
  unfold create_service. intros H. apply nbind_ok in H as (t1 & ? & ? & -> & H1 & H).
  do 2 apply nbind_ok in H as (? & ? & ? & -> & _ & H). apply nbind_ok in H as (t4 & ? & ? & -> & H4 & _).
  split.
  - apply or_exit_ok, nbind_ok in H1 as (ta & tb & c & -> & _ & H1). apply nbind_ok in H1 as (tc & td & l & -> & H1 & _).
    apply done_ok_trace in H1 as [_ ->]. done.
  - apply or_exit_ok in H4. unfold NewCatalogClient in H4. destruct (lookupenv "CATALOG_SERVICE_ADDRESS"); [done|].
    by destruct H4 as [_ [=]].
Qed.

Definition configured : Prop :=
  is_ok (GetMessageSizeLimit lookupenv num_error) = true /\
  is_ok (GetRateLimiterParams lookupenv num_error ParseFloat32) = true /\
  is_Some (lookupenv "CATALOG_SERVICE_ADDRESS") /\
  (AuthorizationEnabled security && IsOPAEnabled lookupenv = true -> is_ok (port_of num_error (env "OPA_PORT")) = true).

Lemma Start_served (port : Z) (kubeconfig : string) (t : list sevent) :
  traces (Start port kubeconfig) t (Done (Ok tt)) ->
  (exists sec s limit, requested t (SServe port sec s limit)) /\ ev (SDone : seff F) None ∈ t /\ configured.
Proof.
  unfold Startup.Start. cbv zeta. intros H. apply nbind_ok in H as (t1 & ? & ? & -> & H1 & H).
  apply nbind_ok in H as (? & ? & ? & -> & _ & H). apply nbind_ok in H as (t3 & ? & ? & -> & H3 & H).
  apply nbind_ok in H as (t4 & ? & ? & -> & H4 & H).
  destruct H as ([] & t' & -> & H). apply nbind_ok in H as (t5 & t6 & ? & -> & _ & H).
  destruct H as (r & t7 & -> & H). destruct r; [by destruct H as [_ [=]]|].
  apply service_configured in H3 as [Hr Hc]. apply or_exit_ok, done_ok_trace in H4 as [_ H4]. unfold configured. split_and!; try done.
  - eexists _, _, _. rewrite !requested_app, requested_cons. tauto.
  - set_solver.
  - by rewrite H4.
  - intros Ho. rewrite Ho in H1. apply nbind_ok in H1 as (? & ? & c & -> & H1 & _).
    apply nbind_ok in H1 as (? & ? & p & -> & H1 & _). apply or_exit_ok, done_ok_trace in H1 as [_ H1]. by rewrite H1.
Qed.

(** C31: No error is lost when the deployment manager starts: whatever request is
    answered with an error (a client, the migration, a watcher or a callback of
    the tenants, the server), nothing follows but the message that ends the process. The
    program either goes on, and then no request has failed, it has served, the
    server has reported that it is ready, and the size limit, the rate limits,
    the address of the catalog and, if there is authorization with OPA, the port of OPA
    could be read; or its
    last action is to end the process with a message; or it dies in the
    migration, whose objects may have no labels, although no request failed.  It never goes on with an error. *)
Theorem start_errors (port : Z) (kubeconfig : string) (t : list sevent) (o : outcome unit) :
  traces (Run port kubeconfig) t o ->
  (forall t1 x t2, t = t1 ++ x :: t2 -> failed x = true -> exists format e, t2 = [ev (SFatal format e) tt]) /\
  match o with
  | Done (Ok _) =>
      (forall x, x ∈ t -> failed x = false) /\ (exists sec s limit, requested t (SServe port sec s limit)) /\
      ev (SDone : seff F) None ∈ t /\ configured
  | Panicked => (exists t' format e, t = t' ++ [ev (SFatal format e) tt]) \/ died_migrating t
  | Done (Err _) | OutOfStack => False
  end.
Proof.
  unfold Startup.Run. intros H. pose proof (ending_or_exit _ _ (ending_Start port kubeconfig) t o H) as He.
  assert (match o with Done (Err _) | OutOfStack => False | _ => True end) as Ho.
  { unfold or_exit, catch in H. split_trace H t1 t2 o1 H1. split_trace H1 t3 t4 o2 H3.
    destruct o2 as [[[]|e]| |]; destruct H1 as [-> ->]; simpl in H;
      first [by destruct H as [_ ->]|by destruct H as ([] & t' & -> & [_ ->])|done]. }
  split.
  - intros t1 x t2 -> Hx. destruct o as [[[]|e]| |]; [|done| |done]; simpl in He.
    + by apply all_good_elem in He; rewrite He in Hx.
    + destruct He as [(t' & format & e & Heq & Ht)|[Ht _]]; [|by apply all_good_elem in Ht; rewrite Ht in Hx].
      exists format, e. by apply (good_but_last_end failed t' (ev (SFatal format e) tt) t1 x t2).
  - destruct o as [[[]|e]| |]; try done.
    + split; [by apply Forall_forall|]. by eapply Start_served, or_exit_ok.
    + destruct He as [(t' & f & e & -> & _)|He]; [left; eauto|by right].
Qed.

(** The resource manager has a client of OPA exactly if there is an OIDC server
    and OPA is enabled. *)
Lemma arm_start_guarded (port port' : Z) (configPath : string) (t : list sevent) (o : outcome unit)
    (sec : SecurityConfig) (s : service) (limit : Z) :
  traces (Arm.Start lookupenv num_error insecure port configPath) t o -> requested t (SServe port' sec s limit) ->
  port' = port /\ Arm.GetMessageSizeLimit lookupenv num_error = Ok limit /\ sec = security /\
  (if negb (bool_decide (env "OIDC_SERVER_URL" = "")) && IsOPAEnabled lookupenv then opa_made t (svc_opa s) else svc_opa s = None).
Proof.
  unfold Arm.Start, Arm.startNorthboundServer. intros H Hr.
  apply (silent_request _ _ _ _ (SServe port' sec s limit) (serve_loud _ _ _ _)) in H as (t1 & t2 & opa & -> & H1 & H & Hr1);
    [|unfold Arm.NewOPAClient; repeat silent_step|exact Hr].
  apply (silent_request _ _ _ _ (SServe port' sec s limit) (serve_loud _ _ _ _)) in H as (t3 & t4 & adm & -> & H3 & H & Hr3);
    [|unfold Arm.NewClient; repeat silent_step|exact Hr1].
  cbv zeta in H.
  apply (silent_request _ _ _ _ (SServe port' sec s limit) (serve_loud _ _ _ _)) in H as (t5 & t6 & lim & -> & H5 & H & Hr5); [|apply silent_done|exact Hr3].
  apply (serve_request _ _ _ _ port' sec s limit) in H as (-> & -> & -> & ->); [|intros ?; repeat silent_step|exact Hr5].
  apply done_ok_trace in H5 as [_ H5]. split_and!; [done|done|done|]. simpl.
  unfold Arm.NewOPAClient, security_of in *. destruct (decide (env "OIDC_SERVER_URL" = "")) as [Ho|Ho].
  - rewrite bool_decide_true in H1 by done. rewrite (bool_decide_true (env _ = "")) by done.
    destruct H1 as [_ [= ->]]. simpl. by destruct (AuthorizationEnabled _).
  - rewrite (bool_decide_false (env _ = "")) in H1 |- * by done. rewrite bool_decide_true by done. simpl in *.
    destruct (IsOPAEnabled lookupenv); simpl in *; [|by destruct H1 as [_ [= ->]]].
    apply nbind_ok in H1 as (ta & tb & p & -> & H1 & H2). apply nbind_ok in H2 as (tc & td & c & -> & H2 & H4).
    destruct H4 as [-> [= ->]]. eapply opa_made_mono; [|by eapply opa_made_trace]. set_solver.
Qed.

(** *** The controllers *)

Lemma ecall_trace (what : string) (t : list sevent) :
  traces (Ctl.setup what) t (Done (Ok tt)) -> ev (SSetup what : seff F) None ∈ t.
Proof. intros ([e|] & t' & -> & [_ H]); [done|left]. Qed.

Lemma setup_trace (format what : string) (t : list sevent) :
  traces (or_exit format (Ctl.setup what)) t (Done (Ok tt)) -> ev (SSetup what : seff F) None ∈ t.
Proof. intros H. by apply or_exit_ok, ecall_trace in H. Qed.

Lemma map_err_ok {A : Type} (g : gerror -> gerror) (p : sprog A) (t : list sevent) (a : A) :
  traces (map_err g p) t (Done (Ok a)) -> traces p t (Done (Ok a)).
Proof.
  intros H. split_trace H t1 t2 o H1. destruct o as [[a'|e]| |]; destruct H as [-> H]; try done.
  injection H as ->. by rewrite app_nil_r.
Qed.

(** The set-ups of a list are all in a trace. *)
Definition all_set_up (t : list sevent) (l : list string) : Prop := Forall (fun what => ev (SSetup what : seff F) None ∈ t) l.

Lemma all_set_up_mono (t t' : list sevent) (l : list string) : t ⊆ t' -> all_set_up t l -> all_set_up t' l.
Proof. intros Hs H. eapply Forall_impl; [exact H|]. intros what. apply Hs. Qed.

Lemma setup_deployment_trace (t : list sevent) (d : Ctl.Deployer) :
  traces (Ctl.setup_deployment lookupenv) t (Done (Ok d)) ->
  all_set_up t ["index GitRepo owner"; "index Job owner"; "Deployment"] /\
  GetFleetGitPollingInterval lookupenv = Ok (Ctl.fleetGitPollingInterval d) /\ Ctl.deleteGitRepo d = Ctl.deletes_repo lookupenv.
Proof.
  unfold Ctl.setup_deployment. intros H.
  apply nbind_ok in H as (t1 & u1 & c & -> & _ & H). apply nbind_ok in H as (t2 & u2 & v & -> & _ & H).
  apply nbind_ok in H as (t3 & u3 & i & -> & H3 & H). apply nbind_ok in H as (t4 & u4 & [] & -> & H4 & H).
  apply nbind_ok in H as (t5 & u5 & [] & -> & H5 & H). apply nbind_ok in H as (t6 & u6 & [] & -> & H6 & H).
  apply nbind_ok in H as (t7 & u7 & cfg & -> & _ & H). apply nbind_ok in H as (t8 & u8 & n & -> & _ & [_ [= ->]]).
  apply done_ok_trace in H3 as [_ H3]. apply map_err_ok in H6.
  apply ecall_trace in H4, H5, H6. split_and!; [|done|done]. repeat constructor; set_solver.
Qed.

Lemma start_loud : ~ quiet (SSetup "start").
Proof. intros H. by apply H. Qed.

(** The next part of [main], which starts nothing. *)
Ltac next H Hr t1 a H1 :=
  let Hr' := fresh Hr in
  apply (silent_request _ _ _ _ _ start_loud) in H as (t1 & ? & a & -> & H1 & H & Hr');
  [clear Hr; rename Hr' into Hr
  |unfold Ctl.setup_deployment, Ctl.setup_webhook, Ctl.setup_deploymentcluster, Ctl.setup_cluster, NewCatalogClient, NewVaultAuth; cbv zeta; repeat silent_step
  |exact Hr].

(** The manager of the controllers runs only after each of its parts is set up
    and the certificate is watched; it has the controller of the Cluster API
    if the environment says so. *)
Lemma controllers_ready (t : list sevent) (o : outcome unit) :
  traces (Ctl.main lookupenv num_error) t o -> requested t (SSetup "start") ->
  requested t SWatchCert /\
  all_set_up t ["manager"; "index GitRepo owner"; "index Job owner"; "Deployment"; "DeploymentCluster"; "Cluster";
                "healthz"; "readyz"; "/status"; "/measure"] /\
  exists interval capi, GetFleetGitPollingInterval lookupenv = Ok interval /\ GetCAPIEnabled lookupenv = Ok capi /\
    (capi = "true" -> ev (SSetup "Cluster API" : seff F) None ∈ t).
Proof.
  unfold Ctl.main. intros H Hr.
  next H Hr t1 x1 H1. next H Hr t2 d H2. destruct H as ([] & u & -> & H).
  apply requested_cons in Hr as [Hr|Hr]; [discriminate Hr|].
  next H Hr t3 b H3. next H Hr t4 x4 H4. next H Hr t5 x5 H5. next H Hr t6 capi H6. next H Hr t7 x7 H7. next H Hr t8 x8 H8.
  next H Hr t9 x9 H9. next H Hr t10 x10 H10. next H Hr t11 x11 H11. clear H Hr.
  destruct x1, x4, x7, x8, x9, x10, x11. apply setup_trace in H1, H8, H9, H10, H11.
  apply or_exit_ok, setup_deployment_trace in H2 as (H2 & Hi & _).
  apply or_exit_ok, nbind_ok in H4 as (ta & tb & [] & -> & _ & H4). apply ecall_trace in H4.
  apply or_exit_ok, nbind_ok in H5 as (tc & td & [] & -> & H5 & _). apply ecall_trace in H5.
  apply or_exit_ok, done_ok_trace in H6 as [_ H6]. split_and!.
  - exists tt. set_solver.
  - apply Forall_cons in H2 as [Ha H2]. apply Forall_cons in H2 as [Hb H2]. apply Forall_cons in H2 as [Hc _].
    repeat constructor; set_solver.
  - exists (Ctl.fleetGitPollingInterval d), capi. split_and!; [done|done|]. intros ->.
    rewrite bool_decide_true in H7 by done. apply setup_trace in H7. set_solver.
Qed.

(** *** Without a client, the service proxy does not listen, and reports nothing *)

Lemma proxy_silent (a : Asp.Server) (t : list sevent) (e : gerror) :
  traces (Asp.NewClient lookupenv num_error ParseFloat32) t (Done (Err e)) ->
  traces (Asp.Run lookupenv num_error ParseFloat32 a) t (Done (Ok tt)).
Proof.
  intros H. unfold Asp.Run. apply traces_bind. exists t, [], (Done (Ok (Err e))). rewrite app_nil_r. split_and!; [done| |done].
  apply traces_bind. exists t, [], (Done (Err e)). rewrite app_nil_r. done.
Qed.

(** *** The limits on sizes

    Both services read [MSG_SIZE_LIMIT]; the proxy's limit is a shift. *)

Lemma shiftl_mb (mb : Z) : Z.shiftl mb 20 = mb * 2^20.
Proof. apply Z.shiftl_mul_pow2. lia. Qed.

(** C34: The three programs read a number of megabytes alike, as a product that
    wraps around at 64 bits: it is the number of bytes exactly if that fits.  Only
    the deployment manager refuses a product that is negative, so the resource
    manager serves with a negative limit, and none of them refuses one that
    wraps around to a smaller limit. *)
Theorem size_limits (s : string) (mb : Z) :
  lookupenv "MSG_SIZE_LIMIT" = Some s -> parse_int64 s = Some mb ->
  exists bytes, -2^63 <= bytes < 2^63 /\ (bytes = mb * 2^20 <-> -2^43 <= mb < 2^43) /\ bytes `mod` 2^64 = (mb * 2^20) `mod` 2^64 /\
    Arm.GetMessageSizeLimit lookupenv num_error = Ok bytes /\
    AspServer.maxBodySizeBytesLimit s = bytes /\
    (GetMessageSizeLimit lookupenv num_error = Ok bytes <-> 0 <= bytes) /\
    (bytes < 0 -> is_ok (GetMessageSizeLimit lookupenv num_error) = false).
Proof.
  intros Hs Hmb. exists (wrap64 (mb * 2^20)). pose proof (wrap64_range (mb * 2^20)) as Hr.
  assert (Hp : wrap64 (wrap64 (mb * 1024) * 1024) = wrap64 (mb * 2^20)) by (rewrite wrap64_mul; f_equal; lia).
  split_and!; [lia|lia| | | | | |].
  - split; [intros H; lia|]. intros H. apply wrap64_small. lia.
  - unfold wrap64. rewrite Zminus_mod_idemp_l. f_equal. lia.
  - unfold Arm.GetMessageSizeLimit, Startup.env, getenv. rewrite Hs. simpl. by rewrite Hmb, Hp.
  - unfold AspServer.maxBodySizeBytesLimit. by rewrite Hmb, shiftl_mb.
  - unfold GetMessageSizeLimit. rewrite Hs, Hmb. cbv zeta. rewrite Hp.
    destruct (Z.ltb_spec (wrap64 (mb * 2^20)) 0); split; try done; lia.
  - intros Hn. unfold GetMessageSizeLimit. rewrite Hs, Hmb. cbv zeta. rewrite Hp.
    by rewrite (proj2 (Z.ltb_lt _ _)) by lia.
Qed.

End Facts.

(** *** Waiting for the server *)

Definition waiting_ok (s : ready) : Prop :=
  (r_start s = WReturned None -> r_closed s = true) /\
  (forall e, r_start s = WReturned (Some e) -> r_closed s = false /\ r_server s = GFinished) /\
  (r_panicked s = true -> r_closed s = true) /\
  (r_server s = GServing true -> r_closed s = true) /\ (r_server s = GServing false -> r_closed s = false).

Lemma rstep_ok (s s' : ready) : rstep s s' -> waiting_ok s -> waiting_ok s'.
Proof.
  intros Hs (H1 & H2 & H3 & H4 & H5). unfold ended in *.
  destruct Hs as [s Hd Hg|s b e Hd Hg|s b Hd Hg|s e Hd Hg Hc|s e Hd Hg Hc Hw|s Hd Hw|s Hd Hw|s Hd Hw Hc];
    unfold waiting_ok; simpl; split_and!;
    try (intros e' He'; first [congruence | destruct (H2 _ He'); congruence | by split]);
    try (intros HF; first [congruence | by auto | by left; auto | right; by eexists | pose proof (H5 HF); congruence]).
Qed.

Lemma waiting_reached (s : ready) : rtc rstep serving s -> waiting_ok s.
Proof.
  revert s. apply rtc_ind_r; [|intros s s' _ Hs; by apply rstep_ok].
  split_and!; done.
Qed.



(** ** A start *)

Section Samples.

Definition sample_env (k : string) : option string :=
  if bool_decide (k = "OIDC_SERVER_URL") then Some "https://keycloak"
  else if bool_decide (k = "OPA_ENABLED") then Some "true"
  else if bool_decide (k = "OPA_PORT") then Some "8181"
  else if bool_decide (k = "MT_UPGRADE_PROJECT_ID") then Some "project-1"
  else if bool_decide (k = "RATE_LIMITER_BURST") then Some "100"
  else if bool_decide (k = "CATALOG_SERVICE_ADDRESS") then Some "catalog:8080"
  else if bool_decide (k = "MSG_SIZE_LIMIT") then Some "4"
  else None.

Definition number_error (f s : string) : gerror := errorf (f +:+ s).

(** Everything works, one deployment has no project. *)
Definition sample_handler : handler (seff unit) sresp unit := fun e w =>
  (match e return sresp e with
   | SFatal _ _ | SServe _ _ _ _ | SSubscribeAll | SWatchCert => tt
   | SInClusterConfig => Ok 1%nat
   | SBuildConfigFromFlags _ _ => Ok 2%nat
   | SNewForConfig _ _ => Ok 3%nat
   | SNewOPAClient _ => Ok 4%nat
   | SDial _ => Ok 5%nat
   | SNewValidator => Ok 6%nat
   | SNewVaultAuth _ _ _ => Ok 7%nat
   | SReadConfig _ => Ok "adm:8080"
   | SMigration e =>
       match e return mresp e with
       | MList gvr => Ok (if bool_decide (gvr_resource gvr = "deployments") then [mkCR "ns" "d1" (Some ∅)] else [])
       | MUpdate _ _ _ => None
       end
   | SAddProjectWatcher _ => WatcherExists
   | SRegister _ | SDone | SListen _ | SSetup _ => None
   end, w).

Definition sample_start : list (event (seff unit) sresp) :=
  (run_log sample_handler tt (Start sample_env number_error (fun _ => Ok tt) (mkSecurity false false) 8080 "")).2.

Definition sample_run : list (event (seff unit) sresp) :=
  (run_log sample_handler tt (Run sample_env number_error (fun _ => Ok tt) (mkSecurity false false) 8080 "")).2.

Abbreviation sample f := (f unit sample_env number_error (fun _ => Ok tt) (mkSecurity false false) 8080 "").

Lemma sample_start_ok : traces (sample (@Start)) sample_start (Done (Ok tt)).
Proof.
  assert ((run_log sample_handler tt (sample (@Start))).1.1 = Done (Ok tt)) as <- by (vm_compute; reflexivity).
  apply run_log_traces.
Qed.

Lemma sample_run_ok : traces (sample (@Run)) sample_run (Done (Ok tt)).
Proof.
  assert ((run_log sample_handler tt (sample (@Run))).1.1 = Done (Ok tt)) as <- by (vm_compute; reflexivity).
  apply run_log_traces.
Qed.

Lemma sample_serves : requested sample_start (SServe 8080 (mkSecurity true true) (DeploymentSvc 3 (Some 4%nat) 3 3 5 7 6) 4194304).
Proof. exists tt. vm_compute. repeat (first [by left | right]). Qed.

Lemma start_guarded_witness :
  opa_made (F := unit) sample_env sample_start (Some 4%nat) /\
  all_migrated "project-1" (migration_events sample_start).
Proof.
  destruct (start_guarded sample_env number_error (fun _ => Ok tt) (mkSecurity false false) 8080 8080 ""
              sample_start (Done (Ok tt)) _ _ _ sample_start_ok sample_serves) as (_ & _ & _ & Ho & Hm).
  split; [exact Ho|]. apply Hm. discriminate.
Defined.

Lemma start_errors_witness : ev (R := sresp) (SDone (F := unit)) None ∈ sample_run.
Proof.
  exact (proj1 (proj2 (proj2 (proj2 (start_errors sample_env number_error (fun _ => Ok tt) (mkSecurity false false) 8080 "" sample_run (Done (Ok tt)) sample_run_ok))))).
Defined.

(** A limit of 2^43 MB: the resource manager's is negative. *)
Lemma size_limits_witness :
  exists bytes, Arm.GetMessageSizeLimit (fun _ => Some "8796093022208") number_error = Ok bytes /\ bytes <> 8796093022208 * 2^20.
Proof.
  destruct (size_limits (fun _ => Some "8796093022208") number_error "8796093022208" 8796093022208 eq_refl
              ltac:(vm_compute; reflexivity)) as (bytes & _ & Hb & _ & Ha & _).
  exists bytes. split; [exact Ha|]. intros He. apply Hb in He. lia.
Defined.

End Samples.
